(* ===== verification/_CoqProject ===== *)
-Q . S2P
Prelude.v
Addr.v
Http.v
Net.v
Interfaces.v
Globals.v
Config.v
Task.v
TaskFacts.v
Worker.v
Aggregate.v
Carbon.v
Util.v
Server.v
Udp.v
Management.v
Hostname.v
Consensus.v
RaftStart.v
Consul.v
Peer.v
Cluster.v
Cli.v
Main.v
Daemon.v
Queue.v
Node.v
NodeStream.v
NodeReplies.v
NodeLedger.v
NodeCarbon.v
NodeOutput.v
NodeRest.v
Control.v
System.v
Tests.v
Witnesses.v
NodeWitnesses.v
