(* ===== verification/Prelude.v ===== *)
(** * Bioyino: a verification development

    Bioyino is a metric aggregator that speaks the StatsD protocol and can run as
    a cluster.  This library models the Rust sources under [src/src/] as Rocq
    functions and proves what makes them correct.

    ** The program and the files of the library

    Datagrams come in through the asynchronous listeners of [server.rs] or the
    batch receivers of [udp.rs], which gather the bytes of each sender and hand
    them to the counting threads ([task.rs]).  A counting thread parses them into
    its short cache.  Every snapshot interval the short caches are taken, merged
    into the long caches, and sent to the other nodes ([peer.rs]), whose counting
    threads add them to their long caches only.  Every carbon interval the long
    caches are rotated out and joined ([aggregate.rs]); on the leader the joined
    metrics are formatted and sent to carbon ([carbon.rs]) by clients that retry
    ([util.rs]), on the other nodes they are thrown away.  Who is leader is
    decided by an internal Raft ([raft.rs]), by a consul lock ([consul.rs]) or by
    hand over HTTP ([management.rs]).  [main.rs] starts all this from the
    configuration ([config.rs]).

    - [Prelude]: octets, machine integers, panics, loops with effects, automation
      and generic lemmas.
    - [Addr], [Http], [Net]: what the program uses of the standard library and of
      HTTP and socket crates: the text of socket addresses (parsed and printed as
      [std::net] does), URIs and requests, and file descriptors with their owners.
      [Net] holds the sockets of [util.rs], [udp.rs] and [raft.rs].
    - [Interfaces]: code of other crates as classes: [BytesMut] ([BytesLib]), the
      metric type ([MetricLib]) and its parser ([ParserLib]), the executor
      ([ExecutorLib]), interval timers ([TimerLib]), the order of a [HashMap]
      ([HashIter]); the [Prop] classes
      hold the documented behaviour the program relies on, and the [Ref]
      instances satisfy them.
    - [Globals]: the counters, [IS_LEADER] and [CONSENSUS_STATE] of [main.rs], and
      the effects by which components reach each other.
    - [Config]: the records of [config.rs] with their defaults.
    - [Task], [TaskFacts], [Worker]: [TaskRunner] of [task.rs]; [run] is
      [TaskRunner::run], [run_all] the fold of a counting thread.
    - [Aggregate]: [Aggregator] of [aggregate.rs]; [Aggregator_run] is its future.
    - [Carbon]: [CarbonBackend], [SharedIter] and [CarbonCodec] of [carbon.rs].
    - [Util]: [switch_leader], [OwnStats] and [BackoffRetry] of [util.rs].
    - [Server], [Udp]: [StatsdServer] of [server.rs] ([on_datagram] is one turn of
      its future, [serve] a sequence of events) and the threads of [udp.rs]
      ([on_batch] is one turn of the loop of [start_sync_udp], [mudp_run] the loop).
    - [Management]: the HTTP service and client of [management.rs].
    - [Hostname]: [get_hostname] of [util.rs], with C strings, lossy UTF-8 and which
      bytes are UTF-8.
    - [Consensus]: [LeaderNotifier] and the node table of [raft.rs], sequences of
      role changes and commands, and a step relation for the single reads and
      writes of the leadership state.
    - [RaftStart]: [start_internal_raft], the raft thread of [main.rs], and the lock of
      [CONSENSUS_STATE] it holds meanwhile, which a panic poisons.
    - [Consul]: the three requests of [consul.rs] and the loop as a state machine
      over the answers of the agent, timers, pauses and commands.
    - [Peer]: the snapshot sender and receiver of [peer.rs].
    - [Cluster]: several nodes that replicate to each other, with a ledger of what
      came in and went out.
    - [Cli]: [System::load] and [try_resolve].
    - [Main]: the options and the carbon tick of [main.rs].
    - [Daemon]: the rest of [main]: a management query from the command line,
      start-up with its panics and sockets, and the carbon timer.
    - [Queue]: the channels of the [futures] crate between threads, and how the source
      sends through them.
    - [Node]: a running node: everything [main] starts, as a transition system with
      one event per step of a listener, receive thread, timer, executor, counting
      thread or carbon thread ([node_step]); a sequence of events is an interleaving
      ([node_run]).  [NodeStream] follows a sender's bytes through it, [NodeReplies]
      the reply channels, [NodeLedger] the metrics, [NodeCarbon] the carbon threads,
      [NodeOutput] what becomes of the caches they rotate out, and [NodeRest] shows
      that the work of a node comes to an end.
    - [Control]: a running node with its leadership state: the raft thread that enables
      the consensus after its start delay, leader switches and commands, each in single
      accesses that everything else interleaves ([control_step], [control_run]).
    - [System]: a cluster of running nodes and the snapshot clients between them
      ([sys_step], [sys_run]): attempts that arrive or not and are reported as
      successful or not, pauses and retries.
    - [Tests]: the tests of [management.rs] and [peer.rs] as programs on the model, which
      pass.
    - [Witnesses], [NodeWitnesses]: concrete nodes on which the theorems apply.

    ** Conventions

    Fallible code returns [option]: [None] is a panic of the running thread, error
    values are values of sums.  Effects on the rest of the process (counters,
    replies, messages, tasks) are returned as lists in the order they happen; the
    answers of the environment (replies of workers, outcomes of connections,
    answers of timers and agents) are arguments, so a theorem speaks of all of
    them.  A [usize] or [u64] is a [Z]; where the code adds to one without a bound
    the model wraps at 2^64 ([wrap64]), as the release build does.  Floats are the
    IEEE formats of [SpecFloat].  A [HashMap] is a [gmap]; where the code iterates
    over one, the model uses [hiter], of which only the multiset of entries is
    known, so that no theorem depends on an order.

    ** What the theorems show

    - A running node, under every interleaving of its threads, timers and executors:
      each counting thread is one sequential runner over exactly the tasks sent to it
      ([node_workers_sequential]); a sender's bytes reach its worker in order, as long
      as its listener gets no empty datagram and polls its sends in turn
      ([node_keeps_stream]); nothing is lost or invented on the way to the peers and
      the carbon threads ([node_conserves_metrics]); a carbon thread delivers what it
      joined from all workers ([carbon_threads_deliver]); and the work ends, with
      nothing left over ([node_settles]).
    - A cluster of running nodes, under every interleaving with its snapshot clients:
      everything that entered anywhere is, on every node, exactly once in a cache whose
      values its carbon clients carry, thrown away, lost in a panic, under way or
      stored, or it has not reached the node for a reason that the theorem names
      ([cluster_delivers]); and every client ends ([clients_end]).
    - The queues: cloning a sender for each send makes their size bound nothing
      ([queue_size_bounds_nothing]).
    - Counting: a worker never panics ([worker_never_panics]); no metric is lost or
      duplicated between the caches ([worker_conserves_metrics]); whatever aggregation
      preserves holds of all the caches ever hold ([worker_well_typed]); received
      snapshots are never sent on ([snapshots_not_replicated]); an idle buffer lives
      four rotations ([buffer_life_time]).
    - Input: the bytes a sender sent are the bytes its parser receives, in order,
      for both receivers ([listener_reassembles_streams],
      [mudp_reassembles_streams]), with bounded buffering; an empty datagram ends a
      listener.
    - Replication: the receiver's long cache becomes the merge of the sender's short
      caches, without the metrics whose names are not UTF-8, which do not survive the
      message ([snapshot_replicated]; the ledgers of clusters have them as skipped); a
      cluster of any size accounts for every metric
      on every node under any interleaving and any lost deliveries
      ([cluster_loses_nothing]), and a round of snapshots brings everything to every
      node ([replication_converges]); what a lost reply and a broken message lead to.
    - Output: the common mode computes the values of the single mode
      ([common_mode_equals_single]); carbon clients write a decodable text
      ([carbon_round_trip]); the tick of a leader delivers every value through clients
      that retry ([leader_tick_delivers]); the cases in which it panics.
    - Retrying stops after the configured attempts with constant pauses
      ([retry_bounded]).
    - Leadership: the flag follows Raft while enabled; outside the enabled state only
      commands change it, and all carbon ticks of the node obey it, until the raft
      thread's start delay ends, which enables the consensus
      ([commands_rule_paused_nodes]); commands work from the command line to the node
      ([cli_query_reaches_node]); what a failed start of Raft does to the lock
      ([raft_start_and_the_lock]); the consul loop never panics, locks only with its own
      sessions and recovers from every state ([consul_uses_granted_sessions],
      [consul_recovers]); stale flags, the race of the leader switch, and the loss of
      the consul agent.
    - The process: when start-up succeeds ([start_succeeds]), the life of the carbon
      timer ([carbon_timer_life]), the descriptors it owns ([sockets_owned],
      [udp_descriptors], [conn_hook_closes_socket]), how addresses resolve
      ([try_resolve_addresses]), and that update counters never rewrite metrics.

    ** Fuel

    [drain_iter] is called with one more step than the vector has elements, which
    is when [SharedIter] answers [None] first; [chunks_of] with the length of the
    list, since every chunk takes at least one element; [digits] with 20, the number
    of decimal digits of a [u64].  All are proved to be enough ([drain_iter_from],
    [chunks_of_concat], [digits_value]).  All other loops are structural
    on the events, tasks or entries they consume.

    ** What is not modelled

    Logging; the wire formats of capnp, JSON and toml and the HTTP, TCP and UDP
    layers (parameters with their laws where a theorem needs them); in [Cluster] a
    delivery between nodes arrives once or not at all, while [System] also has those
    that arrive although they were reported as failed; the parser and the statistics
    of the metric crate (parameters).  In [Node] a value that a worker formats reaches
    the unbounded backend channel in the same step, a carbon thread that panics in
    [Separate] mode leaves no counts behind, and a panic stops only the step it
    happens in; the leader flag changes by events, for which [Control] puts the
    operations that [Consensus], [Consul] and [Management] model.  The Raft
    protocol itself is a library; [bigint.rs] is commented out as a whole; [build.rs]
    only generates version information.
    Out-of-memory and the overflow of the sum of lengths passed to [reserve] are not
    considered. *)

From Stdlib Require Export ZArith Lia SpecFloat.
From stdpp Require Export base gmap strings list fin_maps pretty numbers.

#[global] Open Scope Z_scope.

(** ** Byte strings

    [Bytes], [String] and [&str] are sequences of octets; an octet is a Rocq
    [ascii]. *)

Abbreviation bytes := (list Ascii.ascii).

(** [b"..."] literals. *)
Definition bs (s : string) : bytes := String.list_ascii_of_string s.

Definition ascii_LF : Ascii.ascii := Ascii.ascii_of_nat 10.
Definition ascii_SP : Ascii.ascii := Ascii.ascii_of_nat 32.

(** [len()] of a slice, as a [usize]. *)
Definition blen {A} (l : list A) : Z := Z.of_nat (length l).

(** ** Machine integers: a [usize]/[u64] is a [Z] in [[0, 2^64)]; the release
    build (the crate's Cargo.toml sets no profile) wraps on overflow. *)
Definition wrap64 (z : Z) : Z := z `mod` 2 ^ 64.
Definition wrap32 (z : Z) : Z := z `mod` 2 ^ 32.
Definition u64_max : Z := 2 ^ 64 - 1.

(** ** Floating point: IEEE-754 binary32 and binary64 as in
    [Corelib.Floats.SpecFloat]. *)
Abbreviation Float := spec_float.

(** [z as f64] and [z as f32] for an unsigned integer. *)
Definition u64_to_f64 (z : Z) : spec_float := binary_normalize 53 1024 z 0 false.
Definition u64_to_f32 (z : Z) : spec_float := binary_normalize 24 128 z 0 false.

Definition f32_mul (x y : spec_float) : spec_float := SFmul 24 128 x y.
Definition f32_le (x y : spec_float) : bool := SFleb x y.

(** [x as u64]: truncation toward zero, saturating, NaN to 0. *)
Definition f32_to_u64 (x : spec_float) : Z :=
  match x with
  | S754_zero _ | S754_nan => 0
  | S754_infinity s => if s then 0 else u64_max
  | S754_finite s m e =>
      if s then 0 else Z.min u64_max (Z.shiftl (Zpos m) e)
  end.

(** ** Addresses and durations of [std] *)
Inductive SocketAddr :=
| V4 (a b c d : Z) (port : Z)
| V6 (ip : Z) (port : Z).

#[export] Instance SocketAddr_eq_dec : EqDecision SocketAddr.
Proof. solve_decision. Defined.

#[export] Instance SocketAddr_countable : Countable SocketAddr.
Proof.
  refine (inj_countable'
    (fun a => match a with
              | V4 a b c d p => inl (a, b, c, d, p)
              | V6 i p => inr (i, p) end)
    (fun x => match x with
              | inl (a, b, c, d, p) => V4 a b c d p
              | inr (i, p) => V6 i p end) _); by intros [].
Defined.

(** [std::time::Duration] *)
Record Duration := mkDuration { as_secs : Z; subsec_nanos : Z }.

Definition from_millis (ms : Z) : Duration :=
  {| as_secs := ms `div` 1000; subsec_nanos := (ms `mod` 1000) * 1000000 |}.

Definition from_secs (s : Z) : Duration := {| as_secs := s; subsec_nanos := 0 |}.

(** ** Panics

    A Rust panic is [None] in the option monad; [stdpp]'s [x ← m; k] sequences
    the operations and stops at the first panic. *)
Definition panic {A} : option A := None.

(** [Result::expect] and [Result::unwrap]: an error panics. *)
Definition expect {E A} (r : E + A) : option A :=
  match r with inl _ => panic | inr x => Some x end.

(** [l[i]]: panics out of range. *)
Definition index {A} (l : list A) (i : Z) : option A :=
  if decide (0 <= i) then l !! Z.to_nat i else panic.

(** ** Folds that may panic and that emit effects *)

(** [for x in l { ... }] over a state, collecting the effects in order. *)
Fixpoint foldE {S A E} (f : S -> A -> S * list E) (s : S) (l : list A) : S * list E :=
  match l with
  | [] => (s, [])
  | x :: l => let '(s1, e1) := f s x in
              let '(s2, e2) := foldE f s1 l in (s2, e1 ++ e2)
  end.

(** The same loop when the body may panic. *)
Fixpoint foldEP {S A E} (f : S -> A -> option (S * list E)) (s : S) (l : list A)
  : option (S * list E) :=
  match l with
  | [] => Some (s, [])
  | x :: l =>
      match f s x with
      | None => None
      | Some (s1, e1) =>
          match foldEP f s1 l with
          | None => None
          | Some (s2, e2) => Some (s2, e1 ++ e2)
          end
      end
  end.

(** ** Automation *)

Create HintDb bio discriminated.
Create Rewrite HintDb bio.

(** Splits [let '(a, b) := e in _] and [match] on a scrutinee in the goal. *)
Ltac destr_match :=
  match goal with
  | |- context [match ?x with _ => _ end] => destruct x eqn:?
  end.

(** Unfolds byte lengths and closes linear goals on them. *)
Ltac blia := unfold blen in *; rewrite ?length_app in *; cbn [length] in *; lia.

(** ** Generic lemmas *)

Lemma wrap64_range z : 0 <= wrap64 z < 2 ^ 64.
Proof. apply Z.mod_pos_bound. lia. Qed.

Lemma wrap64_small z : 0 <= z < 2 ^ 64 -> wrap64 z = z.
Proof. apply Z.mod_small. Qed.

Lemma wrap64_add_l a b : wrap64 (wrap64 a + b) = wrap64 (a + b).
Proof. unfold wrap64. by rewrite Zplus_mod_idemp_l. Qed.

Lemma blen_nonneg {A} (l : list A) : 0 <= blen l.
Proof. unfold blen. lia. Qed.

Lemma blen_app {A} (l k : list A) : blen (l ++ k) = blen l + blen k.
Proof. blia. Qed.

Lemma blen_nil_iff {A} (l : list A) : (0 <? blen l) = false <-> l = [].
Proof. destruct l; unfold blen; simpl; split; intros; try done; lia. Qed.

#[export] Hint Resolve wrap64_range blen_nonneg : bio.
#[export] Hint Rewrite @blen_app : bio.

Section folds.
Context {S A E : Type}.

Lemma foldE_app (f : S -> A -> S * list E) s l k :
  foldE f s (l ++ k) =
  (let '(s1, e1) := foldE f s l in
   let '(s2, e2) := foldE f s1 k in (s2, e1 ++ e2)).
Proof.
  revert s; induction l as [|x l IH]; intros s; simpl.
  - by destruct (foldE f s k).
  - destruct (f s x) as [s1 e1]. rewrite IH.
    destruct (foldE f s1 l) as [s2 e2]. destruct (foldE f s2 k) as [s3 e3].
    by rewrite app_assoc.
Qed.

Lemma foldEP_app (f : S -> A -> option (S * list E)) s l k :
  foldEP f s (l ++ k) =
  match foldEP f s l with
  | None => None
  | Some (s1, e1) =>
      match foldEP f s1 k with
      | None => None
      | Some (s2, e2) => Some (s2, e1 ++ e2)
      end
  end.
Proof.
  revert s; induction l as [|x l IH]; intros s; simpl.
  - by destruct (foldEP f s k) as [[]|].
  - destruct (f s x) as [[s1 e1]|]; [|done]. rewrite IH.
    destruct (foldEP f s1 l) as [[s2 e2]|]; [|done].
    destruct (foldEP f s2 k) as [[s3 e3]|]; [|done]. by rewrite app_assoc.
Qed.

(** Invariants of a loop. *)
Lemma foldEP_inv (P : S -> Prop) (f : S -> A -> option (S * list E)) s l s' es :
  (forall s x s1 e1, x ∈ l -> P s -> f s x = Some (s1, e1) -> P s1) ->
  P s -> foldEP f s l = Some (s', es) -> P s'.
Proof.
  revert s es; induction l as [|x l IH]; intros s es Hf HP; simpl.
  - by intros [= <- <-].
  - destruct (f s x) as [[s1 e1]|] eqn:Hx; [|done].
    destruct (foldEP f s1 l) as [[s2 e2]|] eqn:Hl; [|done].
    intros [= <- <-]. eapply IH; [|by eapply Hf; [left|..]|done].
    intros; eapply Hf; [by right|done..].
Qed.

(** What holds of the effects of every iteration. *)
Lemma foldE_effects (P : E -> Prop) (f : S -> A -> S * list E) s l :
  (forall s x, Forall P (snd (f s x))) -> Forall P (snd (foldE f s l)).
Proof.
  intros Hf. revert s; induction l as [|x l IH]; intros s; simpl; [constructor|].
  specialize (Hf s x). destruct (f s x) as [s1 e1]. specialize (IH s1).
  destruct (foldE f s1 l) as [s2 e2]. simpl in *. by apply Forall_app_2.
Qed.

Lemma foldEP_effects (P : E -> Prop) (f : S -> A -> option (S * list E)) s l s' es :
  (forall s x s1 e1, f s x = Some (s1, e1) -> Forall P e1) ->
  foldEP f s l = Some (s', es) -> Forall P es.
Proof.
  intros Hf. revert s es; induction l as [|x l IH]; intros s es; simpl.
  - intros [= <- <-]. constructor.
  - destruct (f s x) as [[s1 e1]|] eqn:Hx; [|done].
    destruct (foldEP f s1 l) as [[s2 e2]|] eqn:Hl; [|done].
    intros [= <- <-]. apply Forall_app_2; [by eapply Hf|by eapply IH].
Qed.
End folds.

(** ** Distributing a list over keys *)
Section distribute.
Context {K A : Type} `{EqDecision K}.

(** The items of one key, in order. *)
Definition items_of (k : K) (l : list (K * A)) : list A :=
  omap (fun x => if decide (fst x = k) then Some (snd x) else None) l.

Lemma concat_cons_at (f : K -> list A) (k : K) (a : A) (ks : list K) :
  base.NoDup ks -> k ∈ ks ->
  concat (map (fun j => if decide (k = j) then a :: f j else f j) ks)
  ≡ₚ a :: concat (map f ks).
Proof.
  induction ks as [|j ks IH]; [by intros _ ?%not_elem_of_nil|].
  intros [Hj Hnd]%list.NoDup_cons [->|Hk]%elem_of_cons; simpl.
  - rewrite decide_True by done. simpl. constructor. f_equiv.
    apply Permutation_refl'. f_equal. apply map_ext_in.
    intros i Hi%list_elem_of_In. rewrite decide_False; [done|]. by intros ->.
  - rewrite decide_False by (by intros ->). rewrite IH by done.
    by rewrite Permutation_middle.
Qed.

Lemma items_of_partition (ks : list K) (l : list (K * A)) :
  base.NoDup ks -> Forall (fun x => fst x ∈ ks) l ->
  concat (map (fun k => items_of k l) ks) ≡ₚ map snd l.
Proof.
  intros Hnd. induction 1 as [|[k a] l Hk Hl IH]; simpl.
  { clear. induction ks; simpl; done. }
  rewrite <-IH, <-(concat_cons_at (fun k => items_of k l) k a ks) by done.
  apply Permutation_refl'. f_equal. apply map_ext. intros j. simpl.
  by case_decide.
Qed.
End distribute.

Lemma items_of_zip_map {K A B} `{EqDecision K} (f : A -> B) (k : K) ids l :
  items_of k (zip ids (map f l)) = map f (items_of k (zip ids l)).
Proof.
  unfold items_of. revert ids. induction l as [|x l IH]; intros [|j ids]; try done.
  cbn. specialize (IH ids). cbn in IH. by case_decide; rewrite IH.
Qed.

Lemma concat_map_perm {A B} (f : A -> list B) l k :
  l ≡ₚ k -> concat (map f l) ≡ₚ concat (map f k).
Proof. intros H. rewrite <-!List.flat_map_concat_map. by rewrite H. Qed.

Lemma concat_map_concat {A B} (f : A -> list B) (ls : list (list A)) :
  concat (map (fun l => concat (map f l)) ls) = concat (map f (concat ls)).
Proof. induction ls as [|l ls IH]; simpl; [done|]. by rewrite map_app, concat_app, IH. Qed.

(** All elements of a list but one. *)
Lemma Forall_others {A} (P : A -> Prop) (l : list A) j :
  (forall i x, l !! i = Some x -> i <> j -> P x) -> Forall P (delete j l).
Proof.
  intros H. apply Forall_lookup_2. intros i x Hi. destruct (decide (i < j)%nat) as [Hlt|Hge].
  - rewrite list_lookup_delete_lt in Hi by done. eapply H; [exact Hi|lia].
  - rewrite list_lookup_delete_ge in Hi by lia. eapply H; [exact Hi|lia].
Qed.

(** ** Sums over lists *)
Definition sumZ {A} (f : A -> Z) (l : list A) : Z := foldr (fun x n => f x + n) 0 l.

Lemma sumZ_app {A} (f : A -> Z) l k : sumZ f (l ++ k) = sumZ f l + sumZ f k.
Proof. unfold sumZ. induction l; simpl; lia. Qed.

Lemma sumZ_insert {A} (f : A -> Z) (l : list A) i x y :
  l !! i = Some x -> sumZ f (<[i := y]> l) = sumZ f l - f x + f y.
Proof.
  unfold sumZ. revert i. induction l as [|z l IH]; intros [|i] Hi; try done; simpl in *.
  - injection Hi as ->. lia.
  - rewrite (IH i Hi). lia.
Qed.

Lemma sumZ_zero {A} (f : A -> Z) (l : list A) : Forall (fun x => f x = 0) l -> sumZ f l = 0.
Proof. unfold sumZ. induction 1; simpl; lia. Qed.

Lemma sumZ_perm {A} (f : A -> Z) (l l' : list A) : l ≡ₚ l' -> sumZ f l = sumZ f l'.
Proof. unfold sumZ. induction 1; cbn; lia. Qed.

Lemma sumZ_snoc {A} (f : A -> Z) (l : list A) x : sumZ f (l ++ [x]) = sumZ f l + f x.
Proof. rewrite sumZ_app. unfold sumZ at 2. cbn. lia. Qed.

Lemma sumZ_without {A} (f : A -> Z) (l : list A) j x :
  l !! j = Some x -> sumZ f l = f x + sumZ f (delete j l).
Proof. intros Hj%delete_Permutation. by rewrite (sumZ_perm _ _ _ Hj). Qed.

Lemma sumZ_map {A B} (g : A -> B) (f : B -> Z) (l : list A) :
  sumZ f (map g l) = sumZ (fun x => f (g x)) l.
Proof. unfold sumZ. induction l; simpl; lia. Qed.

Lemma sumZ_concat {A} (f : A -> Z) (ls : list (list A)) :
  sumZ f (concat ls) = sumZ (fun l => sumZ f l) ls.
Proof. induction ls as [|l ls IH]; [done|]. cbn [concat]. rewrite sumZ_app, IH. done. Qed.

(** ** Splitting texts *)

(** The fields of a text, split at a separator ([str::split] on a character). *)
Fixpoint split_on (sep : Ascii.ascii) (l : bytes) : list bytes :=
  match l with
  | [] => [[]]
  | c :: l => if decide (c = sep) then [] :: split_on sep l
              else match split_on sep l with
                   | f :: fs => (c :: f) :: fs
                   | [] => [[c]]
                   end
  end.

Lemma split_on_app sep a l :
  sep ∉ a -> split_on sep (a ++ [sep] ++ l) = a :: split_on sep l.
Proof.
  induction a as [|c a IH]; intros Ha; simpl.
  - by rewrite decide_True.
  - rewrite decide_False by set_solver. simpl in IH. by rewrite IH by set_solver.
Qed.

Lemma split_on_none sep a : sep ∉ a -> split_on sep a = [a].
Proof.
  induction a as [|c a IH]; intros Ha; simpl; [done|].
  rewrite decide_False by set_solver. by rewrite IH by set_solver.
Qed.
