(* ===== verification/Addr.v ===== *)
(** * Text of socket addresses ([FromStr] and [Display] of [std::net::SocketAddr])

    The configuration and the command line give addresses as text, and the HTTP
    clients print them into URLs.  The parser follows [std::net]'s: optional parts
    are tried and undone, numbers have a bounded number of digits. *)

From S2P Require Import Prelude.

(** ** Characters *)
Definition chr (n : Z) : Ascii.ascii := Ascii.ascii_of_nat (Z.to_nat n).
Definition ascii_colon : Ascii.ascii := chr 58.
Definition ascii_plus : Ascii.ascii := chr 43.
Definition ascii_dot : Ascii.ascii := chr 46.
Definition ascii_open : Ascii.ascii := chr 91.
Definition ascii_close : Ascii.ascii := chr 93.

(** [char::to_digit(radix)] *)
Definition to_digit (radix : Z) (c : Ascii.ascii) : option Z :=
  let n := Z.of_nat (Ascii.nat_of_ascii c) in
  let d := if decide (48 <= n <= 57) then n - 48
           else if decide (97 <= n <= 122) then n - 87
           else if decide (65 <= n <= 90) then n - 55
           else radix in
  if decide (d < radix) then Some d else None.

(** The digit of a value, lower case. *)
Definition digit (d : Z) : Ascii.ascii := chr (if decide (d < 10) then 48 + d else 87 + d).

(** ** Printing numbers: [{}] and [{:x}] *)
Fixpoint digits (fuel : nat) (radix n : Z) : list Z :=
  match fuel with
  | O => []
  | S fuel => if decide (n < radix) then [n]
              else digits fuel radix (n `div` radix) ++ [n `mod` radix]
  end.

(** 20 digits are enough for any [u64]. *)
Definition show_num (radix n : Z) : bytes := map digit (digits 20 radix n).
Definition dec (n : Z) : bytes := show_num 10 n.
Definition hex (n : Z) : bytes := show_num 16 n.

(** ** Parsing numbers *)

(** [read_number(radix, max_digits, upto)], after the digits read so far. *)
Fixpoint read_number_go (radix upto : Z) (room : nat) (some : bool) (r : Z) (s : bytes)
  {struct s} : option (Z * bytes) :=
  match s with
  | c :: s' =>
      match to_digit radix c with
      | Some d =>
          match room with
          | O => None
          | S room =>
              let r := r * radix + d in
              if decide (r < upto) then read_number_go radix upto room true r s' else None
          end
      | None => if some then Some (r, s) else None
      end
  | [] => if some then Some (r, []) else None
  end.

Definition read_number (radix : Z) (max_digits : nat) (upto : Z) (s : bytes)
  : option (Z * bytes) := read_number_go radix upto max_digits false 0 s.

Definition read_given_char (c : Ascii.ascii) (s : bytes) : option bytes :=
  match s with d :: s => if decide (d = c) then Some s else None | [] => None end.

(** ** Parsing addresses *)
Definition read_octet (s : bytes) : option (Z * bytes) := read_number 10 3 256 s.

Definition read_ipv4_addr (s : bytes) : option (Z * Z * Z * Z * bytes) :=
  '(a, s) ← read_octet s; s ← read_given_char ascii_dot s;
  '(b, s) ← read_octet s; s ← read_given_char ascii_dot s;
  '(c, s) ← read_octet s; s ← read_given_char ascii_dot s;
  '(d, s) ← read_octet s;
  Some (a, b, c, d, s).

(** [read_groups]: up to [n] groups, an IPv4 address standing for the last two. *)
Fixpoint read_groups (n : nat) (first : bool) (s : bytes) : list Z * bool * bytes :=
  match n with
  | O => ([], false, s)
  | S n' =>
      let sep s := if first then Some s else read_given_char ascii_colon s in
      match (if decide (n' = O) then None else s ← sep s; read_ipv4_addr s) with
      | Some (a, b, c, d, s) => ([a * 256 + b; c * 256 + d], true, s)
      | None =>
          match (s ← sep s; read_number 16 4 65536 s) with
          | None => ([], false, s)
          | Some (g, s) => let '(gs, v4, s) := read_groups n' false s in (g :: gs, v4, s)
          end
      end
  end.

Definition ipv6_of (segments : list Z) : Z := foldl (fun n g => n * 65536 + g) 0 segments.

Definition read_ipv6_addr (s : bytes) : option (Z * bytes) :=
  let '(head, head_v4, s) := read_groups 8 true s in
  if decide (length head = 8%nat) then Some (ipv6_of head, s)
  else if head_v4 then None
  else
    s ← read_given_char ascii_colon s;
    s ← read_given_char ascii_colon s;
    let '(tail, _, s) := read_groups (8 - length head) true s in
    Some (ipv6_of (head ++ repeat 0 (8 - length head - length tail) ++ tail), s).

Definition read_port (s : bytes) : option (Z * bytes) := read_number 10 5 65536 s.

Definition read_socket_addr_v4 (s : bytes) : option (SocketAddr * bytes) :=
  '(a, b, c, d, s) ← read_ipv4_addr s;
  s ← read_given_char ascii_colon s;
  '(port, s) ← read_port s;
  Some (V4 a b c d port, s).

Definition read_socket_addr_v6 (s : bytes) : option (SocketAddr * bytes) :=
  s ← read_given_char ascii_open s;
  '(ip, s) ← read_ipv6_addr s;
  s ← read_given_char ascii_close s;
  s ← read_given_char ascii_colon s;
  '(port, s) ← read_port s;
  Some (V6 ip port, s).

(** [impl FromStr for SocketAddr]: the whole text must be read. *)
Definition parse_socket_addr (s : bytes) : option SocketAddr :=
  match (match read_socket_addr_v4 s with Some r => Some r | None => read_socket_addr_v6 s end) with
  | Some (a, []) => Some a
  | _ => None
  end.

(** ** Printing addresses *)
Definition show_ipv4 (a b c d : Z) : bytes :=
  dec a ++ [ascii_dot] ++ dec b ++ [ascii_dot] ++ dec c ++ [ascii_dot] ++ dec d.

(** The eight 16-bit segments of an IPv6 address. *)
Definition segments (ip : Z) : list Z :=
  map (fun i => Z.land (Z.shiftr ip (16 * (7 - i))) 65535) (seqZ 0 8).

(** The first longest run of zero segments: where it starts, and its length. *)
Fixpoint find_zeros (i : Z) (cur_at cur_len best_at best_len : Z) (l : list Z) : Z * Z :=
  match l with
  | [] => (best_at, best_len)
  | g :: l =>
      if decide (g = 0) then
        let cur_at := if decide (cur_len = 0) then i else cur_at in
        let cur_len := cur_len + 1 in
        if decide (cur_len > best_len) then find_zeros (i + 1) cur_at cur_len cur_at cur_len l
        else find_zeros (i + 1) cur_at cur_len best_at best_len l
      else find_zeros (i + 1) 0 0 best_at best_len l
  end.

Fixpoint join_hex (l : list Z) : bytes :=
  match l with
  | [] => []
  | [g] => hex g
  | g :: l => hex g ++ [ascii_colon] ++ join_hex l
  end.

Definition show_v4_segments (g h : Z) : bytes :=
  show_ipv4 (g `div` 256) (g `mod` 256) (h `div` 256) (h `mod` 256).

Definition show_ipv6 (ip : Z) : bytes :=
  let l := segments ip in
  let g := default 0 (l !! 6%nat) in
  let h := default 0 (l !! 7%nat) in
  if decide (l = [0; 0; 0; 0; 0; 0; 0; 0]) then bs "::"
  else if decide (l = [0; 0; 0; 0; 0; 0; 0; 1]) then bs "::1"
  else if decide (firstn 6 l = [0; 0; 0; 0; 0; 0]) then bs "::" ++ show_v4_segments g h
  else if decide (firstn 6 l = [0; 0; 0; 0; 0; 65535]) then bs "::ffff:" ++ show_v4_segments g h
  else
    let '(at_, len) := find_zeros 0 0 0 0 0 l in
    if decide (len > 1) then
      join_hex (firstn (Z.to_nat at_) l) ++ bs "::" ++ join_hex (skipn (Z.to_nat (at_ + len)) l)
    else join_hex l.

(** [impl Display for SocketAddr] *)
Definition show_socket_addr (a : SocketAddr) : bytes :=
  match a with
  | V4 a b c d port => show_ipv4 a b c d ++ [ascii_colon] ++ dec port
  | V6 ip port => [ascii_open] ++ show_ipv6 ip ++ [ascii_close; ascii_colon] ++ dec port
  end.

(** The ranges of the fields. *)
Definition addr_ok (a : SocketAddr) : Prop :=
  match a with
  | V4 a b c d port => 0 <= a < 256 /\ 0 <= b < 256 /\ 0 <= c < 256 /\ 0 <= d < 256 /\
                       0 <= port < 65536
  | V6 ip port => 0 <= ip < 2 ^ 128 /\ 0 <= port < 65536
  end.

(** ** Numbers round trip *)
Definition value (radix r : Z) (ds : list Z) : Z := foldl (fun n d => n * radix + d) r ds.

Lemma to_digit_digit radix d :
  2 <= radix <= 16 -> 0 <= d < radix -> to_digit radix (digit d) = Some d.
Proof.
  intros Hr Hd. unfold to_digit, digit, chr.
  rewrite Ascii.nat_ascii_embedding by (case_decide; lia).
  repeat case_decide; first [lia | f_equal; lia].
Qed.

Lemma value_ge radix ds r :
  2 <= radix -> Forall (fun d => 0 <= d < radix) ds -> 0 <= r -> r <= value radix r ds.
Proof.
  intros Hr Hds. unfold value. revert r. induction Hds as [|d ds Hd Hds IH]; intros r H0; cbn; [lia|].
  etrans; [|apply IH; nia]. nia.
Qed.

(** Reading the digits of a number, up to a character that is not a digit. *)
Lemma read_number_go_digits radix upto ds room some r rest :
  2 <= radix <= 16 -> Forall (fun d => 0 <= d < radix) ds -> 0 <= r ->
  (length ds <= room)%nat -> value radix r ds < upto -> (some = true \/ ds <> []) ->
  match rest with c :: _ => to_digit radix c = None | [] => True end ->
  read_number_go radix upto room some r (map digit ds ++ rest) = Some (value radix r ds, rest).
Proof.
  intros Hr Hds. revert room some r. induction Hds as [|d ds Hd Hds IH];
    intros room some r H0 Hl Hv Hne Hrest.
  - cbn [map app]. destruct Hne as [->|]; [|done]. destruct rest as [|c rest]; [done|].
    cbn [read_number_go]. by rewrite Hrest.
  - cbn [map app read_number_go]. rewrite to_digit_digit by done.
    destruct room as [|room]; [cbn in Hl; lia|]. unfold value in Hv. cbn [foldl] in Hv.
    pose proof (value_ge radix ds (r * radix + d) ltac:(lia) Hds ltac:(nia)) as Hge.
    unfold value in *. rewrite decide_True by lia. cbn [foldl].
    apply IH; [nia|cbn in Hl; lia|lia|by left|done].
Qed.

Lemma digits_range fuel radix n : 2 <= radix -> 0 <= n -> Forall (fun d => 0 <= d < radix) (digits fuel radix n).
Proof.
  intros Hr. revert n. induction fuel as [|fuel IH]; intros n Hn; cbn [digits]; [constructor|].
  case_decide; [repeat constructor; lia|]. apply Forall_app_2.
  - apply IH, Z.div_pos; lia.
  - repeat constructor; apply Z.mod_pos_bound; lia.
Qed.

Lemma value_snoc radix r ds d : value radix r (ds ++ [d]) = value radix r ds * radix + d.
Proof. unfold value. by rewrite foldl_app. Qed.

(** Enough fuel gives the digits of the number, and no more than needed. *)
Lemma digits_value fuel radix n k :
  2 <= radix -> 0 <= n < radix ^ Z.of_nat k -> (0 < k <= fuel)%nat ->
  value radix 0 (digits fuel radix n) = n /\ (length (digits fuel radix n) <= k)%nat /\
  digits fuel radix n <> [].
Proof.
  intros Hr. revert n k. induction fuel as [|fuel IH]; intros n k Hn Hk; [lia|].
  cbn [digits]. case_decide as Hlt.
  { split_and!; [unfold value; cbn; lia|cbn; lia|done]. }
  destruct k as [|k]; [lia|].
  assert (Hk0 : (0 < k)%nat).
  { destruct k; [|lia]. change (Z.of_nat 1) with 1 in Hn. rewrite Z.pow_1_r in Hn. lia. }
  assert (Hq : 0 <= n `div` radix < radix ^ Z.of_nat k).
  { split; [apply Z.div_pos; lia|]. apply Z.div_lt_upper_bound; [lia|].
    rewrite Nat2Z.inj_succ, Z.pow_succ_r in Hn by lia. lia. }
  destruct (IH (n `div` radix) k Hq ltac:(lia)) as (Hv & Hl & _).
  rewrite value_snoc, Hv, length_app. cbn [length].
  split_and!; [pose proof (Z.div_mod n radix ltac:(lia)); lia|lia|]. by destruct (digits _ _ _).
Qed.

Lemma read_number_show radix max upto n rest :
  2 <= radix <= 16 -> 0 <= n < upto -> upto <= radix ^ Z.of_nat max -> (0 < max <= 20)%nat ->
  match rest with c :: _ => to_digit radix c = None | [] => True end ->
  read_number radix max upto (show_num radix n ++ rest) = Some (n, rest).
Proof.
  intros Hr Hn Hu Hm Hrest. unfold read_number, show_num.
  destruct (digits_value 20 radix n max) as (Hv & Hl & Hne); [lia..|].
  rewrite read_number_go_digits; rewrite ?Hv; try done; try lia.
  - apply digits_range; lia.
  - by right.
Qed.

(** ** IPv4 addresses round trip *)
Lemma read_octet_show n rest :
  0 <= n < 256 -> match rest with c :: _ => to_digit 10 c = None | [] => True end ->
  read_octet (dec n ++ rest) = Some (n, rest).
Proof. intros Hn Hr. apply read_number_show; done || lia. Qed.

Lemma read_ipv4_show a b c d rest :
  0 <= a < 256 -> 0 <= b < 256 -> 0 <= c < 256 -> 0 <= d < 256 ->
  match rest with c :: _ => to_digit 10 c = None | [] => True end ->
  read_ipv4_addr (show_ipv4 a b c d ++ rest) = Some (a, b, c, d, rest).
Proof.
  intros. unfold read_ipv4_addr, show_ipv4. rewrite <-!app_assoc.
  do 3 (rewrite read_octet_show by done; cbn [mbind option_bind app read_given_char];
        rewrite decide_True by done; cbn [mbind option_bind]).
  by rewrite read_octet_show.
Qed.

Lemma parse_show_v4 a b c d port :
  addr_ok (V4 a b c d port) ->
  parse_socket_addr (show_socket_addr (V4 a b c d port)) = Some (V4 a b c d port).
Proof.
  intros (? & ? & ? & ? & ?). unfold parse_socket_addr, read_socket_addr_v4, show_socket_addr.
  rewrite read_ipv4_show by done. cbn [mbind option_bind app read_given_char].
  rewrite decide_True by done. cbn [mbind option_bind].
  rewrite <-(app_nil_r (dec port)). unfold read_port, dec.
  by rewrite read_number_show by (done || lia).
Qed.

(** ** The characters of an address *)

(** Hexadecimal digits, dots, colons and brackets. *)
Definition addr_char (c : Ascii.ascii) : Prop :=
  is_Some (to_digit 16 c) \/ c ∈ [ascii_dot; ascii_colon; ascii_open; ascii_close].

Lemma show_num_chars radix n :
  2 <= radix <= 16 -> 0 <= n -> Forall addr_char (show_num radix n).
Proof.
  intros Hr Hn. unfold show_num. apply list.Forall_forall.
  intros c (d & -> & Hd)%list_elem_of_fmap. left. exists d. apply to_digit_digit; [lia|].
  pose proof (digits_range 20 radix n ltac:(lia) Hn) as H. rewrite list.Forall_forall in H.
  specialize (H d Hd). lia.
Qed.

Lemma bs_chars s :
  forallb (fun c => bool_decide (is_Some (to_digit 16 c)) ||
                    bool_decide (c ∈ [ascii_dot; ascii_colon; ascii_open; ascii_close])) s = true ->
  Forall addr_char s.
Proof.
  intros H. apply list.Forall_forall. intros c Hc. rewrite forallb_forall in H.
  specialize (H c (proj1 (list_elem_of_In _ _) Hc)).
  apply orb_true_iff in H as [H|H]; apply bool_decide_eq_true in H; [by left|by right].
Qed.

Lemma show_ipv4_chars a b c d :
  0 <= a -> 0 <= b -> 0 <= c -> 0 <= d -> Forall addr_char (show_ipv4 a b c d).
Proof.
  intros. unfold show_ipv4, dec.
  repeat apply Forall_app_2; try (by apply show_num_chars); by apply bs_chars.
Qed.

Lemma segments_nonneg ip : Forall (fun g => 0 <= g) (segments ip).
Proof.
  unfold segments. apply list.Forall_forall. intros g (i & -> & _)%list_elem_of_fmap.
  apply Z.land_nonneg. by right.
Qed.

Lemma join_hex_chars l : Forall (fun g => 0 <= g) l -> Forall addr_char (join_hex l).
Proof.
  induction 1 as [|g l Hg Hl IH]; [constructor|]. cbn [join_hex].
  destruct l; [by apply show_num_chars|].
  repeat apply Forall_app_2; [by apply show_num_chars|by apply bs_chars|done].
Qed.

Lemma show_ipv6_chars ip : Forall addr_char (show_ipv6 ip).
Proof.
  pose proof (segments_nonneg ip) as Hs. unfold show_ipv6. set (l := segments ip) in *.
  assert (Hi : forall i, 0 <= default 0 (l !! i)).
  { intros i. destruct (l !! i) eqn:Hi; [|done]. cbn. by eapply Forall_lookup_1 in Hs. }
  assert (Hv : Forall addr_char (show_v4_segments (default 0 (l !! 6%nat)) (default 0 (l !! 7%nat)))).
  { pose proof (Hi 6%nat). pose proof (Hi 7%nat). apply show_ipv4_chars.
    all: first [apply Z.div_pos; lia | apply Z.mod_pos_bound; lia]. }
  repeat case_decide; [by apply bs_chars..| | |].
  1, 2: apply Forall_app_2; [by apply bs_chars|done].
  destruct (find_zeros 0 0 0 0 0 l) as [at_ len]. case_decide; [|by apply join_hex_chars].
  repeat apply Forall_app_2; [apply join_hex_chars, Forall_take; done|by apply bs_chars|].
  by apply join_hex_chars, Forall_drop.
Qed.

Lemma show_socket_addr_chars a : addr_ok a -> Forall addr_char (show_socket_addr a).
Proof.
  destruct a as [a b c d port|ip port]; cbn [addr_ok show_socket_addr]; intros H; destruct_and! H.
  - apply Forall_app_2; [by apply show_ipv4_chars|].
    apply Forall_app_2; [by apply bs_chars|by apply show_num_chars].
  - apply Forall_app_2; [by apply bs_chars|]. apply Forall_app_2; [apply show_ipv6_chars|].
    apply Forall_app_2; [by apply bs_chars|by apply show_num_chars].
Qed.

(** IPv6 texts of each of the forms [Display] has. *)
Example v6_loopback :
  show_socket_addr (V6 1 8125) = bs "[::1]:8125" /\
  parse_socket_addr (bs "[::1]:8125") = Some (V6 1 8125).
Proof. vm_compute. done. Qed.

Example v6_zeros :
  let a := V6 (ipv6_of [8193; 3512; 0; 0; 1; 0; 0; 1]) 80 in
  show_socket_addr a = bs "[2001:db8::1:0:0:1]:80" /\
  parse_socket_addr (show_socket_addr a) = Some a.
Proof. vm_compute. done. Qed.

Example v6_full :
  let a := V6 (ipv6_of [1; 2; 3; 4; 5; 6; 7; 8]) 80 in
  show_socket_addr a = bs "[1:2:3:4:5:6:7:8]:80" /\
  parse_socket_addr (show_socket_addr a) = Some a.
Proof. vm_compute. done. Qed.

Example v6_mapped :
  let a := V6 (ipv6_of [0; 0; 0; 0; 0; 65535; 2560; 1]) 80 in
  show_socket_addr a = bs "[::ffff:10.0.0.1]:80" /\
  parse_socket_addr (show_socket_addr a) = Some a.
Proof. vm_compute. done. Qed.
