(* ===== verification/Http.v ===== *)
(** * HTTP as the program uses it ([hyper], [http::Uri])

    The requests the program builds for the consul agent and the management
    server.  Parsing a URI and finding the address to connect to are done outside
    the repository: they are a class of operations with the documented behaviour on
    the URIs the program formats. *)

From S2P Require Import Prelude Addr.

Inductive Method := GET | POST | PUT | OtherMethod.

Record Uri := mkUri {
  u_authority : bytes;
  u_path : bytes;
  u_query : option bytes
}.

#[export] Instance Uri_eq_dec : EqDecision Uri.
Proof. solve_decision. Defined.

(** A request as the client sends it; [hyper::Request::default()] has neither
    headers nor a body. *)
Record HttpRequest := mkHttpRequest {
  hr_method : Method;
  hr_uri : Uri;
  hr_headers : list (bytes * bytes);
  hr_body : bytes
}.

Class UriLib := {
  parse_uri : bytes -> option Uri;              (* [str::parse::<Uri>] *)
  connect_addr : Uri -> option SocketAddr       (* where the connector connects *)
}.

(** ** The URIs the program formats *)
Definition ascii_slash : Ascii.ascii := chr 47.
Definition ascii_question : Ascii.ascii := chr 63.

(** [format!("http://{}<path>?<query>", address)] *)
Definition http_uri (a : SocketAddr) (path : bytes) (query : option bytes) : bytes :=
  bs "http://" ++ show_socket_addr a ++ path ++
  match query with Some q => [ascii_question] ++ q | None => [] end.

(** Letters, digits and a few marks: characters that a URI takes as they are. *)
Definition path_char (c : Ascii.ascii) : bool :=
  let n := Z.of_nat (Ascii.nat_of_ascii c) in
  bool_decide (45 <= n <= 57) || bool_decide (65 <= n <= 90) || bool_decide (97 <= n <= 122)
  || bool_decide (n = 95).

Definition query_char (c : Ascii.ascii) : bool := path_char c || bool_decide (c = chr 61).

(** Documented: a URI of an absolute path is split into its parts, and the
    connector goes to the IPv4 address and port the authority names. *)
Class UriOk (U : UriLib) : Prop := {
  parse_http_uri a path query :
    addr_ok a -> Forall path_char (ascii_slash :: path) ->
    (forall q, query = Some q -> Forall query_char q) ->
    parse_uri (http_uri a (ascii_slash :: path) query)
    = Some {| u_authority := show_socket_addr a; u_path := ascii_slash :: path;
              u_query := query |};
  connect_v4 u a b c d port :
    addr_ok (V4 a b c d port) -> u_authority u = show_socket_addr (V4 a b c d port) ->
    connect_addr u = Some (V4 a b c d port)
}.

(** ** A reference implementation *)
Fixpoint break_on (c : Ascii.ascii) (s : bytes) : bytes * bytes :=
  match s with
  | [] => ([], [])
  | d :: s' => if decide (d = c) then ([], s) else
                 let '(x, y) := break_on c s' in (d :: x, y)
  end.

Lemma break_on_app c x y :
  c ∉ x -> match y with d :: _ => d = c | [] => True end -> break_on c (x ++ y) = (x, y).
Proof.
  intros Hx Hy. induction x as [|d x IH]; cbn [app break_on].
  - destruct y; [done|]. cbn. by rewrite decide_True.
  - apply list.not_elem_of_cons in Hx as [Hd Hx].
    rewrite decide_False by done. by rewrite IH.
Qed.

#[export] Instance RefUri : UriLib := {|
  parse_uri s :=
    if decide (firstn 7 s = bs "http://") then
      let '(authority, s) := break_on ascii_slash (skipn 7 s) in
      let '(path, s) := break_on ascii_question s in
      Some {| u_authority := authority; u_path := path;
              u_query := match s with _ :: q => Some q | [] => None end |}
    else None;
  connect_addr u := parse_socket_addr (u_authority u)
|}.

Lemma addr_char_not_slash c : addr_char c -> c <> ascii_slash.
Proof.
  intros [H|H] ->; [by destruct H|].
  by apply (bool_decide_pack _) in H.
Qed.

#[export] Instance RefUriOk : UriOk RefUri.
Proof.
  split.
  - intros a path query Ha Hp Hq. cbn [parse_uri RefUri]. unfold http_uri.
    rewrite decide_True by done.
    change (skipn 7 _) with (show_socket_addr a ++ (ascii_slash :: path) ++
      match query with Some q => [ascii_question] ++ q | None => [] end).
    rewrite break_on_app; [|intros H|done].
    + assert (Hs : ascii_question ∉ ascii_slash :: path).
      { intros H. rewrite list.Forall_forall in Hp. by specialize (Hp _ H). }
      rewrite break_on_app by (destruct query; done). by destruct query.
    + pose proof (show_socket_addr_chars a Ha) as Hc. rewrite list.Forall_forall in Hc.
      by apply (addr_char_not_slash _ (Hc _ H)).
  - intros u a b c d port Ha Hu. cbn [connect_addr RefUri]. rewrite Hu. by apply parse_show_v4.
Qed.
