(* ===== verification/Net.v ===== *)
(** * Sockets ([bound_stream] and [reusing_listener] of [src/src/util.rs], the sockets
    of [src/src/udp.rs], the connection hook of [src/src/raft.rs])

    The sockets are file descriptors of the operating system.  The model keeps the
    set of open descriptors and who owns them: a value that owns a descriptor
    closes it when it is dropped, also when an error leaves a function early.  The
    builders of [net2] own their socket until it is taken out. *)

From S2P Require Import Prelude Addr.

(** ** The operating system *)
Class OsLib := {
  sys_socket : gset nat -> option nat;          (* an IPv4 socket; [None]: error *)
  sys_dup : gset nat -> nat -> option nat;
  sys_reuse : nat -> bool;                      (* address or port *)
  sys_bind : nat -> SocketAddr -> bool;
  sys_listen : nat -> Z -> bool;
  sys_nonblocking : nat -> bool -> bool;
  reactor_add : nat -> bool                     (* register with the event loop *)
}.

(** Documented: new descriptors are not in use, and an IPv4 socket cannot be bound
    to an IPv6 address. *)
Class OsOk (O : OsLib) : Prop := {
  sys_socket_fresh F fd : sys_socket F = Some fd -> fd ∉ F;
  sys_dup_fresh F fd fd' : sys_dup F fd = Some fd' -> fd' ∉ F;
  sys_bind_v6 fd ip port : sys_bind fd (V6 ip port) = false
}.

(** The lowest free descriptor; everything works. *)
#[export] Instance RefOs : OsLib := {|
  sys_socket F := Some (fresh F);
  sys_dup F _ := Some (fresh F);
  sys_reuse _ := true;
  sys_bind _ a := match a with V4 _ _ _ _ _ => true | V6 _ _ => false end;
  sys_listen _ _ := true;
  sys_nonblocking _ _ := true;
  reactor_add _ := true
|}.

#[export] Instance RefOsOk : OsOk RefOs.
Proof. split; [intros F fd [= <-]; apply is_fresh|intros F _ fd [= <-]; apply is_fresh|done]. Qed.

(** ** Input and output: the open descriptors, and an error or a result *)
Inductive IoError := OsError | AlreadyConsumed.

Definition Io (A : Type) : Type := gset nat -> (IoError + A) * gset nat.

#[export] Instance Io_ret : MRet Io := fun A x F => (inr x, F).
#[export] Instance Io_bind : MBind Io := fun A B k m F =>
  match m F with
  | (inl e, F) => (inl e, F)
  | (inr x, F) => k x F
  end.

Lemma io_bind_eq {A B} (m : Io A) (k : A -> Io B) F :
  (x ← m; k x) F = match m F with (inl e, F) => (inl e, F) | (inr x, F) => k x F end.
Proof. reflexivity. Qed.

(** The next step of a computation that succeeds. *)
Ltac io_step x F H :=
  rewrite io_bind_eq;
  match goal with |- context [match ?m with _ => _ end] => destruct m as [[?|x] F] eqn:H end;
  [done|].

Definition io_error {A} (e : IoError) : Io A := fun F => (inl e, F).

Definition close (fd : nat) : Io unit := fun F => (inr tt, F ∖ {[fd]}).

(** [m?] in a function that owns what [drop] closes. *)
Definition try_or {A} (m : Io A) (drop : Io unit) : Io A := fun F =>
  match m F with
  | (inl e, F) => (inl e, snd (drop F))
  | (inr x, F) => (inr x, F)
  end.

Definition check (ok : bool) : Io unit := if ok then mret () else io_error OsError.

Section net.
Context {O : OsLib}.

(** ** [net2::TcpBuilder] and [net2::UdpBuilder]: the socket until it is taken *)
Record Builder := mkBuilder { b_socket : option nat }.

Definition Builder_new_v4 : Io Builder := fun F =>
  match sys_socket F with
  | Some fd => (inr {| b_socket := Some fd |}, F ∪ {[fd]})
  | None => (inl OsError, F)
  end.

(** [FromRawFd]: the builder owns the descriptor from now on. *)
Definition Builder_from_raw_fd (fd : nat) : Builder := {| b_socket := Some fd |}.

Definition drop_builder (b : Builder) : Io unit :=
  match b_socket b with Some fd => close fd | None => mret () end.

(** An operation on the socket of a builder. *)
Definition on_socket (b : Builder) (f : nat -> bool) : Io unit :=
  match b_socket b with Some fd => check (f fd) | None => io_error AlreadyConsumed end.

(** Taking the socket out leaves an empty builder. *)
Definition take_socket (b : Builder) : Io (nat * Builder) :=
  match b_socket b with
  | Some fd => mret (fd, {| b_socket := None |})
  | None => io_error AlreadyConsumed
  end.

Definition try_clone (fd : nat) : Io nat := fun F =>
  match sys_dup F fd with Some fd' => (inr fd', F ∪ {[fd']}) | None => (inl OsError, F) end.

(** ** [bound_stream] *)
Definition bound_stream (addr : SocketAddr) : Io nat :=
  builder ← Builder_new_v4;
  _ ← try_or (on_socket builder (fun fd => sys_bind fd addr)) (drop_builder builder);
  '(stream, builder) ← try_or (take_socket builder) (drop_builder builder);
  _ ← drop_builder builder;
  mret stream.

(** ** [reusing_listener] *)
Definition reusing_listener (addr : SocketAddr) : Io nat :=
  builder ← Builder_new_v4;
  _ ← try_or (on_socket builder sys_reuse) (drop_builder builder);
  _ ← try_or (on_socket builder (fun fd => sys_bind fd addr)) (drop_builder builder);
  '(listener, builder) ← try_or (take_socket builder) (drop_builder builder);
  _ ← try_or (check (sys_listen listener 65536)) (close listener);
  _ ← try_or (check (sys_nonblocking listener true)) (close listener);
  _ ← try_or (check (reactor_add listener)) (close listener);
  _ ← drop_builder builder;
  mret listener.

(** ** The UDP sockets; every error is unwrapped and ends the process *)
Definition udp_socket (listen : SocketAddr) : Io nat :=
  builder ← Builder_new_v4;
  _ ← on_socket builder sys_reuse;
  _ ← on_socket builder sys_reuse;
  '(socket, builder) ← take_socket builder;
  _ ← check (sys_bind socket listen);
  mret socket.

(** [start_sync_udp]: one socket, cloned for every thread, dropped at the end. *)
Definition sync_sockets (listen : SocketAddr) (mm_async : bool) (n_threads : Z) : Io (list nat) :=
  sck ← udp_socket listen;
  _ ← check (sys_nonblocking sck mm_async);
  clones ← mapM (fun _ => try_clone sck) (seqZ 0 n_threads);
  _ ← close sck;
  mret clones.

(** [start_async_udp]: a pool of sockets, cloned for every thread, dropped at the
    end. *)
Definition async_pools (listen : SocketAddr) (n_threads async_sockets : Z)
  : Io (list (list nat)) :=
  sockets ← mapM (fun _ => udp_socket listen) (seqZ 0 async_sockets);
  pools ← mapM (fun _ => mapM try_clone sockets) (seqZ 0 n_threads);
  _ ← mapM close sockets;
  mret pools.

(** In a thread: every green thread clones the pool once more. *)
Definition async_thread (pool : list nat) (greens : Z) : Io (list (list nat)) :=
  mapM (fun _ => mapM (fun socket =>
    fd ← try_clone socket; _ ← try_or (check (reactor_add fd)) (close fd); mret fd) pool)
    (seqZ 0 greens).

(** ** The connection hook of the internal raft

    [socket] owns its descriptor, and so does the builder made from it; assigning
    to [socket] drops the stream that was there. *)
Definition conn_hook (client_bind : option SocketAddr) (socket : nat) : Io nat :=
  match client_bind with
  | Some listen =>
      let builder := Builder_from_raw_fd socket in
      _ ← try_or (on_socket builder (fun fd => sys_bind fd listen)) (drop_builder builder);
      '(stream, builder) ← try_or (take_socket builder) (drop_builder builder);
      _ ← close socket;
      _ ← drop_builder builder;
      mret stream
  | None => mret socket
  end.

(** ** Ownership *)
Section owned.
Context {OOK : OsOk O}.

(** A successful [m] opens exactly the new descriptors its result owns; a failed
    one leaves the open descriptors as they were. *)
Definition opens {A} (fds : A -> list nat) (m : Io A) : Prop := forall F x F',
  m F = (inr x, F') ->
  base.NoDup (fds x) /\ (forall fd, fd ∈ fds x -> fd ∉ F) /\ F' = F ∪ list_to_set (fds x).

Definition undoes {A} (m : Io A) : Prop := forall F e F', m F = (inl e, F') -> F' = F.

Lemma try_clone_opens fd : opens (fun x => [x]) (try_clone fd).
Proof.
  intros F x F'. unfold try_clone. destruct (sys_dup F fd) as [y|] eqn:Hy; [|done].
  intros [= <- <-]. apply sys_dup_fresh in Hy. split_and!.
  - apply NoDup_singleton.
  - by intros ? ->%list_elem_of_singleton.
  - set_solver.
Qed.

Lemma udp_socket_opens listen : opens (fun x => [x]) (udp_socket listen).
Proof.
  intros F x F'. unfold udp_socket, mbind, Io_bind, Builder_new_v4, on_socket, check, mret, Io_ret.
  destruct (sys_socket F) as [fd|] eqn:Hs; [|done]. cbn. apply sys_socket_fresh in Hs.
  destruct (sys_reuse fd); [|done]. cbn. destruct (sys_bind fd listen); [|done].
  intros [= <- <-]. split_and!.
  - apply NoDup_singleton.
  - by intros ? ->%list_elem_of_singleton.
  - set_solver.
Qed.

(** Operations in sequence open what they open one by one. *)
Lemma mapM_opens {A B} (fds : B -> list nat) (f : A -> Io B) l :
  (forall y, opens fds (f y)) -> opens (fun xs => concat (map fds xs)) (mapM f l).
Proof.
  intros Hf. induction l as [|y l IH]; intros F xs F'; cbn [mapM].
  { intros [= <- <-]. split_and!; [constructor|by intros ? ?%not_elem_of_nil|set_solver]. }
  io_step x F1 Hy. io_step xs1 F2 Hl. intros [= <- <-].
  apply Hf in Hy as (Hn1 & Hd1 & ->). apply IH in Hl as (Hn2 & Hd2 & ->).
  cbn [map concat]. split_and!.
  - apply list.NoDup_app. split_and!; [done| |done]. intros fd Hfd Hin. apply (Hd2 fd Hin). set_solver.
  - intros fd [?|Hin]%elem_of_app; [by apply Hd1|]. apply Hd2 in Hin. set_solver.
  - set_solver.
Qed.

Lemma mapM_io_length {A B} (f : A -> Io B) l F xs F' :
  mapM f l F = (inr xs, F') -> length xs = length l.
Proof.
  revert F xs. induction l as [|y l IH]; intros F xs; cbn [mapM]; [by intros [= <- _]|].
  io_step x F1 Hy. io_step xs1 F2 Hl. intros [= <- <-].
  cbn. f_equal. by eapply IH.
Qed.

Lemma mapM_close fds F : exists us, mapM close fds F = (inr us, F ∖ list_to_set fds).
Proof.
  revert F. induction fds as [|fd fds IH]; intros F; cbn [mapM].
  { exists []. unfold mret, Io_ret. do 2 f_equal. set_solver. }
  destruct (IH (F ∖ {[fd]})) as [us Hus]. rewrite !io_bind_eq. cbn [close].
  rewrite io_bind_eq, Hus. exists (tt :: us).
  assert (E : F ∖ {[fd]} ∖ list_to_set fds = F ∖ list_to_set (fd :: fds)) by set_solver.
  by rewrite E.
Qed.

Lemma concat_singletons {A} (l : list A) : concat (map (fun x => [x]) l) = l.
Proof. induction l as [|x l IH]; [done|]. cbn. by rewrite IH. Qed.

Lemma mapM_opens_each {A} (f : A -> Io nat) l :
  (forall y, opens (fun x => [x]) (f y)) -> opens (fun x => x) (mapM f l).
Proof.
  intros Hf F xs F' H. apply (mapM_opens (fun x => [x]) f l Hf) in H.
  by rewrite concat_singletons in H.
Qed.

Lemma mapM_io_Forall {A B} (P : B -> Prop) (f : A -> Io B) l F xs F' :
  (forall y F x F', f y F = (inr x, F') -> P x) -> mapM f l F = (inr xs, F') -> Forall P xs.
Proof.
  intros Hf. revert F xs. induction l as [|y l IH]; intros F xs; cbn [mapM];
    [by intros [= <- _]|].
  io_step x F1 H1. io_step xs1 F2 H2. intros [= <- <-]. constructor; [by eapply Hf|by eapply IH].
Qed.

Lemma check_same b F u F' : check b F = (inr u, F') -> F' = F.
Proof. destruct b; [by intros [= _ <-]|done]. Qed.

Lemma listener_opens socket : opens (fun x => [x])
  (fd ← try_clone socket; _ ← try_or (check (reactor_add fd)) (close fd); mret fd).
Proof.
  intros F x F'. io_step fd F1 H1. unfold try_or, check.
  destruct (reactor_add fd); [|done]. intros [= <- <-]. by apply try_clone_opens in H1.
Qed.

(** A temporary owner: [m] opens descriptors, [k] more from them, and closing those
    of [m] leaves those of [k]. *)
Lemma opens_temporary (tmp fds : list nat) (F F' : gset nat) :
  (forall fd, fd ∈ tmp -> fd ∉ F) -> (forall fd, fd ∈ fds -> fd ∉ F ∪ list_to_set tmp) ->
  F' = F ∪ list_to_set tmp ∪ list_to_set fds ->
  list_to_set fds ## F /\ F' ∖ list_to_set tmp = F ∪ list_to_set fds.
Proof. intros Ht Hf ->. split; set_solver. Qed.

(** C29. Sockets do not leak: [bound_stream] and [reusing_listener] either fail and
    leave the open descriptors as they were, or succeed with one new descriptor,
    the one they return; and neither ever succeeds with an IPv6 address. *)
Theorem sockets_owned (addr : SocketAddr) (F : gset nat) :
  let owned (r : (IoError + nat) * gset nat) :=
    match r with
    | (inr fd, F') => fd ∉ F /\ F' = F ∪ {[fd]} /\ exists a b c d port, addr = V4 a b c d port
    | (inl _, F') => F' = F
    end in
  owned (bound_stream addr F) /\ owned (reusing_listener addr F).
Proof.
  intros owned.
  assert (Hc : forall fd, fd ∉ F -> (F ∪ {[fd]}) ∖ {[fd]} = F) by set_solver.
  assert (Hv : forall fd, sys_bind fd addr = true -> exists a b c d port, addr = V4 a b c d port).
  { intros fd. destruct addr; [by eauto 6|by rewrite sys_bind_v6]. }
  unfold owned, bound_stream, reusing_listener, mbind, Io_bind, Builder_new_v4, try_or, on_socket,
    check, take_socket, drop_builder, close, mret, Io_ret, io_error.
  destruct (sys_socket F) as [fd|] eqn:Hs; [|done]. apply sys_socket_fresh in Hs. cbn.
  split; repeat (match goal with |- context [if ?b then _ else _] => destruct b eqn:? end; cbn);
    by eauto.
Qed.

(** The descriptors of the UDP receivers: when [start_sync_udp] succeeds it has
    opened one new descriptor per thread and no other; when [start_async_udp]
    succeeds it has opened [async_sockets] new ones per thread, and a thread opens
    [greens] times its pool; descriptors are never shared. *)
Theorem udp_descriptors (listen : SocketAddr) (mm_async : bool)
    (n_threads greens async_sockets : Z) (F : gset nat) :
  (forall fds F', sync_sockets listen mm_async n_threads F = (inr fds, F') ->
     length fds = Z.to_nat n_threads /\ base.NoDup fds /\ list_to_set fds ## F /\
     F' = F ∪ list_to_set fds) /\
  (forall pools F', async_pools listen n_threads async_sockets F = (inr pools, F') ->
     length pools = Z.to_nat n_threads /\
     Forall (fun pool => length pool = Z.to_nat async_sockets) pools /\
     base.NoDup (concat pools) /\ list_to_set (concat pools) ## F /\
     F' = F ∪ list_to_set (concat pools)) /\
  (forall pool ls F', async_thread pool greens F = (inr ls, F') ->
     length (concat ls) = (Z.to_nat greens * length pool)%nat /\
     base.NoDup (concat ls) /\ list_to_set (concat ls) ## F /\ F' = F ∪ list_to_set (concat ls)).
Proof.
  split_and!.
  - intros fds F'. unfold sync_sockets. io_step sck F1 H1. io_step u1 F2 H2. io_step cl F3 H3.
    io_step u2 F4 H4. intros [= <- <-]. pose proof (mapM_io_length _ _ _ _ _ H3) as Hl.
    rewrite length_seqZ in Hl. apply udp_socket_opens in H1 as (_ & Hd1 & ->).
    apply check_same in H2 as ->. injection H4 as <- <-.
    apply (mapM_opens_each _ _ (fun _ => try_clone_opens sck)) in H3 as (Hn2 & Hd2 & ->).
    destruct (opens_temporary [sck] cl F _ Hd1 Hd2 eq_refl) as [Hd He].
    split_and!; try done. rewrite <-He. set_solver.
  - intros pools F'. unfold async_pools. io_step scks F1 H1. io_step ps F2 H2. io_step u F3 H3.
    intros [= <- <-]. pose proof (mapM_io_length _ _ _ _ _ H1) as Hl1.
    pose proof (mapM_io_length _ _ _ _ _ H2) as Hl2. rewrite length_seqZ in Hl1, Hl2.
    assert (Hps : Forall (fun p => length p = length scks) ps).
    { eapply mapM_io_Forall; [|exact H2]. intros ? F0 x F0' H0. exact (mapM_io_length _ _ _ _ _ H0). }
    apply (mapM_opens_each _ _ (fun _ => udp_socket_opens listen)) in H1 as (_ & Hd1 & ->).
    apply (mapM_opens (fun x => x) _ _ (fun _ => mapM_opens_each _ _ try_clone_opens))
      in H2 as (Hn2 & Hd2 & ->). rewrite map_id in *.
    destruct (mapM_close scks (F ∪ list_to_set scks ∪ list_to_set (concat ps))) as [us Hus].
    rewrite Hus in H3. injection H3 as <- <-.
    destruct (opens_temporary scks (concat ps) F _ Hd1 Hd2 eq_refl) as [Hd He].
    split_and!; try done. by rewrite Hl1 in Hps.
  - intros pool ls F'. unfold async_thread. intros H.
    pose proof (mapM_io_length _ _ _ _ _ H) as Hl. rewrite length_seqZ in Hl.
    assert (Hps : Forall (fun p => length p = length pool) ls).
    { eapply mapM_io_Forall; [|exact H]. intros ? F0 x F0' H0. exact (mapM_io_length _ _ _ _ _ H0). }
    apply (mapM_opens (fun x => x) _ _ (fun _ => mapM_opens_each _ _ listener_opens))
      in H as (Hn & Hd & ->). rewrite map_id in *. split_and!; [|done|set_solver|done].
    rewrite <-Hl. clear -Hps. induction Hps as [|p ps Hp Hps IH]; [done|].
    cbn. rewrite length_app. lia.
Qed.
End owned.

(** C40. The connection hook closes the connection it prepares: with a client address
    configured, whatever binding answers, the descriptor of the raft connection is
    closed when the hook returns, and when the hook reports success it returns
    that closed descriptor. *)
Theorem conn_hook_closes_socket (listen : SocketAddr) (socket : nat) (F : gset nat) :
  socket ∉ snd (conn_hook (Some listen) socket F) /\
  (sys_bind socket listen = true -> fst (conn_hook (Some listen) socket F) = inr socket).
Proof.
  unfold conn_hook, mbind, Io_bind, try_or, on_socket, check, take_socket, drop_builder, close,
    Builder_from_raw_fd, mret, Io_ret, io_error. cbn.
  destruct (sys_bind socket listen); cbn; set_solver.
Qed.
End net.
