(* ===== verification/Interfaces.v ===== *)
(** * Interfaces of the code outside the repository

    The crates [bytes], [bioyino-metric], [tokio] and the iteration order of
    [std::collections::HashMap] are parameters of the model.  Each is a class of
    operations, and a class in [Prop] with the documented behaviour the program
    relies on.  The instances at the end of the file show that the laws are
    satisfiable, and run the examples. *)

From S2P Require Import Prelude.

(** ** [bytes] 0.4: [BytesMut] *)
Class BytesLib := {
  BytesMut : Type;
  contents : BytesMut -> bytes;              (* deref to [u8] slice *)
  remaining_mut : BytesMut -> Z;
  with_capacity : Z -> BytesMut;
  reserve : Z -> BytesMut -> BytesMut;
  put : bytes -> BytesMut -> option BytesMut; (* [put]/[put_slice]; None: panic *)
  extend_from_slice : bytes -> BytesMut -> BytesMut;
  take : BytesMut -> bytes * BytesMut         (* [take().freeze()], what is left *)
}.

(** Documented: [put] panics without room, [reserve n] makes room for [n] more
    bytes, [take] empties the buffer and keeps at least its spare capacity,
    [extend_from_slice] grows the buffer. *)
Class BytesOk (B : BytesLib) : Prop := {
  with_capacity_contents n : contents (with_capacity n) = [];
  with_capacity_room n : 0 <= n -> n <= remaining_mut (with_capacity n);
  remaining_nonneg b : 0 <= remaining_mut b;
  reserve_contents n b : contents (reserve n b) = contents b;
  reserve_room n b : n <= remaining_mut (reserve n b);
  reserve_mono n b : remaining_mut b <= remaining_mut (reserve n b);
  put_ok s b : blen s <= remaining_mut b ->
    exists b', put s b = Some b' /\ contents b' = contents b ++ s /\
               remaining_mut b' = remaining_mut b - blen s;
  put_panics s b : remaining_mut b < blen s -> put s b = None;
  extend_contents s b : contents (extend_from_slice s b) = contents b ++ s;
  take_fst b : fst (take b) = contents b;
  take_contents b : contents (snd (take b)) = [];
  take_room b : remaining_mut b <= remaining_mut (snd (take b))
}.

(** ** [bioyino_metric]: [Metric<Float>] *)
Class MetricLib := {
  Metric : Type;
  MetricError : Type;
  update_counter : Metric -> Z;                               (* pub field, u32 *)
  (* [self.aggregate(new)]: the value left in [self] and the result *)
  aggregate : Metric -> Metric -> Metric * option MetricError;
  into_iter : Metric -> list (bytes * Float);
  (* [Metric::new(value, MetricType::Counter, None, None)] *)
  new_counter : Float -> MetricError + Metric
}.

(** A measure that a successful [aggregate] adds up: the number of samples of a
    timer, the sum of a counter, the number of updates. *)
Class Additive {ML : MetricLib} (w : Metric -> Z) : Prop :=
  additive : forall a b a', aggregate a b = (a', None) -> w a' = w a + w b.

(** ** [bioyino_metric::parser::MetricParser]

    An iterator over a buffer it consumes; it yields metrics and calls its error
    handler in between. *)
Inductive ParseEvent {ML : MetricLib} :=
| PMetric (name : bytes) (m : Metric)
| PError (input : bytes) (pos : Z).

Class ParserLib (B : BytesLib) (ML : MetricLib) := {
  (* [MetricParser::new(buf, max_unparsed, _)] iterated to its end: what it
     yields and reports, and the buffer afterwards *)
  metric_parser : BytesMut -> Z -> list ParseEvent * BytesMut
}.

(** ** [tokio::timer]: whether [Interval::new] accepts a period *)
Class TimerLib := { interval_ok : Duration -> bool }.

(** Documented: [Interval::new] panics when the period is zero. *)
Class TimerOk (T : TimerLib) : Prop :=
  interval_nonzero ms : 0 <= ms -> (interval_ok (from_millis ms) = true <-> ms <> 0).

(** ** [tokio]: where [spawn] may be called *)
Inductive ExecCtx := CurrentThread | RayonPool.

Class ExecutorLib := { can_spawn : ExecCtx -> bool }.

(** Documented: [tokio::runtime::current_thread::spawn] panics when it is called
    outside of a current_thread executor. *)
Class ExecutorOk (X : ExecutorLib) : Prop := {
  spawn_on_executor : can_spawn CurrentThread = true;
  spawn_off_executor : can_spawn RayonPool = false
}.

(** ** Iteration order of a [HashMap]: unspecified, each entry once *)
Class HashIter := {
  hiter : forall {K V} `{Countable K}, gmap K V -> list (K * V)
}.
Class HashIterOk (HI : HashIter) : Prop :=
  hiter_perm : forall K V (HE : EqDecision K) (HC : Countable K) (m : gmap K V),
    hiter m ≡ₚ map_to_list m.

(** ** Reference instances *)

(** A buffer as its contents and spare capacity. *)
#[export] Instance RefBytes : BytesLib := {|
  BytesMut := bytes * Z;
  contents := fst;
  remaining_mut b := Z.max 0 b.2;
  with_capacity n := ([], n);
  reserve n b := (b.1, Z.max b.2 n);
  put s b := if decide (blen s <= Z.max 0 b.2) then Some (b.1 ++ s, Z.max 0 b.2 - blen s)
             else None;
  extend_from_slice s b := (b.1 ++ s, Z.max 0 (b.2 - blen s));
  take b := (b.1, ([], b.2))
|}.

#[export] Instance RefBytesOk : BytesOk RefBytes.
Proof.
  split; simpl; intros; try done; try lia.
  - rewrite decide_True by done. eexists; split; [done|]. simpl.
    pose proof (blen_nonneg s). split; [done|lia].
  - rewrite decide_False by lia. done.
Qed.

(** Metrics as counters with an update count; a gauge has another kind and does
    not aggregate with a counter. *)
Record RefMetric := { rm_gauge : bool; rm_value : Z; rm_updates : Z }.

#[export] Instance RefMetricLib : MetricLib := {|
  Metric := RefMetric;
  MetricError := unit;
  update_counter := rm_updates;
  aggregate a b :=
    if eqb (rm_gauge a) (rm_gauge b) then
      ({| rm_gauge := rm_gauge a;
          rm_value := if rm_gauge a then rm_value b else rm_value a + rm_value b;
          rm_updates := rm_updates a + rm_updates b |}, None)
    else (a, Some tt);
  into_iter a := [([], u64_to_f64 (rm_value a))];
  new_counter f := inr {| rm_gauge := false; rm_value := f32_to_u64 f; rm_updates := 1 |}
|}.

#[export] Instance RefAdditive : Additive rm_updates.
Proof. intros a b a'. simpl. destruct (eqb _ _); [|done]. by intros [= <-]. Qed.

(** One metric [x] per line of the form [x\n], everything else kept. *)
#[export] Instance RefParserLib : ParserLib RefBytes RefMetricLib := {|
  metric_parser b _ :=
    match b.1 with
    | c :: d :: rest =>
        if decide (d = ascii_LF)
        then ([PMetric [c] {| rm_gauge := false; rm_value := 1; rm_updates := 1 |}],
              (rest, b.2))
        else ([PError b.1 0], ([], b.2))
    | _ => ([], b)
    end
|}.

#[export] Instance RefExecutorLib : ExecutorLib := {|
  can_spawn c := match c with CurrentThread => true | RayonPool => false end
|}.
#[export] Instance RefExecutorOk : ExecutorOk RefExecutorLib.
Proof. by split. Qed.

#[export] Instance RefHashIter : HashIter := {| hiter := fun K V _ _ m => map_to_list m |}.
#[export] Instance RefHashIterOk : HashIterOk RefHashIter.
Proof. by intros ?????. Qed.

#[export] Instance RefTimer : TimerLib :=
  {| interval_ok d := negb ((as_secs d =? 0) && (subsec_nanos d =? 0)) |}.
#[export] Instance RefTimerOk : TimerOk RefTimer.
Proof.
  intros ms H. cbn. rewrite negb_true_iff, andb_false_iff, !Z.eqb_neq.
  pose proof (Z.div_mod ms 1000 ltac:(lia)). pose proof (Z.mod_pos_bound ms 1000 ltac:(lia)). lia.
Qed.
