(* ===== verification/Globals.v ===== *)
(** * Global state of the process and the types shared by the components

    [src/src/main.rs] lines 50-100: the statistic counters, the leader flag and
    the consensus state; the option types of [aggregate.rs] and [util.rs] that
    several components pass around; and the effects by which components reach
    each other (channels, counters). *)

From S2P Require Import Prelude Interfaces.

(** ** Statistic counters: one [AtomicUsize] each *)
Inductive Counter :=
| PARSE_ERRORS | AGG_ERRORS | PEER_ERRORS | INGRESS | INGRESS_METRICS | EGRESS | DROPS.

#[export] Instance Counter_eq_dec : EqDecision Counter.
Proof. solve_decision. Defined.

Definition Stats := Counter -> Z.

(** [static X: AtomicUsize = AtomicUsize::new(0)] for each counter. *)
Definition initial_stats : Stats := fun _ => 0.

(** [fetch_add] wraps around on overflow. *)
Definition fetch_add (c : Counter) (n : Z) (st : Stats) : Stats :=
  fun d => if decide (c = d) then wrap64 (st d + n) else st d.

(** [swap(0)]: the old value and the state with the counter reset. *)
Definition swap0 (c : Counter) (st : Stats) : Z * Stats :=
  (st c, fun d => if decide (c = d) then 0 else st d).

(** ** Consensus *)
Module ConsensusState.
Inductive t := Enabled | Paused | Disabled.

#[global] Instance eq_dec : EqDecision t.
Proof. solve_decision. Defined.

(** [impl FromStr for ConsensusState]; [None] is [GeneralError::UnknownState]. *)
Definition from_str (s : string) : option t :=
  if decide (s = "enabled" \/ s = "enable") then Some Enabled
  else if decide (s = "disabled" \/ s = "disable") then Some Disabled
  else if decide (s = "pause" \/ s = "paused") then Some Paused
  else None.
End ConsensusState.

Module ConsensusKind.
Inductive t := None | Consul | Internal.

#[global] Instance eq_dec : EqDecision t.
Proof. solve_decision. Defined.
End ConsensusKind.

(** [CONSENSUS_STATE] and [IS_LEADER]: the leadership state every thread sees. *)
Record Leadership := mkLeadership {
  consensus_state : ConsensusState.t;
  is_leader : bool
}.

(** The values the statics are initialised with. *)
Definition initial_leadership : Leadership :=
  {| consensus_state := ConsensusState.Disabled; is_leader := false |}.

(** ** Aggregation options *)
Module AggregationMode.
Inductive t := Single | Common | Separate.

#[global] Instance eq_dec : EqDecision t.
Proof. solve_decision. Defined.
End AggregationMode.

(** [util::UpdateCounterOptions] *)
Record UpdateCounterOptions := {
  uco_threshold : Z;
  uco_prefix : bytes;
  uco_suffix : bytes
}.

(** [aggregate::AggregateOptions] *)
Record AggregateOptions := {
  ao_is_leader : bool;
  ao_update_counter : option UpdateCounterOptions;
  ao_aggregation_mode : AggregationMode.t;
  ao_multi_threads : Z
}.

(** ** Channels and effects

    The sending half of a channel: its identity, and whether its receiver still
    exists when the message is sent (a send to a dropped receiver fails). *)
Record Chan := { ch_id : nat; ch_open : bool }.

(** [type Cache = HashMap<Bytes, Metric<Float>>] *)
Abbreviation Cache := (gmap (list Ascii.ascii) Metric).

Section effects.
Context {ML : MetricLib}.

(** What running code does to the rest of the process. *)
Inductive Effect :=
| Count (c : Counter) (n : Z)            (* [c.fetch_add(n, Relaxed)] *)
| SendCache (ch : nat) (m : Cache)             (* oneshot reply *)
| SendValue (ch : nat) (v : bytes * Float).     (* message to the backend *)

(** The counters after a sequence of effects. *)
Definition apply_effect (st : Stats) (e : Effect) : Stats :=
  match e with Count c n => fetch_add c n st | _ => st end.

Definition apply_effects (st : Stats) (es : list Effect) : Stats :=
  foldl apply_effect st es.

(** The total that a list of effects adds to a counter. *)
Fixpoint counted (c : Counter) (es : list Effect) : Z :=
  match es with
  | [] => 0
  | Count d n :: es => (if decide (d = c) then n else 0) + counted c es
  | _ :: es => counted c es
  end.

(** The replies and the backend messages of a list of effects, in order. *)
Definition caches_sent (es : list Effect) : list (nat * Cache) :=
  omap (fun e => match e with SendCache ch m => Some (ch, m) | _ => None end) es.

Definition values_sent (es : list Effect) : list (nat * (bytes * Float)) :=
  omap (fun e => match e with SendValue ch v => Some (ch, v) | _ => None end) es.

Lemma counted_app c es es' : counted c (es ++ es') = counted c es + counted c es'.
Proof. induction es as [|[] es IH]; simpl; lia. Qed.

Lemma caches_sent_app es es' : caches_sent (es ++ es') = caches_sent es ++ caches_sent es'.
Proof. apply omap_app. Qed.

Lemma values_sent_app es es' : values_sent (es ++ es') = values_sent es ++ values_sent es'.
Proof. apply omap_app. Qed.

(** Counters depend only on the totals, not on the order of the effects. *)
Lemma apply_effects_counted st es c :
  0 <= st c < 2 ^ 64 ->
  apply_effects st es c = wrap64 (st c + counted c es).
Proof.
  unfold apply_effects. revert st; induction es as [|e es IH]; intros st Hst; simpl.
  - by rewrite Z.add_0_r, wrap64_small.
  - destruct e as [d n| |]; [|by apply IH..].
    rewrite IH; simpl; unfold fetch_add; [|case_decide; [apply wrap64_range|done]].
    case_decide; [|done]. rewrite wrap64_add_l. f_equal; lia.
Qed.
End effects.

#[export] Hint Rewrite @counted_app @caches_sent_app @values_sent_app : bio.
