(* ===== verification/Config.v ===== *)
(** * Configuration ([src/src/config.rs])

    The configuration records with their default values and the options derived
    from them.  Deserialisation (serde, toml) and the command line (clap) are
    outside; [Cli.v] models what [System::load] does with their results. *)

From S2P Require Import Prelude Interfaces Globals.

Record Metrics := mkMetrics {
  count_updates : bool;
  update_counter_prefix : string;
  update_counter_suffix : string;
  update_counter_threshold : Z;
  consistent_parsing : bool;
  log_parse_errors : bool;
  max_unparsed_buffer : Z;
  aggregation_mode : AggregationMode.t;
  aggregation_threads : option Z
}.

Definition Metrics_default : Metrics := {|
  count_updates := true;
  update_counter_prefix := "resources.monitoring.bioyino.updates";
  update_counter_suffix := EmptyString;
  update_counter_threshold := 200;
  consistent_parsing := true;
  log_parse_errors := false;
  max_unparsed_buffer := 10000;
  aggregation_mode := AggregationMode.Single;
  aggregation_threads := None
|}.

Record Carbon := mkCarbon {
  carbon_address : string;
  bind_address : option SocketAddr;
  interval : Z;
  connect_delay : Z;
  connect_delay_multiplier : Float;
  connect_delay_max : Z;
  send_retries : Z;
  chunks : Z
}.

Definition Carbon_default : Carbon := {|
  carbon_address := "127.0.0.1:2003";
  bind_address := None;
  interval := 30000;
  connect_delay := 250;
  connect_delay_multiplier := u64_to_f32 2;
  connect_delay_max := 10000;
  send_retries := 30;
  chunks := 1
|}.

Record Network := mkNetwork {
  listen : SocketAddr;
  peer_listen : SocketAddr;
  peer_client_bind : option SocketAddr;
  mgmt_listen : SocketAddr;
  bufsize : Z;
  multimessage : bool;
  mm_packets : Z;
  mm_async : bool;
  mm_timeout : Z;
  buffer_flush_time : Z;
  buffer_flush_length : Z;
  greens : Z;
  async_sockets : Z;
  nodes : list string;
  snapshot_interval : Z
}.

Definition Network_default : Network := {|
  listen := V4 127 0 0 1 8125;
  peer_listen := V4 127 0 0 1 8136;
  peer_client_bind := None;
  mgmt_listen := V4 127 0 0 1 8137;
  bufsize := 1500;
  multimessage := false;
  mm_packets := 100;
  mm_async := false;
  mm_timeout := 0;
  buffer_flush_length := 0;
  buffer_flush_time := 0;
  greens := 4;
  async_sockets := 4;
  nodes := [];
  snapshot_interval := 1000
|}.

Record Consul := mkConsul {
  start_as : ConsensusState.t;
  agent : SocketAddr;
  session_ttl : Z;
  renew_time : Z;
  key_name : string
}.

Definition Consul_default : Consul := {|
  start_as := ConsensusState.Disabled;
  agent := V4 127 0 0 1 8500;
  session_ttl := 11000;
  renew_time := 1000;
  key_name := "service/bioyino/lock"
|}.

Record Raft := mkRaft {
  start_delay : Z;
  heartbeat_timeout : Z;
  election_timeout_min : Z;
  election_timeout_max : Z;
  this_node : option string;
  raft_nodes : gmap string Z;
  client_bind : option SocketAddr
}.

Definition Raft_default : Raft := {|
  start_delay := 0;
  heartbeat_timeout := 250;
  election_timeout_min := 500;
  election_timeout_max := 750;
  this_node := None;
  raft_nodes := ∅;
  client_bind := None
|}.

(** [raft_tokio::RaftOptions]: the heartbeat and the election timeout range. *)
Record RaftOptions := mkRaftOptions {
  ro_heartbeat_timeout : Duration;
  ro_election_timeout : Duration * Duration
}.

Definition get_raft_options (r : Raft) : RaftOptions := {|
  ro_heartbeat_timeout := from_millis (heartbeat_timeout r);
  ro_election_timeout := (from_millis (election_timeout_min r),
                          from_millis (election_timeout_max r))
|}.

Record System := mkSystem {
  verbosity : string;
  network : Network;
  raft : Raft;
  consul : Consul;
  metrics : Metrics;
  carbon : Carbon;
  n_threads : Z;
  w_threads : Z;
  task_queue_size : Z;
  start_as_leader : bool;
  stats_interval : Z;
  stats_prefix : string;
  consensus : ConsensusKind.t
}.

Definition System_default : System := {|
  verbosity := "warn";
  network := Network_default;
  raft := Raft_default;
  consul := Consul_default;
  metrics := Metrics_default;
  carbon := Carbon_default;
  n_threads := 4;
  w_threads := 4;
  stats_interval := 10000;
  task_queue_size := 2048;
  start_as_leader := false;
  stats_prefix := "resources.monitoring.bioyino";
  consensus := ConsensusKind.None
|}.
