(* ===== verification/Task.v ===== *)
(** * Worker tasks ([src/src/task.rs])

    A counting thread owns a [TaskRunner] and folds [run] over the tasks it
    receives: it parses buffers into the short cache, merges snapshots of other
    nodes into the long cache, hands out snapshots and rotated data, and formats
    aggregated metrics. *)

From S2P Require Import Prelude Interfaces Globals Config.

Section task.
Context {BL : BytesLib} {ML : MetricLib} {PL : ParserLib BL ML}.
Context {XL : ExecutorLib} {HI : HashIter}.

(** ** Data *)

Record AggregateData := mkAggregateData {
  ad_buf : BytesMut;
  ad_name : bytes;
  ad_metric : Metric;
  ad_options : AggregateOptions;
  ad_response : Chan
}.

Inductive Task :=
| Parse (addr : Z) (buf : bytes)
| AddMetric (name : bytes) (metric : Metric)
| AddMetrics (list : list (bytes * Metric))
| AddSnapshot (list : list (bytes * Metric))
| TakeSnapshot (channel : Chan)
| Rotate (channel : Chan)
| Aggregate (data : AggregateData).

Record TaskRunner := mkTaskRunner {
  long : Cache;
  short : Cache;
  buffers : gmap Z (Z * BytesMut);
  config : System
}.

Definition TaskRunner_new (cf : System) : TaskRunner :=
  {| long := ∅; short := ∅; buffers := ∅; config := cf |}.

(** ** Operations *)

(** Aggregates into an occupied entry, inserts into a vacant one; an aggregation
    error is counted and leaves in the entry what [aggregate] left. *)
Definition update_metric (cache : Cache) (nm : bytes * Metric) : Cache * list Effect :=
  let '(name, metric) := nm in
  match cache !! name with
  | Some old =>
      let '(old', res) := aggregate old metric in
      (<[name := old']> cache,
       match res with Some _ => [Count AGG_ERRORS 1] | None => [] end)
  | None => (<[name := metric]> cache, [])
  end.

(** The body of the loop over the parser, with the error handler
    [TaskParseErrorHandler::handle]. *)
Definition parse_event (cache : Cache) (ev : ParseEvent) : Cache * list Effect :=
  match ev with
  | PMetric name metric =>
      let '(cache, es) := update_metric cache (name, metric) in
      (cache, Count INGRESS_METRICS 1 :: es)
  | PError _ _ => (cache, [Count PARSE_ERRORS 1])
  end.

Definition run_parse (r : TaskRunner) (addr : Z) (buf : bytes)
  : option (TaskRunner * list Effect) :=
  let entry := match buffers r !! addr with
               | Some (_, b) => b
               | None => with_capacity (blen buf)
               end in
  prev_buf ← put buf (reserve (blen buf) entry);
  let '(evs, rest) := metric_parser prev_buf (max_unparsed_buffer (metrics (config r))) in
  let '(short', es) := foldE parse_event (short r) evs in
  Some ({| long := long r; short := short'; buffers := <[addr := (0, rest)]> (buffers r);
           config := config r |}, es).

(** Buffers that saw no data for five rotations are dropped. *)
Definition retain_buffer (tb : Z * BytesMut) : option (Z * BytesMut) :=
  let '(times, b) := tb in
  let times := wrap64 (times + 1) in
  if decide (times < 5) then Some (times, b) else None.

(** [spawn]: panics off a current_thread executor; the spawned future sends, and
    counts an error when the receiver is gone. *)
Definition spawn_send (ctx : ExecCtx) (response : Chan) (v : bytes * Float)
  : option (list Effect) :=
  if can_spawn ctx then
    Some (if ch_open response then [SendValue (ch_id response) v] else [Count AGG_ERRORS 1])
  else panic.

(** The name and value of the update counter metric, when it is to be sent. *)
Definition update_counter_value (options : AggregateOptions) (buf : BytesMut)
    (name : bytes) (metric : Metric) : option (BytesMut * option (bytes * Float)) :=
  match ao_update_counter options with
  | Some o =>
      if decide (update_counter metric > uco_threshold o) then
        let cut_len := blen (uco_prefix o) + blen name + blen (uco_suffix o) + 2 in
        let buf := reserve cut_len buf in
        buf ← (if decide (blen (uco_prefix o) > 0)
               then buf ← put (uco_prefix o) buf; put (bs ".") buf
               else Some buf);
        buf ← put name buf;
        buf ← (if decide (blen (uco_suffix o) > 0)
               then buf ← put (bs ".") buf; put (uco_suffix o) buf
               else Some buf);
        let '(counter, buf) := take buf in
        Some (buf, Some (counter, u64_to_f64 (update_counter metric)))
      else Some (buf, None)
  | None => Some (buf, None)
  end.

(** The closure that renames each value: [buf] is reused between calls. *)
Definition rename_value (name : bytes) (buf : BytesMut) (sv : bytes * Float)
  : BytesMut * list (bytes * Float) :=
  let '(suffix, value) := sv in
  let buf := extend_from_slice name buf in
  let buf := extend_from_slice suffix buf in
  let '(full, buf) := take buf in
  (buf, [(full, value)]).

Definition aggregate_task (ctx : ExecCtx) (data : AggregateData) : option (list Effect) :=
  let '(mkAggregateData buf name metric options response) := data in
  '(buf, upd) ← update_counter_value options buf name metric;
  let values := snd (foldE (rename_value name) buf (into_iter metric)) in
  '(_, es) ← foldEP (fun _ v => es ← spawn_send ctx response v; Some ((), es))
               () (values ++ option_list upd);
  Some es.

(** [TaskRunner::run]; a worker runs on a current_thread executor. *)
Definition run (r : TaskRunner) (task : Task) : option (TaskRunner * list Effect) :=
  match task with
  | Parse addr buf => run_parse r addr buf
  | AddMetric name metric =>
      let '(short', es) := update_metric (short r) (name, metric) in
      Some ({| long := long r; short := short'; buffers := buffers r; config := config r |}, es)
  | AddMetrics l =>
      let '(short', es) := foldE update_metric (short r) l in
      Some ({| long := long r; short := short'; buffers := buffers r; config := config r |}, es)
  | AddSnapshot l =>
      let '(long', es) := foldE update_metric (long r) l in
      Some ({| long := long'; short := short r; buffers := buffers r; config := config r |}, es)
  | TakeSnapshot channel =>
      let snapshot := short r in
      let '(long', es) := foldE update_metric (long r) (hiter (short r)) in
      Some ({| long := long'; short := ∅; buffers := buffers r; config := config r |},
            es ++ (if ch_open channel then [SendCache (ch_id channel) snapshot]
                   else [Count PEER_ERRORS 1]))
  | Rotate channel =>
      let rotated := long r in
      Some ({| long := ∅; short := short r; buffers := omap retain_buffer (buffers r);
               config := config r |},
            if ch_open channel then [SendCache (ch_id channel) rotated]
            else [Count DROPS 1])
  | Aggregate data => es ← aggregate_task CurrentThread data; Some (r, es)
  end.

(** The worker thread: [rx.fold(runner, |runner, task| runner.run(task))]. *)
Definition run_all (r : TaskRunner) (tasks : list Task) : option (TaskRunner * list Effect) :=
  foldEP run r tasks.

Definition get_long_entry (r : TaskRunner) (e : bytes) : option Metric := long r !! e.
Definition get_short_entry (r : TaskRunner) (e : bytes) : option Metric := short r !! e.

(** ** Effects of the code that feeds the workers *)

(** Those of any code, and tasks sent to the worker behind a channel. *)
Inductive NodeEffect :=
| Plain (e : Effect)
| SendTask (ch : nat) (t : Task).

Definition plain (es : list NodeEffect) : list Effect :=
  omap (fun e => match e with Plain e => Some e | SendTask _ _ => None end) es.
Definition tasks_sent (es : list NodeEffect) : list (nat * Task) :=
  omap (fun e => match e with SendTask c t => Some (c, t) | Plain _ => None end) es.

(** ** Reference definitions *)

(** Merging a cache into another, key by key. *)
Definition merge_entry (old new : option Metric) : option Metric :=
  match old, new with
  | Some o, Some n => Some (fst (aggregate o n))
  | None, n => n
  | o, None => o
  end.

Definition merge_cache (long short : Cache) : Cache := merge merge_entry long short.

(** The values a metric is sent as. *)
Definition counter_name (o : UpdateCounterOptions) (name : bytes) : bytes :=
  (if decide (uco_prefix o = []) then [] else uco_prefix o ++ bs ".") ++ name ++
  (if decide (uco_suffix o = []) then [] else bs "." ++ uco_suffix o).

Definition metric_values (options : AggregateOptions) (name : bytes) (metric : Metric)
  : list (bytes * Float) :=
  map (fun sv => (name ++ fst sv, snd sv)) (into_iter metric) ++
  match ao_update_counter options with
  | Some o => if decide (update_counter metric > uco_threshold o)
              then [(counter_name o name, u64_to_f64 (update_counter metric))] else []
  | None => []
  end.

Lemma plain_map es : plain (map Plain es) = es.
Proof. unfold plain. induction es as [|e es IH]; [done|]. cbn. by f_equal. Qed.

Lemma plain_app es es' : plain (es ++ es') = plain es ++ plain es'.
Proof. apply omap_app. Qed.

Lemma tasks_sent_app es es' : tasks_sent (es ++ es') = tasks_sent es ++ tasks_sent es'.
Proof. apply omap_app. Qed.

Lemma tasks_sent_plain es : tasks_sent (map Plain es) = [].
Proof. by induction es. Qed.
End task.
