(* ===== verification/TaskFacts.v ===== *)
(** * Facts about the operations of a worker ([src/src/task.rs])

    Buffers with reserved room, the values a metric is formatted to, and the merge
    of caches and its errors, independently of the iteration order of the maps. *)

From S2P Require Import Prelude Interfaces Globals Config Task.

(** ** Buffers *)
Section buffers.
Context {BL : BytesLib} {BOK : BytesOk BL}.

(** A [put] with room, in continuation style. *)
Lemma put_bind {A} s b (k : BytesMut -> option A) (P : option A -> Prop) :
  blen s <= remaining_mut b ->
  (forall b', contents b' = contents b ++ s ->
              remaining_mut b' = remaining_mut b - blen s -> P (k b')) ->
  P (b' ← put s b; k b').
Proof.
  intros Hr Hk. destruct (put_ok s b Hr) as (b' & Hput & Hc & Hrem).
  rewrite Hput. simpl. by apply Hk.
Qed.

Lemma put_reserved s b :
  exists b', put s (reserve (blen s) b) = Some b' /\ contents b' = contents b ++ s.
Proof.
  destruct (put_ok s (reserve (blen s) b)) as (b' & Hput & Hc & _).
  { apply reserve_room. }
  exists b'. by rewrite Hc, reserve_contents.
Qed.
End buffers.

(** ** Formatting of aggregated metrics *)
Section aggregate_task.
Context {BL : BytesLib} {BOK : BytesOk BL}.
Context {ML : MetricLib} {PL : ParserLib BL ML}.
Context {XL : ExecutorLib} {XOK : ExecutorOk XL}.

Lemma update_counter_value_spec options buf name metric :
  exists buf' upd,
    update_counter_value options buf name metric = Some (buf', upd) /\
    (contents buf = [] -> contents buf' = []) /\
    option_list upd =
      match ao_update_counter options with
      | Some o => if decide (update_counter metric > uco_threshold o)
                  then [(contents buf ++ counter_name o name,
                         u64_to_f64 (update_counter metric))] else []
      | None => []
      end.
Proof.
  unfold update_counter_value, counter_name.
  destruct (ao_update_counter options) as [[th pre suf]|]; [|by eauto].
  simpl. case_decide; [|by eauto].
  set (cut := blen pre + blen name + blen suf + 2).
  pose proof (reserve_room cut buf) as Hroom.
  rewrite <-(reserve_contents cut buf).
  revert Hroom. generalize (reserve cut buf) as b0. intros b0 Hroom. subst cut.
  assert (Hlen : forall l : bytes, (blen l > 0) <-> l <> []).
  { intros []; unfold blen; simpl; split; intros; try done; lia. }
  assert (H1 : blen (bs ".") = 1) by done.
  pose proof (blen_nonneg pre); pose proof (blen_nonneg name);
    pose proof (blen_nonneg suf).
  assert (Hfin : forall b, contents (snd (take b)) = [] /\ fst (take b) = contents b).
  { intros b. by rewrite take_contents, take_fst. }
  repeat case_decide; simplify_eq/=; rewrite Hlen in *; try done;
    repeat (first
      [ apply put_bind; [lia|intros ? ? ?]
      | rewrite <-option_bind_assoc ]);
    try (destruct (take _) as [full rest] eqn:Ht;
         match goal with _ : take ?b = _ |- _ =>
           pose proof (Hfin b) as [Hf1 Hf2]; rewrite Ht in Hf1, Hf2 end;
         simpl in *; do 2 eexists; split; [done|]; split; [done|];
         simpl; do 2 f_equal; rewrite Hf2;
         repeat match goal with H : contents _ = _ |- _ => rewrite H; clear H end;
         by rewrite ?app_nil_r, <-?app_assoc).
Qed.

Lemma rename_values_spec name buf l :
  contents buf = [] ->
  snd (foldE (rename_value name) buf l) = map (fun sv => (name ++ fst sv, snd sv)) l.
Proof.
  revert buf. induction l as [|[suf v] l IH]; intros buf Hb; [done|]. simpl.
  set (b := extend_from_slice suf (extend_from_slice name buf)).
  pose proof (take_fst b) as Hf. pose proof (take_contents b) as Hs.
  destruct (take b) as [full rest]. simpl in *.
  specialize (IH rest Hs). destruct (foldE _ rest l) as [b' vs]. simpl in *.
  rewrite Hf, IH. unfold b. by rewrite !extend_contents, Hb.
Qed.

(** What the spawned sends do, on an executor. *)
Definition response_effects (response : Chan) (vs : list (bytes * Float)) : list Effect :=
  map (fun v => if ch_open response then SendValue (ch_id response) v
                else Count AGG_ERRORS 1) vs.

Lemma spawn_all_spec response vs :
  foldEP (fun _ v => es ← spawn_send CurrentThread response v; Some ((), es)) () vs
  = Some ((), response_effects response vs).
Proof.
  induction vs as [|v vs IH]; [done|]. cbn [foldEP].
  unfold spawn_send at 1. rewrite spawn_on_executor.
  by destruct (ch_open response) eqn:E; simpl in *; rewrite IH;
    unfold response_effects; simpl; rewrite E.
Qed.

Lemma aggregate_task_total data : is_Some (aggregate_task CurrentThread data).
Proof.
  destruct data as [buf name metric options response]. simpl.
  destruct (update_counter_value_spec options buf name metric) as (buf' & upd & -> & _).
  simpl. rewrite spawn_all_spec. by eexists.
Qed.

Lemma aggregate_task_values data :
  contents (ad_buf data) = [] ->
  aggregate_task CurrentThread data =
  Some (response_effects (ad_response data)
          (metric_values (ad_options data) (ad_name data) (ad_metric data))).
Proof.
  destruct data as [buf name metric options response]. simpl. intros Hb.
  destruct (update_counter_value_spec options buf name metric)
    as (buf' & upd & -> & Hb' & Hupd). simpl.
  rewrite rename_values_spec by auto. rewrite Hb in Hupd. rewrite spawn_all_spec. simpl.
  unfold metric_values. by rewrite Hupd.
Qed.
End aggregate_task.

(** ** Merging caches *)
Section merging.
Context {ML : MetricLib}.

Lemma update_metric_lookup c k m j :
  fst (update_metric c (k, m)) !! j =
  if decide (k = j) then merge_entry (c !! j) (Some m) else c !! j.
Proof.
  simpl. destruct (c !! k) as [old|] eqn:Hk.
  - destruct (aggregate old m) as [old' res] eqn:Ha. simpl.
    case_decide; subst; [|by rewrite lookup_insert_ne].
    by rewrite lookup_insert_eq, Hk; simpl; rewrite Ha.
  - simpl. case_decide; subst; [|by rewrite lookup_insert_ne].
    by rewrite lookup_insert_eq, Hk.
Qed.

Lemma foldE_update_lookup l c j :
  NoDup l.*1 ->
  fst (foldE update_metric c l) !! j =
  merge_entry (c !! j) ((list_to_map l : Cache) !! j).
Proof.
  revert c. induction l as [|[k m] l IH]; intros c Hnd.
  { by destruct (c !! j) eqn:E; simpl; rewrite lookup_empty, E. }
  apply list.NoDup_cons in Hnd as [Hk Hnd]. cbn [foldE].
  pose proof (update_metric_lookup c k m) as Hl.
  destruct (update_metric c (k, m)) as [c1 e1].
  specialize (IH c1 Hnd). destruct (foldE update_metric c1 l) as [c2 e2]. simpl in *.
  rewrite IH, Hl. rewrite lookup_insert. case_decide; [subst|done].
  rewrite (not_elem_of_list_to_map_1 l j) by done.
  by destruct (c !! j).
Qed.

(** The errors a merge counts: the keys of both caches that do not aggregate. *)
Definition entry_error (c : Cache) (km : bytes * Metric) : Z :=
  match c !! fst km with
  | Some old => match snd (aggregate old (snd km)) with Some _ => 1 | None => 0 end
  | None => 0
  end.

Definition merge_errors (long short : Cache) : Z :=
  map_fold (fun k m n => entry_error long (k, m) + n) 0 short.

Definition sum_errors (c : Cache) (l : list (bytes * Metric)) : Z :=
  foldr (fun km n => entry_error c km + n) 0 l.

Lemma update_metric_counted c km d :
  counted d (snd (update_metric c km)) =
  if decide (d = AGG_ERRORS) then entry_error c km else 0.
Proof.
  destruct km as [k m]. unfold entry_error. simpl.
  destruct (c !! k) as [old|]; [|by case_decide].
  destruct (aggregate old m) as [? [?|]]; simpl; repeat case_decide; done || congruence.
Qed.

Lemma foldE_update_counted l c d :
  NoDup l.*1 ->
  counted d (snd (foldE update_metric c l)) =
  if decide (d = AGG_ERRORS) then sum_errors c l else 0.
Proof.
  revert c. induction l as [|[k m] l IH]; intros c Hnd.
  { by case_decide. }
  apply list.NoDup_cons in Hnd as [Hk Hnd]. cbn [foldE].
  pose proof (update_metric_counted c (k, m) d) as Hc.
  pose proof (update_metric_lookup c k m) as Hl.
  destruct (update_metric c (k, m)) as [c1 e1]. specialize (IH c1 Hnd).
  destruct (foldE update_metric c1 l) as [c2 e2]. simpl in *.
  rewrite counted_app, Hc, IH. case_decide; [|done]. f_equal.
  clear -Hk Hl. revert Hk. unfold sum_errors.
  induction l as [|[j x] l IHl]; intros Hk; [done|]. simpl in *.
  rewrite IHl by set_solver. unfold entry_error; simpl. rewrite Hl.
  rewrite decide_False by set_solver. done.
Qed.

Lemma sum_errors_perm c l l' : l ≡ₚ l' -> sum_errors c l = sum_errors c l'.
Proof.
  induction 1; unfold sum_errors in *; simpl; try lia.
Qed.

Context {HI : HashIter} {HIOK : HashIterOk HI}.

Lemma hiter_NoDup {V} (m : gmap bytes V) : NoDup (hiter m).*1.
Proof. rewrite (hiter_perm _ _ _ _ m). apply NoDup_fst_map_to_list. Qed.

Lemma hiter_to_map {V} (m : gmap bytes V) : list_to_map (hiter m) = m.
Proof.
  rewrite <-(list_to_map_to_list m) at 2.
  apply list_to_map_proper; [apply hiter_NoDup|apply hiter_perm].
Qed.

Lemma hiter_empty {V} : hiter (∅ : gmap bytes V) = [].
Proof.
  apply Permutation_nil_r. rewrite (hiter_perm _ _ _ _ (∅ : gmap bytes V)).
  by rewrite map_to_list_empty.
Qed.

(** Entries with different names are merged key by key. *)
Lemma drain_list (c : Cache) (l : list (bytes * Metric)) :
  NoDup l.*1 -> fst (foldE update_metric c l) = merge_cache c (list_to_map l).
Proof.
  intros Hnd. apply map_eq. intros j. rewrite foldE_update_lookup by done.
  unfold merge_cache. rewrite lookup_merge.
  by destruct (c !! j), ((list_to_map l : Cache) !! j).
Qed.

(** Draining a hash map into a cache is the key-wise merge, whatever the order
    in which the map yields its entries. *)
Lemma drain_merge (c m : Cache) :
  fst (foldE update_metric c (hiter m)) = merge_cache c m.
Proof. by rewrite drain_list, hiter_to_map by apply hiter_NoDup. Qed.

Lemma drain_counted (c m : Cache) d :
  counted d (snd (foldE update_metric c (hiter m))) =
  if decide (d = AGG_ERRORS) then merge_errors c m else 0.
Proof.
  rewrite foldE_update_counted by apply hiter_NoDup. case_decide; [|done].
  unfold merge_errors. rewrite map_fold_foldr.
  rewrite (sum_errors_perm _ _ _ (hiter_perm _ _ _ _ m)). unfold sum_errors.
  induction (map_to_list m) as [|[k x] l IH]; simpl; [done|]. by rewrite IH.
Qed.

Lemma update_metric_no_caches c km : caches_sent (snd (update_metric c km)) = [].
Proof. destruct km; simpl. repeat case_match; simplify_eq/=; done. Qed.

Lemma foldE_update_no_caches c l : caches_sent (snd (foldE update_metric c l)) = [].
Proof.
  revert c; induction l as [|km l IH]; intros c; [done|]. cbn [foldE].
  pose proof (update_metric_no_caches c km) as H1.
  destruct (update_metric c km) as [c1 e1]. specialize (IH c1).
  destruct (foldE _ c1 l) as [c2 e2]. simpl in *. by rewrite caches_sent_app, H1, IH.
Qed.
End merging.
