(* ===== verification/Worker.v ===== *)
(** * What a worker guarantees ([src/src/task.rs], fold of [main.rs])

    Properties of sequences of tasks: the worker never panics, received snapshots
    never leave in a snapshot of this node, no metric is lost between the caches,
    and a buffer without data lives for five rotations. *)

From S2P Require Import Prelude Interfaces Globals Config Task TaskFacts.

(** ** Observations on a run *)
Section observations.
Context {BL : BytesLib} {ML : MetricLib} {PL : ParserLib BL ML}.
Context {XL : ExecutorLib} {HI : HashIter}.

(** A quantity observed at every step of a run. *)
Fixpoint observe {A} (obs : TaskRunner -> Task -> list A) (r : TaskRunner)
    (tasks : list Task) : list A :=
  match tasks with
  | [] => []
  | t :: ts => obs r t ++ match run r t with
                          | Some (r', _) => observe obs r' ts
                          | None => []
                          end
  end.

(** The snapshots handed out for replication. *)
Definition snapshot_of (r : TaskRunner) (t : Task) : list Cache :=
  match t, run r t with
  | TakeSnapshot _, Some (_, es) => (caches_sent es).*2
  | _, _ => []
  end.
Definition snapshots_taken := observe snapshot_of.

(** The caches taken out by rotation, whether or not somebody still listens. *)
Definition rotated_of (r : TaskRunner) (t : Task) : list Cache :=
  match t with Rotate _ => [long r] | _ => [] end.
Definition rotated := observe rotated_of.

(** The metrics that enter a worker. *)
Definition parsed_metrics (evs : list ParseEvent) : list (bytes * Metric) :=
  omap (fun ev => match ev with PMetric n m => Some (n, m) | PError _ _ => None end) evs.

Definition ingested_of (r : TaskRunner) (t : Task) : list (bytes * Metric) :=
  match t with
  | Parse addr buf =>
      match put buf (reserve (blen buf)
                       (match buffers r !! addr with
                        | Some (_, b) => b | None => with_capacity (blen buf) end)) with
      | Some b => parsed_metrics
                    (fst (metric_parser b (max_unparsed_buffer (metrics (config r)))))
      | None => []
      end
  | AddMetric n m => [(n, m)]
  | AddMetrics l | AddSnapshot l => l
  | _ => []
  end.
Definition ingested := observe ingested_of.

(** The total weight of a cache and of a list of metrics. *)
Definition cache_weight (w : Metric -> Z) (c : Cache) : Z :=
  map_fold (fun _ m n => w m + n) 0 c.
Definition list_weight (w : Metric -> Z) (l : list (bytes * Metric)) : Z :=
  foldr (fun km n => w (snd km) + n) 0 l.
Definition caches_weight (w : Metric -> Z) (l : list Cache) : Z :=
  foldr (fun c n => cache_weight w c + n) 0 l.

(** The number of rotations in a sequence of tasks. *)
Definition is_rotate (t : Task) : bool := match t with Rotate _ => true | _ => false end.
Definition is_add_snapshot (t : Task) : bool :=
  match t with AddSnapshot _ => true | _ => false end.
Definition parses (addr : Z) (t : Task) : bool :=
  match t with Parse a _ => bool_decide (a = addr) | _ => false end.
Definition rotations (ts : list Task) : Z := blen (List.filter is_rotate ts).
End observations.

Section worker.
Context {BL : BytesLib} {ML : MetricLib} {PL : ParserLib BL ML}.
Context {XL : ExecutorLib} {HI : HashIter}.

(** ** Panic freedom *)
Section total.
Context {BOK : BytesOk BL} {XOK : ExecutorOk XL}.

Lemma run_total (r : TaskRunner) (t : Task) : is_Some (run r t).
Proof.
  destruct t; simpl; try (destruct (foldE _ _ _)); try (by eexists).
  - unfold run_parse. destruct (put_reserved buf match buffers r !! addr with
      | Some (_, b) => b | None => with_capacity (blen buf) end) as (b & -> & _).
    simpl. destruct (metric_parser _ _), (foldE _ _ _). by eexists.
  - destruct (short r !! name) as [old|]; [destruct (aggregate old metric)|]; by eexists.
  - destruct (aggregate_task_total data) as [es ->]. by eexists.
Qed.

(** No sequence of tasks makes a worker thread panic: every buffer operation
    of [Parse] and [Aggregate] has room, and the worker runs to the end of any
    list of tasks. *)
Theorem worker_never_panics (r : TaskRunner) (ts : list Task) :
  exists r' es, run_all r ts = Some (r', es).
Proof.
  unfold run_all. revert r. induction ts as [|t ts IH]; intros r; [by do 2 eexists|].
  simpl. destruct (run_total r t) as [[r1 e1] ->]. destruct (IH r1) as (r2 & e2 & ->).
  by do 2 eexists.
Qed.
End total.

(** ** Snapshots *)
Section snapshot.
Context {HIOK : HashIterOk HI}.

Lemma take_snapshot_run (r : TaskRunner) (ch : Chan) :
  exists es,
    run r (TakeSnapshot ch) =
      Some ({| long := merge_cache (long r) (short r); short := ∅;
               buffers := buffers r; config := config r |}, es) /\
    caches_sent es = (if ch_open ch then [(ch_id ch, short r)] else []) /\
    counted AGG_ERRORS es = merge_errors (long r) (short r) /\
    counted PEER_ERRORS es = (if ch_open ch then 0 else 1).
Proof.
  pose proof (drain_merge (long r) (short r)) as Hm.
  pose proof (drain_counted (long r) (short r)) as Hc.
  pose proof (foldE_update_no_caches (long r) (hiter (short r))) as Hn.
  simpl. destruct (foldE update_metric _ _) as [l' es]. simpl in *. subst l'.
  eexists. split; [done|]. autorewrite with bio. rewrite Hn, !Hc.
  by destruct (ch_open ch); simpl; repeat case_decide; simplify_eq; rewrite ?Z.add_0_r.
Qed.

(** Two runners that agree on everything but the long cache. *)
Definition same_short (r1 r2 : TaskRunner) : Prop :=
  short r1 = short r2 /\ buffers r1 = buffers r2 /\ config r1 = config r2.

Lemma run_total_snapshot r l : exists r' es, run r (AddSnapshot l) = Some (r', es).
Proof. simpl. destruct (foldE _ _ _). by do 2 eexists. Qed.

Lemma run_add_snapshot_short r l r' es :
  run r (AddSnapshot l) = Some (r', es) -> same_short r' r.
Proof. simpl. destruct (foldE _ _ _). by intros [= <- <-]. Qed.

Lemma run_same_short r1 r2 t :
  same_short r1 r2 ->
  snapshot_of r1 t = snapshot_of r2 t /\
  match run r1 t, run r2 t with
  | Some (r1', _), Some (r2', _) => same_short r1' r2'
  | None, None => True
  | _, _ => False
  end.
Proof.
  destruct r1 as [l1 s1 b1 c1], r2 as [l2 s2 b2 c2].
  unfold same_short; simpl; intros (-> & -> & ->). unfold snapshot_of.
  destruct t; simpl;
    try (destruct (foldE update_metric l1 _) as [x1 e1] eqn:H1;
         destruct (foldE update_metric l2 _) as [x2 e2] eqn:H2);
    try (destruct (foldE update_metric s2 _)); try done.
  - unfold run_parse; simpl. destruct (put _ _); simpl; [|done].
    destruct (metric_parser _ _), (foldE _ _ _). done.
  - destruct (s2 !! name); [destruct (aggregate _ _)|]; done.
  - pose proof (foldE_update_no_caches l1 (hiter s2)) as Hn1.
    pose proof (foldE_update_no_caches l2 (hiter s2)) as Hn2.
    rewrite H1 in Hn1. rewrite H2 in Hn2. simpl in *.
    autorewrite with bio. by rewrite Hn1, Hn2.
  - by destruct (aggregate_task _ _).
Qed.

Lemma snapshots_same_short r1 r2 ts :
  same_short r1 r2 -> snapshots_taken r1 ts = snapshots_taken r2 ts.
Proof.
  unfold snapshots_taken. revert r1 r2. induction ts as [|t ts IH]; intros r1 r2 Hr; [done|].
  simpl. destruct (run_same_short r1 r2 t Hr) as [-> Hrun]. f_equal.
  destruct (run r1 t) as [[r1' ?]|], (run r2 t) as [[r2' ?]|]; try done. by apply IH.
Qed.

(** C12. Metrics received in a snapshot from another node never leave in a
    snapshot of this node: the snapshots a worker hands out for replication are
    the same when every [AddSnapshot] task is removed from its input, so
    replicated metrics are never replicated again. *)
Theorem snapshots_not_replicated (r : TaskRunner) (ts : list Task) :
  snapshots_taken r ts =
  snapshots_taken r (List.filter (fun t => negb (is_add_snapshot t)) ts).
Proof.
  unfold snapshots_taken. revert r. induction ts as [|t ts IH]; intros r; [done|].
  destruct (is_add_snapshot t) eqn:Ht; cbn [List.filter]; rewrite Ht; cbn [negb].
  - destruct t; try done. destruct (run_total_snapshot r list) as (r' & es & Hrun).
    cbn [observe]. rewrite Hrun. cbn [snapshot_of app]. rewrite <-IH.
    by eapply snapshots_same_short, run_add_snapshot_short.
  - cbn [observe]. f_equal. destruct (run r t) as [[r' es]|]; [apply IH|done].
Qed.
End snapshot.

(** ** Conservation *)
Section conservation.
Context {HIOK : HashIterOk HI} (w : Metric -> Z) {WA : Additive w}.

Lemma cache_weight_empty : cache_weight w ∅ = 0.
Proof. apply map_fold_empty. Qed.

Lemma cache_weight_insert c k m :
  c !! k = None -> cache_weight w (<[k := m]> c) = w m + cache_weight w c.
Proof.
  intros Hk. unfold cache_weight.
  apply (map_fold_insert_L (fun _ m n => w m + n)); [intros; lia|done].
Qed.

Lemma cache_weight_update c k old m :
  c !! k = Some old -> cache_weight w (<[k := m]> c) = cache_weight w c - w old + w m.
Proof.
  intros Hk. rewrite <-(insert_delete_id c k old Hk) at 2.
  rewrite <-insert_delete_eq.
  rewrite !cache_weight_insert by apply lookup_delete_eq. lia.
Qed.

Lemma list_weight_perm l l' : l ≡ₚ l' -> list_weight w l = list_weight w l'.
Proof. induction 1; unfold list_weight in *; simpl; lia. Qed.

Lemma list_weight_hiter (c : Cache) : list_weight w (hiter c) = cache_weight w c.
Proof.
  rewrite (list_weight_perm _ _ (hiter_perm _ _ _ _ c)).
  unfold list_weight, cache_weight. rewrite map_fold_foldr.
  induction (map_to_list c) as [|[k x] l IH]; simpl; [done|]. by rewrite IH.
Qed.

Lemma list_weight_app l l' : list_weight w (l ++ l') = list_weight w l + list_weight w l'.
Proof. unfold list_weight. induction l; simpl; lia. Qed.

Lemma caches_weight_app l l' :
  caches_weight w (l ++ l') = caches_weight w l + caches_weight w l'.
Proof. unfold caches_weight. induction l; simpl; lia. Qed.

Lemma update_metric_weight c km c' es :
  update_metric c km = (c', es) -> counted AGG_ERRORS es = 0 ->
  cache_weight w c' = cache_weight w c + w (snd km).
Proof.
  destruct km as [k m]; simpl. destruct (c !! k) as [old|] eqn:Hk.
  - destruct (aggregate old m) as [old' [e|]] eqn:Ha; intros [= <- <-] Hz; [done|].
    rewrite (cache_weight_update _ _ old) by done.
    pose proof (additive (w := w) _ _ _ Ha). simpl. lia.
  - intros [= <- <-] _. rewrite cache_weight_insert by done. lia.
Qed.

(** All effects of a worker add to counters. *)
Definition adds (es : list Effect) : Prop :=
  Forall (fun e => match e with Count _ n => 0 <= n | _ => True end) es.

Lemma adds_counted es c : adds es -> 0 <= counted c es.
Proof. induction 1 as [|[] es]; simpl; [lia|case_decide; lia|lia|lia]. Qed.

Lemma adds_split es es' c :
  adds es -> adds es' -> counted c (es ++ es') = 0 -> counted c es = 0 /\ counted c es' = 0.
Proof.
  intros H1%(fun h => adds_counted _ c h) H2%(fun h => adds_counted _ c h).
  rewrite counted_app. lia.
Qed.

Lemma foldE_adds {S A} (f : S -> A -> S * list Effect) s l :
  (forall s x, adds (snd (f s x))) -> adds (snd (foldE f s l)).
Proof. apply foldE_effects. Qed.

Lemma update_metric_adds c km : adds (snd (update_metric c km)).
Proof. destruct km; simpl; repeat case_match; simplify_eq/=; repeat constructor; lia. Qed.

Lemma parse_event_adds c ev : adds (snd (parse_event c ev)).
Proof.
  destruct ev as [n m|]; cbn [parse_event]; [|repeat constructor; lia].
  pose proof (update_metric_adds c (n, m)) as H.
  destruct (update_metric c (n, m)). constructor; [lia|done].
Qed.

(** The weight a loop adds to a cache, for a body that adds [v x] per item. *)
Lemma foldE_weight {A} (f : Cache -> A -> Cache * list Effect) (v : A -> Z) l c c' es :
  (forall c x, adds (snd (f c x))) ->
  (forall c x c' es, f c x = (c', es) -> counted AGG_ERRORS es = 0 ->
                     cache_weight w c' = cache_weight w c + v x) ->
  foldE f c l = (c', es) -> counted AGG_ERRORS es = 0 ->
  cache_weight w c' = cache_weight w c + foldr (fun x n => v x + n) 0 l.
Proof.
  intros Hadds Hf. revert c es. induction l as [|x l IH]; intros c es; simpl.
  { intros [= <- <-] _. lia. }
  pose proof (Hadds c x) as H1. destruct (f c x) as [c1 e1] eqn:Hx.
  pose proof (foldE_adds f c1 l Hadds) as H2. destruct (foldE f c1 l) as [c2 e2] eqn:Hl.
  intros [= <- <-] Hz. apply adds_split in Hz as [Hz1 Hz2]; [|done..].
  rewrite (IH c1 e2 Hl Hz2), (Hf _ _ _ _ Hx Hz1). lia.
Qed.

Lemma foldE_update_weight l c c' es :
  foldE update_metric c l = (c', es) -> counted AGG_ERRORS es = 0 ->
  cache_weight w c' = cache_weight w c + list_weight w l.
Proof.
  apply (foldE_weight _ (fun km => w (snd km)));
    eauto using update_metric_adds, update_metric_weight.
Qed.

Lemma parsed_weight evs :
  foldr (fun ev n => match ev with PMetric _ m => w m | PError _ _ => 0 end + n) 0 evs
  = list_weight w (parsed_metrics evs).
Proof.
  unfold list_weight. induction evs as [|[n m|] evs IH]; [done|..]; simpl in *; rewrite IH; lia.
Qed.

Lemma foldE_parse_weight evs c c' es :
  foldE parse_event c evs = (c', es) -> counted AGG_ERRORS es = 0 ->
  cache_weight w c' = cache_weight w c + list_weight w (parsed_metrics evs).
Proof.
  intros Hf Hz.
  rewrite (foldE_weight parse_event
    (fun ev => match ev with PMetric _ m => w m | _ => 0 end) evs c c' es); try done.
  - by rewrite parsed_weight.
  - apply parse_event_adds.
  - clear -WA. intros c [n m|i p] c' es; cbn [parse_event].
    + destruct (update_metric c (n, m)) as [c1 e1] eqn:Hu. intros [= <- <-]; simpl.
      intros Hz. by apply (update_metric_weight _ _ _ _ Hu).
    + intros [= <- <-] _. lia.
Qed.

Lemma spawn_all_adds ctx ch vs u es :
  foldEP (fun _ v => es ← spawn_send ctx ch v; Some ((), es)) u vs = Some ((), es) ->
  adds es.
Proof.
  revert u es. induction vs as [|v vs IH]; intros u es; simpl; [intros [= _ <-]; constructor|].
  unfold spawn_send at 1. destruct (can_spawn ctx); simpl; [|done].
  destruct (foldEP _ _ vs) as [[[] e2]|] eqn:Hv; [|done]. intros [= <-].
  apply Forall_app_2; [|by eapply IH]. destruct (ch_open ch); repeat constructor; lia.
Qed.

Lemma aggregate_task_adds ctx data es : aggregate_task ctx data = Some es -> adds es.
Proof.
  destruct data as [buf name metric options ch]. simpl.
  destruct (update_counter_value _ _ _ _) as [[b u]|]; simpl; [|done].
  destruct (foldEP _ _ _) as [[[] e]|] eqn:Hf; simpl; [|done].
  intros [= <-]. by eapply spawn_all_adds.
Qed.

Lemma run_adds r t r' es : run r t = Some (r', es) -> adds es.
Proof.
  destruct t; cbn [run].
  - unfold run_parse. destruct (put _ _); simpl; [|done]. destruct (metric_parser _ _).
    pose proof (foldE_adds parse_event (short r) l parse_event_adds) as H.
    destruct (foldE _ _ _). by intros [= <- <-].
  - pose proof (update_metric_adds (short r) (name, metric)) as H.
    destruct (update_metric _ _). by intros [= <- <-].
  - pose proof (foldE_adds _ (short r) list update_metric_adds) as H.
    destruct (foldE _ _ _). by intros [= <- <-].
  - pose proof (foldE_adds _ (long r) list update_metric_adds) as H.
    destruct (foldE _ _ _). by intros [= <- <-].
  - pose proof (foldE_adds _ (long r) (hiter (short r)) update_metric_adds) as H.
    destruct (foldE _ _ _). intros [= <- <-]. apply Forall_app_2; [done|].
    case_match; repeat constructor; lia.
  - intros [= <- <-]. case_match; repeat constructor; lia.
  - destruct (aggregate_task _ data) as [es0|] eqn:Ha; simpl; [|done].
    intros [= <- <-]. by eapply aggregate_task_adds.
Qed.

Lemma run_all_adds r ts r' es : run_all r ts = Some (r', es) -> adds es.
Proof.
  unfold run_all. revert r es. induction ts as [|t ts IH]; intros r es; simpl.
  { intros [= <- <-]. constructor. }
  destruct (run r t) as [[r1 e1]|] eqn:Hr; [|done].
  destruct (foldEP run r1 ts) as [[r2 e2]|] eqn:Hrs; [|done].
  intros [= <- <-]. apply Forall_app_2; [by eapply run_adds|by eapply IH].
Qed.

(** One step: what is in the caches afterwards and what a rotation took out is
    what was in the caches and what came in. *)
Lemma run_weight r t r' es :
  run r t = Some (r', es) -> counted AGG_ERRORS es = 0 ->
  cache_weight w (long r') + cache_weight w (short r') + caches_weight w (rotated_of r t)
  = cache_weight w (long r) + cache_weight w (short r) + list_weight w (ingested_of r t).
Proof.
  destruct t; cbn [run rotated_of ingested_of]; unfold caches_weight; cbn [foldr].
  - unfold run_parse. destruct (put _ _) as [b|]; simpl; [|done].
    destruct (metric_parser _ _) as [evs rest]. destruct (foldE _ _ _) as [c e] eqn:Hf.
    intros [= <- <-] Hz; simpl. rewrite (foldE_parse_weight _ _ _ _ Hf Hz). lia.
  - destruct (update_metric _ _) as [c e] eqn:Hu. intros [= <- <-] Hz; simpl.
    rewrite (update_metric_weight _ _ _ _ Hu Hz). unfold list_weight; simpl. lia.
  - destruct (foldE _ _ _) as [c e] eqn:Hf. intros [= <- <-] Hz; simpl.
    rewrite (foldE_update_weight _ _ _ _ Hf Hz). lia.
  - destruct (foldE _ _ _) as [c e] eqn:Hf. intros [= <- <-] Hz; simpl.
    rewrite (foldE_update_weight _ _ _ _ Hf Hz). lia.
  - pose proof (foldE_adds _ (long r) (hiter (short r)) update_metric_adds) as Ha.
    destruct (foldE _ _ _) as [c e] eqn:Hf. intros [= <- <-] Hz; simpl.
    rewrite counted_app in Hz.
    assert (Hz' : counted AGG_ERRORS e = 0) by (destruct (ch_open channel); simpl in Hz; lia).
    rewrite (foldE_update_weight _ _ _ _ Hf Hz'), list_weight_hiter.
    rewrite cache_weight_empty. unfold list_weight; simpl. lia.
  - intros [= <- <-] _. simpl. rewrite cache_weight_empty. unfold list_weight; simpl. lia.
  - destruct (aggregate_task _ data); simpl; [|done]. intros [= <- <-] _.
    unfold list_weight; simpl. lia.
Qed.

(** C8. Conservation: over any sequence of tasks in which no aggregation fails,
    whatever measure adds up under aggregation is neither lost nor duplicated;
    the total in both caches plus what rotations took out equals the initial
    total plus what was parsed or received, however snapshots and rotations
    interleave. *)
Theorem worker_conserves_metrics (r : TaskRunner) (ts : list Task) (r' : TaskRunner)
    (es : list Effect) :
  run_all r ts = Some (r', es) -> counted AGG_ERRORS es = 0 ->
  cache_weight w (long r') + cache_weight w (short r') + caches_weight w (rotated r ts)
  = cache_weight w (long r) + cache_weight w (short r) + list_weight w (ingested r ts).
Proof.
  unfold run_all, rotated, ingested. revert r es.
  induction ts as [|t ts IH]; intros r es; simpl.
  { intros [= <- <-] _. unfold caches_weight, list_weight; simpl. lia. }
  destruct (run r t) as [[r1 e1]|] eqn:Hr; [|done].
  destruct (foldEP run r1 ts) as [[r2 e2]|] eqn:Hrs; [|done].
  intros [= <- <-] Hz. rewrite counted_app in Hz.
  pose proof (adds_counted _ AGG_ERRORS (run_adds _ _ _ _ Hr)).
  pose proof (adds_counted _ AGG_ERRORS (run_all_adds _ _ _ _ Hrs)).
  pose proof (run_weight _ _ _ _ Hr ltac:(lia)) as H1.
  pose proof (IH r1 e2 Hrs ltac:(lia)) as H2.
  rewrite caches_weight_app, list_weight_app. lia.
Qed.
End conservation.

(** ** Per-address buffers *)
Section lifetime.

(** The idle counter of every buffer stays below five. *)
Definition buffers_ok (r : TaskRunner) : Prop :=
  map_Forall (fun _ tb => 0 <= fst tb < 5) (buffers r).

Lemma retain_buffer_spec t b :
  0 <= t < 5 ->
  retain_buffer (t, b) = if decide (t + 1 < 5) then Some (t + 1, b) else None.
Proof. intros. unfold retain_buffer. by rewrite wrap64_small by lia. Qed.

Lemma run_buffer r t r' es addr :
  run r t = Some (r', es) -> parses addr t = false ->
  buffers r' !! addr =
  if is_rotate t then buffers r !! addr ≫= retain_buffer else buffers r !! addr.
Proof.
  destruct t; cbn [run parses is_rotate].
  - intros Hr Hp%bool_decide_eq_false. revert Hr. unfold run_parse.
    destruct (put _ _); simpl; [|done]. destruct (metric_parser _ _), (foldE _ _ _).
    intros [= <- <-]. simpl. by rewrite lookup_insert_ne.
  - destruct (update_metric _ _). by intros [= <- <-].
  - destruct (foldE _ _ _). by intros [= <- <-].
  - destruct (foldE _ _ _). by intros [= <- <-].
  - destruct (foldE _ _ _). by intros [= <- <-].
  - intros [= <- <-] _. simpl. by rewrite lookup_omap.
  - destruct (aggregate_task _ _); simpl; [|done]. by intros [= <- <-].
Qed.

(** C17. The life time of the buffer of a silent address: as long as no data
    arrives from it, the unparsed bytes are kept unchanged through at most four
    rotations of the long cache and are gone at the fifth, whatever other tasks
    run in between; the idle counter is the number of rotations since the last
    data. *)
Theorem buffer_life_time (r : TaskRunner) (ts : list Task) (r' : TaskRunner)
    (es : list Effect) (addr times : Z) (b : BytesMut) :
  run_all r ts = Some (r', es) ->
  forallb (fun t => negb (parses addr t)) ts = true ->
  buffers r !! addr = Some (times, b) -> 0 <= times < 5 ->
  buffers r' !! addr =
  if decide (times + rotations ts < 5) then Some (times + rotations ts, b) else None.
Proof.
  intros Hrun Hp Hb Ht.
  assert (Hgen : buffers r' !! addr = (fix go ts o := match ts with
    | [] => o | t :: ts => go ts (if is_rotate t then o ≫= retain_buffer else o) end)
    ts (buffers r !! addr)).
  { clear Hb. unfold run_all in Hrun. revert r es Hrun Hp.
    induction ts as [|t ts IH]; intros r es; simpl; [by intros [= <- <-]|].
    destruct (run r t) as [[r1 e1]|] eqn:Hr; [|done].
    destruct (foldEP run r1 ts) as [[r2 e2]|] eqn:Hrs; [|done].
    intros [= <- <-] [Hp1%negb_true_iff Hp2]%andb_prop.
    rewrite (IH r1 e2 Hrs Hp2). by rewrite (run_buffer _ _ _ _ _ Hr Hp1). }
  rewrite Hgen, Hb. clear -Ht. revert times Ht. unfold rotations.
  induction ts as [|t ts IH]; intros times Ht.
  { simpl. rewrite decide_True by (unfold blen; simpl; lia). f_equal. f_equal.
    unfold blen; simpl; lia. }
  cbn [List.filter]. destruct (is_rotate t); [|by apply IH].
  cbn [mbind option_bind]. rewrite retain_buffer_spec by done.
  case_decide.
  - rewrite IH by lia. unfold blen; cbn [length].
    repeat case_decide; try lia; [|done]. do 2 f_equal. lia.
  - rewrite decide_False by (unfold blen; cbn [length]; lia).
    clear. induction ts as [|t ts IH]; [done|]. simpl. by destruct (is_rotate t).
Qed.
End lifetime.

(** ** What the caches may hold *)
Section typed.
Context {BOK : BytesOk BL} {XOK : ExecutorOk XL} {HIOK : HashIterOk HI}.
Context (P : bytes -> Metric -> Prop).
Context (Hagg : forall n a b, P n a -> P n b -> P n (fst (aggregate a b))).

Definition entry_typed (nm : bytes * Metric) : Prop := P (fst nm) (snd nm).
Definition cache_typed (c : Cache) : Prop := map_Forall P c.
Definition runner_typed (r : TaskRunner) : Prop :=
  cache_typed (long r) /\ cache_typed (short r) /\ buffers_ok r.

Lemma update_metric_typed c nm :
  cache_typed c -> entry_typed nm -> cache_typed (fst (update_metric c nm)).
Proof.
  destruct nm as [n m]. intros Hc Hm. unfold update_metric.
  destruct (c !! n) as [old|] eqn:Hn; [|by apply map_Forall_insert_2].
  pose proof (Hagg n old m (Hc n old Hn) Hm) as Ha. destruct (aggregate old m) as [a e].
  by destruct e; apply map_Forall_insert_2.
Qed.

Lemma foldE_typed {A} (f : Cache -> A -> Cache * list Effect) (Q : A -> Prop) c l :
  (forall c x, cache_typed c -> Q x -> cache_typed (fst (f c x))) ->
  cache_typed c -> Forall Q l -> cache_typed (fst (foldE f c l)).
Proof.
  intros Hf Hc Hl. revert c Hc. induction Hl as [|x l Hx Hl IH]; intros c Hc; [done|].
  cbn [foldE]. pose proof (Hf c x Hc Hx) as H1. destruct (f c x) as [c1 e1].
  specialize (IH c1 H1). by destruct (foldE f c1 l).
Qed.

Lemma parse_typed c evs :
  cache_typed c -> Forall entry_typed (parsed_metrics evs) ->
  cache_typed (fst (foldE parse_event c evs)).
Proof.
  intros Hc Hev.
  apply (foldE_typed _ (fun ev => match ev with PMetric n m => P n m | _ => True end)); [|done|].
  - clear -Hagg. intros c [n m|] Hc Hm; [|done]. cbn [parse_event].
    pose proof (update_metric_typed c (n, m) Hc Hm) as H. by destruct (update_metric c (n, m)).
  - induction evs as [|[n m|] evs IH]; [done|..]; cbn in Hev.
    + apply list.Forall_cons in Hev as [? ?]. constructor; [done|by apply IH].
    + constructor; [done|by apply IH].
Qed.

Lemma parse_no_caches (c : Cache) evs : caches_sent (snd (foldE parse_event c evs)) = [].
Proof.
  revert c. induction evs as [|ev evs IH]; intros c; [done|]. cbn [foldE].
  assert (H1 : caches_sent (snd (parse_event c ev)) = []).
  { destruct ev as [n m|]; [|done]. cbn [parse_event].
    pose proof (update_metric_no_caches c (n, m)) as H. by destruct (update_metric c (n, m)). }
  destruct (parse_event c ev) as [c1 e1]. specialize (IH c1).
  destruct (foldE parse_event c1 evs) as [c2 e2]. cbn [snd] in *. by rewrite caches_sent_app, H1, IH.
Qed.

Lemma aggregate_no_caches ctx data es : aggregate_task ctx data = Some es -> caches_sent es = [].
Proof.
  unfold aggregate_task. destruct data as [buf name metric options response].
  destruct (update_counter_value _ _ _ _) as [[b u]|]; cbn [mbind option_bind]; [|done].
  generalize (snd (foldE (rename_value name) b (into_iter metric)) ++ option_list u) as vs.
  intros vs. enough (H : forall u0 e, foldEP (fun (_ : ()) v => es ← spawn_send ctx response v; Some ((), es))
    u0 vs = Some ((), e) -> caches_sent e = []).
  { destruct (foldEP _ () vs) as [[[] e]|] eqn:He; cbn; [|done]. intros [= <-]. by eapply H. }
  induction vs as [|v vs IH]; intros u0 e; cbn [foldEP]; [by intros [= _ <-]|].
  unfold spawn_send at 1. destruct (can_spawn ctx); cbn [mbind option_bind]; [|done].
  destruct (foldEP _ () vs) as [[[] e2]|] eqn:He; [|done]. intros [= <-].
  rewrite caches_sent_app, (IH _ _ He). by destruct (ch_open response).
Qed.

Lemma hiter_typed (c : Cache) : cache_typed c -> Forall entry_typed (hiter c).
Proof.
  intros Hc. rewrite (hiter_perm _ _ _ _ c). apply list.Forall_forall.
  intros [n m] Hin%elem_of_map_to_list. by apply Hc.
Qed.

Lemma run_typed r t r' es :
  runner_typed r -> Forall entry_typed (ingested_of r t) -> run r t = Some (r', es) ->
  runner_typed r' /\ Forall (fun cc => cache_typed (snd cc)) (caches_sent es).
Proof.
  intros (Hl & Hs & Hb) Hin. destruct t; cbn [run ingested_of] in *.
  - unfold run_parse. destruct (put _ _) as [b|]; cbn [mbind option_bind]; [|done].
    destruct (metric_parser _ _) as [evs rest]. cbn [fst] in Hin.
    pose proof (parse_typed _ _ Hs Hin) as Ht. pose proof (parse_no_caches (short r) evs) as Hn.
    destruct (foldE parse_event _ _) as [c e]. intros [= <- <-]. cbn [snd] in Hn. rewrite Hn.
    split; [|done]. split; [done|]. split; [done|]. by apply map_Forall_insert_2.
  - apply list.Forall_cons in Hin as [Hm _].
    pose proof (update_metric_typed _ _ Hs Hm) as Ht.
    pose proof (update_metric_no_caches (short r) (name, metric)) as Hn.
    destruct (update_metric _ _) as [c e]. intros [= <- <-]. cbn [snd] in Hn. by rewrite Hn.
  - pose proof (foldE_typed _ _ _ _ update_metric_typed Hs Hin) as Ht.
    pose proof (foldE_update_no_caches (short r) list) as Hn.
    destruct (foldE _ _ _) as [c e]. intros [= <- <-]. cbn [snd] in Hn. by rewrite Hn.
  - pose proof (foldE_typed _ _ _ _ update_metric_typed Hl Hin) as Ht.
    pose proof (foldE_update_no_caches (long r) list) as Hn.
    destruct (foldE _ _ _) as [c e]. intros [= <- <-]. cbn [snd] in Hn. by rewrite Hn.
  - pose proof (foldE_typed _ _ _ _ update_metric_typed Hl (hiter_typed _ Hs)) as Ht.
    pose proof (foldE_update_no_caches (long r) (hiter (short r))) as Hn.
    destruct (foldE _ _ _) as [c e]. intros [= <- <-]. cbn [snd] in Hn. rewrite caches_sent_app, Hn.
    split; [split; [done|split; [apply map_Forall_empty|done]]|].
    destruct (ch_open channel); cbn; by repeat constructor.
  - intros [= <- <-]. split.
    + split; [apply map_Forall_empty|]. split; [done|]. intros a tb. cbn. rewrite lookup_omap.
      destruct (buffers r !! a) as [[times b]|] eqn:Ha; [|done]. cbn.
      pose proof (Hb _ _ Ha) as Ht. cbn in Ht. rewrite wrap64_small by lia.
      case_decide; [|done]. intros [= <-]. cbn. lia.
    + destruct (ch_open channel); cbn; by repeat constructor.
  - destruct (aggregate_task _ data) as [e|] eqn:Ha; cbn [mbind option_bind]; [|done].
    intros [= <- <-]. by rewrite (aggregate_no_caches _ _ _ Ha).
Qed.

(** C16. The caches are well typed: whatever can be said of the metrics under a name and
    survives aggregation (their kind, a bound on their values) and holds of all that
    a worker parses or receives, holds of everything in its caches and of every
    snapshot and rotated cache it sends, after any sequence of tasks; and the idle
    counter of every buffer stays below five. *)
Theorem worker_well_typed (r : TaskRunner) (ts : list Task) :
  runner_typed r -> Forall entry_typed (ingested r ts) ->
  exists r' es, run_all r ts = Some (r', es) /\ runner_typed r' /\
    Forall (fun cc => cache_typed (snd cc)) (caches_sent es).
Proof.
  unfold run_all, ingested. revert r. induction ts as [|t ts IH]; intros r Hr Hin.
  { exists r, []. by split_and!. }
  cbn [observe foldEP] in *. destruct (run_total r t) as [[r1 e1] Hrun]. rewrite Hrun in *.
  apply Forall_app in Hin as [Hin1 Hin2].
  destruct (run_typed r t r1 e1 Hr Hin1 Hrun) as [Hr1 Hs1].
  destruct (IH r1 Hr1 Hin2) as (r2 & e2 & -> & Hr2 & Hs2). exists r2, (e1 ++ e2).
  split_and!; [done|apply Hr2..|]. rewrite caches_sent_app. by apply Forall_app_2.
Qed.
End typed.
End worker.
