(* ===== verification/Aggregate.v ===== *)
(** * The aggregator ([src/src/aggregate.rs])

    On every carbon tick the aggregator asks all workers to rotate, joins the
    caches they reply with and, on the leader, turns the joined cache into the
    values sent to the backend, in one of three modes. *)

From S2P Require Import Prelude Interfaces Globals Config Task TaskFacts Worker.

Section aggregate.
Context {BL : BytesLib} {ML : MetricLib} {PL : ParserLib BL ML}.
Context {XL : ExecutorLib} {HI : HashIter}.

Record Aggregator := mkAggregator {
  ag_options : AggregateOptions;
  ag_chans : list Chan;
  ag_tx : Chan
}.

Definition Aggregator_new (options : AggregateOptions) (chans : list Chan) (tx : Chan)
  : Aggregator := {| ag_options := options; ag_chans := chans; ag_tx := tx |}.

(** The [Task::Rotate] requests, one per worker, each with its own reply channel. *)
Definition rotate_requests (chans : list Chan) : list (Chan * Task) :=
  imap (fun i ch => (ch, Rotate {| ch_id := i; ch_open := true |})) chans.

(** The body of the inner loop of the accumulating fold; [unwrap] may panic. *)
Definition accumulate_entry (acc : Cache) (nm : bytes * Metric)
  : option (Cache * list Effect) :=
  let '(name, metric) := nm in
  if decide (is_Some (acc !! name)) then
    old ← acc !! name;
    let '(old', res) := aggregate old metric in
    Some (<[name := old']> acc,
          match res with Some _ => [Count AGG_ERRORS 1] | None => [] end)
  else Some (<[name := metric]> acc, []).

(** [futures_unordered(metrics).fold(..)]: the replies in the order they arrive;
    [None] is a reply that never comes (the worker or its channel is gone), which
    ends the whole fold with an error. *)
Fixpoint accumulate (acc : Cache) (replies : list (option Cache))
  : option (option Cache * list Effect) :=
  match replies with
  | [] => Some (Some acc, [])
  | None :: _ => Some (None, [])
  | Some m :: replies =>
      '(acc', e1) ← foldEP accumulate_entry acc (hiter m);
      '(res, e2) ← accumulate acc' replies;
      Some (res, e1 ++ e2)
  end.

Definition task_data (options : AggregateOptions) (tx : Chan) (nm : bytes * Metric)
  : AggregateData :=
  {| ad_buf := with_capacity 1024; ad_name := fst nm; ad_metric := snd nm;
     ad_options := options; ad_response := tx |}.

(** Format one metric on the thread of context [ctx]. *)
Definition aggregate_here (ctx : ExecCtx) (options : AggregateOptions) (tx : Chan)
    (nm : bytes * Metric) : option (list NodeEffect) :=
  es ← aggregate_task ctx (task_data options tx nm);
  Some (map Plain (Count EGRESS 1 :: es)).

(** Hand one metric to the worker [num % chans.len()]. *)
Definition aggregate_common (options : AggregateOptions) (chans : list Chan) (tx : Chan)
    (num : Z) (nm : bytes * Metric) : option (Z * list NodeEffect) :=
  if decide (blen chans = 0) then panic else
  chan ← index chans (num `mod` blen chans);
  Some (num + 1,
        [Plain (Count EGRESS 1);
         if ch_open chan then SendTask (ch_id chan) (Aggregate (task_data options tx nm))
         else Plain (Count DROPS 1)]).

(** The [match options.aggregation_mode] of the leader. *)
Definition aggregate_mode (a : Aggregator) (accumulated : Cache) : option (list NodeEffect) :=
  let '(mkAggregator options chans tx) := a in
  match ao_aggregation_mode options with
  | AggregationMode.Single =>
      '(_, es) ← foldEP (fun _ nm => es ← aggregate_here CurrentThread options tx nm;
                                     Some ((), es)) () (hiter accumulated);
      Some es
  | AggregationMode.Common =>
      '(_, es) ← foldEP (aggregate_common options chans tx) 0 (hiter accumulated);
      Some es
  | AggregationMode.Separate =>
      '(_, es) ← foldEP (fun _ nm => es ← aggregate_here RayonPool options tx nm;
                                     Some ((), es)) () (hiter accumulated);
      Some es
  end.

(** [not_leader]: the replies are thrown away, up to the first error. *)
Definition discard (replies : list (option Cache)) : option unit :=
  if forallb (fun r => bool_decide (is_Some r)) replies then Some () else None.

(** [impl IntoFuture for Aggregator]; the outer [None] is a panic, the inner one
    the future's error. *)
Definition Aggregator_run (a : Aggregator) (replies : list (option Cache))
  : option (option unit * list NodeEffect) :=
  if negb (ao_is_leader (ag_options a)) then Some (discard replies, [])
  else
    '(res, e1) ← accumulate ∅ replies;
    match res with
    | None => Some (None, map Plain e1)
    | Some accumulated =>
        e2 ← aggregate_mode a accumulated;
        Some (Some (), map Plain e1 ++ e2)
    end.

(** ** Reference definitions *)
Definition merge_all (caches : list Cache) : Cache := foldl merge_cache ∅ caches.

(** All values of a cache, in the order the map yields its entries. *)
Definition cache_values (options : AggregateOptions) (c : Cache) : list (bytes * Float) :=
  concat (map (fun nm => metric_values options (fst nm) (snd nm)) (hiter c)).

Definition tasks_for (ch : nat) (es : list NodeEffect) : list Task :=
  items_of ch (tasks_sent es).

(** The values a worker sends while it runs the tasks it is given. *)
Definition worker_values (r : TaskRunner) (ts : list Task) : list (nat * (bytes * Float)) :=
  match run_all r ts with Some (_, es) => values_sent es | None => [] end.

(** ** Accumulation *)
Lemma accumulate_entry_update acc nm : accumulate_entry acc nm = Some (update_metric acc nm).
Proof.
  destruct nm as [name m]. simpl. destruct (acc !! name) as [old|] eqn:Hn.
  - rewrite decide_True by by eexists. simpl. by destruct (aggregate old m).
  - rewrite decide_False; [done|]. by intros [].
Qed.

Lemma foldEP_accumulate acc l :
  foldEP accumulate_entry acc l = Some (foldE update_metric acc l).
Proof.
  revert acc. induction l as [|x l IH]; intros acc; [done|]. cbn [foldEP foldE].
  rewrite accumulate_entry_update. destruct (update_metric acc x) as [s1 e1].
  rewrite IH. by destruct (foldE _ s1 l).
Qed.

Context {HIOK : HashIterOk HI}.

Lemma accumulate_all (acc : Cache) (caches : list Cache) :
  exists es, accumulate acc (map Some caches) = Some (Some (foldl merge_cache acc caches), es)
             /\ values_sent es = [] /\ counted EGRESS es = 0.
Proof.
  revert acc. induction caches as [|c cs IH]; intros acc; simpl; [by eexists|].
  rewrite foldEP_accumulate. pose proof (drain_merge acc c) as Hm.
  pose proof (drain_counted acc c EGRESS) as Hc. rewrite decide_False in Hc by done.
  assert (Hv : values_sent (snd (foldE update_metric acc (hiter c))) = []).
  { generalize (hiter c). clear. intros l. revert acc.
    induction l as [|[k m] l IH]; intros acc; [done|]. cbn [foldE].
    assert (H : values_sent (snd (update_metric acc (k, m))) = []).
    { simpl. repeat case_match; by simplify_eq/=. }
    destruct (update_metric acc (k, m)) as [a1 e1]. specialize (IH a1).
    destruct (foldE _ a1 l). simpl in *. by rewrite values_sent_app, H, IH. }
  destruct (foldE update_metric acc (hiter c)) as [acc' e1]. simpl in *. subst acc'.
  destruct (IH (merge_cache acc c)) as (e2 & -> & Hv2 & Hc2). simpl. eexists. split; [done|].
  by rewrite values_sent_app, counted_app, Hv, Hv2, Hc, Hc2.
Qed.

Lemma accumulate_adds replies acc res es :
  accumulate acc replies = Some (res, es) -> adds es.
Proof.
  revert acc res es. induction replies as [|[c|] replies IH]; intros acc res es; simpl.
  - intros [= <- <-]. constructor.
  - rewrite foldEP_accumulate.
    pose proof (foldE_adds _ acc (hiter c) update_metric_adds) as Ha.
    destruct (foldE _ _ _) as [a1 e1]. cbn [mbind option_bind].
    destruct (accumulate a1 replies) as [[r e2]|] eqn:Hr; cbn; [|done].
    intros [= <- <-]. apply Forall_app_2; [done|by eapply IH].
  - intros [= <- <-]. constructor.
Qed.

Lemma concat_map_concat_pair {A B C} (x : C) (f : A -> list B) (ls : list A) :
  map (pair x) (concat (map f ls)) = concat (map (fun l => map (pair x) (f l)) ls).
Proof. induction ls as [|l ls IH]; simpl; [done|]. by rewrite map_app, IH. Qed.

(** What a receiver that is still there gets. *)
Lemma response_values tx vs :
  ch_open tx = true -> values_sent (response_effects tx vs) = map (pair (ch_id tx)) vs.
Proof.
  intros Ho. unfold response_effects. rewrite Ho.
  induction vs as [|v vs IH]; [done|]. cbn. by f_equal.
Qed.

Lemma response_counted tx vs c :
  ch_open tx = true -> counted c (response_effects tx vs) = 0.
Proof. intros Ho. unfold response_effects. rewrite Ho. by induction vs. Qed.

Section modes.
Context {BOK : BytesOk BL} {XOK : ExecutorOk XL}.

Lemma aggregate_task_data options tx nm :
  aggregate_task CurrentThread (task_data options tx nm)
  = Some (response_effects tx (metric_values options (fst nm) (snd nm))).
Proof. apply (aggregate_task_values (task_data options tx nm)), with_capacity_contents. Qed.

Lemma single_values options tx l :
  ch_open tx = true ->
  exists es,
    foldEP (fun _ nm => es ← aggregate_here CurrentThread options tx nm; Some ((), es)) () l
      = Some ((), es) /\
    values_sent (plain es) = map (pair (ch_id tx))
      (concat (map (fun nm => metric_values options (fst nm) (snd nm)) l)) /\
    tasks_sent es = [] /\ counted EGRESS (plain es) = blen l.
Proof.
  intros Ho. induction l as [|nm l (es & IH & Hv & Ht & Hc)]; [by eexists|].
  cbn [foldEP]. unfold aggregate_here at 1. rewrite aggregate_task_data. cbn [mbind option_bind].
  rewrite IH. eexists. split; [done|].
  rewrite plain_app, values_sent_app, tasks_sent_app, counted_app, Hv, Ht, Hc.
  rewrite plain_map, tasks_sent_plain. cbn [map concat]. rewrite map_app.
  split; [f_equal; by apply response_values|]. split; [done|].
  cbn [counted]. rewrite decide_True by done.
  rewrite response_counted by done. unfold blen. cbn [length]. lia.
Qed.

Lemma discard_single a replies :
  ao_is_leader (ag_options a) = false ->
  Aggregator_run a replies = Some (discard replies, []).
Proof. unfold Aggregator_run. by intros ->. Qed.

Lemma single_mode_run (a : Aggregator) (caches : list Cache) :
  ao_is_leader (ag_options a) = true ->
  ao_aggregation_mode (ag_options a) = AggregationMode.Single ->
  ch_open (ag_tx a) = true ->
  exists es,
    Aggregator_run a (map Some caches) = Some (Some (), es) /\
    values_sent (plain es) =
      map (pair (ch_id (ag_tx a))) (cache_values (ag_options a) (merge_all caches)) /\
    tasks_sent es = [] /\
    counted EGRESS (plain es) = blen (hiter (merge_all caches)).
Proof.
  destruct a as [options chans tx]. simpl. intros Hl Hm Ho. unfold Aggregator_run.
  cbn [ag_options]. rewrite Hl. cbn [negb].
  destruct (accumulate_all ∅ caches) as (e1 & -> & Hv1 & Hc1). cbn [mbind option_bind].
  unfold aggregate_mode. rewrite Hm.
  destruct (single_values options tx (hiter (merge_all caches)) Ho) as (e2 & He & Hv & Ht & Hc).
  unfold merge_all in *. rewrite He. cbn [mbind option_bind]. eexists. split; [done|].
  rewrite plain_app, values_sent_app, counted_app, plain_map, Hv1, Hv, Hc1, Hc.
  by rewrite tasks_sent_app, tasks_sent_plain, Ht.
Qed.

Lemma lost_reply_run (a : Aggregator) (before : list Cache)
    (after : list (option Cache)) :
  ao_is_leader (ag_options a) = true ->
  exists es,
    Aggregator_run a (map Some before ++ None :: after) = Some (None, es) /\
    values_sent (plain es) = [] /\ tasks_sent es = [].
Proof.
  intros Hl. unfold Aggregator_run. rewrite Hl. cbn [negb].
  assert (Hacc : forall acc : Cache, exists es,
    accumulate acc (map Some before ++ None :: after) = Some (None, es) /\
    values_sent es = []).
  { induction before as [|c cs IH]; intros acc; [by eexists|].
    destruct (accumulate_all acc [c]) as (e1 & H1 & Hv1 & _). revert H1.
    cbn [map app accumulate].
    destruct (foldEP accumulate_entry acc (hiter c)) as [[acc' e]|]; [|done].
    cbn. destruct (IH acc') as (e2 & -> & Hv2). intros [= _ <-].
    eexists. split; [done|]. rewrite app_nil_r in Hv1. by rewrite values_sent_app, Hv1, Hv2. }
  destruct (Hacc ∅) as (es & -> & Hv). cbn [mbind option_bind].
  eexists. split; [done|]. by rewrite plain_map, tasks_sent_plain.
Qed.

(** A worker formats the metrics it is handed, in any state it is in. *)
Lemma worker_values_aggregates r options tx l :
  ch_open tx = true ->
  worker_values r (map (fun nm => Aggregate (task_data options tx nm)) l) =
  map (pair (ch_id tx)) (concat (map (fun nm => metric_values options (fst nm) (snd nm)) l)).
Proof.
  intros Ho. unfold worker_values.
  assert (H : exists es, run_all r (map (fun nm => Aggregate (task_data options tx nm)) l)
    = Some (r, es) /\ values_sent es = map (pair (ch_id tx))
        (concat (map (fun nm => metric_values options (fst nm) (snd nm)) l))).
  { unfold run_all. induction l as [|nm l (es & IH & Hv)]; [by eexists|].
    cbn [map foldEP]. cbn [run]. rewrite aggregate_task_data. cbn [mbind option_bind].
    rewrite IH. eexists. split; [done|]. cbn [concat].
    by rewrite values_sent_app, map_app, Hv, response_values. }
  by destruct H as (es & -> & ->).
Qed.

Lemma common_tasks options chans tx n l :
  chans <> [] -> Forall (fun ch => ch_open ch = true) chans -> 0 <= n ->
  exists n' es ids,
    foldEP (aggregate_common options chans tx) n l = Some (n', es) /\
    values_sent (plain es) = [] /\ counted DROPS (plain es) = 0 /\
    tasks_sent es = zip ids (map (fun nm => Aggregate (task_data options tx nm)) l) /\
    length ids = length l /\ Forall (fun i => i ∈ map ch_id chans) ids.
Proof.
  intros Hne Hopen. revert n. induction l as [|nm l IH]; intros n Hn.
  { exists n, [], []. by repeat split. }
  cbn [foldEP]. unfold aggregate_common at 1.
  assert (Hlen : 0 < blen chans) by (destruct chans; [done|unfold blen; simpl; lia]).
  rewrite decide_False by lia. unfold index.
  pose proof (Z.mod_pos_bound n (blen chans) Hlen) as Hmod.
  rewrite decide_True by lia.
  destruct (chans !! Z.to_nat (n `mod` blen chans)) as [ch|] eqn:Hch.
  2: { apply lookup_ge_None in Hch. unfold blen in *. lia. }
  assert (Hch' : ch ∈ chans) by by eapply list_elem_of_lookup_2.
  rewrite list.Forall_forall in Hopen. cbn [mbind option_bind].
  rewrite (Hopen ch Hch').
  destruct (IH (n + 1) ltac:(lia)) as (n' & es & ids & IHe & Hv & Hd & Ht & Hl & Hi).
  rewrite IHe. do 2 eexists. exists (ch_id ch :: ids).
  split; [done|]. split; [done|]. split; [done|].
  split; [by rewrite tasks_sent_app, Ht|]. split; [by cbn; rewrite Hl|].
  constructor; [|done]. apply list_elem_of_fmap. by exists ch.
Qed.

Lemma common_mode_run (a : Aggregator) (caches : list Cache)
    (workers : nat -> TaskRunner) :
  ao_is_leader (ag_options a) = true ->
  ao_aggregation_mode (ag_options a) = AggregationMode.Common ->
  ch_open (ag_tx a) = true -> ag_chans a <> [] ->
  Forall (fun ch => ch_open ch = true) (ag_chans a) -> base.NoDup (map ch_id (ag_chans a)) ->
  exists es,
    Aggregator_run a (map Some caches) = Some (Some (), es) /\
    values_sent (plain es) = [] /\
    concat (map (fun i => worker_values (workers i) (tasks_for i es)) (map ch_id (ag_chans a)))
      ≡ₚ map (pair (ch_id (ag_tx a))) (cache_values (ag_options a) (merge_all caches)).
Proof.
  destruct a as [options chans tx]. simpl. intros Hl Hm Ho Hne Hop Hnd.
  unfold Aggregator_run. cbn [ag_options]. rewrite Hl. cbn [negb].
  destruct (accumulate_all ∅ caches) as (e1 & -> & Hv1 & _). cbn [mbind option_bind].
  unfold aggregate_mode. rewrite Hm. fold (merge_all caches).
  destruct (common_tasks options chans tx 0 (hiter (merge_all caches)) Hne Hop ltac:(lia))
    as (n' & e2 & ids & -> & Hv & _ & Ht & Hlen & Hids).
  cbn [mbind option_bind]. eexists. split; [done|].
  split; [by rewrite plain_app, values_sent_app, plain_map, Hv1|].
  unfold tasks_for. rewrite tasks_sent_app, tasks_sent_plain, Ht. cbn [app].
  rewrite (map_ext _ (fun i => map (pair (ch_id tx)) (concat (map
     (fun nm => metric_values options (fst nm) (snd nm))
     (items_of i (zip ids (hiter (merge_all caches)))))))).
  2: { intros i. rewrite <-(worker_values_aggregates (workers i)) by done. f_equal.
       apply items_of_zip_map. }
  rewrite <-concat_map_concat_pair. apply Permutation_map. unfold cache_values.
  rewrite <-(List.map_map (fun i => items_of i (zip ids (hiter (merge_all caches))))
    (fun l => concat (map (fun nm => metric_values options (fst nm) (snd nm)) l))).
  rewrite concat_map_concat. apply concat_map_perm.
  rewrite items_of_partition; [|done|].
  - by rewrite snd_zip by lia.
  - apply list.Forall_forall. intros [i nm] Hin. simpl. rewrite list.Forall_forall in Hids.
    apply Hids. by eapply elem_of_zip_l.
Qed.

(** C13. Common mode computes what single mode computes: when the metrics are
    handed to the workers round robin, the values that all workers together send
    to the backend are a permutation of the values of the joined cache, whatever
    the state of the workers; the aggregator itself sends nothing and drops no
    metric while the worker queues accept. *)
Theorem common_mode_equals_single (a : Aggregator) (caches : list Cache)
    (workers : nat -> TaskRunner) :
  ao_is_leader (ag_options a) = true ->
  ao_aggregation_mode (ag_options a) = AggregationMode.Common ->
  ch_open (ag_tx a) = true -> ag_chans a <> [] ->
  Forall (fun ch => ch_open ch = true) (ag_chans a) -> base.NoDup (map ch_id (ag_chans a)) ->
  exists es,
    Aggregator_run a (map Some caches) = Some (Some (), es) /\
    values_sent (plain es) = [] /\
    concat (map (fun i => worker_values (workers i) (tasks_for i es)) (map ch_id (ag_chans a)))
      ≡ₚ map (pair (ch_id (ag_tx a))) (cache_values (ag_options a) (merge_all caches)).
Proof. apply common_mode_run. Qed.

(** C35. Separate mode cannot work as written: the formatting spawns its sends
    from the threads of a rayon pool, where no current_thread executor runs, so
    the leader panics as soon as some joined metric has a value to send. *)
Theorem separate_mode_panics (a : Aggregator) (caches : list Cache)
    (name : bytes) (metric : Metric) :
  ao_is_leader (ag_options a) = true ->
  ao_aggregation_mode (ag_options a) = AggregationMode.Separate ->
  merge_all caches !! name = Some metric -> into_iter metric <> [] ->
  Aggregator_run a (map Some caches) = panic.
Proof.
  destruct a as [options chans tx]. simpl. intros Hl Hm Hn Hi. unfold Aggregator_run.
  cbn [ag_options]. rewrite Hl. cbn [negb].
  destruct (accumulate_all ∅ caches) as (e1 & -> & Hv1 & _). cbn [mbind option_bind].
  unfold aggregate_mode. rewrite Hm. fold (merge_all caches).
  assert (Hin : (name, metric) ∈ hiter (merge_all caches)).
  { rewrite (hiter_perm _ _ _ _ (merge_all caches)). by apply elem_of_map_to_list. }
  enough (foldEP (fun _ nm => es ← aggregate_here RayonPool options tx nm; Some ((), es)) ()
            (hiter (merge_all caches)) = None) as -> by done.
  revert Hin. generalize (hiter (merge_all caches)) as l.
  induction l as [|nm l IH]; [by intros ?%not_elem_of_nil|].
  intros [<-|Hin]%elem_of_cons; cbn [foldEP].
  - unfold aggregate_here, aggregate_task, task_data. cbn [fst snd].
    destruct (update_counter_value _ _ _ _) as [[b u]|]; cbn [mbind option_bind]; [|done].
    destruct (into_iter metric) as [|[sf v] vs]; [done|]. cbn [foldE rename_value].
    destruct (take _), (foldE _ _ vs). cbn. unfold spawn_send.
    by rewrite spawn_off_executor.
  - destruct (aggregate_here _ _ _ nm); [|done]. cbn [mbind option_bind]. by rewrite IH.
Qed.
End modes.

(** ** Conservation *)
Section conservation.
Context (w : Metric -> Z) {WA : Additive w}.

(** The join loses nothing: when no metric fails to aggregate, the weight of
    the joined cache is the sum of the weights of the workers' caches. *)
Lemma accumulate_conserves (caches : list Cache) (acc : Cache) (es : list Effect) :
  accumulate ∅ (map Some caches) = Some (Some acc, es) -> counted AGG_ERRORS es = 0 ->
  cache_weight w acc = caches_weight w caches.
Proof.
  assert (Hgen : forall acc0 es, accumulate acc0 (map Some caches) = Some (Some acc, es) ->
    counted AGG_ERRORS es = 0 ->
    cache_weight w acc = cache_weight w acc0 + caches_weight w caches).
  { unfold caches_weight. induction caches as [|c cs IH]; intros acc0 es0; simpl.
    { intros [= -> <-] _. lia. }
    rewrite foldEP_accumulate.
    pose proof (foldE_adds _ acc0 (hiter c) update_metric_adds) as Ha.
    destruct (foldE update_metric acc0 (hiter c)) as [a1 e1] eqn:Hf. cbn [mbind option_bind].
    destruct (accumulate a1 (map Some cs)) as [[[a2|] e2]|] eqn:Hacc; cbn; try done.
    intros [= -> <-] Hz. rewrite counted_app in Hz.
    pose proof (adds_counted _ AGG_ERRORS Ha). simpl in *.
    pose proof (adds_counted _ AGG_ERRORS (accumulate_adds _ _ _ _ Hacc)).
    rewrite (IH a1 e2 Hacc ltac:(lia)).
    rewrite (foldE_update_weight w _ _ _ _ Hf ltac:(lia)), list_weight_hiter. lia. }
  intros H Hz. rewrite (Hgen _ _ H Hz), cache_weight_empty. lia.
Qed.
End conservation.
End aggregate.
