(* ===== verification/Carbon.v ===== *)
(** * The carbon backend ([src/src/carbon.rs], [src/src/errors.rs])

    Values are rendered once, kept in a shared vector, and written line by line
    to a TCP connection; a retry starts again from the first line. *)

From S2P Require Import Prelude Interfaces Globals Config TaskFacts.

(** ** [ftoa::write] into a [bytes::Writer] *)
Class FtoaLib (B : BytesLib) := {
  ftoa_text : Float -> bytes;
  ftoa_write : Float -> BytesMut -> BytesMut * bool    (* [true]: [Ok(())] *)
}.
(** Documented: it writes the textual form; the writer over a [BytesMut] accepts
    what fits into the spare capacity. *)
Class FtoaOk {B : BytesLib} (F : FtoaLib B) : Prop :=
  ftoa_fits : forall v b, blen (ftoa_text v) <= remaining_mut b ->
    exists b', ftoa_write v b = (b', true) /\ contents b' = contents b ++ ftoa_text v /\
               remaining_mut b' = remaining_mut b - blen (ftoa_text v).

#[export] Instance RefFtoaLib : FtoaLib RefBytes := {|
  ftoa_text v := match v with S754_finite false m e => bs (pretty (Npos m)) | _ => bs "0" end;
  ftoa_write v b :=
    let t := match v with S754_finite false m e => bs (pretty (Npos m)) | _ => bs "0" end in
    match put t b with Some b' => (b', true) | None => (b, false) end
|}.
#[export] Instance RefFtoaOk : FtoaOk RefFtoaLib.
Proof.
  intros v b Hb. cbn [ftoa_write ftoa_text RefFtoaLib] in *.
  destruct (put_ok _ _ Hb) as (b' & -> & Hc & Hr). by exists b'.
Qed.

(** ** [GeneralError] *)
Inductive GeneralError :=
| GIo | GTimer | GTime | GTcpOutOfTries (a : SocketAddr) | GCarbonBackend | GFutureSend
| GUnknownState | GConfiguration (msg : string).

Record CarbonClientOptions := mkCarbonClientOptions {
  cc_addr : SocketAddr;
  cc_bind : option SocketAddr
}.

(** A line: metric name, rendered value, timestamp. *)
Definition CarbonItem : Type := bytes * bytes * bytes.

Record CarbonBackend := mkCarbonBackend {
  cb_options : CarbonClientOptions;
  cb_metrics : list CarbonItem
}.

Section carbon.
Context {BL : BytesLib} {ML : MetricLib} {FL : FtoaLib BL}.

(** [ts.as_secs().to_string()] *)
Definition ts_text (ts : Duration) : bytes := bs (pretty (Z.to_N (as_secs ts))).

(** The body of the fold of [CarbonBackend::new]. *)
Definition render_metric (ts : bytes) (st : list CarbonItem * BytesMut)
    (nv : bytes * Float) : (list CarbonItem * BytesMut) * list Effect :=
  let '(acc, buf) := st in
  let '(name, v) := nv in
  let '(buf, ok) := ftoa_write v buf in
  if ok then
    let '(metric, buf) := take buf in
    ((acc ++ [(name, metric, ts)], buf), [])
  else ((acc, buf), [Count AGG_ERRORS 1]).

Definition CarbonBackend_new (options : CarbonClientOptions) (ts : Duration)
    (metrics : list (bytes * Float)) : CarbonBackend * list Effect :=
  let buf := with_capacity (blen metrics * 200) in
  let '((acc, _), es) := foldE (render_metric (ts_text ts)) ([], buf) metrics in
  ({| cb_options := options; cb_metrics := acc |}, es).

(** ** [SharedIter] *)
Record SharedIter (T : Type) := mkSharedIter { si_inner : list T; si_current : Z }.
#[global] Arguments mkSharedIter {T}.
#[global] Arguments si_inner {T}.
#[global] Arguments si_current {T}.

Definition SharedIter_new {T} (inner : list T) : SharedIter T :=
  {| si_inner := inner; si_current := 0 |}.

Definition SharedIter_next {T} (it : SharedIter T) : option T * SharedIter T :=
  (si_inner it !! Z.to_nat (si_current it),
   {| si_inner := si_inner it; si_current := wrap64 (si_current it + 1) |}).

(** A consumer that calls [next] until it answers [None], at most [fuel] times. *)
Fixpoint drain_iter {T} (fuel : nat) (it : SharedIter T) : list T :=
  match fuel with
  | O => []
  | S fuel => match SharedIter_next it with
              | (Some x, it) => x :: drain_iter fuel it
              | (None, _) => []
              end
  end.

(** ** [CarbonCodec] *)
Definition encode (m : CarbonItem) (buf : BytesMut) : option BytesMut :=
  let '(name, value, ts) := m in
  let len := blen name + 1 + blen value + 1 + blen ts + 1 in
  let buf := reserve len buf in
  buf ← put name buf;
  buf ← put [ascii_SP] buf;
  buf ← put value buf;
  buf ← put [ascii_SP] buf;
  buf ← put ts buf;
  put [ascii_LF] buf.

(** What the environment does to a client: whether binding to the configured
    address, connecting, and writing the whole stream succeed. *)
Record NetOutcome := mkNet { net_bind : bool; net_connect : bool; net_sink : bool }.

(** The bytes the framed sink is given for the whole stream of metrics. *)
Definition encode_all (items : list CarbonItem) (buf : BytesMut) : option BytesMut :=
  foldl (fun b m => b ← b; encode m b) (Some buf) items.

(** [impl IntoFuture for CarbonBackend]: the error, or the bytes written. *)
Definition CarbonBackend_send (b : CarbonBackend) (net : NetOutcome)
  : option (GeneralError + bytes) :=
  if match cc_bind (cb_options b) with Some _ => negb (net_bind net) | None => false end
  then Some (inl GIo)
  else if negb (net_connect net) then Some (inl GIo)
  else
    let items := drain_iter (S (length (cb_metrics b))) (SharedIter_new (cb_metrics b)) in
    buf ← encode_all items (with_capacity 0);
    Some (if net_sink net then inr (contents buf) else inl GCarbonBackend).

(** ** Reference: the plain text protocol *)
Definition carbon_line (m : CarbonItem) : bytes :=
  let '(name, value, ts) := m in
  name ++ [ascii_SP] ++ value ++ [ascii_SP] ++ ts ++ [ascii_LF].

(** A receiver of the protocol: one item per line of three fields. *)
Definition carbon_decode (l : bytes) : list CarbonItem :=
  omap (fun line => match split_on ascii_SP line with
                    | [name; value; ts] => Some (name, value, ts)
                    | _ => None
                    end) (split_on ascii_LF l).

Definition field_ok (f : bytes) : Prop := (ascii_SP ∉ f) /\ (ascii_LF ∉ f).
Definition item_ok (m : CarbonItem) : Prop :=
  let '(name, value, ts) := m in field_ok name /\ field_ok value /\ field_ok ts.

(** ** Rendering and encoding *)
Section props.
Context {BOK : BytesOk BL} {FOK : FtoaOk FL}.

Lemma encode_line m buf :
  exists buf', encode m buf = Some buf' /\ contents buf' = contents buf ++ carbon_line m.
Proof.
  destruct m as [[name value] ts]. unfold encode.
  set (len := blen name + 1 + blen value + 1 + blen ts + 1).
  pose proof (reserve_room len buf) as Hr. rewrite <-(reserve_contents len buf).
  revert Hr. generalize (reserve len buf) as b0. subst len. intros b0 Hr.
  assert (H1 : forall c : Ascii.ascii, blen [c] = 1) by done.
  pose proof (blen_nonneg name); pose proof (blen_nonneg value); pose proof (blen_nonneg ts).
  do 5 (apply put_bind; [rewrite ?H1; lia|intros ? ? ?]; rewrite ?H1 in * ).
  destruct (put_ok [ascii_LF] b'3) as (bl & Hp & Hc & _); [rewrite H1; lia|].
  exists bl. split; [done|]. rewrite Hc.
  repeat match goal with H : contents _ = _ |- _ => rewrite H; clear H end.
  unfold carbon_line. by rewrite <-!app_assoc.
Qed.

Lemma encode_all_lines items buf :
  exists buf', encode_all items buf = Some buf' /\
               contents buf' = contents buf ++ concat (map carbon_line items).
Proof.
  unfold encode_all. revert buf. induction items as [|m items IH]; intros buf.
  { exists buf. by rewrite app_nil_r. }
  cbn [foldl mbind option_bind]. destruct (encode_line m buf) as (b1 & -> & Hc).
  destruct (IH b1) as (b2 & -> & Hc2). exists b2. split; [done|].
  rewrite Hc2, Hc. cbn [map concat]. by rewrite <-app_assoc.
Qed.

Lemma drain_iter_from {T} (l : list T) (n : Z) fuel :
  0 <= n -> n + Z.of_nat fuel < 2 ^ 64 -> (length l < Z.to_nat n + fuel)%nat ->
  drain_iter fuel {| si_inner := l; si_current := n |} = drop (Z.to_nat n) l.
Proof.
  revert n. induction fuel as [|fuel IH]; intros n Hn Hw Hl.
  { simpl. by rewrite drop_ge by lia. }
  simpl. destruct (l !! Z.to_nat n) as [x|] eqn:Hx.
  - rewrite wrap64_small by lia. rewrite IH by lia.
    rewrite (drop_S _ _ _ Hx). f_equal. f_equal. lia.
  - apply lookup_ge_None in Hx. by rewrite drop_ge.
Qed.

(** The shared iterator of a fresh client yields every element of the vector
    once, in order, and then ends, so each retry sends the whole batch again. *)
Lemma shared_iter_yields_all {T} (l : list T) (fuel : nat) :
  (length l < fuel)%nat -> Z.of_nat fuel < 2 ^ 64 ->
  drain_iter fuel (SharedIter_new l) = l.
Proof. intros Hl Hf. unfold SharedIter_new. rewrite drain_iter_from by lia. done. Qed.

Lemma send_lines (b : CarbonBackend) (net : NetOutcome) :
  blen (cb_metrics b) < 2 ^ 63 ->
  CarbonBackend_send b net =
  Some (if match cc_bind (cb_options b) with Some _ => negb (net_bind net) | None => false end
        then inl GIo
        else if negb (net_connect net) then inl GIo
        else if net_sink net then inr (concat (map carbon_line (cb_metrics b)))
        else inl GCarbonBackend).
Proof.
  intros Hlen. unfold CarbonBackend_send.
  destruct (match cc_bind _ with Some _ => _ | None => _ end); [done|].
  destruct (negb _); [done|].
  unfold SharedIter_new. rewrite drain_iter_from by (unfold blen in *; lia). rewrite drop_0.
  destruct (encode_all_lines (cb_metrics b) (with_capacity 0)) as (buf & -> & Hc).
  rewrite with_capacity_contents in Hc. cbn [mbind option_bind app] in *.
  by rewrite Hc.
Qed.

Lemma render_all ts metrics acc buf :
  contents buf = [] -> Forall (fun nv => blen (ftoa_text (snd nv)) <= 200) metrics ->
  blen metrics * 200 <= remaining_mut buf ->
  exists buf', foldE (render_metric ts) (acc, buf) metrics
    = ((acc ++ map (fun nv => (fst nv, ftoa_text (snd nv), ts)) metrics, buf'), []).
Proof.
  intros Hb Hf. revert acc buf Hb. induction Hf as [|[name v] ms Hv Hf IH]; intros acc buf Hb Hr.
  { exists buf. simpl. by rewrite app_nil_r. }
  cbn [snd] in Hv. cbn [foldE render_metric].
  assert (Hl : blen ((name, v) :: ms) = 1 + blen ms) by (unfold blen; cbn [length]; lia).
  rewrite Hl in Hr.
  pose proof (blen_nonneg ms).
  assert (Hfit : blen (ftoa_text v) <= remaining_mut buf) by lia.
  destruct (ftoa_fits v buf Hfit) as (b1 & -> & Hc & Hr1). cbn [fst snd].
  pose proof (take_fst b1) as Ht1. pose proof (take_contents b1) as Ht2.
  pose proof (take_room b1) as Ht3. destruct (take b1) as [metric b2]. cbn [fst snd] in *.
  destruct (IH (acc ++ [(name, metric, ts)]) b2 Ht2 ltac:(lia)) as (b3 & Hb3).
  rewrite Hb3. exists b3. subst metric. rewrite Hc, Hb. by rewrite <-app_assoc.
Qed.

Lemma render_batch (options : CarbonClientOptions) (ts : Duration)
    (metrics : list (bytes * Float)) :
  Forall (fun nv => blen (ftoa_text (snd nv)) <= 200) metrics ->
  CarbonBackend_new options ts metrics =
  ({| cb_options := options;
      cb_metrics := map (fun nv => (fst nv, ftoa_text (snd nv), ts_text ts)) metrics |}, []).
Proof.
  intros Hf. unfold CarbonBackend_new.
  destruct (render_all (ts_text ts) metrics [] (with_capacity (blen metrics * 200)))
    as (buf & ->); try done.
  - apply with_capacity_contents.
  - apply with_capacity_room. pose proof (blen_nonneg metrics). lia.
Qed.

End props.

(** ** Round trip *)
Lemma split_line m l :
  item_ok m ->
  split_on ascii_LF (carbon_line m ++ l) =
  (let '(n, v, t) := m in n ++ [ascii_SP] ++ v ++ [ascii_SP] ++ t) :: split_on ascii_LF l.
Proof.
  destruct m as [[n v] t]. intros ((Hn1 & Hn2) & (Hv1 & Hv2) & (Ht1 & Ht2)).
  unfold carbon_line.
  replace ((n ++ [ascii_SP] ++ v ++ [ascii_SP] ++ t ++ [ascii_LF]) ++ l)
    with ((n ++ [ascii_SP] ++ v ++ [ascii_SP] ++ t) ++ [ascii_LF] ++ l)
    by (by rewrite <-!app_assoc).
  apply split_on_app. assert (ascii_LF <> ascii_SP) by done. set_solver.
Qed.

Lemma decode_lines (items : list CarbonItem) :
  Forall item_ok items ->
  carbon_decode (concat (map carbon_line items)) = items.
Proof.
  unfold carbon_decode. induction 1 as [|m items Hm Hi IH]; [done|].
  cbn [map concat]. rewrite split_line by done. cbn [omap list_omap].
  destruct m as [[n v] t]. destruct Hm as ((Hn1 & Hn2) & (Hv1 & Hv2) & (Ht1 & Ht2)).
  rewrite !split_on_app, split_on_none by done. by f_equal.
Qed.

(** C18. What a client writes is unambiguous: on a connection that works, a
    receiver that splits the bytes at newlines and spaces recovers every item of
    the batch, in order, when names, values and timestamps contain no space and no
    newline. *)
Theorem carbon_round_trip {BOK : BytesOk BL} (b : CarbonBackend) :
  blen (cb_metrics b) < 2 ^ 63 -> Forall item_ok (cb_metrics b) ->
  exists out,
    CarbonBackend_send b {| net_bind := true; net_connect := true; net_sink := true |}
      = Some (inr out) /\
    carbon_decode out = cb_metrics b.
Proof.
  intros Hb Hi. rewrite send_lines by done. cbn [net_bind net_connect net_sink negb].
  exists (concat (map carbon_line (cb_metrics b))). split; [|by apply decode_lines].
  by destruct (cc_bind (cb_options b)).
Qed.
End carbon.
