(* ===== verification/Util.v ===== *)
(** * Utilities ([src/src/util.rs])

    The leader switch, the reporter of the process's own statistics, and the
    future that retries an action with pauses. *)

From S2P Require Import Prelude Interfaces Globals Config Task TaskFacts.

(** ** [switch_leader] *)

(** The leader flag follows the consensus only while consensus is enabled. *)
Definition switch_leader (acquired : bool) (l : Leadership) : Leadership :=
  let should_set := bool_decide (consensus_state l = ConsensusState.Enabled) in
  if should_set then {| consensus_state := consensus_state l; is_leader := acquired |} else l.

(** ** [OwnStats] *)
Section own_stats.
Context {BL : BytesLib} {ML : MetricLib}.

Record OwnStats := mkOwnStats {
  os_interval : Z;
  os_prefix : bytes;
  os_period : Duration
}.

(** Intervals below 100 ms are replaced by a second. *)
Definition OwnStats_new (interval : Z) (prefix : bytes) : OwnStats :=
  {| os_interval := interval; os_prefix := prefix;
     os_period := from_millis (if interval <? 100 then 1000 else interval) |}.

(** The counters in the order of the [add_metric!] invocations. *)
Definition reported : list (Counter * bytes) :=
  [(EGRESS, bs "egress"); (INGRESS, bs "ingress"); (INGRESS_METRICS, bs "ingress-metric");
   (AGG_ERRORS, bs "agg-error"); (PARSE_ERRORS, bs "parse-error");
   (PEER_ERRORS, bs "peer-error"); (DROPS, bs "drop")].

(** One [add_metric!]: reset the counter and, when reporting is on, send its old
    value to the first worker as a counter metric. *)
Definition add_metric (s : OwnStats) (st : Stats * BytesMut) (cs : Counter * bytes)
  : option ((Stats * BytesMut) * list (bytes * Metric)) :=
  let '(stats, buf) := st in
  let '(counter, suffix) := cs in
  let '(raw, stats) := swap0 counter stats in
  let value := u64_to_f64 raw in
  if decide (os_interval s > 0) then
    buf ← put (os_prefix s) buf;
    buf ← put (bs ".") buf;
    buf ← put suffix buf;
    let '(name, buf) := take buf in
    match new_counter value with
    | inl _ => panic
    | inr metric => Some ((stats, buf), [(name, metric)])
    end
  else Some ((stats, buf), []).

(** [get_stats]: the counters afterwards and the [Task::AddMetric]s sent. *)
Definition get_stats (s : OwnStats) (stats : Stats) : option (Stats * list (bytes * Metric)) :=
  let buf := with_capacity ((blen (os_prefix s) + 10) * 7) in
  '((stats, _), sent) ← foldEP (add_metric s) (stats, buf) reported;
  Some (stats, sent).

(** [Future::poll]: the answers of the interval timer while it is polled. *)
Inductive IntervalPoll := IReady | IEnd | INotReady | IErr.

Inductive PollResult (A E : Type) := Ready (a : A) | NotReady | Failed (e : E).
#[global] Arguments Ready {A E}.
#[global] Arguments NotReady {A E}.
#[global] Arguments Failed {A E}.

Fixpoint OwnStats_poll (s : OwnStats) (stats : Stats) (timer : list IntervalPoll)
  : option (PollResult unit unit * Stats * list (bytes * Metric)) :=
  match timer with
  | IReady :: timer =>
      '(stats, sent) ← get_stats s stats;
      '(res, stats, sent') ← OwnStats_poll s stats timer;
      Some (res, stats, sent ++ sent')
  | IEnd :: _ => panic
  | INotReady :: _ | [] => Some (NotReady, stats, [])
  | IErr :: _ => Some (Failed (), stats, [])
  end.
End own_stats.

(** ** [BackoffRetry] *)
Record BackoffRetryBuilder := mkBackoff {
  br_delay : Z;
  br_delay_mul : Float;
  br_delay_max : Z;
  br_retries : Z
}.

Definition BackoffRetryBuilder_default : BackoffRetryBuilder :=
  {| br_delay := 250; br_delay_mul := u64_to_f32 2; br_delay_max := 5000; br_retries := 25 |}.

(** What the future waits for: the action, or a delay of so many milliseconds. *)
Inductive Inner := Acting | Delaying (ms : Z).

Record BackoffRetry := mkRetry { rt_inner : Inner; rt_options : BackoffRetryBuilder }.

Definition spawn_retry (o : BackoffRetryBuilder) : BackoffRetry :=
  {| rt_inner := Acting; rt_options := o |}.

(** The pause computed when an attempt fails. *)
Definition retry_delay (o : BackoffRetryBuilder) : Z :=
  let delay := f32_mul (u64_to_f32 (br_delay o)) (br_delay_mul o) in
  if f32_le delay (u64_to_f32 (br_delay_max o)) then f32_to_u64 delay else br_delay_max o.

Section retry.
Context {I E : Type}.

(** What the inner future answers when polled: the action's answer and the
    timer's; only the one being waited for is polled. *)
Record InnerPoll := mkPoll { ip_action : PollResult I E; ip_timer : PollResult unit unit }.

Inductive LoopStep :=
| Return (r : PollResult I (option E)) (b : BackoffRetry)
| Again (b : BackoffRetry)
| Unreachable.                              (* [unreachable!()]: the timer failed *)

(** One iteration of the loop in [poll]. *)
Definition poll_step (b : BackoffRetry) (p : InnerPoll) : LoopStep :=
  match rt_inner b with
  | Acting =>
      match ip_action p with
      | Ready item => Return (Ready item) b
      | NotReady => Return NotReady b
      | Failed e =>
          if decide (br_retries (rt_options b) = 0) then Return (Failed (Some e)) b
          else
            let o := rt_options b in
            let o := {| br_delay := br_delay o; br_delay_mul := br_delay_mul o;
                        br_delay_max := br_delay_max o; br_retries := br_retries o - 1 |} in
            Again {| rt_inner := Delaying (retry_delay o); rt_options := o |}
      end
  | Delaying ms =>
      match ip_timer p with
      | Ready _ => Again {| rt_inner := Acting; rt_options := rt_options b |}
      | NotReady => Return NotReady b
      | Failed _ => Unreachable
      end
  end.

(** A whole life of the future: it is polled again after every [NotReady], and
    each loop iteration consumes one answer of the environment.  The trace lists
    the attempts started and the pauses made. *)
Inductive TraceEvent := Attempt | Pause (ms : Z).
Inductive Outcome := Succeeded (i : I) | GaveUp (e : option E) | Waiting (b : BackoffRetry)
| Panicked.

Definition step_trace (b' : BackoffRetry) : list TraceEvent :=
  match rt_inner b' with Acting => [Attempt] | Delaying ms => [Pause ms] end.

Fixpoint drive (b : BackoffRetry) (env : list InnerPoll) : Outcome * list TraceEvent :=
  match env with
  | [] => (Waiting b, [])
  | p :: env =>
      match poll_step b p with
      | Return (Ready i) _ => (Succeeded i, [])
      | Return (Failed e) _ => (GaveUp e, [])
      | Return NotReady b => drive b env
      | Unreachable => (Panicked, [])
      | Again b' => let '(o, tr) := drive b' env in (o, step_trace b' ++ tr)
      end
  end.

(** The future as [BackoffRetryBuilder::spawn] starts it: the first attempt is
    under way. *)
Definition drive_spawned (o : BackoffRetryBuilder) (env : list InnerPoll)
  : Outcome * list TraceEvent :=
  let '(out, tr) := drive (spawn_retry o) env in (out, Attempt :: tr).

Definition attempts (tr : list TraceEvent) : Z :=
  blen (List.filter (fun e => match e with Attempt => true | _ => false end) tr).

(** Failures each followed by an elapsed pause. *)
Definition failing (es : list E) : list InnerPoll :=
  concat (map (fun e => [mkPoll (Failed e) NotReady; mkPoll NotReady (Ready ())]) es).
End retry.
#[global] Arguments LoopStep : clear implicits.
#[global] Arguments Outcome : clear implicits.
#[global] Arguments InnerPoll : clear implicits.

(** ** Reporting *)
Section stats_props.
Context {BL : BytesLib} {BOK : BytesOk BL} {ML : MetricLib}.

Lemma swap0_zero c st d : fst (swap0 c st) = st c /\
  snd (swap0 c st) d = if decide (c = d) then 0 else st d.
Proof. done. Qed.

(** The reported metrics fit when the buffer has room for all of them. *)
Lemma add_metrics_fit s l stats buf (f : Float -> Metric) :
  os_interval s > 0 -> contents buf = [] ->
  (forall v, new_counter v = inr (f v)) ->
  base.NoDup l.*1 ->
  foldr (fun cs n => blen (os_prefix s) + 1 + blen (snd cs) + n) 0 l <= remaining_mut buf ->
  exists stats' buf',
    foldEP (add_metric s) (stats, buf) l =
      Some ((stats', buf'),
            map (fun cs => (os_prefix s ++ bs "." ++ snd cs, f (u64_to_f64 (stats (fst cs))))) l)
    /\ forall c, stats' c = if decide (c ∈ l.*1) then 0 else stats c.
Proof.
  intros Hi Hb Hf. revert stats buf Hb. induction l as [|[c suf] l IH]; intros stats buf Hb Hnd Hr.
  { exists stats, buf. split; [done|]. intros c. by rewrite decide_False by apply not_elem_of_nil. }
  apply list.NoDup_cons in Hnd as [Hc Hnd]. cbn [foldr snd] in Hr.
  pose proof (blen_nonneg (os_prefix s)); pose proof (blen_nonneg suf).
  assert (Hpos : 0 <= foldr (fun cs n => blen (os_prefix s) + 1 + blen (snd cs) + n) 0 l).
  { clear -H. induction l as [|[c0 b] l]; simpl; [lia|]. pose proof (blen_nonneg b). lia. }
  assert (H1 : blen (bs ".") = 1) by done.
  cbn [foldEP]. unfold add_metric at 1. cbn [swap0]. rewrite decide_True by done.
  destruct (put_ok (os_prefix s) buf ltac:(lia)) as (b1 & -> & Hb1 & Hr1). cbn [mbind option_bind].
  destruct (put_ok (bs ".") b1 ltac:(lia)) as (b2 & -> & Hb2 & Hr2). cbn [mbind option_bind].
  destruct (put_ok suf b2 ltac:(lia)) as (b3 & -> & Hb3 & Hr3). cbn [mbind option_bind].
  pose proof (take_fst b3) as Ht1. pose proof (take_contents b3) as Ht2.
  pose proof (take_room b3) as Ht3. destruct (take b3) as [name b4]. cbn [fst snd] in *.
  rewrite Hf.
  destruct (IH (fun d => if decide (c = d) then 0 else stats d) b4 Ht2 Hnd ltac:(lia))
    as (stats' & b5 & -> & Hs). exists stats', b5. split.
  - do 2 f_equal. cbn [map fst snd app]. f_equal.
    + by rewrite Ht1, Hb3, Hb2, Hb1, Hb, <-app_assoc.
    + apply map_ext_in. intros [d sd] Hd%list_elem_of_In. cbn [fst].
      rewrite decide_False; [done|]. intros ->. apply Hc. by apply (list_elem_of_fmap_2 fst) in Hd.
  - intros d. rewrite Hs. repeat case_decide; set_solver.
Qed.

(** Own statistics: with reporting on, one round never overruns its name
    buffer, sends exactly one counter per statistic under [prefix.name] with the
    value counted since the previous round, and leaves all seven counters at
    zero, so every event is reported exactly once. *)
Theorem own_stats_report (s : OwnStats) (stats : Stats) (f : Float -> Metric) :
  os_interval s > 0 -> (forall v, new_counter v = inr (f v)) ->
  exists stats',
    get_stats s stats =
      Some (stats', map (fun cs => (os_prefix s ++ bs "." ++ snd cs,
                                    f (u64_to_f64 (stats (fst cs))))) reported)
    /\ forall c, stats' c = 0.
Proof.
  intros Hi Hf. unfold get_stats.
  set (buf := with_capacity _).
  destruct (add_metrics_fit s reported stats buf f) as (stats' & buf' & -> & Hs); try done.
  - apply with_capacity_contents.
  - apply (bool_decide_unpack _). by vm_compute.
  - transitivity ((blen (os_prefix s) + 10) * 7).
    + unfold blen; cbn [reported foldr snd]. simpl. lia.
    + apply with_capacity_room. pose proof (blen_nonneg (os_prefix s)). lia.
  - exists stats'. split; [done|]. intros c. rewrite Hs.
    rewrite decide_True; [done|]. destruct c; set_solver.
Qed.
End stats_props.

(** ** Retrying *)
Section retry_props.
Context {I E : Type}.
Implicit Types (env : list (InnerPoll I E)) (o : BackoffRetryBuilder).

(** The state of a future that was spawned with options [o]. *)
Definition same_delays o (b : BackoffRetry) : Prop :=
  br_delay (rt_options b) = br_delay o /\ br_delay_mul (rt_options b) = br_delay_mul o /\
  br_delay_max (rt_options b) = br_delay_max o.

Lemma retry_delay_same o o' :
  br_delay o = br_delay o' -> br_delay_mul o = br_delay_mul o' ->
  br_delay_max o = br_delay_max o' -> retry_delay o = retry_delay o'.
Proof. unfold retry_delay. by intros -> -> ->. Qed.

Lemma drive_bounded o (b : BackoffRetry) env out tr :
  same_delays o b -> 0 <= br_retries (rt_options b) -> drive b env = (out, tr) ->
  attempts tr <= br_retries (rt_options b) +
    (match rt_inner b with Acting => 0 | Delaying _ => 1 end) /\
  Forall (fun e => match e with Attempt => True | Pause ms => ms = retry_delay o end) tr.
Proof.
  revert b tr. induction env as [|p env IH]; intros b tr Hs Hr; cbn [drive].
  { intros [= <- <-]. split; [|done]. unfold attempts, blen; simpl. case_match; lia. }
  assert (Hnil : attempts [] = 0) by done.
  unfold poll_step. destruct (rt_inner b) as [|ms] eqn:Hin.
  - destruct (ip_action p) as [i| |e]; [intros [= <- <-]; split; [lia|done]| |].
    { intros Hd. apply IH in Hd; [|done..]. by rewrite Hin in Hd. }
    case_decide; [intros [= <- <-]; split; [lia|done]|].
    destruct (drive _ env) as [out' tr'] eqn:Hd. intros [= <- <-].
    destruct Hs as (H1 & H2 & H3). apply IH in Hd; [|done|cbn; lia]. cbn in Hd.
    destruct Hd as [Ha Hf]. split; [unfold attempts, blen in *; cbn; cbn in Ha; lia|].
    constructor; [|done]. by apply retry_delay_same.
  - destruct (ip_timer p) as [u| |u]; [| |intros [= <- <-]; split; [lia|done]].
    + destruct (drive _ env) as [out' tr'] eqn:Hd. intros [= <- <-].
      apply IH in Hd; [|done..]. cbn in Hd. destruct Hd as [Ha Hf].
      split; [unfold attempts, blen in *; cbn; lia|]. by constructor.
    + intros Hd. apply IH in Hd; [|done..]. by rewrite Hin in Hd.
Qed.

(** At most [retries + 1] attempts, with the same pause after each failure. *)
Lemma retry_attempts (o : BackoffRetryBuilder) (env : list (InnerPoll I E)) :
  0 <= br_retries o ->
  attempts (snd (drive_spawned o env)) <= br_retries o + 1 /\
  Forall (fun e => match e with Attempt => True | Pause ms => ms = retry_delay o end)
         (snd (drive_spawned o env)).
Proof.
  intros Hr. unfold drive_spawned. destruct (drive (spawn_retry o) env) as [out tr] eqn:Hd.
  apply (drive_bounded o) in Hd; [|done|done]. cbn in *. destruct Hd as [Ha Hf].
  split; [unfold attempts, blen in *; cbn; lia|]. by constructor.
Qed.

Lemma drive_failing (es : list E) o env :
  blen es <= br_retries o ->
  exists o', drive (spawn_retry o) (failing es ++ env) =
    (let '(out, tr) := drive (spawn_retry o') env in
     (out, concat (map (fun _ => [Pause (retry_delay o); Attempt]) es) ++ tr)) /\
    same_delays o (spawn_retry o') /\ br_retries o' = br_retries o - blen es.
Proof.
  revert o. induction es as [|e es IH]; intros o Hr.
  { exists o. split; [|split; [done|unfold blen; simpl; lia]].
    cbn. by destruct (drive (spawn_retry o) env). }
  unfold blen in *. cbn [length] in Hr.
  change (failing (e :: es) ++ env) with
    (mkPoll (Failed e) NotReady :: mkPoll NotReady (Ready ()) :: failing (I := I) es ++ env).
  cbn [drive poll_step spawn_retry rt_inner rt_options ip_action ip_timer].
  rewrite decide_False by lia. cbn [drive poll_step rt_inner rt_options ip_timer].
  match goal with |- context [{| rt_inner := Acting; rt_options := ?x |}] => set (o1 := x) end.
  destruct (IH o1 ltac:(cbn; lia)) as (o' & He & (Hd1 & Hd2 & Hd3) & Hr').
  unfold spawn_retry in He at 1. rewrite He. exists o'.
  destruct (drive (spawn_retry o') env) as [out tr]. cbn [step_trace rt_inner app].
  split; [|split; [done|rewrite Hr'; cbn; lia]]. done.
Qed.

(** The outcome after [retries] failures. *)
Lemma retry_outcomes (o : BackoffRetryBuilder) (es : list E) (last : E) (item : I) :
  blen es = br_retries o ->
  (fst (drive_spawned (I := I) o (failing es ++ [mkPoll (Failed last) NotReady])) = GaveUp (Some last) /\
   attempts (snd (drive_spawned (I := I) o (failing es ++ [mkPoll (Failed last) NotReady])))
     = br_retries o + 1) /\
  fst (drive_spawned o (failing es ++ [mkPoll (Ready item) NotReady])) = Succeeded item.
Proof.
  intros Hl. unfold drive_spawned.
  assert (Hatt : attempts (concat (map (fun _ => [Pause (retry_delay o); Attempt]) es)) = blen es).
  { unfold attempts, blen. f_equal. clear Hl. induction es as [|e es IH]; [done|].
    cbn. cbn in IH. by rewrite IH. }
  destruct (drive_failing es o [mkPoll (Failed last) NotReady]) as (o1 & -> & _ & Hr1); [lia|].
  destruct (drive_failing es o [mkPoll (Ready item) NotReady]) as (o2 & -> & _ & Hr2); [lia|].
  cbn [drive poll_step spawn_retry rt_inner rt_options ip_action].
  rewrite decide_True by lia. cbn [fst snd]. repeat split.
  rewrite app_nil_r. rewrite <-Hl, <-Hatt. unfold attempts, blen; cbn [List.filter length]. lia.
Qed.

(** C19. Retrying: whatever the environment answers, an action is started at most
    [retries + 1] times, and every pause between attempts is the same: the delay is
    multiplied once and not per failure.  An action that fails [retries + 1] times
    makes the future fail with the last error after exactly that many attempts; one
    that fails [retries] times and then succeeds makes it succeed with its item. *)
Theorem retry_bounded (o : BackoffRetryBuilder) :
  0 <= br_retries o ->
  (forall env : list (InnerPoll I E),
     attempts (snd (drive_spawned o env)) <= br_retries o + 1 /\
     Forall (fun e => match e with Attempt => True | Pause ms => ms = retry_delay o end)
            (snd (drive_spawned o env))) /\
  (forall (es : list E) (last : E) (item : I), blen es = br_retries o ->
     let fails := drive_spawned (I := I) o (failing es ++ [mkPoll (Failed last) NotReady]) in
     fst fails = GaveUp (Some last) /\ attempts (snd fails) = br_retries o + 1 /\
     fst (drive_spawned o (failing es ++ [mkPoll (Ready item) NotReady])) = Succeeded item).
Proof.
  intros Hr. split; [intros env; by apply retry_attempts|].
  intros es last item Hl fails. by destruct (retry_outcomes o es last item Hl) as [[H1 H2] H3].
Qed.
End retry_props.
