(* ===== verification/Server.v ===== *)
(** * Asynchronous UDP listener ([src/src/server.rs])

    A listener gathers datagrams per sender address and hands the gathered bytes
    to workers when enough bytes came in or a flush was requested. *)

From S2P Require Import Prelude Interfaces Globals Config Task TaskFacts.

(** ** [DefaultHasher]: a deterministic hash of the sender, a [u64] *)
Class AddrHash (A : Type) := hash_addr : A -> Z.

(** [&l[a..b]]: panics out of range. *)
Definition slice {A} (l : list A) (a b : Z) : option (list A) :=
  if decide (0 <= a /\ a <= b /\ b <= blen l)
  then Some (firstn (Z.to_nat (b - a)) (skipn (Z.to_nat a) l)) else panic.

Section server.
Context {BL : BytesLib} {ML : MetricLib} {HI : HashIter} {AH : AddrHash SocketAddr}.

Record StatsdServer := mkStatsdServer {
  ss_chans : list Chan;
  ss_bufmap : gmap SocketAddr BytesMut;
  ss_config : System;
  ss_bufsize : Z;
  ss_recv_counter : Z;
  ss_next : Z;
  ss_thread_idx : Z
}.

(** [StatsdServer::new], without the socket and its read buffer. *)
Definition StatsdServer_new (chans : list Chan) (bufmap : gmap SocketAddr BytesMut) (config : System)
    (bufsize recv_counter next thread_idx : Z) : StatsdServer :=
  {| ss_chans := chans; ss_bufmap := bufmap; ss_config := config; ss_bufsize := bufsize;
     ss_recv_counter := recv_counter; ss_next := next; ss_thread_idx := thread_idx |}.

(** Append a datagram to the buffer of its sender. *)
Definition store_datagram (s : StatsdServer) (received : bytes) (size : Z) (addr : SocketAddr)
  : option (gmap SocketAddr BytesMut) :=
  let buf := match ss_bufmap s !! addr with
             | Some b => b
             | None => with_capacity (buffer_flush_length (network (ss_config s)))
             end in
  let buf := if decide (remaining_mut buf < size) then reserve (size + 1) buf else buf in
  data ← slice received 0 size;
  buf ← put data buf;
  Some (<[addr := buf]> (ss_bufmap s)).

(** The closure of [bufmap.drain().map(..)]: choose a channel, send, and count a
    drop when the worker is gone. *)
Definition dispatch (s : StatsdServer) (next : Z) (entry : SocketAddr * BytesMut)
  : option (Z * list NodeEffect) :=
  let '(addr, buf) := entry in
  let ahash := hash_addr addr in
  '(chan, next) ←
    (if consistent_parsing (metrics (ss_config s)) then
       let chlen := blen (ss_chans s) in
       if decide (chlen = 0) then panic
       else chan ← index (ss_chans s) (ahash `mod` chlen); Some (chan, next)
     else
       let next := if decide (next >= blen (ss_chans s)) then 0 else next in
       chan ← index (ss_chans s) next; Some (chan, next + 1));
  Some (next, [if ch_open chan then SendTask (ch_id chan) (Parse ahash (contents buf))
               else Plain (Count DROPS 1)]).

(** [recv_dgram(..).and_then(..)]: the handler of one datagram.  The first result
    is the listener that is spawned for the next datagram, [None] when the
    listener stops; the second the flush flags shared with the flush timer. *)
Definition on_datagram (s : StatsdServer) (flags : list bool) (received : bytes) (size : Z)
    (addr : SocketAddr) : option (option StatsdServer * list bool * list NodeEffect) :=
  let ingress := Plain (Count INGRESS 1) in
  if decide (size = 0) then Some (None, flags, [ingress])
  else
    let recv_counter := wrap64 (ss_recv_counter s + size) in
    bufmap ← store_datagram s received size addr;
    flush ← index flags (ss_thread_idx s);
    let flags := <[Z.to_nat (ss_thread_idx s) := false]> flags in
    if bool_decide (recv_counter >= buffer_flush_length (network (ss_config s))) || flush then
      '(next, es) ← foldEP (dispatch s) (ss_next s) (hiter bufmap);
      Some (Some {| ss_chans := ss_chans s; ss_bufmap := ∅; ss_config := ss_config s;
                    ss_bufsize := ss_bufsize s; ss_recv_counter := 0; ss_next := next;
                    ss_thread_idx := ss_thread_idx s |}, flags, ingress :: es)
    else
      Some (Some {| ss_chans := ss_chans s; ss_bufmap := bufmap; ss_config := ss_config s;
                    ss_bufsize := ss_bufsize s; ss_recv_counter := recv_counter;
                    ss_next := ss_next s; ss_thread_idx := ss_thread_idx s |},
            flags, [ingress]).

(** What happens to a listener: a datagram arrives in the read buffer, the flush
    timer ticks, or receiving fails (which ends the listener). *)
Inductive ServerEvent :=
| Datagram (received : bytes) (size : Z) (addr : SocketAddr)
| FlushTick
| RecvError.

(** [flags.iter().map(|flag| flag.swap(true, SeqCst)).last()] of [main.rs]. *)
Definition flush_tick (flags : list bool) : list bool := map (fun _ => true) flags.

Fixpoint serve (s : StatsdServer) (flags : list bool) (evs : list ServerEvent)
  : option (option StatsdServer * list bool * list NodeEffect) :=
  match evs with
  | [] => Some (Some s, flags, [])
  | FlushTick :: evs => serve s (flush_tick flags) evs
  | RecvError :: _ => Some (None, flags, [])
  | Datagram received size addr :: evs =>
      '(so, flags, es) ← on_datagram s flags received size addr;
      match so with
      | None => Some (None, flags, es)
      | Some s => '(so, flags, es') ← serve s flags evs; Some (so, flags, es ++ es')
      end
  end.

(** ** Observations *)

(** The bytes sent for parsing under a hash, in order. *)
Definition parse_payload (h : Z) (ct : nat * Task) : bytes :=
  match snd ct with Parse a b => if decide (a = h) then b else [] | _ => [] end.
Definition parsed_stream (h : Z) (es : list NodeEffect) : bytes :=
  concat (map (parse_payload h) (tasks_sent es)).

(** The bytes a sender sent, in order. *)
Definition event_bytes (a : SocketAddr) (ev : ServerEvent) : bytes :=
  match ev with
  | Datagram received size addr => if decide (addr = a) then firstn (Z.to_nat size) received else []
  | _ => []
  end.
Definition sent_stream (a : SocketAddr) (evs : list ServerEvent) : bytes :=
  concat (map (event_bytes a) evs).

(** The bytes that wait in a buffer map. *)
Definition buffered {K} `{Countable K} (a : K) (m : gmap K BytesMut) : bytes :=
  match m !! a with Some b => contents b | None => [] end.

Lemma parsed_stream_app h es es' :
  parsed_stream h (es ++ es') = parsed_stream h es ++ parsed_stream h es'.
Proof. unfold parsed_stream. by rewrite tasks_sent_app, map_app, concat_app. Qed.

(** A configuration in which nothing panics. *)
Definition server_ok (s : StatsdServer) (flags : list bool) : Prop :=
  ss_chans s <> [] /\ 0 <= ss_thread_idx s < blen flags /\ 0 <= ss_next s.

Definition event_ok (ev : ServerEvent) : Prop :=
  match ev with
  | Datagram received size _ => 0 < size <= blen received
  | FlushTick => True
  | RecvError => False
  end.

(** No other sender of the run has the hash of [a]. *)
Definition hash_unique {A} `{AddrHash A} (a : A) (others : list A) : Prop :=
  Forall (fun b => hash_addr b = hash_addr a -> b = a) others.

Definition senders (evs : list ServerEvent) : list SocketAddr :=
  omap (fun ev => match ev with Datagram _ _ a => Some a | _ => None end) evs.

Section props.
Context {BOK : BytesOk BL} {HIOK : HashIterOk HI}.

Lemma slice_prefix {A} (l : list A) n :
  0 <= n <= blen l -> slice l 0 n = Some (firstn (Z.to_nat n) l).
Proof.
  intros Hn. unfold slice. rewrite decide_True by lia. by rewrite Z.sub_0_r.
Qed.

Lemma buffered_insert {K} `{Countable K} (a b : K) (m : gmap K BytesMut) buf :
  buffered a (<[b := buf]> m) = if decide (b = a) then contents buf else buffered a m.
Proof. unfold buffered. rewrite lookup_insert. by case_decide. Qed.

(** The entry of a sender, and a fresh buffer when there is none. *)
Lemma entry_contents {K} `{Countable K} (a : K) (m : gmap K BytesMut) n :
  contents (match m !! a with Some b => b | None => with_capacity n end) = buffered a m.
Proof. unfold buffered. destruct (m !! a); [done|apply with_capacity_contents]. Qed.

Lemma store_datagram_spec s received size addr :
  0 < size <= blen received ->
  exists m, store_datagram s received size addr = Some m /\
    (forall a, buffered a m = buffered a (ss_bufmap s) ++
                 (if decide (addr = a) then firstn (Z.to_nat size) received else [])) /\
    dom m = {[addr]} ∪ dom (ss_bufmap s).
Proof.
  intros Hs. unfold store_datagram. rewrite slice_prefix by lia. cbn [mbind option_bind].
  set (b0 := match ss_bufmap s !! addr with Some b => b | None => _ end).
  assert (Hc0 : contents b0 = buffered addr (ss_bufmap s)) by apply entry_contents.
  set (b1 := if decide _ then _ else b0).
  assert (Hb1 : contents b1 = contents b0 /\ size <= remaining_mut b1).
  { subst b1. case_decide; [|split; [done|lia]].
    rewrite reserve_contents. split; [done|]. pose proof (reserve_room (size + 1) b0). lia. }
  destruct Hb1 as [Hc1 Hr1].
  destruct (put_ok (firstn (Z.to_nat size) received) b1) as (b2 & -> & Hc2 & _).
  { unfold blen in *. rewrite length_firstn. lia. }
  cbn [mbind option_bind]. eexists. split; [done|]. split; [|apply dom_insert_L].
  intros a. rewrite buffered_insert. case_decide; [subst|by rewrite app_nil_r].
  by rewrite Hc2, Hc1, Hc0.
Qed.

Lemma dispatch_spec s next addr buf :
  ss_chans s <> [] -> Forall (fun ch => ch_open ch = true) (ss_chans s) -> 0 <= next ->
  exists next' ch,
    dispatch s next (addr, buf) =
      Some (next', [SendTask (ch_id ch) (Parse (hash_addr addr) (contents buf))]) /\
    0 <= next' /\ ch ∈ ss_chans s /\
    (consistent_parsing (metrics (ss_config s)) = true ->
     ss_chans s !! Z.to_nat (hash_addr addr `mod` blen (ss_chans s)) = Some ch).
Proof.
  intros Hne Hop Hn. unfold dispatch.
  assert (Hlen : 0 < blen (ss_chans s)) by (destruct (ss_chans s); [done|unfold blen; simpl; lia]).
  rewrite list.Forall_forall in Hop.
  assert (Hidx : forall i, 0 <= i < blen (ss_chans s) -> exists ch,
    index (ss_chans s) i = Some ch /\ ss_chans s !! Z.to_nat i = Some ch /\ ch ∈ ss_chans s).
  { intros i Hi. unfold index. rewrite decide_True by lia.
    destruct (ss_chans s !! Z.to_nat i) as [ch|] eqn:Hch.
    - exists ch. split_and!; try done. by eapply list_elem_of_lookup_2.
    - apply lookup_ge_None in Hch. unfold blen in *. lia. }
  destruct (consistent_parsing _).
  - rewrite decide_False by lia.
    destruct (Hidx (hash_addr addr `mod` blen (ss_chans s))) as (ch & -> & Hl & Hin);
      [by apply Z.mod_pos_bound|].
    cbn [mbind option_bind]. exists next, ch. rewrite (Hop ch Hin). by split_and!.
  - destruct (Hidx (if decide (next >= blen (ss_chans s)) then 0 else next))
      as (ch & -> & Hl & Hin); [case_decide; lia|].
    cbn [mbind option_bind]. eexists _, ch. rewrite (Hop ch Hin).
    split_and!; try done. case_decide; lia.
Qed.

(** Every task goes to a channel of the listener; with consistent parsing, to the
    one its hash selects. *)
Definition routed (s : StatsdServer) (ct : nat * Task) : Prop :=
  exists ch h b, ct = (ch_id ch, Parse h b) /\ ch ∈ ss_chans s /\
    (consistent_parsing (metrics (ss_config s)) = true ->
     ss_chans s !! Z.to_nat (h `mod` blen (ss_chans s)) = Some ch).

Lemma dispatch_all s next l a :
  ss_chans s <> [] -> Forall (fun ch => ch_open ch = true) (ss_chans s) -> 0 <= next ->
  base.NoDup l.*1 -> hash_unique a l.*1 ->
  exists next' es,
    foldEP (dispatch s) next l = Some (next', es) /\ 0 <= next' /\
    Forall (routed s) (tasks_sent es) /\
    parsed_stream (hash_addr a) es = buffered a (list_to_map l : gmap SocketAddr BytesMut).
Proof.
  intros Hne Hop. revert next. induction l as [|[b buf] l IH]; intros next Hn Hnd Hu.
  { by exists next, []. }
  apply list.NoDup_cons in Hnd as [Hb Hnd]. apply list.Forall_cons in Hu as [Hub Hu].
  cbn [foldEP]. destruct (dispatch_spec s next b buf Hne Hop Hn) as (n1 & ch & -> & Hn1 & Hin & Hc).
  destruct (IH n1 Hn1 Hnd Hu) as (n2 & es & -> & Hn2 & Hr & Hp).
  exists n2, ([SendTask (ch_id ch) (Parse (hash_addr b) (contents buf))] ++ es).
  split; [done|]. split; [done|]. split.
  { rewrite tasks_sent_app. apply Forall_app_2; [|done]. repeat constructor. by repeat eexists. }
  rewrite parsed_stream_app, Hp. cbn [list_to_map foldr]. fold (list_to_map (M := gmap SocketAddr BytesMut) l).
  cbn [uncurry]. rewrite buffered_insert. unfold parsed_stream. cbn. rewrite app_nil_r.
  destruct (decide (b = a)) as [->|Hne'].
  - rewrite decide_True by done. unfold buffered.
    rewrite (not_elem_of_list_to_map_1 l a) by done. by rewrite app_nil_r.
  - rewrite decide_False; [done|]. intros He. by apply Hne', Hub.
Qed.

Lemma hiter_bufmap {K} `{Countable K} (m : gmap K BytesMut) :
  base.NoDup (hiter m).*1 /\ list_to_map (hiter m) = m /\ forall b, b ∈ (hiter m).*1 -> b ∈ dom m.
Proof.
  pose proof (hiter_perm _ _ _ _ m) as Hp.
  assert (Hnd : base.NoDup (hiter m).*1) by (rewrite Hp; apply NoDup_fst_map_to_list).
  split; [done|]. split.
  - rewrite <-(list_to_map_to_list m) at 2. by apply list_to_map_proper.
  - intros b. rewrite Hp. intros ((x & y) & -> & Hin)%list_elem_of_fmap. cbn.
    apply elem_of_map_to_list in Hin. by apply elem_of_dom_2 in Hin.
Qed.

Lemma on_datagram_spec s flags received size addr a :
  server_ok s flags -> Forall (fun ch => ch_open ch = true) (ss_chans s) ->
  0 < size <= blen received ->
  (forall b, b ∈ ({[addr]} ∪ dom (ss_bufmap s) : gset SocketAddr) ->
             hash_addr b = hash_addr a -> b = a) ->
  exists s' flags' es,
    on_datagram s flags received size addr = Some (Some s', flags', es) /\
    server_ok s' flags' /\ ss_chans s' = ss_chans s /\ ss_config s' = ss_config s /\
    dom (ss_bufmap s') ⊆ {[addr]} ∪ dom (ss_bufmap s) /\
    Forall (routed s) (tasks_sent es) /\
    parsed_stream (hash_addr a) es ++ buffered a (ss_bufmap s') =
    buffered a (ss_bufmap s) ++ event_bytes a (Datagram received size addr).
Proof.
  intros (Hne & Hidx & Hnext) Hop Hs Hu. unfold on_datagram. rewrite decide_False by lia.
  destruct (store_datagram_spec s received size addr Hs) as (m & -> & Hm & Hdom).
  cbn [mbind option_bind].
  destruct (flags !! Z.to_nat (ss_thread_idx s)) as [f|] eqn:Hf.
  2: { apply lookup_ge_None in Hf. unfold blen in *. lia. }
  unfold index. rewrite decide_True by lia. rewrite Hf. cbn [mbind option_bind].
  assert (Hlen : forall fl : list bool, blen (<[Z.to_nat (ss_thread_idx s) := false]> fl) = blen fl).
  { intros. unfold blen. by rewrite length_insert. }
  destruct (bool_decide _ || f).
  - destruct (hiter_bufmap m) as (Hnd & Hmap & Hd).
    destruct (dispatch_all s (ss_next s) (hiter m) a Hne Hop Hnext Hnd)
      as (n' & es & -> & Hn' & Hr & Hp).
    { apply list.Forall_forall. intros b Hb. apply Hu. rewrite <-Hdom. by apply Hd. }
    cbn [mbind option_bind]. do 3 eexists. split; [done|]. unfold server_ok. rewrite Hlen.
    cbn. split_and!; try done; try lia.
    change (parsed_stream (hash_addr a) es ++ buffered a (∅ : gmap SocketAddr BytesMut) =
      buffered a (ss_bufmap s) ++ event_bytes a (Datagram received size addr)).
    rewrite Hp, Hmap, Hm. unfold buffered at 2. rewrite lookup_empty. by rewrite app_nil_r.
  - do 3 eexists. split; [done|]. unfold server_ok. rewrite Hlen. cbn.
    split_and!; try done; try lia. rewrite Hdom. set_solver.
Qed.

(** C14. Streams are reassembled: whatever datagrams arrive from whatever senders
    and however flushes interleave, the listener neither panics nor stops on
    non-empty datagrams, and the bytes handed to workers for a sender, followed by
    the bytes still buffered for it, are exactly the bytes it sent, in order, with
    nothing from other senders in between (senders with equal hashes share a
    buffer in the worker and are excluded); with consistent parsing all of them go
    to the worker the hash of the sender selects. *)
Theorem listener_reassembles_streams (s : StatsdServer) (flags : list bool)
    (evs : list ServerEvent) (a : SocketAddr) :
  server_ok s flags -> Forall (fun ch => ch_open ch = true) (ss_chans s) ->
  ss_bufmap s = ∅ -> Forall event_ok evs -> hash_unique a (senders evs) ->
  exists s' flags' es,
    serve s flags evs = Some (Some s', flags', es) /\
    Forall (routed s) (tasks_sent es) /\
    parsed_stream (hash_addr a) es ++ buffered a (ss_bufmap s') = sent_stream a evs.
Proof.
  intros Hok Hop Hempty Hev Hu.
  assert (Hgen : forall s flags, server_ok s flags ->
    Forall (fun ch => ch_open ch = true) (ss_chans s) ->
    (forall b, b ∈ dom (ss_bufmap s) -> hash_addr b = hash_addr a -> b = a) ->
    exists s' flags' es, serve s flags evs = Some (Some s', flags', es) /\
      Forall (routed s) (tasks_sent es) /\
      parsed_stream (hash_addr a) es ++ buffered a (ss_bufmap s') =
      buffered a (ss_bufmap s) ++ sent_stream a evs).
  { clear s flags Hok Hop Hempty. unfold sent_stream.
    induction Hev as [|ev evs He Hev IH]; intros s flags Hok Hop Hd.
    { exists s, flags, []. split_and!; try done. cbn. by rewrite app_nil_r. }
    destruct ev as [received size addr| |]; [| |done]; cbn [serve].
    - cbn [senders omap list_omap] in Hu. apply list.Forall_cons in Hu as [Hua Hu].
      destruct (on_datagram_spec s flags received size addr a Hok Hop He)
        as (s1 & fl1 & e1 & -> & Hok1 & Hch & Hcf & Hdom & Hr1 & Hp1).
      { intros b [->%elem_of_singleton|Hb]%elem_of_union; auto. }
      cbn [mbind option_bind].
      destruct (IH Hu s1 fl1 Hok1) as (s2 & fl2 & e2 & -> & Hr2 & Hp2).
      { by rewrite Hch. }
      { intros b Hb%Hdom. apply elem_of_union in Hb as [->%elem_of_singleton|Hb]; auto. }
      cbn [mbind option_bind]. do 3 eexists. split; [done|]. split.
      + rewrite tasks_sent_app. apply Forall_app_2; [done|].
        eapply List.Forall_impl; [|exact Hr2]. intros ct. unfold routed. by rewrite Hch, Hcf.
      + rewrite parsed_stream_app, <-app_assoc, Hp2, app_assoc, Hp1.
        cbn [map concat]. by rewrite <-app_assoc.
    - apply IH; try done. unfold server_ok, flush_tick, blen in *. by rewrite length_map. }
  destruct (Hgen s flags Hok Hop) as (s' & fl & es & He & Hr & Hp).
  { rewrite Hempty. set_solver. }
  exists s', fl, es. split_and!; try done. rewrite Hp, Hempty. unfold buffered.
  by rewrite lookup_empty.
Qed.

(** C39. An empty datagram ends its listener: after any sequence of events the
    listener survives, the handler of an empty datagram returns without spawning
    the next receive, so whatever comes later is not handled, and the bytes
    gathered so far are never handed to a worker. *)
Theorem empty_datagram_stops_listener (s s' : StatsdServer) (flags flags' : list bool)
    (evs later : list ServerEvent) (es : list NodeEffect) (received : bytes)
    (addr : SocketAddr) :
  serve s flags evs = Some (Some s', flags', es) ->
  serve s flags (evs ++ Datagram received 0 addr :: later) =
  Some (None, flags', es ++ [Plain (Count INGRESS 1)]).
Proof.
  revert s flags es. induction evs as [|[r n a| |] evs IH]; intros s flags es; cbn [serve app].
  - by intros [= <- <- <-].
  - destruct (on_datagram s flags r n a) as [[[[s1|] fl1] e1]|]; cbn [mbind option_bind]; try done.
    destruct (serve s1 fl1 evs) as [[[so fl2] e2]|] eqn:Hs; cbn [mbind option_bind]; [|done].
    intros [= -> -> <-]. rewrite (IH _ _ _ Hs). cbn [mbind option_bind]. by rewrite <-app_assoc.
  - apply IH.
  - done.
Qed.

(** ** Bounded buffering *)

(** The bytes waiting in all buffers of a listener. *)
Definition total_buffered {K} `{Countable K} (m : gmap K BytesMut) : Z :=
  map_fold (fun _ b n => blen (contents b) + n) 0 m.

Lemma total_buffered_insert {K} `{Countable K} (m : gmap K BytesMut) a b :
  total_buffered (<[a := b]> m) = total_buffered m - blen (buffered a m) + blen (contents b).
Proof.
  assert (Hins : forall (m : gmap K BytesMut) b, m !! a = None ->
    total_buffered (<[a := b]> m) = blen (contents b) + total_buffered m).
  { intros m0 b0 H0. unfold total_buffered.
    apply (map_fold_insert_L (fun _ b n => blen (contents b) + n)); [intros; lia|done]. }
  unfold buffered. destruct (m !! a) as [c|] eqn:Ha.
  - rewrite <-(insert_delete_id m a c Ha) at 2. rewrite <-insert_delete_eq.
    rewrite !Hins by apply lookup_delete_eq. lia.
  - rewrite Hins by done. assert (blen ([] : bytes) = 0) by done. lia.
Qed.

(** C21. Bounded buffering: between datagrams a listener holds exactly as many
    bytes as its receive counter says, which is below the configured flush length
    (or nothing at all when that length is zero). *)
Theorem listener_buffers_bounded (s : StatsdServer) (flags : list bool) (received : bytes)
    (size : Z) (addr : SocketAddr) (s' : StatsdServer) (flags' : list bool)
    (es : list NodeEffect) :
  total_buffered (ss_bufmap s) = ss_recv_counter s ->
  0 <= ss_recv_counter s -> ss_recv_counter s + size < 2 ^ 64 -> 0 < size <= blen received ->
  on_datagram s flags received size addr = Some (Some s', flags', es) ->
  total_buffered (ss_bufmap s') = ss_recv_counter s' /\
  (ss_recv_counter s' = 0 \/
   0 < ss_recv_counter s' < buffer_flush_length (network (ss_config s))).
Proof.
  intros Ht H0 Hov Hs. unfold on_datagram. rewrite decide_False by lia.
  unfold store_datagram. rewrite slice_prefix by lia. cbn [mbind option_bind].
  set (b0 := match ss_bufmap s !! addr with Some b => b | None => _ end).
  assert (Hc0 : contents b0 = buffered addr (ss_bufmap s)) by apply entry_contents.
  set (b1 := if decide _ then _ else b0).
  assert (Hc1 : contents b1 = contents b0) by (subst b1; case_decide; [apply reserve_contents|done]).
  destruct (put _ b1) as [b2|] eqn:Hput; [|done]. cbn [mbind option_bind].
  destruct (index flags _) as [f|]; [|done]. cbn [mbind option_bind].
  destruct (bool_decide _ || f) eqn:Hfl.
  - destruct (foldEP _ _ _) as [[n e]|]; [|done]. cbn [mbind option_bind]. intros [= <- <- <-].
    cbn. split; [apply map_fold_empty|by left].
  - apply orb_false_iff in Hfl as [Hfl%bool_decide_eq_false _].
    intros [= <- <- <-]. cbn. rewrite wrap64_small in * by lia. split; [|right; lia].
    rewrite total_buffered_insert.
    assert (Hroom : blen (firstn (Z.to_nat size) received) <= remaining_mut b1).
    { destruct (Z.le_gt_cases (blen (firstn (Z.to_nat size) received)) (remaining_mut b1));
        [done|]. rewrite put_panics in Hput by lia. done. }
    destruct (put_ok _ _ Hroom) as (b2' & Hput' & Hc2 & _). simplify_eq.
    rewrite Hc2, Hc1, Hc0, blen_app. unfold blen in *. rewrite length_firstn. lia.
Qed.
End props.
End server.
