(* ===== verification/Udp.v ===== *)
(** * Synchronous UDP receiver ([src/src/udp.rs], [start_sync_udp])

    A thread receives batches of datagrams with [recvmmsg] into a matrix of rows,
    gathers them per sender address and hands the gathered bytes to workers with
    [try_send]. *)

From S2P Require Import Prelude Interfaces Globals Config Task TaskFacts Server.

Section udp.
Context {BL : BytesLib} {ML : MetricLib} {HI : HashIter} {AH : AddrHash bytes}.

(** ** Setup *)

(** [0] means the flush time. *)
Definition effective_timeout (c : System) (mm_timeout : Z) : Z :=
  if decide (mm_timeout = 0) then buffer_flush_time (network c) else mm_timeout.

(** The [timespec] handed to [recvmmsg], none without a timeout. *)
Definition recv_timeout (mm_timeout : Z) : option (Z * Z) :=
  if decide (mm_timeout > 0)
  then Some (mm_timeout `div` 1000, (mm_timeout `mod` 1000) * 1000000) else None.

(** One thread: its index, channels, and the sizes of its receive matrix. *)
Record MudpThread := mkMudpThread {
  mt_config : System;
  mt_chans : list Chan;
  mt_idx : Z;
  mt_bufsize : Z;
  mt_packets : Z
}.

Definition rowsize (t : MudpThread) : Z := mt_bufsize t * mt_packets t.
Definition min_bytes (t : MudpThread) : Z := mt_packets t * mt_packets t * mt_bufsize t.

(** The address slots are 20 zero bytes before every receive. *)
Definition zero_addr : bytes := replicate 20 (Ascii.ascii_of_nat 0).

(** The iovec of row [i] covers [recv_buffer[i * rowsize .. i * rowsize + rowsize]]. *)
Definition iovec_range (t : MudpThread) (i : Z) : Z * Z :=
  (i * rowsize t, i * rowsize t + rowsize t).

(** What the loop carries from batch to batch. *)
Record MudpState := mkMudpState {
  ms_bufmap : gmap bytes BytesMut;
  ms_total : Z;
  ms_cycle : Z;                       (* position of [chans.iter().cycle()] *)
  ms_addrs : list bytes
}.

Definition MudpState_init (t : MudpThread) : MudpState :=
  {| ms_bufmap := ∅; ms_total := 0; ms_cycle := 0;
     ms_addrs := replicate (Z.to_nat (mt_packets t)) zero_addr |}.

(** What [recvmmsg] leaves behind: its result, the receive buffer, the message
    lengths of the headers and the address slots. *)
Record RecvResult := mkRecv {
  rr_res : Z;
  rr_buffer : bytes;
  rr_lens : list Z;
  rr_addrs : list bytes
}.

(** ** One batch *)

(** The body of the loop over the received messages. *)
Definition receive_message (t : MudpThread) (rr : RecvResult) (st : MudpState) (i : Z)
  : option (MudpState * list NodeEffect) :=
  mlen ← index (rr_lens rr) i;
  addr ← index (ms_addrs st) i;
  let total := wrap64 (ms_total st + mlen) in
  let entry := match ms_bufmap st !! addr with
               | Some b => b | None => with_capacity mlen end in
  let entry := if decide (remaining_mut entry < mlen + 1) then reserve mlen entry else entry in
  data ← slice (rr_buffer rr) (i * rowsize t) (i * rowsize t + mlen);
  entry ← put data entry;
  Some ({| ms_bufmap := <[addr := entry]> (ms_bufmap st); ms_total := total;
           ms_cycle := ms_cycle st;
           ms_addrs := <[Z.to_nat i := zero_addr]> (ms_addrs st) |},
        [Plain (Count INGRESS mlen)]).

(** The closure of the drain: [accepts] says whether the queue takes the task; a
    refused buffer counts every message of the batch as dropped. *)
Definition drain_entry (t : MudpThread) (messages : Z) (accepts : bytes -> bool) (pos : Z)
    (e : bytes * BytesMut) : option (Z * list NodeEffect) :=
  let '(addr, buf) := e in
  let ahash := hash_addr addr in
  let chlen := blen (mt_chans t) in
  if decide (chlen = 0) then panic else
  '(chan, pos) ←
    (if consistent_parsing (metrics (mt_config t)) then
       chan ← index (mt_chans t) (ahash `mod` chlen); Some (chan, pos)
     else chan ← index (mt_chans t) pos; Some (chan, (pos + 1) `mod` chlen));
  Some (pos, [if accepts addr then SendTask (ch_id chan) (Parse ahash (contents buf))
              else Plain (Count DROPS messages)]).

(** What one [recvmmsg] result does: nothing on zero or an error. *)
Definition on_batch (t : MudpThread) (st : MudpState) (flags : list bool)
    (accepts : bytes -> bool) (rr : RecvResult)
  : option (MudpState * list bool * list NodeEffect) :=
  let st := {| ms_bufmap := ms_bufmap st; ms_total := ms_total st; ms_cycle := ms_cycle st;
               ms_addrs := rr_addrs rr |} in
  if decide (rr_res rr > 0) then
    '(st, es) ← foldEP (receive_message t rr) st (seqZ 0 (rr_res rr));
    flush ← index flags (mt_idx t);
    let flags := <[Z.to_nat (mt_idx t) := false]> flags in
    if flush || bool_decide (ms_total st >= buffer_flush_length (network (mt_config t))) then
      '(pos, es') ← foldEP (drain_entry t (rr_res rr) accepts) (ms_cycle st)
                      (hiter (ms_bufmap st));
      Some ({| ms_bufmap := ∅; ms_total := 0; ms_cycle := pos; ms_addrs := ms_addrs st |},
            flags, es ++ es')
    else Some (st, flags, es)
  else Some (st, flags, []).

(** ** The loop *)

(** A receive: the result, the buffer and the lengths [recvmmsg] leaves, and the
    socket address of the sender of each message. *)
Record Batch := mkBatch {
  ba_res : Z;
  ba_buffer : bytes;
  ba_lens : list Z;
  ba_names : list bytes
}.

(** The kernel writes an address over the start of its slot. *)
Definition write_slot (slot name : bytes) : bytes := name ++ skipn (length name) slot.

Definition recv_into (st : MudpState) (b : Batch) : RecvResult := {|
  rr_res := ba_res b;
  rr_buffer := ba_buffer b;
  rr_lens := ba_lens b;
  rr_addrs := imap (fun i slot => match ba_names b !! i with
                                  | Some name => write_slot slot name
                                  | None => slot end) (ms_addrs st)
|}.

(** What happens to a thread: a receive, or a tick of the flush timer. *)
Inductive MudpEvent := Received (b : Batch) | FlushRequested.

Definition mudp_step (t : MudpThread) (st : MudpState * list bool) (ev : MudpEvent)
  : option (MudpState * list bool * list NodeEffect) :=
  let '(st, flags) := st in
  match ev with
  | Received b => on_batch t st flags (fun _ => true) (recv_into st b)
  | FlushRequested => Some (st, map (fun _ => true) flags, [])
  end.

Fixpoint mudp_run (t : MudpThread) (st : MudpState * list bool) (evs : list MudpEvent)
  : option (MudpState * list bool * list NodeEffect) :=
  match evs with
  | [] => Some (st, [])
  | ev :: evs =>
      '(st, es) ← mudp_step t st ev;
      '(st, es') ← mudp_run t st evs;
      Some (st, es ++ es')
  end.

(** ** [start_async_udp]: the listeners of the asynchronous mode, one per thread,
    green thread and socket, each with the thread's index as its first channel. *)
Definition async_listeners (c : System) (chans : list Chan) (n_threads greens async_sockets
    bufsize : Z) : list StatsdServer :=
  concat (map (fun i => repeat
    (StatsdServer_new chans ∅ c bufsize 0 i i)
    (Z.to_nat greens * Z.to_nat async_sockets)) (seqZ 0 n_threads)).

(** ** Observations *)

(** The bytes of message [i] of a batch. *)
Definition message_bytes (t : MudpThread) (rr : RecvResult) (i : Z) : bytes :=
  firstn (Z.to_nat (default 0 (rr_lens rr !! Z.to_nat i)))
         (skipn (Z.to_nat (i * rowsize t)) (rr_buffer rr)).

(** The bytes a sender sent in a batch. *)
Definition batch_stream (t : MudpThread) (rr : RecvResult) (a : bytes) (idxs : list Z) : bytes :=
  concat (map (fun i => if decide (rr_addrs rr !! Z.to_nat i = Some a)
                        then message_bytes t rr i else []) idxs).

(** What the kernel guarantees of a batch. *)
Definition batch_ok (t : MudpThread) (rr : RecvResult) : Prop :=
  rr_res rr <= mt_packets t /\ blen (rr_buffer rr) = min_bytes t /\
  blen (rr_lens rr) = mt_packets t /\ blen (rr_addrs rr) = mt_packets t /\
  Forall (fun n => 0 <= n <= rowsize t) (rr_lens rr).

Definition thread_ok (t : MudpThread) (flags : list bool) : Prop :=
  mt_chans t <> [] /\ 0 <= mt_idx t < blen flags /\ 0 <= mt_bufsize t /\ 0 <= mt_packets t.

(** What the kernel guarantees of a receive on an IPv4 socket. *)
Definition received_ok (t : MudpThread) (b : Batch) : Prop :=
  ba_res b <= mt_packets t /\ blen (ba_buffer b) = min_bytes t /\
  blen (ba_lens b) = mt_packets t /\ Forall (fun n => 0 <= n <= rowsize t) (ba_lens b) /\
  Forall (fun name => length name = 16%nat) (ba_names b) /\ blen (ba_names b) = Z.max 0 (ba_res b).

Definition mudp_event_ok (t : MudpThread) (ev : MudpEvent) : Prop :=
  match ev with Received b => received_ok t b | FlushRequested => True end.

(** Between receives all slots are zero and the channel cycle is in range. *)
Definition mudp_state_ok (t : MudpThread) (st : MudpState) : Prop :=
  Forall (eq zero_addr) (ms_addrs st) /\ blen (ms_addrs st) = mt_packets t /\
  0 <= ms_cycle st < blen (mt_chans t).

(** The key of a sender, and the bytes it sent. *)
Definition slot_key (name : bytes) : bytes := write_slot zero_addr name.

Definition sender_stream (t : MudpThread) (name : bytes) (b : Batch) : bytes :=
  concat (map (fun i => if decide (ba_names b !! Z.to_nat i = Some name)
    then firstn (Z.to_nat (default 0 (ba_lens b !! Z.to_nat i)))
           (skipn (Z.to_nat (i * rowsize t)) (ba_buffer b)) else []) (seqZ 0 (ba_res b))).

Definition event_stream (t : MudpThread) (name : bytes) (ev : MudpEvent) : bytes :=
  match ev with Received b => sender_stream t name b | FlushRequested => [] end.

Definition senders (evs : list MudpEvent) : list bytes :=
  concat (map (fun ev => match ev with Received b => ba_names b | FlushRequested => [] end) evs).

(** With at least one worker and a flush flag per thread, every listener of the
    asynchronous mode starts in a state in which nothing panics. *)
Lemma async_listeners_ok c chans n_threads greens async_sockets bufsize flags :
  chans <> [] -> blen flags = n_threads ->
  Forall (fun s => server_ok s flags /\ ss_bufmap s = ∅)
    (async_listeners c chans n_threads greens async_sockets bufsize).
Proof.
  intros Hc Hf. apply list.Forall_forall. intros s Hs. unfold async_listeners in Hs.
  apply list_elem_of_In, in_concat in Hs as (l & Hl & Hs).
  apply in_map_iff in Hl as (i & <- & Hi%list_elem_of_In%elem_of_seqZ).
  apply repeat_spec in Hs. subst s. unfold server_ok. cbn. repeat split; [done|lia..].
Qed.

(** The receive matrix: every row handed to the kernel lies inside the
    receive buffer, the rows do not overlap, and the buffer has no spare byte. *)
Lemma iovecs_partition_buffer (t : MudpThread) (i j : Z) :
  0 <= mt_bufsize t -> 0 <= i < mt_packets t -> 0 <= j < mt_packets t -> i < j ->
  0 <= fst (iovec_range t i) /\ snd (iovec_range t j) <= min_bytes t /\
  snd (iovec_range t i) <= fst (iovec_range t j) /\
  snd (iovec_range t (mt_packets t - 1)) = min_bytes t.
Proof.
  intros Hb Hi Hj Hij. unfold iovec_range, min_bytes, rowsize. cbn.
  generalize dependent (mt_packets t). generalize dependent (mt_bufsize t).
  intros b Hb p Hi Hj. assert (0 <= b * p) by nia. repeat split; nia.
Qed.

Section props.
Context {BOK : BytesOk BL} {HIOK : HashIterOk HI}.

Lemma slice_row (t : MudpThread) (rr : RecvResult) i n :
  batch_ok t rr -> 0 <= mt_bufsize t -> 0 <= i < mt_packets t -> 0 <= n <= rowsize t ->
  slice (rr_buffer rr) (i * rowsize t) (i * rowsize t + n)
  = Some (firstn (Z.to_nat n) (skipn (Z.to_nat (i * rowsize t)) (rr_buffer rr))).
Proof.
  intros (_ & Hbuf & _) Hb Hi Hn. unfold slice. rewrite decide_True.
  - do 2 f_equal. lia.
  - rewrite Hbuf. unfold min_bytes, rowsize in *. nia.
Qed.

Lemma receive_message_spec t rr st i :
  batch_ok t rr -> 0 <= mt_bufsize t -> 0 <= i < rr_res rr ->
  length (ms_addrs st) = length (rr_addrs rr) ->
  exists st' mlen addr,
    receive_message t rr st i = Some (st', [Plain (Count INGRESS mlen)]) /\
    ms_addrs st !! Z.to_nat i = Some addr /\
    ms_addrs st' = <[Z.to_nat i := zero_addr]> (ms_addrs st) /\
    ms_cycle st' = ms_cycle st /\ dom (ms_bufmap st') = {[addr]} ∪ dom (ms_bufmap st) /\
    forall a, buffered a (ms_bufmap st') = buffered a (ms_bufmap st) ++
                (if decide (addr = a) then message_bytes t rr i else []).
Proof.
  intros Hok Hb Hi Hla. pose proof Hok as (Hres & Hbuf & Hlens & Haddrs & Hall).
  unfold receive_message, index. rewrite !decide_True by lia.
  destruct (rr_lens rr !! Z.to_nat i) as [mlen|] eqn:Hml.
  2: { apply lookup_ge_None in Hml. unfold blen in *. lia. }
  destruct (ms_addrs st !! Z.to_nat i) as [addr|] eqn:Had.
  2: { apply lookup_ge_None in Had. unfold blen in *. lia. }
  cbn [mbind option_bind].
  assert (Hm : 0 <= mlen <= rowsize t).
  { rewrite list.Forall_forall in Hall. apply Hall. by eapply list_elem_of_lookup_2. }
  rewrite (slice_row t rr i mlen Hok Hb) by lia. cbn [mbind option_bind].
  set (b0 := match ms_bufmap st !! addr with Some b => b | None => _ end).
  assert (Hc0 : contents b0 = buffered addr (ms_bufmap st)) by apply entry_contents.
  set (b1 := if decide _ then _ else b0).
  assert (Hb1 : contents b1 = contents b0 /\ mlen <= remaining_mut b1).
  { subst b1. case_decide; [|split; [done|lia]].
    rewrite reserve_contents. split; [done|apply reserve_room]. }
  destruct Hb1 as [Hc1 Hr1].
  assert (Hmb : firstn (Z.to_nat mlen) (skipn (Z.to_nat (i * rowsize t)) (rr_buffer rr))
                = message_bytes t rr i) by (unfold message_bytes; by rewrite Hml).
  rewrite Hmb. destruct (put_ok (message_bytes t rr i) b1) as (b2 & -> & Hc2 & _).
  { rewrite <-Hmb. unfold blen. rewrite length_firstn. lia. }
  cbn [mbind option_bind]. eexists _, mlen, addr. split_and!; try done; [apply dom_insert_L|].
  intros a. cbn. rewrite buffered_insert. case_decide; [subst|by rewrite app_nil_r].
  by rewrite Hc2, Hc1, Hc0.
Qed.

Lemma receive_messages_spec t rr idxs st :
  batch_ok t rr -> 0 <= mt_bufsize t -> Forall (fun i => 0 <= i < rr_res rr) idxs ->
  base.NoDup idxs -> length (ms_addrs st) = length (rr_addrs rr) ->
  (forall i, i ∈ idxs -> ms_addrs st !! Z.to_nat i = rr_addrs rr !! Z.to_nat i) ->
  exists st' es,
    foldEP (receive_message t rr) st idxs = Some (st', es) /\
    tasks_sent es = [] /\ ms_cycle st' = ms_cycle st /\
    length (ms_addrs st') = length (ms_addrs st) /\
    (forall j, 0 <= j -> ms_addrs st' !! Z.to_nat j =
       if decide (j ∈ idxs) then Some zero_addr else ms_addrs st !! Z.to_nat j) /\
    (forall b, b ∈ dom (ms_bufmap st') -> b ∈ dom (ms_bufmap st) \/
       exists i, i ∈ idxs /\ rr_addrs rr !! Z.to_nat i = Some b) /\
    forall a, buffered a (ms_bufmap st') =
              buffered a (ms_bufmap st) ++ batch_stream t rr a idxs.
Proof.
  intros Hok Hb Hr. revert st. induction Hr as [|i idxs Hi Hr IH]; intros st Hnd Hla Had.
  { exists st, []. split_and!; try done.
    - intros b Hb'. by left.
    - intros a. cbn. by rewrite app_nil_r. }
  apply list.NoDup_cons in Hnd as [Hni Hnd].
  destruct (receive_message_spec t rr st i Hok Hb Hi Hla)
    as (s1 & mlen & addr & He & Haddr & Ha1 & Hc1 & Hd1 & Hb1).
  assert (Hraddr : rr_addrs rr !! Z.to_nat i = Some addr) by (rewrite <-Had; [done|by left]).
  rewrite list.Forall_forall in Hr.
  destruct (IH s1 Hnd) as (s2 & es & He2 & Ht2 & Hc2 & Hl2 & Hz2 & Hd2 & Hb2).
  { by rewrite Ha1, length_insert. }
  { intros j Hj. rewrite Ha1, list_lookup_insert_ne; [apply Had; by right|].
    pose proof (Hr j Hj). assert (i <> j) by by intros ->. lia. }
  cbn [foldEP]. rewrite He, He2. do 2 eexists. split; [done|].
  split_and!; [by rewrite tasks_sent_app|congruence|by rewrite Hl2, Ha1, length_insert|..].
  - intros j Hj. rewrite Hz2, Ha1 by done.
    destruct (decide (j ∈ idxs)) as [Hin|Hin]; [by rewrite decide_True by by right|].
    destruct (decide (j = i)) as [->|Hji].
    + rewrite decide_True by by left. apply list_lookup_insert_eq.
      by apply lookup_lt_Some in Haddr.
    + rewrite decide_False by by intros [?|?]%elem_of_cons.
      apply list_lookup_insert_ne. lia.
  - intros b [Hb'|(k & Hk & Hkb)]%Hd2; [|right; exists k; split; [by right|done]].
    rewrite Hd1 in Hb'. apply elem_of_union in Hb' as [->%elem_of_singleton|]; [|by left].
    right. exists i. split; [by left|done].
  - intros a. rewrite Hb2, Hb1, <-app_assoc. f_equal. unfold batch_stream.
    cbn [map concat]. f_equal. rewrite Hraddr. repeat case_decide; congruence.
Qed.

Lemma drain_entry_spec t messages pos addr buf accepts :
  mt_chans t <> [] -> 0 <= pos < blen (mt_chans t) ->
  exists pos' ch,
    drain_entry t messages accepts pos (addr, buf) =
      Some (pos', [if accepts addr
                   then SendTask (ch_id ch) (Parse (hash_addr addr) (contents buf))
                   else Plain (Count DROPS messages)]) /\
    0 <= pos' < blen (mt_chans t).
Proof.
  intros Hne Hpos. unfold drain_entry.
  assert (Hlen : 0 < blen (mt_chans t)) by lia. rewrite decide_False by lia.
  assert (Hidx : forall i, 0 <= i < blen (mt_chans t) -> exists ch,
    index (mt_chans t) i = Some ch).
  { intros i Hi. unfold index. rewrite decide_True by lia.
    apply lookup_lt_is_Some_2. unfold blen in *. lia. }
  destruct (consistent_parsing _).
  - destruct (Hidx (hash_addr addr `mod` blen (mt_chans t))) as (ch & ->);
      [by apply Z.mod_pos_bound|]. cbn. eauto.
  - destruct (Hidx pos Hpos) as (ch & ->). cbn. do 2 eexists. split; [done|].
    by apply Z.mod_pos_bound.
Qed.

Lemma drain_all t messages pos l a :
  mt_chans t <> [] -> 0 <= pos < blen (mt_chans t) ->
  base.NoDup l.*1 -> hash_unique a l.*1 ->
  exists pos' es,
    foldEP (drain_entry t messages (fun _ => true)) pos l = Some (pos', es) /\
    0 <= pos' < blen (mt_chans t) /\
    parsed_stream (hash_addr a) es = buffered a (list_to_map l : gmap bytes BytesMut).
Proof.
  intros Hne. revert pos. induction l as [|[b buf] l IH]; intros pos Hn Hnd Hu.
  { by exists pos, []. }
  apply list.NoDup_cons in Hnd as [Hb Hnd]. apply list.Forall_cons in Hu as [Hub Hu].
  cbn [foldEP]. destruct (drain_entry_spec t messages pos b buf (fun _ => true) Hne Hn)
    as (n1 & ch & -> & Hn1).
  destruct (IH n1 Hn1 Hnd Hu) as (n2 & es & -> & Hn2 & Hp).
  do 2 eexists. split; [done|]. split; [done|]. rewrite parsed_stream_app, Hp.
  rewrite list_to_map_cons, buffered_insert. unfold parsed_stream. cbn. rewrite app_nil_r.
  destruct (decide (b = a)) as [->|Hne'].
  - rewrite decide_True by done. unfold buffered.
    rewrite (not_elem_of_list_to_map_1 l a) by done. by rewrite app_nil_r.
  - rewrite decide_False; [done|]. intros He. by apply Hne', Hub.
Qed.

(** The address slots of the messages of a batch. *)
Definition sent_by (rr : RecvResult) (b : bytes) : Prop :=
  exists i, 0 <= i < rr_res rr /\ rr_addrs rr !! Z.to_nat i = Some b.

Lemma batch_spec (t : MudpThread) (st : MudpState) (flags : list bool)
    (rr : RecvResult) (a : bytes) :
  thread_ok t flags -> batch_ok t rr -> 0 <= ms_cycle st < blen (mt_chans t) ->
  (forall b, b ∈ dom (ms_bufmap st) \/ sent_by rr b -> hash_addr b = hash_addr a -> b = a) ->
  exists st' flags' es,
    on_batch t st flags (fun _ => true) rr = Some (st', flags', es) /\
    parsed_stream (hash_addr a) es ++ buffered a (ms_bufmap st') =
      buffered a (ms_bufmap st) ++ batch_stream t rr a (seqZ 0 (rr_res rr)) /\
    (forall j, 0 <= j -> ms_addrs st' !! Z.to_nat j =
       if decide (j < rr_res rr) then Some zero_addr else rr_addrs rr !! Z.to_nat j) /\
    0 <= ms_cycle st' < blen (mt_chans t) /\ blen flags' = blen flags /\
    (forall b, b ∈ dom (ms_bufmap st') -> b ∈ dom (ms_bufmap st) \/ sent_by rr b).
Proof.
  intros (Hne & Hidx & Hbs & Hpk) Hok Hcyc Hu. unfold on_batch. case_decide as Hpos.
  2: { do 3 eexists. split; [done|]. cbn. rewrite (seqZ_nil 0) by lia. cbn.
       split_and!; [by rewrite app_nil_r| |lia|lia|done|by left].
       intros j Hj. by rewrite decide_False by lia. }
  set (s0 := {| ms_bufmap := _ |}).
  destruct (receive_messages_spec t rr (seqZ 0 (rr_res rr)) s0 Hok Hbs)
    as (s1 & e1 & -> & Ht1 & Hc1 & Hl1 & Hz1 & Hd1 & Hb1); try done.
  { apply list.Forall_forall. intros i Hi%elem_of_seqZ. lia. }
  { apply NoDup_seqZ. }
  cbn [mbind option_bind].
  assert (Hdom : forall b, b ∈ dom (ms_bufmap s1) -> b ∈ dom (ms_bufmap st) \/ sent_by rr b).
  { intros b [?|(i & Hi%elem_of_seqZ & Hib)]%Hd1; [by left|]. right. exists i. split; [lia|done]. }
  assert (Hz : forall j, 0 <= j -> ms_addrs s1 !! Z.to_nat j =
    if decide (j < rr_res rr) then Some zero_addr else rr_addrs rr !! Z.to_nat j).
  { intros j Hj. rewrite Hz1 by lia. destruct (decide (j < rr_res rr)) as [Hjr|Hjr].
    - by rewrite decide_True by (apply elem_of_seqZ; lia).
    - rewrite decide_False by (rewrite elem_of_seqZ; lia). done. }
  assert (He1 : parsed_stream (hash_addr a) e1 = []) by (unfold parsed_stream; by rewrite Ht1).
  assert (Hcy : 0 <= ms_cycle s1 < blen (mt_chans t)) by by rewrite Hc1.
  unfold index. rewrite decide_True by lia.
  destruct (flags !! Z.to_nat (mt_idx t)) as [f|] eqn:Hf.
  2: { apply lookup_ge_None in Hf. unfold blen in *. lia. }
  cbn [mbind option_bind].
  assert (Hfl : blen (<[Z.to_nat (mt_idx t) := false]> flags) = blen flags)
    by (unfold blen; by rewrite length_insert).
  destruct (f || _).
  - destruct (hiter_bufmap (ms_bufmap s1)) as (Hnd & Hmap & Hd).
    destruct (drain_all t (rr_res rr) (ms_cycle s1) (hiter (ms_bufmap s1)) a)
      as (pos & e2 & -> & Hpr & Hp); try done.
    { apply list.Forall_forall. intros b Hb. apply Hu. by apply Hdom, Hd. }
    cbn [mbind option_bind]. do 3 eexists. split; [done|].
    cbn [ms_bufmap ms_cycle]. split_and!; try done; try lia.
    rewrite parsed_stream_app, He1, Hp, Hmap. cbn [app ms_bufmap].
    unfold buffered at 2. rewrite lookup_empty, app_nil_r. apply Hb1.
  - do 3 eexists. split; [done|]. split_and!; try done; try lia. rewrite He1. apply Hb1.
Qed.

Lemma write_slot_zero name : length name = 16%nat -> write_slot zero_addr name = slot_key name.
Proof. done. Qed.

Lemma slot_key_inj n1 n2 :
  length n1 = 16%nat -> length n2 = 16%nat -> slot_key n1 = slot_key n2 -> n1 = n2.
Proof. unfold slot_key, write_slot. intros H1 H2 H. apply app_inj_1 in H; [by destruct H|lia]. Qed.

(** With zeroed slots, the keys the kernel leaves are those of the senders. *)
Lemma recv_into_addrs t st b i :
  received_ok t b -> Forall (eq zero_addr) (ms_addrs st) ->
  blen (ms_addrs st) = mt_packets t -> 0 <= i < mt_packets t ->
  rr_addrs (recv_into st b) !! Z.to_nat i =
  Some (match ba_names b !! Z.to_nat i with Some n => slot_key n | None => zero_addr end).
Proof.
  intros Hok Hz Hl Hi. cbn. rewrite list_lookup_imap.
  destruct (ms_addrs st !! Z.to_nat i) as [x|] eqn:Hx.
  2: { apply lookup_ge_None in Hx. unfold blen in *. lia. }
  cbn. eapply Forall_lookup_1 in Hz; [|exact Hx]. subst x.
  destruct (ba_names b !! Z.to_nat i) as [n|]; done.
Qed.

Lemma recv_into_ok t st b :
  received_ok t b -> blen (ms_addrs st) = mt_packets t -> batch_ok t (recv_into st b).
Proof.
  intros (Hr & Hbuf & Hl & Hall & _) Ha. unfold batch_ok. cbn. split_and!; try done.
  unfold blen in *. by rewrite length_imap.
Qed.

Lemma recv_into_stream t st b name :
  received_ok t b -> Forall (eq zero_addr) (ms_addrs st) -> blen (ms_addrs st) = mt_packets t ->
  length name = 16%nat ->
  batch_stream t (recv_into st b) (slot_key name) (seqZ 0 (ba_res b)) = sender_stream t name b.
Proof.
  intros Hok Hz Ha Hn. unfold batch_stream, sender_stream. f_equal. apply map_ext_in.
  intros i Hi%list_elem_of_In%elem_of_seqZ. pose proof Hok as (Hr & _ & _ & _ & Hnames & Hlen).
  rewrite (recv_into_addrs t st b i) by (done || lia).
  destruct (ba_names b !! Z.to_nat i) as [n|] eqn:Hni.
  - assert (length n = 16%nat) by (by eapply Forall_lookup_1 in Hnames).
    destruct (decide (Some n = Some name)) as [[= ->]|Hne].
    + by rewrite decide_True.
    + rewrite decide_False; [done|]. intros [= He%slot_key_inj]; [by subst|done|done].
  - apply lookup_ge_None in Hni. unfold blen in *. lia.
Qed.

(** After a batch the slots are what they were before it. *)
Lemma slots_zeroed t st b addrs :
  received_ok t b -> Forall (eq zero_addr) (ms_addrs st) -> blen (ms_addrs st) = mt_packets t ->
  (forall j, 0 <= j -> addrs !! Z.to_nat j =
     if decide (j < ba_res b) then Some zero_addr else rr_addrs (recv_into st b) !! Z.to_nat j) ->
  addrs = ms_addrs st.
Proof.
  intros (Hr & _ & _ & _ & _ & Hlen) Hz Hl Hj. apply list_eq. intros i.
  specialize (Hj (Z.of_nat i) ltac:(lia)). rewrite Nat2Z.id in Hj. rewrite Hj. case_decide as Hi.
  - destruct (ms_addrs st !! i) as [x|] eqn:Hx.
    + eapply Forall_lookup_1 in Hz; [|exact Hx]. by subst.
    + apply lookup_ge_None in Hx. unfold blen in *. lia.
  - cbn. rewrite list_lookup_imap. assert (Hni : ba_names b !! i = None).
    { apply lookup_ge_None. unfold blen in *. lia. }
    rewrite Hni. by destruct (ms_addrs st !! i).
Qed.

(** Runs whose senders are among [S]. *)
Lemma mudp_run_spec (t : MudpThread) (S : list bytes) (name : bytes) (evs : list MudpEvent) :
  length name = 16%nat ->
  (forall n, n ∈ S -> hash_addr (slot_key n) = hash_addr (slot_key name) -> n = name) ->
  forall st flags,
  thread_ok t flags -> Forall (mudp_event_ok t) evs -> mudp_state_ok t st -> senders evs ⊆ S ->
  (forall b, b ∈ dom (ms_bufmap st) -> exists n, n ∈ S /\ b = slot_key n) ->
  exists st' flags' es,
    mudp_run t (st, flags) evs = Some (st', flags', es) /\ mudp_state_ok t st' /\
    parsed_stream (hash_addr (slot_key name)) es ++ buffered (slot_key name) (ms_bufmap st') =
    buffered (slot_key name) (ms_bufmap st) ++ concat (map (event_stream t name) evs).
Proof.
  intros Hn Hu. induction evs as [|ev evs IH]; intros st flags Hth Hok Hst HS Hdom.
  { exists st, flags, []. split_and!; [done..|]. cbn. by rewrite app_nil_r. }
  apply list.Forall_cons in Hok as [Hev Hok]. cbn [mudp_run].
  destruct ev as [b|]; cbn [mudp_step mudp_event_ok] in *.
  - destruct Hst as (Hz & Hl & Hc). assert (Hb : forall a, sent_by (recv_into st b) a ->
      exists n, n ∈ S /\ a = slot_key n).
    { intros a (i & Hi & Hia). cbn [rr_res recv_into] in Hi.
      pose proof Hev as (Hr & _ & _ & _ & _ & Hlen).
      rewrite (recv_into_addrs t st b i) in Hia by (done || lia).
      destruct (ba_names b !! Z.to_nat i) as [n|] eqn:Hni.
      - injection Hia as <-. exists n. split; [|done]. apply HS. unfold senders. cbn.
        apply elem_of_app. left. by eapply list_elem_of_lookup_2.
      - apply lookup_ge_None in Hni. unfold blen in *. lia. }
    destruct (batch_spec t st flags (recv_into st b) (slot_key name))
      as (s1 & f1 & e1 & -> & Hs1 & Hz1 & Hc1 & Hf1 & Hd1); try done.
    { by apply recv_into_ok. }
    { intros a Ha Hh. assert (exists n, n ∈ S /\ a = slot_key n) as (n & Hin & ->).
      { destruct Ha; [by apply Hdom|by apply Hb]. } by rewrite (Hu n Hin Hh). }
    cbn [mbind option_bind].
    destruct (IH s1 f1) as (s2 & f2 & e2 & -> & Hst2 & Hs2); try done.
    { unfold thread_ok. by rewrite Hf1. }
    { unfold mudp_state_ok. rewrite (slots_zeroed t st b (ms_addrs s1)) by done. done. }
    { intros x Hx. apply HS. unfold senders. cbn. apply elem_of_app. by right. }
    { intros a [?|?]%Hd1; [by apply Hdom|by apply Hb]. }
    cbn [mbind option_bind]. do 3 eexists. split; [done|]. split; [done|].
    rewrite parsed_stream_app, <-app_assoc, Hs2, app_assoc, Hs1, <-app_assoc. cbn [map concat event_stream].
    f_equal. f_equal. by apply recv_into_stream.
  - cbn [mbind option_bind]. destruct (IH st (map (fun _ => true) flags)) as (s2 & f2 & e2 & -> & H2 & H3);
      try done.
    { unfold thread_ok, blen in *. by rewrite length_map. }
    cbn [mbind option_bind]. do 3 eexists. split; [done|]. done.
Qed.

(** C15. Datagrams are reassembled: through any sequence of receives and flush
    requests within the kernel's guarantees nothing panics, and for every sender,
    told apart by its socket address, the bytes handed to workers followed by those
    still buffered are all its datagrams since the thread started, in the order of
    arrival, with nothing from other senders in between (as long as
    the queues accept and no other sender has its hash); every address slot is zero
    again before the next receive. *)
Theorem mudp_reassembles_streams (t : MudpThread) (st : MudpState) (flags : list bool)
    (evs : list MudpEvent) (name : bytes) :
  thread_ok t flags -> Forall (mudp_event_ok t) evs -> mudp_state_ok t st ->
  length name = 16%nat -> ms_bufmap st = ∅ ->
  (forall n, n ∈ senders evs -> hash_addr (slot_key n) = hash_addr (slot_key name) -> n = name) ->
  exists st' flags' es,
    mudp_run t (st, flags) evs = Some (st', flags', es) /\ mudp_state_ok t st' /\
    parsed_stream (hash_addr (slot_key name)) es ++ buffered (slot_key name) (ms_bufmap st') =
    concat (map (event_stream t name) evs).
Proof.
  intros Hth Hok Hst Hn He Hu.
  destruct (mudp_run_spec t (senders evs) name evs Hn Hu st flags) as (s' & f' & es & Hr & Hs & Hp);
    try done.
  { rewrite He. by intros b ?%elem_of_dom%lookup_empty_is_Some. }
  exists s', f', es. split_and!; [done..|]. rewrite Hp, He. done.
Qed.

(** Accounting of drops: every buffer a full queue refuses adds the number of
    messages of the whole last batch to the drop counter, not the number of
    messages the buffer holds. *)
Lemma drops_count_batch (t : MudpThread) (messages pos : Z) (accepts : bytes -> bool)
    (l : list (bytes * BytesMut)) (pos' : Z) (es : list NodeEffect) :
  mt_chans t <> [] -> 0 <= pos < blen (mt_chans t) ->
  foldEP (drain_entry t messages accepts) pos l = Some (pos', es) ->
  counted DROPS (plain es) =
  messages * blen (List.filter (fun e => negb (accepts (fst e))) l) /\
  blen (tasks_sent es) = blen (List.filter (fun e => accepts (fst e)) l).
Proof.
  intros Hne. revert pos es. induction l as [|[b buf] l IH]; intros pos es Hpos; cbn [foldEP].
  { intros [= <- <-]. cbn. unfold blen; cbn. lia. }
  destruct (drain_entry_spec t messages pos b buf accepts Hne Hpos) as (n1 & ch & -> & Hn1).
  destruct (foldEP _ n1 l) as [[n2 e2]|] eqn:Hl; [|done]. intros [= <- <-].
  destruct (IH n1 e2 Hn1 Hl) as [IH1 IH2].
  match goal with |- context [?x :: e2] => change (x :: e2) with ([x] ++ e2) end.
  rewrite plain_app, counted_app, tasks_sent_app, blen_app, IH1, IH2.
  cbn [List.filter fst]. assert (Hs : forall A (x : A) l, blen (x :: l) = 1 + blen l)
    by (intros; unfold blen; cbn [length]; lia).
  destruct (accepts b); cbn [negb]; rewrite ?Hs.
  - change (counted DROPS (plain [SendTask (ch_id ch) (Parse (hash_addr b) (contents buf))]))
      with 0. change (blen (tasks_sent [SendTask (ch_id ch) (Parse (hash_addr b)
      (contents buf))])) with 1. lia.
  - change (counted DROPS (plain [Plain (Count DROPS messages)])) with (messages + 0).
    change (blen (tasks_sent [Plain (Count DROPS messages)])) with 0. lia.
Qed.
End props.
End udp.
