(* ===== verification/Management.v ===== *)
(** * Management server and client ([src/src/management.rs])

    An HTTP interface that shows the leadership state and changes it.  HTTP
    (hyper) and JSON (serde_json) are parameters. *)

From S2P Require Import Prelude Addr Http Interfaces Globals.

Inductive MgmtError := MIo | MHttp | MDecode | MEncode | BadCommand | MResponse.

(** ** Commands *)
Module ConsensusAction.
Inductive t := Enable | Disable | Pause | Resume.

#[global] Instance eq_dec : EqDecision t.
Proof. solve_decision. Defined.

(** [impl FromStr for ConsensusAction] *)
Definition from_str (s : string) : MgmtError + t :=
  if decide (s = "enable" \/ s = "enabled") then inr Enable
  else if decide (s = "disable" \/ s = "disabled") then inr Disable
  else if decide (s = "pause" \/ s = "paused") then inr Pause
  else if decide (s = "resume" \/ s = "resumed" \/ s = "unpause" \/ s = "unpaused")
  then inr Resume
  else inl BadCommand.
End ConsensusAction.

Module LeaderAction.
Inductive t := Unchanged | Enable | Disable.

#[global] Instance eq_dec : EqDecision t.
Proof. solve_decision. Defined.

(** [impl FromStr for LeaderAction] *)
Definition from_str (s : string) : MgmtError + t :=
  if decide (s = "unchanged" \/ s = "unchange") then inr Unchanged
  else if decide (s = "enable" \/ s = "enabled") then inr Enable
  else if decide (s = "disable" \/ s = "disabled") then inr Disable
  else inl BadCommand.
End LeaderAction.

Module MgmtCommand.
Inductive t :=
| Status
| ConsensusCommand (c : ConsensusAction.t) (l : LeaderAction.t).
End MgmtCommand.

(** [ServerStatus] and [ServerStatus::new()]: the current leadership state. *)
Record ServerStatus := mkServerStatus {
  leader_status : bool;
  consensus_status : ConsensusState.t
}.

Definition ServerStatus_new (l : Leadership) : ServerStatus :=
  {| leader_status := is_leader l; consensus_status := consensus_state l |}.

(** ** JSON *)
Class JsonLib := {
  to_vec_status : ServerStatus -> bytes;
  from_slice_status : bytes -> option ServerStatus;
  to_vec_command : MgmtCommand.t -> bytes;
  from_slice_command : bytes -> option MgmtCommand.t
}.
(** Documented: what serde_json writes for a type it reads back. *)
Class JsonOk (J : JsonLib) : Prop := {
  status_round_trip s : from_slice_status (to_vec_status s) = Some s;
  command_round_trip c : from_slice_command (to_vec_command c) = Some c
}.

(** A reference encoding: one character per enumeration value. *)
Definition ref_char (n : nat) : Ascii.ascii := Ascii.ascii_of_nat (65 + n).

Definition ref_state (s : ConsensusState.t) : Ascii.ascii :=
  match s with
  | ConsensusState.Enabled => ref_char 0 | ConsensusState.Paused => ref_char 1
  | ConsensusState.Disabled => ref_char 2 end.

Definition ref_action (a : ConsensusAction.t) : Ascii.ascii :=
  match a with
  | ConsensusAction.Enable => ref_char 0 | ConsensusAction.Disable => ref_char 1
  | ConsensusAction.Pause => ref_char 2 | ConsensusAction.Resume => ref_char 3 end.

Definition ref_leader (a : LeaderAction.t) : Ascii.ascii :=
  match a with
  | LeaderAction.Unchanged => ref_char 0 | LeaderAction.Enable => ref_char 1
  | LeaderAction.Disable => ref_char 2 end.

(** The value of a list that is encoded as a character. *)
Definition ref_find {A} (enc : A -> Ascii.ascii) (l : list A) (c : Ascii.ascii) : option A :=
  List.find (fun a => bool_decide (enc a = c)) l.

#[export] Instance RefJson : JsonLib := {|
  to_vec_status s := [ref_char (if leader_status s then 1 else 0); ref_state (consensus_status s)];
  from_slice_status b :=
    match b with
    | [l; c] =>
        st ← ref_find ref_state
               [ConsensusState.Enabled; ConsensusState.Paused; ConsensusState.Disabled] c;
        Some {| leader_status := bool_decide (l = ref_char 1); consensus_status := st |}
    | _ => None
    end;
  to_vec_command c :=
    match c with
    | MgmtCommand.Status => []
    | MgmtCommand.ConsensusCommand a l => [ref_action a; ref_leader l]
    end;
  from_slice_command b :=
    match b with
    | [] => Some MgmtCommand.Status
    | [a; l] =>
        a ← ref_find ref_action [ConsensusAction.Enable; ConsensusAction.Disable;
                                 ConsensusAction.Pause; ConsensusAction.Resume] a;
        l ← ref_find ref_leader
              [LeaderAction.Unchanged; LeaderAction.Enable; LeaderAction.Disable] l;
        Some (MgmtCommand.ConsensusCommand a l)
    | _ => None
    end
|}.
#[export] Instance RefJsonOk : JsonOk RefJson.
Proof. split; [intros [[] []]|intros [|[] []]]; vm_compute; reflexivity. Qed.

(** ** HTTP *)
Inductive StatusCode := OK | BAD_REQUEST | NOT_FOUND | METHOD_NOT_ALLOWED.

#[export] Instance StatusCode_eq_dec : EqDecision StatusCode.
Proof. solve_decision. Defined.

(** A request as the server sees it; the body is [None] when it cannot be read. *)
Record Request := mkRequest { rq_method : Method; rq_path : bytes; rq_body : option bytes }.
Record Response := mkResponse { rs_status : StatusCode; rs_body : bytes }.

Section management.
Context {J : JsonLib} {U : UriLib}.

Definition usage_text : bytes :=
  bs "Available endpoints:" ++ [ascii_LF] ++
  bs "    status - will show server status" ++ [ascii_LF] ++
  bs "    consensus - posting will change consensus state".

(** The two writes of a consensus command, in the order they are made. *)
Definition new_consensus_state (a : ConsensusAction.t) : ConsensusState.t :=
  match a with
  | ConsensusAction.Enable | ConsensusAction.Resume => ConsensusState.Enabled
  | ConsensusAction.Disable => ConsensusState.Disabled
  | ConsensusAction.Pause => ConsensusState.Paused
  end.

Definition set_consensus (a : ConsensusAction.t) (l : Leadership) : Leadership :=
  {| consensus_state := new_consensus_state a; is_leader := is_leader l |}.

Definition set_leader (a : LeaderAction.t) (l : Leadership) : Leadership :=
  match a with
  | LeaderAction.Enable => {| consensus_state := consensus_state l; is_leader := true |}
  | LeaderAction.Disable => {| consensus_state := consensus_state l; is_leader := false |}
  | LeaderAction.Unchanged => l
  end.

(** [Service::call]; [None] is an error reading the request body. *)
Definition call (req : Request) (l : Leadership) : option Response * Leadership :=
  match rq_method req with
  | GET =>
      if decide (rq_path req = bs "/") then (Some {| rs_status := OK; rs_body := usage_text |}, l)
      else if decide (rq_path req = bs "/status") then
        (Some {| rs_status := OK; rs_body := to_vec_status (ServerStatus_new l) |}, l)
      else (Some {| rs_status := NOT_FOUND; rs_body := [] |}, l)
  | POST =>
      if decide (rq_path req = bs "/consensus") then
        match rq_body req with
        | None => (None, l)
        | Some body =>
            match from_slice_command body with
            | Some (MgmtCommand.ConsensusCommand c a) =>
                let l := set_consensus c l in
                let l := set_leader a l in
                (Some {| rs_status := OK; rs_body := to_vec_status (ServerStatus_new l) |}, l)
            | Some MgmtCommand.Status => (Some {| rs_status := BAD_REQUEST; rs_body := [] |}, l)
            | None => (Some {| rs_status := BAD_REQUEST; rs_body := [] |}, l)
            end
        end
      else (Some {| rs_status := NOT_FOUND; rs_body := [] |}, l)
  | PUT | OtherMethod => (Some {| rs_status := METHOD_NOT_ALLOWED; rs_body := [] |}, l)
  end.

(** ** The client *)

Record MgmtClient := mkMgmtClient { mc_address : SocketAddr; mc_command : MgmtCommand.t }.

(** The request for a command; [None] is the panic on a URI that does not parse. *)
Definition client_request (client : MgmtClient) : option HttpRequest :=
  match mc_command client with
  | MgmtCommand.Status =>
      uri ← parse_uri (http_uri (mc_address client) (bs "/status") None);
      Some {| hr_method := GET; hr_uri := uri; hr_headers := []; hr_body := [] |}
  | MgmtCommand.ConsensusCommand _ _ =>
      uri ← parse_uri (http_uri (mc_address client) (bs "/consensus") None);
      Some {| hr_method := POST; hr_uri := uri; hr_headers := [];
              hr_body := to_vec_command (mc_command client) |}
  end.

(** What the client reports: the state the server answered, as the state or as the
    new state, an answer it cannot read, or a bad status (a warning). *)
Inductive ClientReport :=
| PrintedStatus (s : ServerStatus)
| PrintedNewState (s : ServerStatus)
| PrintedParseError
| WarnedBadStatus (code : StatusCode).

(** The answer is [None] when the request fails, its body when it cannot be read. *)
Definition client_response (c : MgmtCommand.t) (resp : option (StatusCode * option bytes))
  : MgmtError + ClientReport :=
  match resp with
  | None => inl MHttp
  | Some (status, body) =>
      if decide (status = OK) then
        match body with
        | None => inl MHttp
        | Some body =>
            match from_slice_status body with
            | Some s => inr (match c with
                             | MgmtCommand.Status => PrintedStatus s
                             | MgmtCommand.ConsensusCommand _ _ => PrintedNewState s
                             end)
            | None => inr PrintedParseError
            end
        end
      else inr (WarnedBadStatus status)
  end.

(** The nodes whose management servers listen, by address. *)
Definition Servers : Type := SocketAddr -> option Leadership.

Definition set_server (a : SocketAddr) (l : Leadership) (servers : Servers) : Servers :=
  fun x => if decide (x = a) then Some l else servers x.

(** The whole client: build the request, connect, let the server answer. *)
Definition MgmtClient_run (client : MgmtClient) (servers : Servers)
  : option ((MgmtError + ClientReport) * Servers) :=
  req ← client_request client;
  match connect_addr (hr_uri req) with
  | None => Some (client_response (mc_command client) None, servers)
  | Some a =>
      match servers a with
      | None => Some (client_response (mc_command client) None, servers)
      | Some l =>
          let '(resp, l) := call {| rq_method := hr_method req; rq_path := u_path (hr_uri req);
                                    rq_body := Some (hr_body req) |} l in
          Some (client_response (mc_command client)
                  (r ← resp; Some (rs_status r, Some (rs_body r))), set_server a l servers)
      end
  end.

(** The state a command leaves a node in. *)
Definition commanded (c : MgmtCommand.t) (l : Leadership) : Leadership :=
  match c with
  | MgmtCommand.Status => l
  | MgmtCommand.ConsensusCommand a la =>
      {| consensus_state := new_consensus_state a;
         is_leader := match la with
                      | LeaderAction.Unchanged => is_leader l
                      | LeaderAction.Enable => true
                      | LeaderAction.Disable => false
                      end |}
  end.

Lemma client_run_ok {JOK : JsonOk J} {UOK : UriOk U} a b c d port cmd servers l :
  addr_ok (V4 a b c d port) -> servers (V4 a b c d port) = Some l ->
  let l' := commanded cmd l in
  MgmtClient_run {| mc_address := V4 a b c d port; mc_command := cmd |} servers =
  Some (inr (match cmd with
             | MgmtCommand.Status => PrintedStatus (ServerStatus_new l')
             | MgmtCommand.ConsensusCommand _ _ => PrintedNewState (ServerStatus_new l')
             end), set_server (V4 a b c d port) l' servers).
Proof.
  intros Ha Hl. unfold MgmtClient_run, client_request. cbn [mc_address mc_command].
  destruct cmd as [|ac la]; cbn [bs String.list_ascii_of_string].
  all: rewrite (parse_http_uri (V4 a b c d port)) by (done || by repeat constructor).
  all: cbn [mbind option_bind hr_uri hr_method hr_body u_path].
  all: rewrite (connect_v4 _ a b c d port) by done; rewrite Hl.
  - unfold call. cbn [rq_method rq_path rq_body].
    rewrite decide_False, decide_True by done. cbn [mbind option_bind rs_status rs_body].
    unfold client_response. by rewrite decide_True, status_round_trip by done.
  - unfold call. cbn [rq_method rq_path rq_body].
    rewrite decide_True by done. rewrite command_round_trip. cbn [mbind option_bind rs_status rs_body].
    unfold client_response. rewrite decide_True, status_round_trip by done. by destruct la.
Qed.

(** C30. Only a well-formed consensus command posted to [/consensus] changes the
    leadership state; every other request leaves it alone and is answered with an
    error status, unless it asks for the usage text or the status. *)
Theorem bad_requests_change_nothing (req : Request) (l : Leadership) :
  let '(resp, l') := call req l in
  (l' = l \/ exists a la body,
     rq_method req = POST /\ rq_path req = bs "/consensus" /\ rq_body req = Some body /\
     from_slice_command body = Some (MgmtCommand.ConsensusCommand a la)) /\
  match resp with
  | Some r =>
      (rs_status r = OK <->
       (rq_method req = GET /\ (rq_path req = bs "/" \/ rq_path req = bs "/status")) \/
       (rq_method req = POST /\ rq_path req = bs "/consensus" /\ exists body a la,
          rq_body req = Some body /\
          from_slice_command body = Some (MgmtCommand.ConsensusCommand a la)))
  | None => rq_body req = None
  end.
Proof.
  unfold call. destruct (rq_method req) eqn:Hm.
  - repeat case_decide; cbn; (split; [by left|]); naive_solver.
  - case_decide; cbn; [|split; [by left|]; naive_solver].
    destruct (rq_body req) as [body|] eqn:Hb; [|by split; [left|]].
    destruct (from_slice_command body) as [[|a la]|] eqn:Hc; cbn;
      (split; [first [by left | right; by exists a, la, body]|]); naive_solver.
  - cbn. split; [by left|]. naive_solver.
  - cbn. split; [by left|]. naive_solver.
Qed.
End management.
