(* ===== verification/Hostname.v ===== *)
(** * The name of the host ([get_hostname] of [src/src/util.rs])

    The buffer that [gethostname] fills, the C string in it, and what
    [to_string_lossy] makes of bytes that are not UTF-8. *)

From S2P Require Import Prelude.

(** [libc::gethostname]: the return value, and the memory of the buffer afterwards. *)
Class LibcLib := gethostname : Z -> Z * bytes.

(** ** [String::from_utf8_lossy] *)

(** The byte at the front, zero past the end. *)
Definition front (l : bytes) : Z :=
  match l with [] => 0 | c :: _ => Z.of_nat (Ascii.nat_of_ascii c) end.

Definition between (lo hi b : Z) : bool := (lo <=? b) && (b <=? hi).
Definition continuation (b : Z) : bool := between 128 191 b.

(** Which second byte may follow the first one of a sequence of three or four bytes. *)
Definition second_of_three (b0 b1 : Z) : bool :=
  if b0 =? 224 then between 160 191 b1
  else if b0 =? 237 then between 128 159 b1
  else continuation b1.
Definition second_of_four (b0 b1 : Z) : bool :=
  if b0 =? 240 then between 144 191 b1
  else if b0 =? 244 then between 128 143 b1
  else continuation b1.

(** The encoding of U+FFFD. *)
Definition replacement : bytes := map Ascii.ascii_of_nat [239; 191; 189]%nat.

(** Each maximal part that no valid sequence starts with is replaced. *)
Fixpoint from_utf8_lossy (l : bytes) : bytes :=
  match l with
  | [] => []
  | c0 :: l1 =>
      let b0 := Z.of_nat (Ascii.nat_of_ascii c0) in
      if b0 <? 128 then c0 :: from_utf8_lossy l1
      else if between 194 223 b0 then
        match l1 with
        | c1 :: l2 => if continuation (front l1) then c0 :: c1 :: from_utf8_lossy l2
                      else replacement ++ from_utf8_lossy l1
        | [] => replacement
        end
      else if between 224 239 b0 then
        match l1 with
        | c1 :: l2 =>
            if second_of_three b0 (front l1) then
              match l2 with
              | c2 :: l3 => if continuation (front l2) then c0 :: c1 :: c2 :: from_utf8_lossy l3
                            else replacement ++ from_utf8_lossy l2
              | [] => replacement
              end
            else replacement ++ from_utf8_lossy l1
        | [] => replacement
        end
      else if between 240 244 b0 then
        match l1 with
        | c1 :: l2 =>
            if second_of_four b0 (front l1) then
              match l2 with
              | c2 :: l3 =>
                  if continuation (front l2) then
                    match l3 with
                    | c3 :: l4 => if continuation (front l3)
                                  then c0 :: c1 :: c2 :: c3 :: from_utf8_lossy l4
                                  else replacement ++ from_utf8_lossy l3
                    | [] => replacement
                    end
                  else replacement ++ from_utf8_lossy l2
              | [] => replacement
              end
            else replacement ++ from_utf8_lossy l1
        | [] => replacement
        end
      else replacement ++ from_utf8_lossy l1
  end.

(** [str::from_utf8(l).is_ok()]: nothing has to be replaced. *)
Definition utf8 (l : bytes) : bool := bool_decide (from_utf8_lossy l = l).

(** ** [get_hostname] *)
Definition NUL : Ascii.ascii := Ascii.ascii_of_nat 0.

(** [CStr::from_ptr]: the bytes before the first zero; without one in the buffer it
    reads past the end. *)
Fixpoint from_ptr (memory : bytes) : option bytes :=
  match memory with
  | [] => None
  | c :: memory => if decide (c = NUL) then Some [] else l ← from_ptr memory; Some (c :: l)
  end.

Section hostname.
Context {LC : LibcLib}.

(** The outer [None] is undefined behaviour: the name fills the buffer. *)
Definition get_hostname : option (option string) :=
  let len := 255 in
  let '(code, memory) := gethostname len in
  if decide (code <> 0) then Some None
  else name ← from_ptr memory; Some (Some (String.string_of_list_ascii (from_utf8_lossy name))).
End hostname.

(** ** What the name is *)

(** Text that is UTF-8 already is kept. *)
Definition is_ascii (c : Ascii.ascii) : Prop := (Ascii.nat_of_ascii c < 128)%nat.

Lemma lossy_ascii l : Forall is_ascii l -> from_utf8_lossy l = l.
Proof.
  induction 1 as [|c l Hc _ IH]; [done|]. cbn [from_utf8_lossy].
  destruct (Z.ltb_spec (Z.of_nat (Ascii.nat_of_ascii c)) 128); [by rewrite IH|].
  unfold is_ascii in Hc. lia.
Qed.

Lemma lossy_replacement l : from_utf8_lossy (replacement ++ l) = replacement ++ from_utf8_lossy l.
Proof. done. Qed.

(** One round of the decoder: a valid sequence, or a replaced part. *)
Ltac replaced rest := exists replacement, rest; split; [cbn; lia|done].
Ltac kept_sequence pre rest :=
  exists pre, rest; split; [cbn; lia|]; split; [done|]; intros k; cbn [app from_utf8_lossy front] in *;
  repeat match goal with H : ?x = _ |- context [if ?x then _ else _] => rewrite H end; done.

Lemma lossy_cases l : l <> [] ->
  exists pre rest, (length rest < length l)%nat /\
    from_utf8_lossy l = pre ++ from_utf8_lossy rest /\
    forall k, from_utf8_lossy (pre ++ k) = pre ++ from_utf8_lossy k.
Proof.
  destruct l as [|c0 l1]; [done|]. intros _. cbn [from_utf8_lossy].
  destruct (_ <? 128) eqn:H1; [kept_sequence [c0] l1|].
  destruct (between 194 223 _) eqn:H2.
  { destruct l1 as [|c1 l2]; [replaced (@nil Ascii.ascii)|].
    destruct (continuation (front (c1 :: l2))) eqn:Hc; [|replaced (c1 :: l2)].
    kept_sequence [c0; c1] l2. }
  destruct (between 224 239 _) eqn:H3.
  { destruct l1 as [|c1 l2]; [replaced (@nil Ascii.ascii)|].
    destruct (second_of_three _ (front (c1 :: l2))) eqn:Hs; [|replaced (c1 :: l2)].
    destruct l2 as [|c2 l3]; [replaced (@nil Ascii.ascii)|].
    destruct (continuation (front (c2 :: l3))) eqn:Hc; [|replaced (c2 :: l3)].
    kept_sequence [c0; c1; c2] l3. }
  destruct (between 240 244 _) eqn:H4; [|replaced l1].
  destruct l1 as [|c1 l2]; [replaced (@nil Ascii.ascii)|].
  destruct (second_of_four _ (front (c1 :: l2))) eqn:Hs; [|replaced (c1 :: l2)].
  destruct l2 as [|c2 l3]; [replaced (@nil Ascii.ascii)|].
  destruct (continuation (front (c2 :: l3))) eqn:Hc; [|replaced (c2 :: l3)].
  destruct l3 as [|c3 l4]; [replaced (@nil Ascii.ascii)|].
  destruct (continuation (front (c3 :: l4))) eqn:Hd; [|replaced (c3 :: l4)].
  kept_sequence [c0; c1; c2; c3] l4.
Qed.

(** The result is UTF-8: decoding it again changes nothing. *)
Lemma lossy_idempotent l : from_utf8_lossy (from_utf8_lossy l) = from_utf8_lossy l.
Proof.
  remember (length l) as n eqn:Hn. revert l Hn.
  induction n as [n IH] using (well_founded_induction Nat.lt_wf_0). intros l ->.
  destruct l as [|c l]; [done|]. destruct (lossy_cases (c :: l)) as (pre & rest & Hl & -> & Hk); [done|].
  by rewrite Hk, (IH _ Hl).
Qed.

Lemma lossy_utf8 l : utf8 (from_utf8_lossy l) = true.
Proof. apply bool_decide_eq_true, lossy_idempotent. Qed.

Lemma utf8_ascii l : Forall is_ascii l -> utf8 l = true.
Proof. intros Ha. by apply bool_decide_eq_true, lossy_ascii. Qed.

Lemma from_ptr_name name rest : NUL ∉ name -> from_ptr (name ++ NUL :: rest) = Some name.
Proof.
  induction name as [|c name IH]; cbn [app from_ptr]; [by rewrite decide_True|].
  intros [Hc Hn]%list.not_elem_of_cons. rewrite decide_False by congruence. by rewrite IH.
Qed.

(** The name the kernel stores is the name the node gets; a failing call is [None]. *)
Lemma get_hostname_spec {LC : LibcLib} code name rest :
  gethostname 255 = (code, name ++ NUL :: rest) -> Forall is_ascii name -> NUL ∉ name ->
  get_hostname = Some (if decide (code = 0) then Some (String.string_of_list_ascii name) else None).
Proof.
  intros Hg Ha Hn. unfold get_hostname. rewrite Hg. destruct (decide (code = 0)) as [->|Hc].
  - by rewrite decide_False, from_ptr_name by auto; cbn [mbind option_bind]; rewrite lossy_ascii.
  - by rewrite decide_True.
Qed.
