(* ===== verification/Consensus.v ===== *)
(** * Leadership ([src/src/raft.rs], the leadership side of [util.rs] and
    [management.rs])

    The internal Raft reports its role changes to the leader flag; management
    commands change the flag and the consensus state.  The file has the set-up of
    the internal Raft, sequences of role changes and commands, and a step relation
    for the single reads and writes that threads interleave. *)

From S2P Require Import Prelude Interfaces Globals Config Util Hostname Management.

(** ** Internal Raft *)
Section raft.
(** The role type of [raft_consensus]; the code only compares with [Leader]. *)
Context {Role : Type} `{EqDecision Role} (Leader : Role).

(** [LeaderNotifier::state_changed] *)
Definition state_changed (old new : Role) (l : Leadership) : Leadership :=
  if decide (old <> new) then
    if decide (new = Leader) then switch_leader true l
    else if decide (old = Leader) then switch_leader false l
    else l
  else l.

(** What happens on a node: Raft moves to a role, or a command is processed. *)
Inductive NodeEvent :=
| RaftTo (new : Role)
| Command (c : ConsensusAction.t) (a : LeaderAction.t).

Definition node_step (st : Role * Leadership) (ev : NodeEvent) : Role * Leadership :=
  let '(role, l) := st in
  match ev with
  | RaftTo new => (new, state_changed role new l)
  | Command c a => (role, set_leader a (set_consensus c l))
  end.

Definition node_run (st : Role * Leadership) (evs : list NodeEvent) : Role * Leadership :=
  foldl node_step st evs.

(** C22. While consensus is enabled the leader flag is the Raft role: if they
    agree at first, they agree after any sequence of role changes. *)
Theorem leader_flag_tracks_raft (role : Role) (l : Leadership) (roles : list Role) :
  consensus_state l = ConsensusState.Enabled ->
  is_leader l = bool_decide (role = Leader) ->
  let '(role', l') := node_run (role, l) (map RaftTo roles) in
  consensus_state l' = ConsensusState.Enabled /\ is_leader l' = bool_decide (role' = Leader).
Proof.
  unfold node_run. revert role l. induction roles as [|r roles IH]; intros role l Hs Hl; [done|].
  cbn [map foldl node_step]. apply IH; unfold state_changed, switch_leader.
  - repeat case_decide; rewrite ?bool_decide_true by done; done.
  - rewrite bool_decide_true by done.
    repeat case_decide; subst; cbn; rewrite ?bool_decide_true, ?bool_decide_false by done;
      try done.
Qed.

(** Events that neither make the node leader nor touch the flag by hand. *)
Definition passive (ev : NodeEvent) : Prop :=
  match ev with
  | RaftTo new => new <> Leader
  | Command _ a => a = LeaderAction.Unchanged
  end.

(** C37. A stale leader flag stays: a node whose flag is set while its Raft role is
    not leader (it was started as leader, or lost the role while consensus was
    paused) keeps acting as leader through every role change that does not pass
    through leadership, and through every resume that leaves the flag unchanged. *)
Theorem stale_leader_stays (role : Role) (l : Leadership) (evs : list NodeEvent) :
  role <> Leader -> is_leader l = true -> Forall passive evs ->
  let '(role', l') := node_run (role, l) evs in role' <> Leader /\ is_leader l' = true.
Proof.
  unfold node_run. intros Hr Hl Hp. revert role l Hr Hl.
  induction Hp as [|ev evs He Hp IH]; intros role l Hr Hl; [done|].
  cbn [foldl node_step]. destruct ev as [new|c a]; cbn in He.
  - apply IH; [done|]. unfold state_changed. by repeat case_decide.
  - subst a. by apply IH.
Qed.

(** How a stale flag arises from a consistent state: pause the consensus on
    the leader, let Raft move the role away, and resume; the node is then a
    follower that still sends metrics. *)
Lemma pause_makes_stale_leader (role : Role) (l : Leadership) :
  role <> Leader -> consensus_state l = ConsensusState.Enabled -> is_leader l = true ->
  node_run (Leader, l)
    [Command ConsensusAction.Pause LeaderAction.Unchanged; RaftTo role;
     Command ConsensusAction.Resume LeaderAction.Unchanged]
  = (role, l).
Proof.
  intros Hr Hs Hl. destruct l as [cs il]. cbn in *. subst. unfold state_changed.
  rewrite decide_True by congruence. rewrite decide_False by done.
  by rewrite decide_True by done.
Qed.
End raft.

(** ** [start_internal_raft]: the identity of this node *)
Section setup.
Context {HI : HashIter} {LC : LibcLib}.

(** The loop over the configured nodes: resolve each, remember the id of the one
    that resolves to this node's address. *)
Definition resolve_node (resolve : string -> option SocketAddr) (this : SocketAddr)
    (acc : option (option Z * gmap Z SocketAddr)) (ni : string * Z)
  : option (option Z * gmap Z SocketAddr) :=
  '(this_id, m) ← acc;
  addr ← resolve (fst ni);
  Some (if decide (addr = this) then Some (snd ni) else this_id, <[snd ni := addr]> m).

(** The address of this node: the configured one, or that of its host name. *)
Definition own_address (resolve : string -> option SocketAddr) (options : Raft)
  : option SocketAddr :=
  match this_node options with
  | Some name => resolve name
  | None => hostname ← get_hostname; h ← hostname; resolve (h +:+ ":8138")
  end.

(** The node's id and the table of nodes handed to Raft; [None] is a panic. *)
Definition raft_nodes_table (resolve : string -> option SocketAddr)
    (random : Z) (options : Raft)
  : option (SocketAddr * Z * gmap Z SocketAddr) :=
  this ← own_address resolve options;
  '(this_id, m) ← foldl (resolve_node resolve this) (Some (None, ∅)) (hiter (raft_nodes options));
  Some (match this_id with
        | Some id => (this, id, m)
        | None => (this, random, <[random := this]> m)
        end).

Context {HIOK : HashIterOk HI}.

Lemma resolve_nodes_inv resolve this l acc m this_id m' :
  base.NoDup (map snd l) ->
  (forall id, acc = Some id -> m !! id = Some this /\ id ∉ map snd l) ->
  foldl (resolve_node resolve this) (Some (acc, m)) l = Some (this_id, m') ->
  forall id, this_id = Some id -> m' !! id = Some this.
Proof.
  revert acc m. induction l as [|[n i] l IH]; intros acc m Hnd Hacc; cbn [foldl].
  { intros [= <- <-] id Hid. by apply Hacc. }
  cbn [map snd] in *. apply list.NoDup_cons in Hnd as [Hi Hnd].
  unfold resolve_node at 2. cbn [mbind option_bind fst snd].
  destruct (resolve n) as [addr|]; cbn [mbind option_bind].
  2: { intros Hf. exfalso. clear -Hf. induction l; [done|]. by cbn in Hf. }
  intros Hf. eapply IH; [done| |done]. intros id. case_decide.
  - intros [= <-]. subst addr. split; [apply lookup_insert_eq|done].
  - intros Ha. destruct (Hacc id Ha) as [Hm Hn]. rewrite list.not_elem_of_cons in Hn.
    destruct Hn as [Hne Hn]. split; [|done]. by rewrite lookup_insert_ne.
Qed.

(** The identity a node starts Raft with is its own: whenever the set-up
    succeeds with distinct ids in the configuration, the table handed to Raft maps
    the node's id to the address the node resolved for itself, whether the
    configuration lists the node or a random id had to be added. *)
Theorem raft_identity_is_own (resolve : string -> option SocketAddr)
    (random : Z) (options : Raft) (this : SocketAddr) (id : Z)
    (table : gmap Z SocketAddr) :
  (forall n1 n2 i, raft_nodes options !! n1 = Some i -> raft_nodes options !! n2 = Some i ->
                   n1 = n2) ->
  raft_nodes_table resolve random options = Some (this, id, table) ->
  table !! id = Some this.
Proof.
  intros Hinj. unfold raft_nodes_table.
  destruct (own_address resolve options) as [th|]; cbn [mbind option_bind]; [|done].
  destruct (foldl _ _ _) as [[tid m]|] eqn:Hf; cbn [mbind option_bind]; [|done].
  destruct tid as [i|]; intros [= <- <- <-]; [|apply lookup_insert_eq].
  eapply resolve_nodes_inv; [| |exact Hf|done]; [|done].
  rewrite (hiter_perm _ _ _ _ (raft_nodes options)).
  apply NoDup_fmap_2_strong; [|apply NoDup_map_to_list].
  intros [n1 i1] [n2 i2] H1%elem_of_map_to_list H2%elem_of_map_to_list Heq.
  cbn in Heq. subst i2. f_equal. by eapply Hinj.
Qed.

(** All names the set-up resolves. *)
Definition all_resolve (resolve : string -> option SocketAddr) (options : Raft) : Prop :=
  is_Some (own_address resolve options) /\
  Forall (fun n => is_Some (resolve n)) (map fst (hiter (raft_nodes options))).

Lemma resolve_nodes_some resolve this l acc :
  is_Some (foldl (resolve_node resolve this) (Some acc) l) <->
  Forall (fun n => is_Some (resolve n)) (map fst l).
Proof.
  revert acc. induction l as [|[n i] l IH]; intros [tid m]; cbn [foldl map fst].
  { split; [constructor|by eexists]. }
  rewrite list.Forall_cons. unfold resolve_node at 2. cbn [mbind option_bind fst snd].
  destruct (resolve n) as [addr|]; cbn [mbind option_bind].
  - rewrite IH. split; [by split; [eexists|]|by intros []].
  - split; [|by intros [[] _]]. intros Hs. exfalso. clear -Hs.
    induction l as [|x l IH]; [by destruct Hs|exact (IH Hs)].
Qed.

Lemma raft_table_some resolve random options :
  is_Some (raft_nodes_table resolve random options) <-> all_resolve resolve options.
Proof.
  unfold raft_nodes_table, all_resolve.
  destruct (own_address resolve options) as [th|]; cbn [mbind option_bind].
  2: { split; [by intros []|by intros [[] _]]. }
  rewrite <-(resolve_nodes_some resolve th _ (None, ∅)).
  destruct (foldl _ _ _) as [[tid m]|]; cbn [mbind option_bind].
  - by split; [split; eexists|eexists].
  - split; [by intros []|by intros [_ []]].
Qed.
End setup.

(** ** Interleaving of single reads and writes *)

(** The operations in flight: a leader switch before and after it read the
    consensus state, and a command before and after it wrote it. *)
Inductive Op :=
| SwitchStart (acquired : bool)
| SwitchStore (acquired : bool)
| CommandStart (c : ConsensusAction.t) (a : LeaderAction.t)
| CommandStore (a : LeaderAction.t).

(** One access to the shared state by one of the operations in flight. *)
Inductive sys_step : Leadership * list Op -> Leadership * list Op -> Prop :=
| step_check_enabled l b o1 o2 :
    consensus_state l = ConsensusState.Enabled ->
    sys_step (l, o1 ++ SwitchStart b :: o2) (l, o1 ++ SwitchStore b :: o2)
| step_check_other l b o1 o2 :
    consensus_state l <> ConsensusState.Enabled ->
    sys_step (l, o1 ++ SwitchStart b :: o2) (l, o1 ++ o2)
| step_store l b o1 o2 :
    sys_step (l, o1 ++ SwitchStore b :: o2)
             ({| consensus_state := consensus_state l; is_leader := b |}, o1 ++ o2)
| step_command l c a o1 o2 :
    sys_step (l, o1 ++ CommandStart c a :: o2) (set_consensus c l, o1 ++ CommandStore a :: o2)
| step_command_leader l a o1 o2 :
    sys_step (l, o1 ++ CommandStore a :: o2) (set_leader a l, o1 ++ o2).

Definition only_checks (ops : list Op) : Prop :=
  Forall (fun o => match o with SwitchStart _ => True | _ => False end) ops.

(** Outside the enabled state the consensus has no say: from a paused or
    disabled state in which no switch has passed its check and no command is in
    flight, no interleaving of any number of leader switches changes the
    leadership state. *)
Theorem paused_ignores_consensus (l l' : Leadership) (ops ops' : list Op) :
  consensus_state l <> ConsensusState.Enabled -> only_checks ops ->
  rtc sys_step (l, ops) (l', ops') -> l' = l.
Proof.
  intros Hs Ho Hrtc. remember (l, ops) as st eqn:E. remember (l', ops') as st' eqn:E'.
  revert l ops Hs Ho E l' ops' E'. induction Hrtc as [st|st1 st2 st3 Hstep Hrtc IH];
    intros l ops Hs Ho -> l' ops' E'; [by simplify_eq|].
  inversion Hstep; subst; unfold only_checks in Ho; apply Forall_app in Ho as [Ho1 Ho2];
    apply list.Forall_cons in Ho2 as [Hh Ho2]; try done.
  eapply IH; [| |done|done]; [done|]. by apply Forall_app_2.
Qed.

(** C36. The leader switch is not atomic: a switch that has passed its check can
    store after a command has paused the consensus and taken leadership away, so a
    node ends paused and leader, against the command and unlike any sequential
    order of the two, in which the flag ends cleared. *)
Theorem leader_switch_race :
  let l := {| consensus_state := ConsensusState.Enabled; is_leader := false |} in
  let cmd l := set_leader LeaderAction.Disable (set_consensus ConsensusAction.Pause l) in
  rtc sys_step
    (l, [SwitchStart true; CommandStart ConsensusAction.Pause LeaderAction.Disable])
    ({| consensus_state := ConsensusState.Paused; is_leader := true |}, [])
  /\ is_leader (cmd (switch_leader true l)) = false
  /\ is_leader (switch_leader true (cmd l)) = false.
Proof.
  cbn zeta. split_and!; [|done|done].
  eapply rtc_l; [by apply (step_check_enabled _ true [])|].
  eapply rtc_l; [apply (step_command _ _ _ [SwitchStore true] [])|].
  eapply rtc_l; [apply (step_command_leader _ _ [SwitchStore true] [])|].
  eapply rtc_l; [apply (step_store _ true [] [])|]. apply rtc_refl.
Qed.
