(* ===== verification/RaftStart.v ===== *)
(** * Starting the internal Raft ([start_internal_raft] of [src/src/raft.rs], the raft
    thread of [main.rs]) and the lock of the consensus state

    The raft thread takes the lock of [CONSENSUS_STATE] and keeps it while it resolves
    the addresses of all nodes, which panics when a name does not resolve.  A mutex
    whose owner panicked is poisoned: [lock().unwrap()] panics from then on.  The file
    has the operations on the leadership state with the lock they take. *)

From S2P Require Import Prelude Interfaces Globals Config Util Hostname Http Management Consensus.

Section raft_start.
Context {HI : HashIter} {LC : LibcLib} {J : JsonLib}.

(** ** [start_internal_raft] *)

(** What Raft is started with: the id of this node, the table of nodes, the timeouts
    and the address its connections are bound to. *)
Record RaftStart := mkRaftStart {
  rs_id : Z;
  rs_nodes : gmap Z SocketAddr;
  rs_options : RaftOptions;
  rs_client_bind : option SocketAddr
}.

Definition start_internal_raft (resolve : string -> option SocketAddr) (random : Z) (options : Raft)
  : option RaftStart :=
  '(_, id, nodes) ← raft_nodes_table resolve random options;
  Some {| rs_id := id; rs_nodes := nodes; rs_options := get_raft_options options;
          rs_client_bind := client_bind options |}.

(** ** The lock *)
Record Shared := mkShared { sh_lead : Leadership; sh_poisoned : bool }.

Definition shared_init (l : Leadership) : Shared := {| sh_lead := l; sh_poisoned := false |}.

(** [CONSENSUS_STATE.lock().unwrap()] *)
Definition locked {A} (s : Shared) (k : Leadership -> A) : option A :=
  if sh_poisoned s then panic else Some (k (sh_lead s)).

Definition with_lead (s : Shared) (l : Leadership) : Shared :=
  {| sh_lead := l; sh_poisoned := sh_poisoned s |}.

(** The raft thread once its start delay is over: it takes the lock, enables the
    consensus and starts Raft; a panic in there poisons the lock it holds. *)
Definition raft_thread (resolve : string -> option SocketAddr) (random : Z) (options : Raft)
    (s : Shared) : option RaftStart * Shared :=
  match locked s (fun l => {| consensus_state := ConsensusState.Enabled; is_leader := is_leader l |}) with
  | None => (None, s)
  | Some l =>
      match start_internal_raft resolve random options with
      | Some r => (Some r, with_lead s l)
      | None => (None, {| sh_lead := l; sh_poisoned := true |})
      end
  end.

(** [switch_leader], and what the service does with a request; [None]: the caller
    panics.  Requests for the usage text, unknown ones and bad commands take no lock. *)
Definition switch_shared (acquired : bool) (s : Shared) : option Shared :=
  l ← locked s (switch_leader acquired);
  Some (with_lead s l).

Definition needs_lock (req : Request) : bool :=
  match rq_method req with
  | GET => bool_decide (rq_path req = bs "/status")
  | POST => bool_decide (rq_path req = bs "/consensus") &&
      match rq_body req ≫= from_slice_command with
      | Some (MgmtCommand.ConsensusCommand _ _) => true
      | _ => false
      end
  | _ => false
  end.

Definition call_shared (req : Request) (s : Shared) : option (option Response * Shared) :=
  if needs_lock req then
    '(resp, l) ← locked s (call req);
    Some (resp, with_lead s l)
  else Some (fst (call req (sh_lead s)), s).

(** What happens to the shared state, in any order. *)
Inductive LockEvent :=
| LSwitch (acquired : bool)                 (* Raft or consul *)
| LRequest (req : Request).

Inductive LockResult := LDone | LAnswered (r : option Response) | LPanicked.

Definition lock_step (s : Shared) (ev : LockEvent) : LockResult * Shared :=
  match ev with
  | LSwitch acquired =>
      match switch_shared acquired s with Some s' => (LDone, s') | None => (LPanicked, s) end
  | LRequest req =>
      match call_shared req s with Some (r, s') => (LAnswered r, s') | None => (LPanicked, s) end
  end.

(** The management server runs on the runtime of the main thread: a panic in there ends
    the process, and nothing happens after it.  A switch panics on a thread of its own. *)
Definition ends_process (ev : LockEvent) (r : LockResult) : bool :=
  match ev, r with LRequest _, LPanicked => true | _, _ => false end.

Fixpoint lock_run (s : Shared) (evs : list LockEvent) : list LockResult * Shared :=
  match evs with
  | [] => ([], s)
  | ev :: evs =>
      let '(r, s) := lock_step s ev in
      if ends_process ev r then ([r], s) else
      let '(rs, s) := lock_run s evs in
      (r :: rs, s)
  end.

(** ** Facts *)

(** A request that takes no lock changes nothing. *)
Lemma call_unlocked req l : needs_lock req = false -> snd (call req l) = l.
Proof.
  unfold needs_lock, call. destruct (rq_method req); [by repeat case_decide| |done..].
  case_bool_decide; [|by rewrite decide_False].
  rewrite decide_True by done. destruct (rq_body req) as [body|]; [|done]. cbn [mbind option_bind].
  by destruct (from_slice_command body) as [[|c a]|].
Qed.

(** Whether an event looks at the consensus state. *)
Definition looks (ev : LockEvent) : bool :=
  match ev with LSwitch _ => true | LRequest req => needs_lock req end.

(** The events up to the first request that looks at the consensus state. *)
Fixpoint until_request (evs : list LockEvent) : list LockEvent :=
  match evs with
  | [] => []
  | ev :: evs => ev :: match ev with
                       | LRequest req => if needs_lock req then [] else until_request evs
                       | LSwitch _ => until_request evs
                       end
  end.

Lemma poisoned_step s ev :
  sh_poisoned s = true ->
  snd (lock_step s ev) = s /\
  fst (lock_step s ev) =
    if looks ev then LPanicked
    else match ev with LRequest req => LAnswered (fst (call req (sh_lead s))) | _ => LDone end.
Proof.
  intros Hp. destruct ev as [b|req]; cbn [lock_step looks].
  - unfold switch_shared, locked. by rewrite Hp.
  - unfold call_shared, locked. destruct (needs_lock req); [|done]. by rewrite Hp.
Qed.

Lemma poisoned_run s evs :
  sh_poisoned s = true ->
  snd (lock_run s evs) = s /\
  Forall2 (fun ev r => looks ev = true -> r = LPanicked) (until_request evs) (fst (lock_run s evs)).
Proof.
  intros Hp. induction evs as [|ev evs [IH1 IH2]]; [done|]. cbn [lock_run until_request].
  destruct (poisoned_step s ev Hp) as [H1 H2]. destruct (lock_step s ev) as [r s1].
  cbn [fst snd] in H1, H2. subst s1 r. destruct (lock_run s evs) as [rs s2]. cbn [fst snd] in *.
  destruct ev as [b|req]; cbn [looks ends_process]; [by split; [|constructor]|].
  destruct (needs_lock req) eqn:Hn; cbn [ends_process fst snd]; (split; [done|]); constructor; try done.
  cbn. by rewrite Hn.
Qed.

(** The events one after the other, without the lock. *)
Definition in_turn (l : Leadership) (ev : LockEvent) : Leadership :=
  match ev with LSwitch b => switch_leader b l | LRequest req => snd (call req l) end.

Lemma healthy_step s ev :
  sh_poisoned s = false -> sh_poisoned (snd (lock_step s ev)) = false /\
  fst (lock_step s ev) <> LPanicked /\
  sh_lead (snd (lock_step s ev)) = in_turn (sh_lead s) ev.
Proof.
  intros Hp. destruct ev as [b|req]; cbn [lock_step].
  - unfold switch_shared, locked. by rewrite Hp.
  - unfold call_shared, locked. destruct (needs_lock req) eqn:Hn; rewrite ?Hp; cbn [mbind option_bind].
    + unfold in_turn. by destruct (call req (sh_lead s)) as [resp l].
    + cbn. by rewrite call_unlocked.
Qed.

Lemma healthy_run s evs :
  sh_poisoned s = false ->
  sh_lead (snd (lock_run s evs)) =
    foldl in_turn (sh_lead s) evs /\
  length (fst (lock_run s evs)) = length evs /\
  Forall (fun r => r <> LPanicked) (fst (lock_run s evs)).
Proof.
  revert s. induction evs as [|ev evs IH]; intros s Hp; [done|]. cbn [lock_run foldl].
  destruct (healthy_step s ev Hp) as (H1 & H2 & H3). destruct (lock_step s ev) as [r s1].
  cbn [fst snd] in *. destruct (IH s1 H1) as (H4 & H5 & H6). rewrite H3 in H4.
  assert (Hend : ends_process ev r = false) by (by destruct ev, r). rewrite Hend.
  destruct (lock_run s1 evs) as [rs s2]. cbn [fst snd length] in *. split_and!; [done|by f_equal|by constructor].
Qed.

(** Raft starts when all names resolve. *)
Lemma start_internal_raft_some resolve random options :
  is_Some (start_internal_raft resolve random options) <-> all_resolve resolve options.
Proof.
  rewrite <-(raft_table_some resolve random). unfold start_internal_raft.
  destruct (raft_nodes_table _ _ _) as [[[a i] t]|]; cbn [mbind option_bind].
  - split; intros _; by eexists.
  - split; by intros [].
Qed.

(** C32. Starting the internal Raft, as seen by everyone who shares the consensus
    state: when all names resolve, the consensus is enabled and from then on every
    switch and every request runs to its end, with the effects of [switch_leader] and
    of the service in the order they come; when the node's own name or the name of
    any other node does not resolve at that moment, the lock stays poisoned: every
    later leader switch panics, the leader flag keeps its value, and the first status
    request or command panics and takes the process down. *)
Theorem raft_start_and_the_lock (resolve : string -> option SocketAddr) (random : Z) (options : Raft)
    (l : Leadership) (evs : list LockEvent) :
  let '(started, s) := raft_thread resolve random options (shared_init l) in
  let '(rs, s') := lock_run s evs in
  (all_resolve resolve options ->
     is_Some started /\ length rs = length evs /\ Forall (fun r => r <> LPanicked) rs /\
     sh_lead s' = foldl in_turn
       {| consensus_state := ConsensusState.Enabled; is_leader := is_leader l |} evs) /\
  (~ all_resolve resolve options ->
     started = None /\ is_leader (sh_lead s') = is_leader l /\
     Forall2 (fun ev r => looks ev = true -> r = LPanicked) (until_request evs) rs).
Proof.
  pose proof (start_internal_raft_some resolve random options) as Hr.
  unfold raft_thread, locked, shared_init. cbn [sh_poisoned sh_lead].
  destruct (start_internal_raft resolve random options) as [r|]; cbv beta iota.
  - match goal with |- context [lock_run ?s evs] =>
      destruct (healthy_run s evs eq_refl) as (H1 & H2 & H3); destruct (lock_run s evs) as [rs s'] end.
    split; [intros _; split_and!; [by eexists|done|done|done]|]. intros Hn. exfalso. apply Hn, Hr. by eexists.
  - match goal with |- context [lock_run ?s evs] =>
      destruct (poisoned_run s evs eq_refl) as [H1 H2]; destruct (lock_run s evs) as [rs s'] end.
    cbn [fst snd] in *. subst s'. split; [|intros _; by split_and!]. intros Ha. exfalso.
    apply Hr in Ha as [x Hx]. done.
Qed.
End raft_start.
