(* ===== verification/Consul.v ===== *)
(** * Consul consensus ([src/src/consul.rs])

    A loop that gets a session from the consul agent, then renews it and tries to
    acquire the lock key on every tick, and starts over on any error.  HTTP and
    JSON are parameters: the environment supplies the answers of the agent, which
    may come in any order between timers and management commands. *)

From S2P Require Import Prelude Addr Http Interfaces Globals Config Util Management.

Inductive ConsulError :=
| CSession (msg : bytes) | CHttpStatus (code : Z) (body : bytes) | CConnectionTimeout
| CHttp | CParsing | CIo | CRenew (code : Z) (body : bytes) | CTimer.

Record ConsulConsensus := mkConsulConsensus {
  co_agent : SocketAddr;
  co_key : bytes;
  co_session_ttl : Duration;
  co_renew_time : Duration;
  co_error_pause : Duration
}.

Definition ConsulConsensus_new (agent : SocketAddr) (key : bytes) : ConsulConsensus :=
  {| co_agent := agent; co_key := key; co_session_ttl := from_secs 7;
     co_renew_time := from_secs 1; co_error_pause := from_secs 1 |}.

Definition set_session_ttl (c : ConsulConsensus) (ttl : Duration) : ConsulConsensus :=
  {| co_agent := co_agent c; co_key := co_key c; co_session_ttl := ttl;
     co_renew_time := co_renew_time c; co_error_pause := co_error_pause c |}.

Definition set_renew_time (c : ConsulConsensus) (t : Duration) : ConsulConsensus :=
  {| co_agent := co_agent c; co_key := co_key c; co_session_ttl := co_session_ttl c;
     co_renew_time := t; co_error_pause := co_error_pause c |}.

Definition set_error_pause (c : ConsulConsensus) (t : Duration) : ConsulConsensus :=
  {| co_agent := co_agent c; co_key := co_key c; co_session_ttl := co_session_ttl c;
     co_renew_time := co_renew_time c; co_error_pause := t |}.

Definition set_key (c : ConsulConsensus) (key : bytes) : ConsulConsensus :=
  {| co_agent := co_agent c; co_key := key; co_session_ttl := co_session_ttl c;
     co_renew_time := co_renew_time c; co_error_pause := co_error_pause c |}.

(** ** Requests *)

(** [ttl.as_secs() * 1_000_000_000u64 + ttl.subsec_nanos() as u64] *)
Definition ttl_ns (ttl : Duration) : Z :=
  wrap64 (wrap64 (as_secs ttl * 1000000000) + subsec_nanos ttl).

Definition dquote : bytes := [Ascii.ascii_of_nat 34].
Definition quoted (s : bytes) : bytes := dquote ++ s ++ dquote.
Definition ns_text (n : Z) : bytes := quoted (bs (pretty (Z.to_N n)) ++ bs "ns").

(** The bodies of the session and renew requests. *)
Definition session_body (ttl : Duration) : bytes :=
  bs "{" ++ quoted (bs "TTL") ++ bs ": " ++ ns_text (ttl_ns ttl) ++ bs ", " ++
  quoted (bs "LockDelay") ++ bs ": " ++ ns_text (ttl_ns ttl) ++ bs "}".

Definition renew_body (ttl : Duration) : bytes :=
  bs "{" ++ quoted (bs "TTL") ++ bs ": " ++ ns_text (ttl_ns ttl) ++ bs "}".

Class ConsulJson := {
  parse_session : bytes -> option bytes;        (* [ConsulSessionResponse.id] *)
  parse_bool : bytes -> option bool
}.

#[export] Instance RefConsulJson : ConsulJson := {|
  parse_session b := if decide (b = []) then None else Some b;
  parse_bool b := if decide (b = bs "true") then Some true
                  else if decide (b = bs "false") then Some false else None
|}.

(** What the agent answers: an HTTP error, or a status and a body ([None] when
    the body cannot be read). *)
Inductive AgentAnswer := AgentHttpError | AgentAnswers (code : Z) (body : option bytes).

Section consul.
Context {CJ : ConsulJson} {U : UriLib} {T : TimerLib}.

(** The headers that override sending the request as multipart. *)
Definition form_headers (body : bytes) : list (bytes * bytes) :=
  [(bs "content-length", dec (blen body));
   (bs "content-type", bs "application/x-www-form-urlencoded")].

Record ConsulSession := mkConsulSession { cs_agent : SocketAddr; cs_ttl : Duration }.

Record ConsulRenew := mkConsulRenew { cr_agent : SocketAddr; cr_sid : bytes; cr_ttl : Duration }.

Record ConsulAcquire := mkConsulAcquire { ca_agent : SocketAddr; ca_sid : bytes; ca_key : bytes }.

(** The requests; [None] is the panic on a URI that does not parse. *)
Definition session_request (s : ConsulSession) : option HttpRequest :=
  uri ← parse_uri (http_uri (cs_agent s) (bs "/v1/session/create") None);
  let b := session_body (cs_ttl s) in
  Some {| hr_method := PUT; hr_uri := uri; hr_headers := form_headers b; hr_body := b |}.

Definition renew_request (r : ConsulRenew) : option HttpRequest :=
  uri ← parse_uri (http_uri (cr_agent r) (bs "/v1/session/renew/" ++ cr_sid r) None);
  let b := renew_body (cr_ttl r) in
  Some {| hr_method := PUT; hr_uri := uri; hr_headers := form_headers b; hr_body := b |}.

Definition acquire_request (a : ConsulAcquire) : option HttpRequest :=
  uri ← parse_uri (http_uri (ca_agent a) (bs "/v1/kv/" ++ ca_key a ++ bs "/")
                     (Some (bs "acquire=" ++ ca_sid a)));
  Some {| hr_method := PUT; hr_uri := uri; hr_headers := []; hr_body := [] |}.

(** ** Answers *)

(** The session request races a timeout of [ttl]: the timeout is first, its timer
    fails, or the agent's answer is first.  A bad status is reported after a
    delay, whose timer may fail too. *)
Inductive SessionOutcome :=
| SessionTimeout
| SessionTimerError
| SessionAnswer (answer : AgentAnswer) (delay_ok : bool).

(** [ConsulSession] *)
Definition session_result (o : SessionOutcome) : ConsulError + option bytes :=
  match o with
  | SessionTimeout => inr None
  | SessionTimerError => inl CTimer
  | SessionAnswer AgentHttpError _ => inl CHttp
  | SessionAnswer (AgentAnswers code body) delay_ok =>
      if decide (code = 200) then
        match body with
        | None => inl CHttp
        | Some b => match parse_session b with
                    | Some id => inr (Some id)
                    | None => inl CParsing
                    end
        end
      else if delay_ok then
        match body with None => inl CHttp | Some b => inl (CHttpStatus code b) end
      else inl CTimer
  end.

(** [ConsulRenew] *)
Definition renew_result (answer : AgentAnswer) : ConsulError + unit :=
  match answer with
  | AgentHttpError => inl CHttp
  | AgentAnswers code body =>
      if decide (code <> 200) then
        match body with None => inl CHttp | Some b => inl (CRenew code b) end
      else inr ()
  end.

(** [ConsulAcquire]: the status is not looked at; a readable answer switches the
    leader. *)
Definition acquire_result (answer : AgentAnswer) (l : Leadership)
  : (ConsulError + unit) * Leadership :=
  match answer with
  | AgentHttpError => (inl CHttp, l)
  | AgentAnswers _ None => (inl CHttp, l)
  | AgentAnswers _ (Some b) =>
      match parse_bool b with
      | None => (inl CParsing, l)
      | Some lock => (inr (), switch_leader lock l)
      end
  end.

(** ** The loop *)

(** Where the loop waits: for the answer to a session request, for the pause
    before the next one, for the renew timer, for those answers to the joined renew
    and acquire requests that are not in yet, or for the pause after the inner
    loop has failed. *)
Inductive Pending := Both | RenewLeft | AcquireLeft.

Inductive ConsulState :=
| Requesting
| SessionPause
| Holding (sid : bytes)
| Renewing (sid : bytes) (p : Pending)
| ErrorPause.

Inductive ConsulEvent :=
| EvSession (o : SessionOutcome)
| EvPauseOver
| EvTimer (ok : bool)
| EvRenew (answer : AgentAnswer)
| EvAcquire (answer : AgentAnswer)
| EvCommand (c : ConsensusAction.t) (a : LeaderAction.t).

Section loop.
Context (cfg : ConsulConsensus).

Definition active (l : Leadership) : bool :=
  bool_decide (consensus_state l <> ConsensusState.Disabled).

(** One turn of the session loop: ask for a session unless disabled. *)
Definition session_turn (l : Leadership) : option (ConsulState * list HttpRequest) :=
  if active l then
    req ← session_request {| cs_agent := co_agent cfg; cs_ttl := co_session_ttl cfg |};
    Some (Requesting, [req])
  else Some (SessionPause, []).

(** One turn of the renew timer: renew and acquire together unless disabled. *)
Definition renew_turn (sid : bytes) (l : Leadership)
  : option (ConsulState * list HttpRequest) :=
  if active l then
    renew ← renew_request {| cr_agent := co_agent cfg; cr_sid := sid; cr_ttl := co_session_ttl cfg |};
    acquire ← acquire_request {| ca_agent := co_agent cfg; ca_sid := sid; ca_key := co_key cfg |};
    Some (Renewing sid Both, [renew; acquire])
  else Some (Holding sid, []).

(** One of the joined requests is done; the timer is polled again when both are. *)
Definition renewed (sid : bytes) (p : Pending) : ConsulState :=
  match p with Both => Renewing sid AcquireLeft | _ => Holding sid end.

Definition acquired (sid : bytes) (p : Pending) : ConsulState :=
  match p with Both => Renewing sid RenewLeft | _ => Holding sid end.

Definition consul_step (st : ConsulState * Leadership) (ev : ConsulEvent)
  : option (ConsulState * Leadership * list HttpRequest) :=
  let '(cs, l) := st in
  match ev, cs with
  | EvCommand c a, _ => Some (cs, set_leader a (set_consensus c l), [])
  | EvSession o, Requesting =>
      match session_result o with
      | inl _ => Some (SessionPause, l, [])
      | inr None => '(cs, reqs) ← session_turn l; Some (cs, l, reqs)
      | inr (Some sid) => if interval_ok (co_renew_time cfg) then Some (Holding sid, l, []) else panic
      end
  | EvPauseOver, SessionPause | EvPauseOver, ErrorPause =>
      '(cs, reqs) ← session_turn l; Some (cs, l, reqs)
  | EvTimer true, Holding sid => '(cs, reqs) ← renew_turn sid l; Some (cs, l, reqs)
  | EvTimer false, Holding _ => Some (ErrorPause, l, [])
  | EvRenew answer, Renewing sid ((Both | RenewLeft) as p) =>
      match renew_result answer with
      | inl _ => Some (ErrorPause, l, [])
      | inr _ => Some (renewed sid p, l, [])
      end
  | EvAcquire answer, Renewing sid ((Both | AcquireLeft) as p) =>
      let '(r, l) := acquire_result answer l in
      match r with
      | inl _ => Some (ErrorPause, l, [])
      | inr _ => Some (acquired sid p, l, [])
      end
  | _, _ => Some (cs, l, [])
  end.

Fixpoint consul_run (st : ConsulState * Leadership) (evs : list ConsulEvent)
  : option (ConsulState * Leadership * list HttpRequest) :=
  match evs with
  | [] => Some (st, [])
  | ev :: evs =>
      '(st, r1) ← consul_step st ev;
      '(st, r2) ← consul_run st evs;
      Some (st, r1 ++ r2)
  end.
End loop.

Lemma consul_run_app cfg evs1 evs2 st st1 r1 res2 :
  consul_run cfg st evs1 = Some (st1, r1) ->
  forall r2, consul_run cfg st1 evs2 = Some (res2, r2) ->
  consul_run cfg st (evs1 ++ evs2) = Some (res2, r1 ++ r2).
Proof.
  revert st r1. induction evs1 as [|ev evs1 IH]; intros st r1; cbn [consul_run app].
  { by intros [= -> <-] r2 ->. }
  destruct (consul_step cfg st ev) as [[st0 r0]|]; cbn [mbind option_bind]; [|done].
  destruct (consul_run cfg st0 evs1) as [[st2 r2]|] eqn:Hr; cbn [mbind option_bind]; [|done].
  intros [= -> <-] r3 H3. rewrite (IH _ _ Hr _ H3).
  cbn [mbind option_bind]. by rewrite app_assoc.
Qed.

(** ** The agent's side *)

Definition no_command (ev : ConsulEvent) : Prop :=
  match ev with EvCommand _ _ => False | _ => True end.

(** The agent answers an acquire request with a readable decision. *)
Definition decides (ev : ConsulEvent) : Prop :=
  match ev with EvAcquire (AgentAnswers _ (Some b)) => is_Some (parse_bool b) | _ => False end.

(** The session an event grants. *)
Definition granted (ev : ConsulEvent) : option bytes :=
  match ev with
  | EvSession o => match session_result o with inr (Some sid) => Some sid | _ => None end
  | _ => None
  end.

Definition held (cs : ConsulState) : option bytes :=
  match cs with Holding sid | Renewing sid _ => Some sid | _ => None end.

(** Texts that can be put into a URI as they are. *)
Definition plain_text (s : bytes) : Prop := Forall path_char s.

Definition cfg_ok (cfg : ConsulConsensus) : Prop :=
  addr_ok (co_agent cfg) /\ plain_text (co_key cfg) /\ interval_ok (co_renew_time cfg) = true.

(** Every session the run can hold satisfies [Q]. *)
Definition sids (Q : bytes -> Prop) (cs : ConsulState) (evs : list ConsulEvent) : Prop :=
  (forall sid, held cs = Some sid -> Q sid) /\
  Forall (fun ev => forall sid, granted ev = Some sid -> Q sid) evs.

Section agent.
Context {UOK : UriOk U} (cfg : ConsulConsensus) (Hcfg : cfg_ok cfg).

Definition agent_uri (path : bytes) (query : option bytes) : Uri :=
  {| u_authority := show_socket_addr (co_agent cfg); u_path := path; u_query := query |}.

(** The requests of a loop whose sessions satisfy [Q]. *)
Definition request_for (Q : bytes -> Prop) (r : HttpRequest) : Prop :=
  hr_method r = PUT /\
  (hr_uri r = agent_uri (bs "/v1/session/create") None \/
   exists sid, Q sid /\
     (hr_uri r = agent_uri (bs "/v1/session/renew/" ++ sid) None \/
      hr_uri r = agent_uri (bs "/v1/kv/" ++ co_key cfg ++ bs "/") (Some (bs "acquire=" ++ sid)))).

Lemma agent_uri_parses path query :
  Forall path_char path -> (exists p, path = ascii_slash :: p) ->
  (forall q, query = Some q -> Forall query_char q) ->
  parse_uri (http_uri (co_agent cfg) path query) = Some (agent_uri path query).
Proof. intros Hp [p ->] Hq. apply parse_http_uri; [apply Hcfg|done..]. Qed.

Lemma session_turn_ok Q l : exists cs reqs,
  session_turn cfg l = Some (cs, reqs) /\ held cs = None /\ Forall (request_for Q) reqs /\
  (consensus_state l = ConsensusState.Disabled -> reqs = []).
Proof.
  unfold session_turn, active. case_bool_decide; [|by exists SessionPause, []].
  unfold session_request. cbn [cs_agent].
  rewrite agent_uri_parses by (done || (by repeat constructor) || by eexists).
  cbn [mbind option_bind]. do 2 eexists. split_and!; [done..| |done].
  by repeat constructor.
Qed.

Lemma renew_turn_ok (Q : bytes -> Prop) sid l : Q sid -> plain_text sid -> exists cs reqs,
  renew_turn cfg sid l = Some (cs, reqs) /\ held cs = Some sid /\ Forall (request_for Q) reqs /\
  (consensus_state l = ConsensusState.Disabled -> reqs = []).
Proof.
  intros HQ Hsid. unfold renew_turn, active. case_bool_decide; [|by exists (Holding sid), []].
  destruct Hcfg as (_ & Hkey & _). unfold renew_request, acquire_request.
  cbn [cr_agent cr_sid ca_agent ca_sid ca_key]. rewrite !agent_uri_parses.
  - cbn [mbind option_bind]. do 2 eexists. split_and!; [done..| |done].
    repeat apply list.Forall_cons_2; [..|done]; (split; [done|right; exists sid; split; [done|]]);
      [by left|by right].
  - apply Forall_app_2; [by repeat constructor|done].
  - by eexists.
  - done.
  - apply Forall_app_2; [by repeat constructor|].
    apply Forall_app_2; [done|by repeat constructor].
  - by eexists.
  - intros q [= <-]. repeat constructor. eapply List.Forall_impl; [|exact Hsid].
    intros c Hc. apply orb_prop_intro. by left.
Qed.

Lemma acquire_result_facts answer l :
  consensus_state (snd (acquire_result answer l)) = consensus_state l /\
  (consensus_state l <> ConsensusState.Enabled -> snd (acquire_result answer l) = l) /\
  (~ decides (EvAcquire answer) -> snd (acquire_result answer l) = l).
Proof.
  unfold acquire_result, switch_leader.
  destruct answer as [|code [b|]]; [done| |done]. cbn [decides].
  destruct (parse_bool b) as [acq|]; [|done]. cbn [snd]. case_bool_decide; split_and!; try done.
  intros Hn. exfalso. apply Hn. by eexists.
Qed.

(** A good step: it does not panic, the sessions it holds and uses satisfy [Q], and
    only commands and decisions change the leadership. *)
Definition good_step (Q : bytes -> Prop) (l : Leadership) (ev : ConsulEvent)
    (res : option (ConsulState * Leadership * list HttpRequest)) : Prop :=
  exists (cs' : ConsulState) (l' : Leadership) (reqs : list HttpRequest),
    res = Some (cs', l', reqs) /\
    (forall sid, held cs' = Some sid -> Q sid) /\ Forall (request_for Q) reqs /\
    (no_command ev ->
     consensus_state l' = consensus_state l /\
     (consensus_state l <> ConsensusState.Enabled -> l' = l) /\
     (~ decides ev -> l' = l) /\
     (consensus_state l = ConsensusState.Disabled -> reqs = [])).

Lemma good_stay Q l ev cs' :
  (forall sid, held cs' = Some sid -> Q sid) -> good_step Q l ev (Some (cs', l, [])).
Proof. intros H'. exists cs', l, []. by split_and!. Qed.

Lemma good_turn Q l ev :
  good_step Q l ev ('(cs, reqs) ← session_turn cfg l; Some (cs, l, reqs)).
Proof.
  destruct (session_turn_ok Q l) as (c1 & reqs & -> & Hh & Hr & Hd).
  exists c1, l, reqs. split_and!; [done|by rewrite Hh|done|done].
Qed.

Lemma consul_step_ok (Q : bytes -> Prop) cs l ev :
  (forall sid, Q sid -> plain_text sid) ->
  (forall sid, held cs = Some sid -> Q sid) -> (forall sid, granted ev = Some sid -> Q sid) ->
  good_step Q l ev (consul_step cfg (cs, l) ev).
Proof.
  intros HQ Hcs Hev. unfold consul_step.
  destruct ev as [o| |ok|an|an|c a].
  - destruct cs; try by apply good_stay. cbn [granted] in Hev.
    destruct (session_result o) as [|[sid|]]; [by apply good_stay| |apply good_turn].
    rewrite (proj2 (proj2 Hcfg)). apply good_stay. intros sid' [= <-]. by apply Hev.
  - destruct cs; first [apply good_turn | by apply good_stay].
  - destruct cs as [| |sid| |]; destruct ok; try by apply good_stay.
    assert (Hs : Q sid) by by apply Hcs.
    destruct (renew_turn_ok Q sid l Hs (HQ _ Hs)) as (c1 & reqs & -> & Hh & Hr & Hd).
    exists c1, l, reqs. split_and!; [done| |done|done]. rewrite Hh. by intros ? [= <-].
  - destruct cs as [| | |sid p|]; try by apply good_stay.
    destruct p, (renew_result an); apply good_stay; try done; intros ? [= <-]; by apply Hcs.
  - destruct cs as [| | |sid p|]; try by apply good_stay.
    destruct (acquire_result_facts an l) as (H1 & H2 & H3).
    destruct p; try (by apply good_stay); destruct (acquire_result an l) as [[|] l1]; cbn [snd] in *;
      eexists _, l1, []; (split_and!; [done| |done|done]); try done; intros ? [= <-]; by apply Hcs.
  - exists cs, (set_leader a (set_consensus c l)), []. by split_and!.
Qed.

Lemma consul_run_ok (Q : bytes -> Prop) cs l evs :
  (forall sid, Q sid -> plain_text sid) -> sids Q cs evs ->
  exists cs' l' reqs,
    consul_run cfg (cs, l) evs = Some (cs', l', reqs) /\ Forall (request_for Q) reqs /\
    (Forall no_command evs ->
     (consensus_state l <> ConsensusState.Enabled -> l' = l) /\
     (Forall (fun ev => ~ decides ev) evs -> l' = l) /\
     (consensus_state l = ConsensusState.Disabled -> reqs = [])).
Proof.
  intros HQ [Hcs Hev]. revert cs l Hcs. induction Hev as [|ev evs He Hev IH]; intros cs l Hcs.
  { exists cs, l, []. by split_and!. }
  cbn [consul_run].
  destruct (consul_step_ok Q cs l ev HQ Hcs He) as (cs1 & l1 & r1 & -> & Hh1 & Hr1 & Hf1).
  cbn [mbind option_bind].
  destruct (IH cs1 l1 Hh1) as (cs2 & l2 & r2 & -> & Hr2 & Hf2). cbn [mbind option_bind].
  exists cs2, l2, (r1 ++ r2). split_and!; [done|by apply Forall_app_2|].
  intros [Hn Hns]%list.Forall_cons. destruct (Hf1 Hn) as (Hs & Hen & Hde & Hdi).
  destruct (Hf2 Hns) as (Hen2 & Hde2 & Hdi2). rewrite Hs in *. split_and!.
  - intros H. rewrite Hen2, Hen by done. done.
  - intros [Hd Hds]%list.Forall_cons. rewrite Hde2, Hde by done. done.
  - intros H. by rewrite Hdi, Hdi2.
Qed.

(** C24. The lock decides only while consensus is enabled: as long as no command
    comes in, a paused or disabled node keeps its leader flag whatever the agent
    answers and in whatever order, also to requests sent before; and a disabled
    node sends the agent no request at all. *)
Theorem consul_respects_pause (cs : ConsulState) (l : Leadership) (evs : list ConsulEvent) :
  sids plain_text cs evs -> Forall no_command evs ->
  consensus_state l <> ConsensusState.Enabled ->
  exists cs' reqs, consul_run cfg (cs, l) evs = Some (cs', l, reqs) /\
    (consensus_state l = ConsensusState.Disabled -> reqs = []).
Proof.
  intros Hs Hn Hl. destruct (consul_run_ok plain_text cs l evs) as (cs' & l' & reqs & -> & _ & Hf);
    [done..|]. destruct (Hf Hn) as (Hp & _ & Hd). rewrite Hp by done. eauto.
Qed.

(** C38. Losing the agent does not end leadership: through any sequence of failed
    renewals, lost sessions, timeouts and failed acquisitions, that is as long as
    no readable answer to an acquire request comes back, the leader flag keeps its
    value, for longer than any session TTL. *)
Theorem consul_outage_keeps_leader (cs : ConsulState) (l : Leadership)
    (evs : list ConsulEvent) :
  sids plain_text cs evs -> Forall no_command evs -> Forall (fun ev => ~ decides ev) evs ->
  exists cs' reqs, consul_run cfg (cs, l) evs = Some (cs', l, reqs).
Proof.
  intros Hs Hn Hd. destruct (consul_run_ok plain_text cs l evs) as (cs' & l' & reqs & -> & _ & Hf);
    [done..|]. destruct (Hf Hn) as (_ & Hp & _). rewrite Hp by done. eauto.
Qed.

(** C25. The loop never panics and locks only with its own sessions: when the key
    and the session ids the agent hands out are texts a URI can hold, every run
    completes, under any answers and commands, and each of its requests asks the
    configured agent for a session, or renews or locks the configured key with a
    session that the loop held or was granted on the way. *)
Theorem consul_uses_granted_sessions (cs : ConsulState) (l : Leadership)
    (evs : list ConsulEvent) :
  sids plain_text cs evs ->
  exists cs' l' reqs, consul_run cfg (cs, l) evs = Some (cs', l', reqs) /\
    Forall (request_for (fun sid => plain_text sid /\
      (held cs = Some sid \/ exists ev, ev ∈ evs /\ granted ev = Some sid))) reqs.
Proof.
  intros [Hh Hg]. set (Q := fun sid : bytes => _).
  destruct (consul_run_ok Q cs l evs) as (cs' & l' & reqs & Hr & Hq & _);
    [by intros sid []| |by exists cs', l', reqs].
  split; [intros sid H; by split; [apply Hh|left]|].
  apply list.Forall_forall. intros ev Hev sid Hsid. rewrite list.Forall_forall in Hg.
  split; [by apply (Hg ev)|right; by exists ev].
Qed.

(** The answers that complete whatever the loop waits for, and one more tick. *)
Definition recovery (cs : ConsulState) (session lock : bytes) : list ConsulEvent :=
  let granted := EvSession (SessionAnswer (AgentAnswers 200 (Some session)) true) in
  let renewed := EvRenew (AgentAnswers 200 None) in
  let locked := EvAcquire (AgentAnswers 200 (Some lock)) in
  match cs with
  | Requesting => [granted]
  | SessionPause | ErrorPause => [EvPauseOver; granted]
  | Holding _ => []
  | Renewing _ Both => [renewed; locked]
  | Renewing _ RenewLeft => [renewed]
  | Renewing _ AcquireLeft => [locked]
  end ++ [EvTimer true; renewed; locked].

Lemma active_turns l sid : consensus_state l = ConsensusState.Enabled -> plain_text sid ->
  (exists req, session_turn cfg l = Some (Requesting, [req])) /\
  (exists reqs, renew_turn cfg sid l = Some (Renewing sid Both, reqs)).
Proof.
  intros Hl Hs. split.
  - destruct (session_turn_ok (fun _ => True) l) as (c & r & H & _). revert H.
    unfold session_turn, active. rewrite bool_decide_true by (by rewrite Hl).
    destruct (session_request _); cbn; [|done]. by eexists.
  - destruct (renew_turn_ok (fun _ => True) sid l I Hs) as (c & r & H & _). revert H.
    unfold renew_turn, active. rewrite bool_decide_true by (by rewrite Hl).
    destruct (renew_request _), (acquire_request _); cbn; try done. by eexists.
Qed.

Lemma renew_ok code_body : renew_result (AgentAnswers 200 code_body) = inr ().
Proof. unfold renew_result. by rewrite decide_False by (intros H; by apply H). Qed.

Lemma acquire_ok l lock b : parse_bool lock = Some b ->
  acquire_result (AgentAnswers 200 (Some lock)) l = (inr (), switch_leader b l).
Proof. intros Hb. unfold acquire_result. by rewrite Hb. Qed.

Lemma session_ok session sid ok : parse_session session = Some sid ->
  session_result (SessionAnswer (AgentAnswers 200 (Some session)) ok) = inr (Some sid).
Proof. intros H. unfold session_result. by rewrite decide_True, H by done. Qed.

Lemma switch_enabled l b : consensus_state l = ConsensusState.Enabled ->
  switch_leader b l = {| consensus_state := ConsensusState.Enabled; is_leader := b |}.
Proof. intros Hl. unfold switch_leader. by rewrite Hl, bool_decide_true by done. Qed.

(** A tick answered in full makes the leader flag the lock and keeps the session. *)
Lemma tick_follows_lock sid l lock b :
  consensus_state l = ConsensusState.Enabled -> plain_text sid -> parse_bool lock = Some b ->
  exists reqs,
    consul_run cfg (Holding sid, l)
      [EvTimer true; EvRenew (AgentAnswers 200 None); EvAcquire (AgentAnswers 200 (Some lock))]
    = Some (Holding sid, {| consensus_state := ConsensusState.Enabled; is_leader := b |}, reqs).
Proof.
  intros Hl Hs Hb. destruct (active_turns l sid Hl Hs) as [_ [reqs Hr]].
  cbn [consul_run consul_step]. rewrite Hr. cbn [mbind option_bind consul_step].
  rewrite renew_ok. cbn [mbind option_bind consul_step renewed].
  rewrite (acquire_ok _ _ _ Hb), (switch_enabled _ _ Hl). by eexists.
Qed.

(** C26. No state of the loop is a dead end: from wherever an enabled node waits, at
    most five answers of a healthy agent bring it to a session with the leader flag
    equal to the agent's decision about the lock. *)
Theorem consul_recovers (cs : ConsulState) (l : Leadership) (session sid lock : bytes) (b : bool) :
  consensus_state l = ConsensusState.Enabled ->
  parse_session session = Some sid -> plain_text sid -> sids plain_text cs [] ->
  parse_bool lock = Some b ->
  exists sid' reqs,
    consul_run cfg (cs, l) (recovery cs session lock)
    = Some (Holding sid', {| consensus_state := ConsensusState.Enabled; is_leader := b |}, reqs) /\
    (length (recovery cs session lock) <= 5)%nat.
Proof.
  intros Hl Hsess Hsid [Hh _] Hb. destruct (active_turns l sid Hl Hsid) as [[req Ht] _].
  assert (Hgo : forall evs s l', consensus_state l' = ConsensusState.Enabled -> plain_text s ->
    (exists reqs, consul_run cfg (cs, l) evs = Some (Holding s, l', reqs)) ->
    exists sid' reqs, consul_run cfg (cs, l) (evs ++ [EvTimer true; EvRenew (AgentAnswers 200 None);
      EvAcquire (AgentAnswers 200 (Some lock))]) = Some (Holding sid',
      {| consensus_state := ConsensusState.Enabled; is_leader := b |}, reqs)).
  { intros evs s l' Hl' Hs [reqs Hr]. destruct (tick_follows_lock s l' lock b Hl' Hs Hb) as [r2 H2].
    exists s, (reqs ++ r2). by apply (consul_run_app cfg evs _ _ _ _ _ Hr). }
  assert (Hsw : consensus_state (switch_leader b l) = ConsensusState.Enabled).
  { unfold switch_leader. by case_bool_decide. }
  assert (Hlen : (length (recovery cs session lock) <= 5)%nat)
    by (destruct cs as [| | |? []|]; cbn; lia).
  enough (H : exists sid' reqs, consul_run cfg (cs, l) (recovery cs session lock)
    = Some (Holding sid', {| consensus_state := ConsensusState.Enabled; is_leader := b |}, reqs))
    by (destruct H as (s & r & ->); eauto).
  clear Hlen. unfold recovery. destruct cs as [| |s|s []|];
    [apply (Hgo _ sid l)|apply (Hgo _ sid l)|apply (Hgo _ s l)|apply (Hgo _ s (switch_leader b l))|
     apply (Hgo _ s l)|apply (Hgo _ s (switch_leader b l))|apply (Hgo _ sid l)]; try done.
  all: try by apply Hh.
  all: cbn [consul_run consul_step]; rewrite ?Ht; cbn [mbind option_bind consul_step];
    rewrite ?(session_ok _ _ _ Hsess), ?(proj2 (proj2 Hcfg)), ?renew_ok; cbn [mbind option_bind consul_step renewed];
    rewrite ?(acquire_ok _ _ _ Hb); by eexists.
Qed.
End agent.

(** The TTL sent to the agent: for every lifetime below 2^64 nanoseconds the
    nanoseconds computed from seconds and sub-second part do not overflow, and a
    lifetime configured in milliseconds is sent as a million times that number. *)
Lemma ttl_no_overflow (ms : Z) :
  0 <= ms -> ms * 1000000 < 2 ^ 64 -> ttl_ns (from_millis ms) = ms * 1000000.
Proof.
  intros H0 Hms. unfold ttl_ns, from_millis. cbn [as_secs subsec_nanos].
  pose proof (Z.div_mod ms 1000 ltac:(lia)) as Hd.
  pose proof (Z.mod_pos_bound ms 1000 ltac:(lia)) as Hm.
  rewrite (wrap64_small (ms `div` 1000 * 1000000000)) by lia.
  rewrite wrap64_small by lia. lia.
Qed.
End consul.
