(* ===== verification/Peer.v ===== *)
(** * Peer protocol ([src/src/peer.rs])

    Nodes replicate their metrics: every interval the sender takes a snapshot of
    each worker, and sends the non-empty ones as one capnp message to every other
    node; the receiver hands each message to a worker. *)

From S2P Require Import Prelude Interfaces Globals Config Task TaskFacts Worker Aggregate Util Hostname.

(** ** capnp and the metric schema (code of other crates)

    [CMetric] is one metric of a message: its name and the fields filled by
    [Metric::fill_capnp]. *)
Class CapnpLib {ML : MetricLib} := {
  CMetric : Type;
  CapnpError : Type;
  NotInSchema : Type;
  ECapnp : CapnpError -> MetricError;               (* [MetricError::Capnp] *)
  ECapnpSchema : NotInSchema -> MetricError;        (* [MetricError::CapnpSchema] *)
  empty_metric : CMetric;                           (* an element of a new list *)
  set_name : bytes -> CMetric -> CMetric;
  fill_capnp : Metric -> CMetric -> CMetric;
  from_capnp : CMetric -> MetricError + (bytes * Metric)
}.
#[global] Arguments CapnpLib : clear implicits.

(** Documented: reading gives back what was written.  The name is a capnp [Text],
    which is UTF-8; a reader does not hand out other bytes as a [Text]. *)
Class CapnpOk {ML : MetricLib} (C : CapnpLib ML) : Prop := {
  capnp_round_trip : forall name m, utf8 name = true ->
    from_capnp (fill_capnp m (set_name name empty_metric)) = inr (name, m);
  capnp_refuses : forall name m, utf8 name = false ->
    exists e, from_capnp (fill_capnp m (set_name name empty_metric)) = inl e
}.

#[export] Instance RefCapnpLib : CapnpLib RefMetricLib := {|
  CMetric := option (bytes * option RefMetric);
  CapnpError := unit;
  NotInSchema := unit;
  ECapnp e := e;
  ECapnpSchema e := e;
  empty_metric := None;
  set_name n c := Some (n, match c with Some (_, m) => m | None => None end);
  fill_capnp m c := match c with Some (n, _) => Some (n, Some m) | None => Some ([], Some m) end;
  from_capnp c := match c with
                  | Some (n, Some m) => if utf8 n then inr (n, m) else inl tt
                  | _ => inl tt end
|}.
#[export] Instance RefCapnpOk : CapnpOk RefCapnpLib.
Proof. split; intros name m Hu; cbn; rewrite Hu; [done|by eexists]. Qed.

Section peer.
Context {BL : BytesLib} {ML : MetricLib} {PL : ParserLib BL ML}.
Context {XL : ExecutorLib} {HI : HashIter} {CL : CapnpLib ML}.

Inductive PeerError :=
| PIo | PTimer | PTaskSend | PBadMessage | PBadCommand | PResponse
| PCapnp (e : CapnpError) | PCapnpSchema (e : NotInSchema) | PMetricError (e : MetricError).

(** ** Receiving *)

(** [reader.which()]: the message, each variant with the result of following its
    pointer. *)
Inductive Which :=
| Single (r : CapnpError + CMetric)
| Multi (r : CapnpError + list CMetric)
| Snapshot (r : CapnpError + list CMetric).

(** A root reader: which variant, unless the schema does not know it. *)
Definition Reader : Type := NotInSchema + Which.

(** An item of the [ReadStream]: reading it may fail, and so may [get_root]. *)
Inductive StreamItem :=
| ReadErr (e : CapnpError)
| RootErr (e : CapnpError)
| Root (r : Reader).

(** The loop over a list of metrics: those that do not decode are skipped. *)
Definition decode_list (l : list CMetric) : list (bytes * Metric) :=
  omap (fun c => match from_capnp c with inr nm => Some nm | inl _ => None end) l.

(** [next_chan.send(task)], spawned: a send to a gone worker is only logged. *)
Definition send_task (ch : Chan) (t : Task) : list NodeEffect :=
  if ch_open ch then [SendTask (ch_id ch) t] else [].

Definition parse_and_send (reader : Reader) (next_chan : Chan)
  : MetricError + list NodeEffect :=
  match reader with
  | inl e => inl (ECapnpSchema e)
  | inr (Single (inl e)) | inr (Multi (inl e)) | inr (Snapshot (inl e)) => inl (ECapnp e)
  | inr (Single (inr r)) =>
      match from_capnp r with
      | inl e => inl e
      | inr (name, metric) => inr (send_task next_chan (AddMetric name metric))
      end
  | inr (Multi (inr l)) => inr (send_task next_chan (AddMetrics (decode_list l)))
  | inr (Snapshot (inr l)) => inr (send_task next_chan (AddSnapshot (decode_list l)))
  end.

Record NativeProtocolServer := mkNativeProtocolServer {
  nps_listen : SocketAddr;
  nps_chans : list Chan
}.

Definition NativeProtocolServer_new (listen : SocketAddr) (chans : list Chan)
  : NativeProtocolServer := {| nps_listen := listen; nps_chans := chans |}.

(** [chans.into_iter().cycle()]: its [n]-th element; nothing when it is empty. *)
Definition cycle_next (chans : list Chan) (n : nat) : option Chan :=
  chans !! (n mod length chans)%nat.

(** One accepted connection, from the [n]-th element of the cycle on: the items
    read from it up to the first error, which ends the connection. *)
Fixpoint connection (chans : list Chan) (n : nat) (items : list StreamItem)
  : option (option PeerError * list NodeEffect) :=
  match items with
  | [] => Some (None, [])
  | ReadErr e :: _ | RootErr e :: _ => Some (Some (PCapnp e), [])
  | Root reader :: items =>
      next_chan ← cycle_next chans n;
      match parse_and_send reader next_chan with
      | inl e => Some (Some (PMetricError e), [])
      | inr e1 =>
          '(res, e2) ← connection chans (S n) items;
          Some (res, e1 ++ e2)
      end
  end.

(** What the listener does with its connections; an I/O error of [accept] ends
    it. The connections run concurrently: here one after the other. *)
Inductive Incoming := Conn (items : list StreamItem) | AcceptErr.

Fixpoint NativeProtocolServer_run (s : NativeProtocolServer) (listening : bool)
    (conns : list Incoming) : option (option PeerError * list NodeEffect) :=
  if negb listening then Some (Some PIo, []) else
  match conns with
  | [] => Some (None, [])
  | AcceptErr :: _ => Some (Some PIo, [])
  | Conn items :: conns =>
      '(_, e1) ← connection (nps_chans s) 0 items;
      '(res, e2) ← NativeProtocolServer_run s listening conns;
      Some (res, e1 ++ e2)
  end.

(** ** Sending *)
Record SnapshotClientOptions := mkSnapshotClientOptions {
  sc_address : SocketAddr;
  sc_bind : option SocketAddr
}.

Record SnapshotSender := mkSnapshotSender {
  ss_metrics : list Cache;
  ss_options : SnapshotClientOptions
}.

(** [multi_metric.reborrow().get(idx)] then writing to it: panics out of range.
    [from_utf8_unchecked] passes the bytes of the name on, whatever they are. *)
Definition set_metric (l : list CMetric) (idx : Z) (nm : bytes * Metric)
  : option (list CMetric) :=
  c_metric ← index l idx;
  let '(name, metric) := nm in
  Some (<[Z.to_nat idx := fill_capnp metric (set_name name c_metric)]> l).

(** The enumerated loop over the entries; [idx as u32] truncates. *)
Fixpoint fill_snapshot (l : list CMetric) (idx : Z) (entries : list (bytes * Metric))
  : option (list CMetric) :=
  match entries with
  | [] => Some l
  | nm :: entries => l ← set_metric l (wrap32 idx) nm; fill_snapshot l (idx + 1) entries
  end.

(** The message of the caches; the list has [flat_len as u32] elements. *)
Definition snapshot_message (metrics : list Cache) : option Which :=
  let flat := concat (map hiter metrics) in
  let flat_len := blen flat in
  l ← fill_snapshot (repeat empty_metric (Z.to_nat (wrap32 flat_len))) 0 flat;
  Some (Snapshot (inr l)).

(** Whether binding, connecting and sending succeed. *)
Record PeerNet := mkPeerNet { pn_bind : bool; pn_connect : bool; pn_send : option CapnpError }.

(** One attempt to send: the error or the message sent, and the effects. *)
Definition SnapshotSender_send (s : SnapshotSender) (net : PeerNet)
  : option ((PeerError + Which) * list Effect) :=
  let failed e := Some (inl e, [Count PEER_ERRORS 1]) in
  if match sc_bind (ss_options s) with Some _ => negb (pn_bind net) | None => false end
  then failed PIo
  else if negb (pn_connect net) then failed PIo
  else
    msg ← snapshot_message (ss_metrics s);
    match pn_send net with
    | Some e => failed (PCapnp e)
    | None => Some (inr msg, [])
    end.

Record NativeProtocolSnapshot := mkNativeProtocolSnapshot {
  sn_nodes : list SocketAddr;
  sn_client_bind : option SocketAddr;
  sn_interval : Duration;
  sn_chans : list Chan
}.

(** [NativeProtocolSnapshot::new]: the nodes are resolved, or it panics. *)
Definition NativeProtocolSnapshot_new (resolve : bytes -> option SocketAddr) (nodes : list string)
    (client_bind : option SocketAddr) (interval : Duration) (chans : list Chan)
  : option NativeProtocolSnapshot :=
  nodes ← mapM (fun node => resolve (bs node)) nodes;
  Some {| sn_nodes := nodes; sn_client_bind := client_bind; sn_interval := interval;
          sn_chans := chans |}.

(** The [Task::TakeSnapshot] requests of a tick, each with its reply channel. *)
Definition snapshot_requests (chans : list Chan) : list (Chan * Task) :=
  imap (fun i ch => (ch, TakeSnapshot {| ch_id := i; ch_open := true |})) chans.

(** [join_all]: all replies, or the failure of one. *)
Fixpoint join_all {A} (l : list (option A)) : option (list A) :=
  match l with
  | [] => Some []
  | None :: _ => None
  | Some a :: l => l ← join_all l; Some (a :: l)
  end.

Definition peer_client_ret : BackoffRetryBuilder :=
  {| br_delay := 500; br_delay_mul := u64_to_f32 2; br_delay_max := 5000; br_retries := 3 |}.

(** A tick with the workers' replies: the senders spawned, one per node, or the
    error that ends the timer for good. *)
Definition snapshot_tick (s : NativeProtocolSnapshot) (replies : list (option Cache))
  : (PeerError + list SnapshotSender) * list Effect :=
  match join_all replies with
  | None => (inl PTaskSend, [Count PEER_ERRORS 1])
  | Some metrics =>
      let metrics := List.filter (fun m => 0 <? Z.of_nat (size m)) metrics in
      (inr (map (fun address => {| ss_metrics := metrics;
                                   ss_options := {| sc_address := address;
                                                    sc_bind := sn_client_bind s |} |})
                (sn_nodes s)), [])
  end.

(** What the interval yields: an error of the timer, or a tick with the replies the
    workers will give to it. *)
Inductive SnapshotTick := TimerError | Ticked (replies : list (option Cache)).

(** The timer: it ends at its first error or at the first tick that fails, and [main]
    counts that error once more. *)
Fixpoint snapshot_run (s : NativeProtocolSnapshot) (ticks : list SnapshotTick)
  : list SnapshotSender * list Effect :=
  match ticks with
  | [] => ([], [])
  | TimerError :: _ => ([], [Count PEER_ERRORS 1])
  | Ticked replies :: ticks =>
      match snapshot_tick s replies with
      | (inl _, es) => ([], es ++ [Count PEER_ERRORS 1])
      | (inr senders, es) =>
          let '(senders', es') := snapshot_run s ticks in (senders ++ senders', es ++ es')
      end
  end.

(** What the workers of a node answer to a tick: a worker that is not running
    answers nothing. *)
Definition worker_reply (w : option TaskRunner) : option Cache :=
  r ← w;
  '(_, es) ← run r (TakeSnapshot {| ch_id := 0; ch_open := true |});
  '(_, c) ← head (caches_sent es);
  Some c.

(** ** The message *)
Definition entry_capnp (nm : bytes * Metric) : CMetric :=
  fill_capnp (snd nm) (set_name (fst nm) empty_metric).

Lemma set_metric_fresh done n nm :
  set_metric (done ++ repeat empty_metric (S n)) (blen done) nm
  = Some ((done ++ [entry_capnp nm]) ++ repeat empty_metric n).
Proof.
  unfold set_metric, index, blen. rewrite decide_True by lia. rewrite Nat2Z.id.
  rewrite lookup_app_r by lia. rewrite Nat.sub_diag. cbn [repeat lookup list_lookup].
  cbn [mbind option_bind]. destruct nm as [name m].
  rewrite insert_app_r_alt by lia. rewrite Nat.sub_diag. by rewrite <-app_assoc.
Qed.

(** Filling a list that has room writes the entries in order. *)
Lemma fill_snapshot_fits entries done n :
  (length entries <= n)%nat -> blen done + blen entries <= 2 ^ 32 ->
  fill_snapshot (done ++ repeat empty_metric n) (blen done) entries
  = Some (done ++ map entry_capnp entries ++ repeat empty_metric (n - length entries)).
Proof.
  revert done n. induction entries as [|nm entries IH]; intros done n Hn Hb.
  { simpl. by rewrite Nat.sub_0_r. }
  destruct n as [|n]; [simpl in Hn; lia|]. cbn [fill_snapshot].
  unfold wrap32. rewrite Z.mod_small by blia. rewrite set_metric_fresh.
  cbn [mbind option_bind].
  replace (blen done + 1) with (blen (done ++ [entry_capnp nm])) by blia.
  rewrite IH; [|simpl in Hn; lia|blia]. cbn [map length Nat.sub]. by rewrite <-!app_assoc.
Qed.

(** Filling a list that is too short panics. *)
Lemma fill_snapshot_short entries done n :
  (n < length entries)%nat -> blen done + Z.of_nat n < 2 ^ 32 ->
  fill_snapshot (done ++ repeat empty_metric n) (blen done) entries = panic.
Proof.
  revert done n. induction entries as [|nm entries IH]; intros done n Hn Hb;
    [simpl in Hn; lia|]. cbn [fill_snapshot].
  unfold wrap32. rewrite Z.mod_small by blia. destruct n as [|n].
  - cbn [repeat]. rewrite app_nil_r. unfold set_metric, index, blen.
    rewrite decide_True by lia. rewrite lookup_ge_None_2 by lia. done.
  - rewrite set_metric_fresh. cbn [mbind option_bind].
    replace (blen done + 1) with (blen (done ++ [entry_capnp nm])) by blia.
    apply IH; [simpl in Hn; lia|blia].
Qed.

(** The message, and when it cannot be built. *)
Lemma snapshot_message_spec (metrics : list Cache) :
  snapshot_message metrics =
  if decide (blen (concat (map hiter metrics)) < 2 ^ 32)
  then Some (Snapshot (inr (map entry_capnp (concat (map hiter metrics)))))
  else panic.
Proof.
  unfold snapshot_message. generalize (concat (map hiter metrics)) as flat. intros flat.
  case_decide as Hb.
  - unfold wrap32. rewrite Z.mod_small by (pose proof (blen_nonneg flat); lia).
    unfold blen at 1. rewrite Nat2Z.id.
    pose proof (fill_snapshot_fits flat [] (length flat)) as H. cbn [app] in H.
    change (blen []) with 0 in H. rewrite H by blia.
    by rewrite Nat.sub_diag, app_nil_r.
  - pose proof (Z.mod_pos_bound (blen flat) (2 ^ 32)) as Hm.
    pose proof (fill_snapshot_short flat [] (Z.to_nat (wrap32 (blen flat)))) as H.
    cbn [app] in H. change (blen []) with 0 in H. rewrite H; [done|..].
    + unfold wrap32, blen in *. lia.
    + unfold wrap32. lia.
Qed.

(** ** Replication between nodes *)

(** The entries whose name is UTF-8, and the others: those do not survive the way to
    another node. *)
Definition readable (l : list (bytes * Metric)) : list (bytes * Metric) :=
  List.filter (fun nm => utf8 (fst nm)) l.
Definition unreadable (l : list (bytes * Metric)) : list (bytes * Metric) :=
  List.filter (fun nm => negb (utf8 (fst nm))) l.
Definition readable_part (c : Cache) : Cache := filter (fun nm => utf8 (fst nm) = true) c.

Section replication.
Context {HIOK : HashIterOk HI} {COK : CapnpOk CL}.

(** The receiver keeps the entries whose name is UTF-8, in order. *)
Lemma decode_entries l : decode_list (map entry_capnp l) = readable l.
Proof.
  unfold decode_list, readable. induction l as [|[n m] l IH]; [done|]. cbn [map omap list_omap].
  unfold entry_capnp at 1. cbn [List.filter fst snd]. destruct (utf8 n) eqn:Hu.
  - rewrite (capnp_round_trip n m Hu). by f_equal.
  - by destruct (capnp_refuses n m Hu) as [e ->].
Qed.

Lemma readable_app l l' : readable (l ++ l') = readable l ++ readable l'.
Proof. apply List.filter_app. Qed.

Lemma readable_NoDup l : NoDup l.*1 -> NoDup (readable l).*1.
Proof.
  unfold readable. induction l as [|[n m] l IH]; [done|]. cbn [List.filter fst fmap list_fmap].
  intros [Hn Hl]%list.NoDup_cons. destruct (utf8 n); [|by apply IH].
  cbn [fmap list_fmap fst]. apply list.NoDup_cons. split; [|by apply IH].
  intros ([n' m'] & Heq & Hin)%list_elem_of_fmap. cbn in Heq. subst n'. apply Hn.
  apply list_elem_of_In, filter_In in Hin as [Hin _].
  apply list_elem_of_fmap. exists (n, m'). split; [done|]. by apply list_elem_of_In.
Qed.

Lemma readable_to_map (m : Cache) : list_to_map (readable (hiter m)) = readable_part m.
Proof.
  pose proof (readable_NoDup _ (hiter_NoDup m)) as Hnd.
  apply map_eq. intros j. apply option_eq. intros x.
  rewrite <-elem_of_list_to_map by done. unfold readable_part, readable.
  rewrite map_lookup_filter_Some, list_elem_of_In, filter_In, <-list_elem_of_In.
  rewrite (hiter_perm _ _ _ _ m), elem_of_map_to_list. done.
Qed.

Lemma drain_caches (c : Cache) (caches : list Cache) :
  fst (foldE update_metric c (readable (concat (map hiter caches)))) =
  foldl merge_cache c (map readable_part caches).
Proof.
  revert c. induction caches as [|m ms IH]; intros c; [done|]. cbn [map concat].
  rewrite readable_app, foldE_app.
  pose proof (drain_list c _ (readable_NoDup _ (hiter_NoDup m))) as Hm. rewrite readable_to_map in Hm.
  destruct (foldE update_metric c (readable (hiter m))) as [c1 e1]. specialize (IH c1).
  destruct (foldE update_metric c1 _) as [c2 e2]. cbn [fst foldl] in *. by subst.
Qed.

Lemma merge_cache_empty (c : Cache) : merge_cache c ∅ = c.
Proof.
  apply map_eq. intros j. unfold merge_cache. rewrite lookup_merge, lookup_empty.
  by destruct (c !! j).
Qed.

Lemma merge_retained (c : Cache) (caches : list Cache) :
  foldl merge_cache c (List.filter (fun m => 0 <? Z.of_nat (size m)) caches)
  = foldl merge_cache c caches.
Proof.
  revert c. induction caches as [|m ms IH]; intros c; [done|]. cbn [List.filter].
  destruct (0 <? Z.of_nat (size m)) eqn:Hs; [apply IH|]. rewrite IH. simpl.
  assert (m = ∅) as -> by (apply map_size_empty_iff; lia). by rewrite merge_cache_empty.
Qed.

Lemma retained_entries (caches : list Cache) :
  concat (map hiter (List.filter (fun m => 0 <? Z.of_nat (size m)) caches))
  = concat (map hiter caches).
Proof.
  induction caches as [|m ms IH]; [done|]. cbn [List.filter map concat].
  destruct (0 <? Z.of_nat (size m)) eqn:Hs; cbn [map concat]; [by rewrite IH|].
  assert (m = ∅) as -> by (apply map_size_empty_iff; lia). by rewrite IH, hiter_empty.
Qed.

Lemma worker_reply_short (r : TaskRunner) : worker_reply (Some r) = Some (short r).
Proof.
  unfold worker_reply. cbn [mbind option_bind run].
  pose proof (foldE_update_no_caches (long r) (hiter (short r))) as Hn.
  destruct (foldE _ _ _) as [l es]. cbn [mbind option_bind ch_open].
  rewrite caches_sent_app. simpl in Hn. by rewrite Hn.
Qed.

Lemma join_all_some {A} (l : list A) : join_all (map Some l) = Some l.
Proof. induction l as [|a l IH]; [done|]. simpl. by rewrite IH. Qed.

Lemma join_all_lost {A} (before : list A) after :
  join_all (map Some before ++ None :: after) = None.
Proof. induction before as [|a l IH]; [done|]. simpl. by rewrite IH. Qed.

Lemma replies_short (workers : list TaskRunner) :
  map (fun w => worker_reply (Some w)) workers = map Some (map short workers).
Proof.
  rewrite List.map_map. apply map_ext, worker_reply_short.
Qed.

(** What a sender sends on a connection that works. *)
Definition peer_net_ok : PeerNet :=
  {| pn_bind := true; pn_connect := true; pn_send := None |}.

Lemma sender_sends (sender : SnapshotSender) :
  SnapshotSender_send sender peer_net_ok =
  if decide (blen (concat (map hiter (ss_metrics sender))) < 2 ^ 32)
  then Some (inr (Snapshot (inr (map entry_capnp (concat (map hiter (ss_metrics sender)))))), [])
  else panic.
Proof.
  unfold SnapshotSender_send, peer_net_ok. cbn [pn_bind pn_connect pn_send negb].
  rewrite snapshot_message_spec. by destruct (sc_bind _); case_decide.
Qed.

(** What a receiver makes of it. *)
Lemma receive_snapshot c0 chans l :
  connection (c0 :: chans) 0 [Root (inr (Snapshot (inr (map entry_capnp l))))]
  = Some (None, send_task c0 (AddSnapshot (readable l))).
Proof.
  cbn [connection]. unfold cycle_next. rewrite Nat.Div0.mod_0_l.
  cbn [lookup list_lookup mbind option_bind parse_and_send].
  by rewrite decode_entries, app_nil_r.
Qed.

(** C11. Replication end to end: when all workers of a node answer a snapshot tick
    and a connection succeeds, the other node's first worker receives one
    [AddSnapshot] task, and running it in any state merges exactly the metrics with
    UTF-8 names of the short caches of all workers of the sender, key by key and in
    order, into the receiver's long cache, and leaves its short cache (what it will
    itself replicate) untouched.  Metrics with other names are skipped without a
    trace: the sender writes them into a [Text] unchecked and the receiver cannot
    decode them. *)
Theorem snapshot_replicated (s : NativeProtocolSnapshot) (workers : list TaskRunner)
    (senders : list SnapshotSender) (es : list Effect) (sender : SnapshotSender)
    (c0 : Chan) (chans : list Chan) (r : TaskRunner) :
  snapshot_tick s (map (fun w => worker_reply (Some w)) workers) = (inr senders, es) ->
  sender ∈ senders ->
  blen (concat (map hiter (map short workers))) < 2 ^ 32 ->
  ch_open c0 = true ->
  exists msg l r' es',
    SnapshotSender_send sender {| pn_bind := true; pn_connect := true; pn_send := None |}
      = Some (inr msg, []) /\
    connection (c0 :: chans) 0 [Root (inr msg)]
      = Some (None, [SendTask (ch_id c0) (AddSnapshot l)]) /\
    run r (AddSnapshot l) = Some (r', es') /\
    long r' = foldl merge_cache (long r) (map readable_part (map short workers)) /\
    short r' = short r.
Proof.
  rewrite replies_short. unfold snapshot_tick. rewrite join_all_some.
  intros [= <- <-] (address & -> & _)%list_elem_of_fmap Hb Ho.
  pose proof (drain_caches (long r) (map short workers)) as Hd.
  fold peer_net_ok. rewrite sender_sends. cbn [ss_metrics].
  rewrite retained_entries, decide_True by done.
  eexists. exists (readable (concat (map hiter (map short workers)))). cbn [run].
  destruct (foldE update_metric _ _) as [l' e'] eqn:Hf. do 2 eexists. split; [done|].
  split; [|by rewrite <-Hd]. rewrite receive_snapshot. unfold send_task. by rewrite Ho.
Qed.

(** C33. One lost reply (a worker gone) ends replication for good: whatever the
    later ticks bring, only the ticks before it lead to messages, and the loss is
    counted twice in the peer errors.  An error of the timer ends it as well, and is
    counted once. *)
Theorem lost_reply_ends_replication (s : NativeProtocolSnapshot)
    (before : list (list Cache)) (got : list Cache) (rest : list (option Cache))
    (later : list SnapshotTick) :
  let ticks := map (fun caches => Ticked (map Some caches)) before in
  snapshot_run s (ticks ++ Ticked (map Some got ++ None :: rest) :: later)
  = (fst (snapshot_run s ticks), [Count PEER_ERRORS 1; Count PEER_ERRORS 1]) /\
  snapshot_run s (ticks ++ TimerError :: later)
  = (fst (snapshot_run s ticks), [Count PEER_ERRORS 1]) /\
  length (fst (snapshot_run s ticks)) = (length before * length (sn_nodes s))%nat.
Proof.
  intros ticks. subst ticks. induction before as [|t ts (IH1 & IH2 & IH3)].
  { split; [|done]. cbn [map app snapshot_run]. unfold snapshot_tick.
    by rewrite join_all_lost. }
  cbn [map app snapshot_run]. unfold snapshot_tick. rewrite join_all_some.
  cbn [map app] in IH1, IH2. rewrite IH1, IH2.
  destruct (snapshot_run s (map _ ts)) as [ss e]. cbn [fst] in *.
  split; [done|]. split; [done|]. rewrite length_app, length_map, IH3. simpl. lia.
Qed.
End replication.

(** ** Connections *)
Section connections.

(** The tasks of a message, when it decodes. *)
Definition message_task (reader : Reader) : option Task :=
  match reader with
  | inr (Single (inr c)) => match from_capnp c with
                            | inr (n, m) => Some (AddMetric n m) | inl _ => None end
  | inr (Multi (inr l)) => Some (AddMetrics (decode_list l))
  | inr (Snapshot (inr l)) => Some (AddSnapshot (decode_list l))
  | _ => None
  end.

Lemma parse_and_send_ok reader ch :
  ch_open ch = true ->
  match message_task reader with
  | Some t => parse_and_send reader ch = inr [SendTask (ch_id ch) t]
  | None => exists e, parse_and_send reader ch = inl e
  end.
Proof.
  intros Ho. destruct reader as [e|[[e|c]|[e|l]|[e|l]]]; cbn; unfold send_task; rewrite ?Ho;
    eauto. destruct (from_capnp c) as [e|[n m]]; rewrite ?Ho; eauto.
Qed.

(** The task an item of the stream leads to. *)
Definition item_task (it : StreamItem) : option Task :=
  match it with Root r => message_task r | _ => None end.

(** A connection spreads its messages over the workers round robin, starting
    with the first worker, each message as one task, until the first item that
    cannot be read or decoded, which ends it: the messages after it are not
    processed, those before it are. *)
Theorem connection_round_robin (chans : list Chan) (tasks : list Task)
    (good : list Reader) (rest : list StreamItem) :
  chans <> [] -> Forall (fun ch => ch_open ch = true) chans ->
  map message_task good = map Some tasks ->
  match head rest with Some it => item_task it = None | None => True end ->
  exists res es,
    connection chans 0 (map Root good ++ rest) = Some (res, es) /\
    tasks_sent es = imap (fun i t => (default 0%nat (ch_id <$> chans !! (i mod length chans)%nat), t))
                         tasks /\
    plain es = [] /\ (res = None <-> rest = []).
Proof.
  intros Hne Hop Hg Hrest.
  assert (Hch : forall n, exists ch, cycle_next chans n = Some ch /\ ch_open ch = true).
  { intros n. unfold cycle_next. destruct (lookup_lt_is_Some_2 chans (n mod length chans))
      as [ch Hch]; [apply Nat.mod_upper_bound; by destruct chans|].
    exists ch. split; [done|]. rewrite list.Forall_forall in Hop.
    by apply Hop; eapply list_elem_of_lookup_2. }
  cut (forall n, exists res es,
    connection chans n (map Root good ++ rest) = Some (res, es) /\
    tasks_sent es = imap (fun i t =>
      (default 0%nat (ch_id <$> chans !! ((n + i) mod length chans)%nat), t)) tasks /\
    plain es = [] /\ (res = None <-> rest = [])).
  { intros H. destruct (H 0%nat) as (res & es & H'). by exists res, es. }
  clear Hne Hop. revert tasks Hg. induction good as [|g good IH]; intros [|t tasks] Hg n; try done.
  - destruct rest as [|it rest]; [by do 2 eexists|]. cbn [map app connection].
    destruct it as [e|e|reader]; try (by do 2 eexists). simpl in Hrest.
    destruct (Hch n) as (ch & Hc & Ho). pose proof (parse_and_send_ok reader ch Ho) as Hp.
    rewrite Hrest in Hp. destruct Hp as [e He]. rewrite Hc. cbn [mbind option_bind].
    rewrite He. by do 2 eexists.
  - cbn [map] in Hg. injection Hg as Ht Hg. destruct (Hch n) as (ch & Hc & Ho).
    pose proof (parse_and_send_ok g ch Ho) as Hp. rewrite Ht in Hp.
    cbn [map app connection]. rewrite Hc. cbn [mbind option_bind]. rewrite Hp.
    destruct (IH tasks Hg (S n)) as (res & es & -> & Hts & Hpl & Hr). cbn [mbind option_bind].
    do 2 eexists. split; [done|]. split; [|done]. cbn [app]. rewrite imap_cons.
    unfold cycle_next in Hc. rewrite Nat.add_0_r, Hc. cbn. f_equal. unfold tasks_sent in Hts.
    rewrite Hts. apply imap_ext. intros i x _. simpl. by rewrite Nat.add_succ_r.
Qed.

(** Since every connection starts its own cycle and a sender uses a new
    connection per snapshot, all snapshots of all peers are given to the first
    worker: no other worker ever gets a task from connections of one message. *)
Lemma snapshots_all_to_first_worker (s : NativeProtocolServer) (c0 : Chan)
    (chans : list Chan) (conns : list StreamItem) :
  nps_chans s = c0 :: chans ->
  exists res es,
    NativeProtocolServer_run s true (map (fun it => Conn [it]) conns) = Some (res, es) /\
    Forall (fun ct => fst ct = ch_id c0) (tasks_sent es).
Proof.
  intros Hs. induction conns as [|it conns (res & es & IH & Hes)]; [by do 2 eexists|].
  cbn [map NativeProtocolServer_run negb].
  assert (H1 : exists r1 e1, connection (nps_chans s) 0 [it] = Some (r1, e1) /\
  Forall (fun ct => fst ct = ch_id c0) (tasks_sent e1)).
  { rewrite Hs. destruct it as [e|e|reader]; try (by do 2 eexists). cbn [connection].
    unfold cycle_next. rewrite Nat.Div0.mod_0_l. cbn [lookup list_lookup mbind option_bind].
    destruct (parse_and_send reader c0) as [e|e1] eqn:Hp; [by do 2 eexists|].
    do 2 eexists. split; [done|]. rewrite app_nil_r.
    destruct reader as [e|[[e|c]|[e|l]|[e|l]]]; simpl in Hp; unfold send_task in Hp;
      repeat case_match; simplify_eq; repeat constructor. }
  destruct H1 as (r1 & e1 & -> & H1). cbn [mbind option_bind]. rewrite IH.
  do 2 eexists. split; [done|]. rewrite tasks_sent_app. by apply Forall_app_2.
Qed.
End connections.
End peer.
