(* ===== verification/Cluster.v ===== *)
(** * A cluster of nodes (composition of [task.rs], [peer.rs] and the rotation of
    [aggregate.rs])

    Several nodes that list each other as peers, each with its counting threads.
    Metrics come in at any worker, snapshot ticks replicate them, and carbon ticks
    take them out.  The file composes the operations of the components the way the
    running processes do, with a ledger of what came in, what was taken out, what the
    network lost and what a receiver could not decode, and shows that the ledger
    balances on every node. *)

From S2P Require Import Prelude Interfaces Globals Config Task TaskFacts Worker Aggregate.
From S2P Require Import Util Hostname Peer.

Section cluster.
Context {BL : BytesLib} {ML : MetricLib} {PL : ParserLib BL ML}.
Context {XL : ExecutorLib} {HI : HashIter} {CL : CapnpLib ML}.

(** ** State *)

(** A node: its counting threads, and the ledger of the metrics that entered it,
    the caches rotations took out, the caches of peers that never arrived, and the
    metrics of peers that arrived under a name that is not UTF-8. *)
Record Node := mkNode {
  nd_workers : list TaskRunner;
  nd_ingested : list (bytes * Metric);
  nd_rotated : list Cache;
  nd_missed : list Cache;
  nd_skipped : list (bytes * Metric)
}.

Abbreviation Cluster := (list Node).

(** A node as it starts. *)
Definition node_start (workers : nat) (cf : System) : Node :=
  {| nd_workers := repeat (TaskRunner_new cf) workers; nd_ingested := []; nd_rotated := [];
     nd_missed := []; nd_skipped := [] |}.

Definition with_workers (nd : Node) (ws : list TaskRunner) : Node :=
  {| nd_workers := ws; nd_ingested := nd_ingested nd; nd_rotated := nd_rotated nd;
     nd_missed := nd_missed nd; nd_skipped := nd_skipped nd |}.

Definition with_skipped (nd : Node) (l : list (bytes * Metric)) : Node :=
  {| nd_workers := nd_workers nd; nd_ingested := nd_ingested nd; nd_rotated := nd_rotated nd;
     nd_missed := nd_missed nd; nd_skipped := nd_skipped nd ++ l |}.

(** The channels of the counting threads of a node. *)
Definition node_chans (nd : Node) : list Chan :=
  imap (fun i _ => {| ch_id := i; ch_open := true |}) (nd_workers nd).

(** ** Steps *)

(** The tasks by which metrics enter a node. *)
Definition is_ingest (t : Task) : bool :=
  match t with Parse _ _ | AddMetric _ _ | AddMetrics _ => true | _ => false end.

(** The reply channel of a request. *)
Definition answered : Chan := {| ch_id := 0; ch_open := true |}.

(** All workers run one request, and reply. *)
Definition request_workers (t : Task) (ws : list TaskRunner)
  : option (list TaskRunner * list (option Cache) * list Effect) :=
  rs ← mapM (fun r => run r t) ws;
  Some (map fst rs, map (fun re => snd <$> head (caches_sent (snd re))) rs,
        concat (map snd rs)).

(** The workers of a node run the tasks sent to them. *)
Definition run_task (ws : list TaskRunner) (ct : nat * Task)
  : option (list TaskRunner * list Effect) :=
  let '(ch, t) := ct in
  r ← ws !! ch;
  '(r, es) ← run r t;
  Some (<[ch := r]> ws, es).

(** The entries of a snapshot. *)
Definition sender_entries (sender : SnapshotSender) : list (bytes * Metric) :=
  concat (map hiter (ss_metrics sender)).

(** A sender reaches its node: message, connection, tasks. *)
Definition deliver (sender : SnapshotSender) (nd : Node) : option (Node * list Effect) :=
  '(res, e1) ← SnapshotSender_send sender peer_net_ok;
  match res with
  | inl _ => None
  | inr msg =>
      '(_, nes) ← connection (node_chans nd) 0 [Root (inr msg)];
      '(ws, e2) ← foldEP run_task (nd_workers nd) (tasks_sent nes);
      Some (with_skipped (with_workers nd ws) (unreadable (sender_entries sender)),
            e1 ++ plain nes ++ e2)
  end.

(** One of the spawned senders: it delivers, or gives up after its retries. *)
Definition send_to (lost : list nat) (nodes : Cluster) (js : nat * SnapshotSender)
  : option (Cluster * list Effect) :=
  let '(j, sender) := js in
  nd ← nodes !! j;
  if decide (j ∈ lost) then
    Some (<[j := {| nd_workers := nd_workers nd; nd_ingested := nd_ingested nd;
                    nd_rotated := nd_rotated nd;
                    nd_missed := nd_missed nd ++ ss_metrics sender;
                    nd_skipped := nd_skipped nd |}]> nodes, [])
  else
    '(nd, es) ← deliver sender nd;
    Some (<[j := nd]> nodes, es).

Inductive ClusterEvent :=
| Ingest (i w : nat) (t : Task)                  (* a worker gets a buffer or metrics *)
| SnapshotTick (i : nat) (lost : list nat)       (* the peers [lost] are not reached *)
| CarbonTick (i : nat).

(** The peers of a node, and the address it knows them by. *)
Definition peers (n i : nat) : list nat := List.filter (fun j => negb (bool_decide (j = i))) (seq 0 n).
Definition peer_addr (j : nat) : SocketAddr := V4 10 0 0 (Z.of_nat j) 8136.

Definition node_snapshot (n i : nat) (nd : Node) : NativeProtocolSnapshot :=
  {| sn_nodes := map peer_addr (peers n i); sn_client_bind := None;
     sn_interval := from_millis 1000; sn_chans := node_chans nd |}.

Definition cluster_step (nodes : Cluster) (ev : ClusterEvent)
  : option (Cluster * list Effect) :=
  match ev with
  | Ingest i w t =>
      if is_ingest t then
        nd ← nodes !! i;
        r ← nd_workers nd !! w;
        '(r', es) ← run r t;
        Some (<[i := {| nd_workers := <[w := r']> (nd_workers nd);
                        nd_ingested := nd_ingested nd ++ ingested_of r t;
                        nd_rotated := nd_rotated nd; nd_missed := nd_missed nd;
                        nd_skipped := nd_skipped nd |}]> nodes, es)
      else None
  | SnapshotTick i lost =>
      nd ← nodes !! i;
      '(ws, replies, e1) ← request_workers (TakeSnapshot answered) (nd_workers nd);
      match snapshot_tick (node_snapshot (length nodes) i nd) replies with
      | (inl _, _) => None
      | (inr senders, e2) =>
          '(nodes, e3) ← foldEP (send_to lost) (<[i := with_workers nd ws]> nodes)
                           (zip (peers (length nodes) i) senders);
          Some (nodes, e1 ++ e2 ++ e3)
      end
  | CarbonTick i =>
      nd ← nodes !! i;
      '(ws, replies, es) ← request_workers (Rotate answered) (nd_workers nd);
      Some (<[i := {| nd_workers := ws; nd_ingested := nd_ingested nd;
                      nd_rotated := nd_rotated nd ++ omap id replies;
                      nd_missed := nd_missed nd; nd_skipped := nd_skipped nd |}]> nodes, es)
  end.

Definition cluster_run (nodes : Cluster) (evs : list ClusterEvent)
  : option (Cluster * list Effect) := foldEP cluster_step nodes evs.

(** ** The ledger *)
Section ledger.
Context {HIOK : HashIterOk HI} {COK : CapnpOk CL} (w : Metric -> Z) {WA : Additive w}.

(** What a node has not replicated yet. *)
Definition shorts (nd : Node) : list Cache := map short (nd_workers nd).
Definition pending (nd : Node) : Z := sumZ (fun r => cache_weight w (short r)) (nd_workers nd).

(** What a node has on its way to the backend, has taken out, or has missed or
    skipped. *)
Definition settled (nd : Node) : Z :=
  sumZ (fun r => cache_weight w (long r)) (nd_workers nd) +
  caches_weight w (nd_rotated nd) + caches_weight w (nd_missed nd) +
  list_weight w (nd_skipped nd).

Definition entered (nd : Node) : Z := list_weight w (nd_ingested nd).

(** On every node, what it settled and what the cluster has still to replicate is
    everything that entered the cluster. *)
Definition balanced (nodes : Cluster) : Prop :=
  forall j nd, nodes !! j = Some nd ->
    settled nd + sumZ pending nodes = sumZ entered nodes.

Lemma pending_shorts nd : pending nd = caches_weight w (shorts nd).
Proof.
  unfold pending, shorts, caches_weight, sumZ.
  induction (nd_workers nd) as [|r ws IH]; [done|]. cbn [map foldr]. by rewrite IH.
Qed.

Lemma pending_same nd nd' : shorts nd' = shorts nd -> pending nd' = pending nd.
Proof. rewrite !pending_shorts. by intros ->. Qed.

(** ** Requests to all workers of a node *)

Lemma run_take (r : TaskRunner) :
  exists r' es, run r (TakeSnapshot answered) = Some (r', es) /\
    short r' = ∅ /\ caches_sent es = [(0%nat, short r)] /\ adds es /\
    (counted AGG_ERRORS es = 0 ->
     cache_weight w (long r') = cache_weight w (long r) + cache_weight w (short r)).
Proof.
  destruct (take_snapshot_run r answered) as (es & Hr & Hc & _ & _).
  eexists _, es. split; [exact Hr|]. split; [done|]. split; [done|].
  split; [by eapply run_adds|]. intros Hz.
  pose proof (run_weight w _ _ _ _ Hr Hz) as Hw. cbn [short rotated_of ingested_of] in Hw.
  rewrite cache_weight_empty in Hw. unfold caches_weight, list_weight in Hw.
  cbn [foldr] in Hw. lia.
Qed.

Lemma run_rotate (r : TaskRunner) :
  exists r', run r (Rotate answered) = Some (r', [SendCache 0 (long r)]) /\
    short r' = short r /\ long r' = ∅.
Proof. by eexists. Qed.

Lemma request_snapshot (ws : list TaskRunner) :
  exists ws' es, request_workers (TakeSnapshot answered) ws
    = Some (ws', map Some (map short ws), es) /\
    map short ws' = map (fun _ => ∅) ws /\ adds es /\ sumZ (fun r => cache_weight w (short r)) ws' = 0 /\
    (counted AGG_ERRORS es = 0 ->
     sumZ (fun r => cache_weight w (long r)) ws' =
     sumZ (fun r => cache_weight w (long r)) ws + sumZ (fun r => cache_weight w (short r)) ws).
Proof.
  unfold request_workers. induction ws as [|r ws (ws' & es & IH & Hl & Ha & Hs & Hw)].
  { exists [], []. split_and!; done || constructor. }
  destruct (run_take r) as (r' & e1 & Hr & Hs1 & Hc1 & Ha1 & Hw1).
  cbn [mapM].
  rewrite Hr. cbn [mbind option_bind].
  destruct (mapM _ ws) as [rs|]; cbn [mbind option_bind] in *; [|done].
  injection IH as <- Hrep <-. cbn [map concat fst snd mret option_ret mbind option_bind]. rewrite Hc1, Hrep.
  eexists _, _. split; [done|]. split; [by cbn [map fst]; rewrite Hl, Hs1|].
  split; [by apply Forall_app_2|]. unfold sumZ in *. cbn [foldr].
  split; [rewrite Hs1, cache_weight_empty; lia|].
  intros [Hz1 Hz2]%adds_split; [|done..]. rewrite Hw1, Hw by done. lia.
Qed.

Lemma request_rotation (ws : list TaskRunner) :
  exists ws' es, request_workers (Rotate answered) ws = Some (ws', map Some (map long ws), es) /\
    length ws' = length ws /\ adds es /\ counted AGG_ERRORS es = 0 /\
    sumZ (fun r => cache_weight w (short r)) ws' = sumZ (fun r => cache_weight w (short r)) ws /\
    sumZ (fun r => cache_weight w (long r)) ws' = 0.
Proof.
  unfold request_workers. induction ws as [|r ws (ws' & es & IH & Hl & Ha & Hz & Hs & Hw)].
  { exists [], []. split_and!; done || constructor. }
  destruct (run_rotate r) as (r' & Hr & Hs1 & Hl1).
  cbn [mapM].
  rewrite Hr. cbn [mbind option_bind].
  destruct (mapM _ ws) as [rs|]; cbn [mbind option_bind] in *; [|done].
  injection IH as <- Hrep <-. cbn [map concat fst snd mret option_ret mbind option_bind]. rewrite Hrep.
  eexists _, _. split; [done|]. split; [by cbn; rewrite Hl|].
  split; [by apply Forall_app_2; [repeat constructor|]|].
  unfold sumZ in *. cbn [foldr app counted]. rewrite Hs1, Hl1, cache_weight_empty. lia.
Qed.

(** ** Delivery *)

Lemma list_weight_caches (cs : list Cache) :
  list_weight w (concat (map hiter cs)) = caches_weight w cs.
Proof.
  unfold caches_weight. induction cs as [|c cs IH]; [done|]. cbn [map concat foldr].
  by rewrite list_weight_app, list_weight_hiter, IH.
Qed.

Lemma readable_weight l :
  list_weight w (readable l) + list_weight w (unreadable l) = list_weight w l.
Proof.
  unfold readable, unreadable, list_weight. induction l as [|[n m] l IH]; [done|].
  cbn [List.filter fst snd foldr] in *. destruct (utf8 n); cbn [negb foldr snd]; lia.
Qed.

(** What a delivery does to a node that has a worker. *)
Lemma deliver_spec sender nd nd' es :
  deliver sender nd = Some (nd', es) ->
  adds es /\ shorts nd' = shorts nd /\ entered nd' = entered nd /\
  (counted AGG_ERRORS es = 0 -> settled nd' = settled nd + caches_weight w (ss_metrics sender)).
Proof.
  unfold deliver. rewrite sender_sends. case_decide; cbn [mbind option_bind]; [|done].
  unfold node_chans. destruct (nd_workers nd) as [|r ws] eqn:Hws; [done|].
  rewrite imap_cons, receive_snapshot. cbn [mbind option_bind]. unfold send_task.
  cbn [ch_open ch_id tasks_sent plain omap list_omap app foldEP].
  unfold run_task at 1. cbn [lookup list_lookup mbind option_bind].
  destruct (run r (AddSnapshot _)) as [[r' e]|] eqn:Hr; cbn [mbind option_bind]; [|done].
  intros [= <- <-]. rewrite app_nil_r.
  split; [by eapply run_adds|]. unfold shorts, settled, entered.
  cbn [nd_workers nd_ingested nd_rotated nd_missed nd_skipped with_workers with_skipped insert
    list_insert].
  destruct (run_add_snapshot_short _ _ _ _ Hr) as (Hsh & _). rewrite Hws.
  split_and!; [cbn [map]; by rewrite Hsh|done|]. intros Hz.
  pose proof (run_weight w _ _ _ _ Hr Hz) as Hw. cbn [rotated_of ingested_of] in Hw.
  rewrite Hsh in Hw. change (caches_weight w []) with 0 in Hw.
  pose proof (readable_weight (sender_entries sender)) as Hrw. unfold sender_entries in *.
  rewrite list_weight_caches in Hrw. rewrite list_weight_app. unfold sumZ. cbn [foldr]. lia.
Qed.

(** One sender changes only its own node, and settles there what it carries. *)
Lemma send_to_spec lost nodes j sender nodes' es :
  send_to lost nodes (j, sender) = Some (nodes', es) ->
  exists nd nd', nodes !! j = Some nd /\ nodes' = <[j := nd']> nodes /\ adds es /\
    shorts nd' = shorts nd /\ entered nd' = entered nd /\
    (counted AGG_ERRORS es = 0 -> settled nd' = settled nd + caches_weight w (ss_metrics sender)).
Proof.
  unfold send_to. destruct (nodes !! j) as [nd|]; cbn [mbind option_bind]; [|done].
  case_decide.
  - intros [= <- <-]. eexists nd, _. split; [done|]. split; [done|]. split; [constructor|].
    split_and!; [done..|]. intros _. unfold settled.
    cbn [nd_workers nd_rotated nd_missed nd_skipped]. rewrite caches_weight_app. lia.
  - destruct (deliver sender nd) as [[nd' e]|] eqn:Hd; cbn [mbind option_bind]; [|done].
    intros [= <- <-]. destruct (deliver_spec _ _ _ _ Hd) as (Ha & Hp & He & Hs).
    by exists nd, nd'.
Qed.

(** The total effect of the senders of a tick. *)
Lemma send_all_spec lost ms pairs nodes nodes' es :
  base.NoDup pairs.*1 -> Forall (fun js => ss_metrics (snd js) = ms) pairs ->
  foldEP (send_to lost) nodes pairs = Some (nodes', es) ->
  adds es /\ length nodes' = length nodes /\ sumZ pending nodes' = sumZ pending nodes /\
  sumZ entered nodes' = sumZ entered nodes /\
  (forall k, shorts <$> nodes' !! k = shorts <$> nodes !! k) /\
  (counted AGG_ERRORS es = 0 -> forall k nd', nodes' !! k = Some nd' ->
   exists nd, nodes !! k = Some nd /\
     settled nd' = settled nd + if decide (k ∈ pairs.*1) then caches_weight w ms else 0).
Proof.
  revert nodes es. induction pairs as [|[j s] pairs IH]; intros nodes es Hnd Hms; cbn [foldEP].
  { intros [= <- <-]. split_and!; [constructor|done..|]. intros _ k nd' Hk.
    exists nd'. split; [done|]. rewrite decide_False by apply not_elem_of_nil. lia. }
  apply list.NoDup_cons in Hnd as [Hj Hnd]. apply list.Forall_cons in Hms as [Hm Hms].
  destruct (send_to lost nodes (j, s)) as [[n1 e1]|] eqn:H1; [|done].
  destruct (foldEP (send_to lost) n1 pairs) as [[n2 e2]|] eqn:H2; [|done].
  intros [= <- <-].
  destruct (send_to_spec _ _ _ _ _ _ H1) as (nd & nd1 & Hnj & -> & Ha1 & Hp1 & He1 & Hs1).
  destruct (IH _ _ Hnd Hms H2) as (Ha2 & Hl & Hp & He & Hk' & Hs).
  rewrite (sumZ_insert _ _ _ nd), (pending_same _ _ Hp1) in Hp by done.
  rewrite (sumZ_insert _ _ _ nd) in He by done. rewrite length_insert in Hl.
  split_and!; [by apply Forall_app_2|done|lia|lia| |].
  { intros k. rewrite Hk'. destruct (decide (j = k)) as [->|].
    - rewrite list_lookup_insert_eq by by eapply lookup_lt_Some. rewrite Hnj. cbn. by rewrite Hp1.
    - by rewrite list_lookup_insert_ne. }
  intros [Hz1 Hz2]%adds_split; [|done..]. intros k nd' Hk.
  destruct (Hs Hz2 k nd' Hk) as (ndk & Hndk & Hset). cbn [fst snd] in *.
  destruct (decide (j = k)) as [->|Hne].
  - rewrite list_lookup_insert_eq in Hndk by by eapply lookup_lt_Some.
    injection Hndk as <-. exists nd. split; [done|].
    rewrite decide_True by (cbn; left). rewrite decide_False in Hset by done.
    rewrite Hset, (Hs1 Hz1), Hm. lia.
  - rewrite list_lookup_insert_ne in Hndk by done. exists ndk. split; [done|].
    rewrite Hset. f_equal. cbn [fmap list_fmap]. apply decide_ext.
    rewrite elem_of_cons. split; [by right|by intros [->|]].
Qed.

(** ** Balance *)

Lemma peers_NoDup n i : base.NoDup (peers n i).
Proof. apply NoDup_ListNoDup, List.NoDup_filter, NoDup_ListNoDup, NoDup_seq. Qed.

Lemma elem_of_peers n i j : j ∈ peers n i <-> (j < n)%nat /\ j <> i.
Proof.
  unfold peers. rewrite list_elem_of_In, filter_In, in_seq.
  rewrite negb_true_iff, bool_decide_eq_false. split; intros []; split; try done; lia.
Qed.

Lemma ingest_weight r t r' es :
  is_ingest t = true -> run r t = Some (r', es) -> counted AGG_ERRORS es = 0 ->
  long r' = long r /\
  cache_weight w (short r') = cache_weight w (short r) + list_weight w (ingested_of r t).
Proof.
  intros Hi Hr Hz. pose proof (run_weight w _ _ _ _ Hr Hz) as Hw.
  assert (Hl : long r' = long r).
  { clear Hw. destruct t; try done; revert Hr; cbn [run].
    - unfold run_parse. destruct (put _ _); cbn; [|done].
      destruct (metric_parser _ _), (foldE _ _ _). by intros [= <- _].
    - destruct (update_metric _ _). by intros [= <- _].
    - destruct (foldE _ _ _). by intros [= <- _]. }
  split; [done|]. assert (Hrot : rotated_of r t = []) by by destruct t.
  rewrite Hl, Hrot in Hw. change (caches_weight w []) with 0 in Hw. lia.
Qed.

(** What a snapshot tick does to the ledger. *)
Lemma snapshot_step nodes i lost nodes' es :
  cluster_step nodes (SnapshotTick i lost) = Some (nodes', es) ->
  adds es /\ length nodes' = length nodes /\ sumZ entered nodes' = sumZ entered nodes /\
  exists nd nd', nodes !! i = Some nd /\ nodes' !! i = Some nd' /\
    shorts nd' = map (fun _ => ∅) (nd_workers nd) /\
    sumZ pending nodes' = sumZ pending nodes - pending nd /\
    (forall k, k <> i -> shorts <$> nodes' !! k = shorts <$> nodes !! k) /\
    (counted AGG_ERRORS es = 0 -> forall k ndk', nodes' !! k = Some ndk' ->
     exists ndk, nodes !! k = Some ndk /\ settled ndk' = settled ndk + pending nd).
Proof.
  cbn [cluster_step]. destruct (nodes !! i) as [nd|] eqn:Hi; cbn [mbind option_bind]; [|done].
  destruct (request_snapshot (nd_workers nd)) as (ws & e1 & -> & Hlw & Ha1 & Hs0 & Hw1).
  cbn [mbind option_bind]. unfold snapshot_tick. rewrite join_all_some.
  set (ms := List.filter _ _). set (senders := map _ (sn_nodes _)).
  destruct (foldEP _ _ _) as [[n2 e3]|] eqn:Hf; cbn [mbind option_bind]; [|done].
  intros [= <- <-].
  assert (Hlen : length senders = length (peers (length nodes) i)).
  { unfold senders, node_snapshot. cbn [sn_nodes]. by rewrite !length_map. }
  assert (Hfst : (zip (peers (length nodes) i) senders).*1 = peers (length nodes) i)
    by (apply fst_zip; lia).
  assert (Hms : caches_weight w ms = pending nd).
  { rewrite <-list_weight_caches. unfold ms. rewrite retained_entries, list_weight_caches.
    by rewrite pending_shorts. }
  destruct (send_all_spec lost ms _ _ _ _ ltac:(rewrite Hfst; apply peers_NoDup)
    ltac:(apply list.Forall_forall; intros [j sd] Hin%elem_of_zip_r;
          apply list_elem_of_fmap in Hin as (a & -> & _); done) Hf)
    as (Ha3 & Hl & Hp & He & Hpk & Hset). rewrite Hfst in Hset.
  assert (Hil : (i < length nodes)%nat) by by eapply lookup_lt_Some.
  rewrite (sumZ_insert _ _ _ nd) in Hp by done. rewrite (sumZ_insert _ _ _ nd) in He by done.
  rewrite length_insert in Hl.
  assert (Hp0 : pending (with_workers nd ws) = 0) by done.
  split; [by apply Forall_app_2|].
  split; [done|]. split; [change (entered (with_workers nd ws)) with (entered nd) in He; lia|].
  destruct (lookup_lt_is_Some_2 n2 i) as [nd' Hnd']; [lia|].
  exists nd, nd'. split; [done|]. split; [done|].
  pose proof (Hpk i) as Hpi. rewrite Hnd', list_lookup_insert_eq in Hpi by done.
  cbn in Hpi. injection Hpi as Hpi. split; [by rewrite Hpi|]. split; [lia|].
  split; [intros k Hk; rewrite Hpk; by rewrite list_lookup_insert_ne|].
  intros Hz. rewrite !counted_app in Hz. cbn [counted] in Hz.
  pose proof (adds_counted _ AGG_ERRORS Ha1). pose proof (adds_counted _ AGG_ERRORS Ha3).
  intros k ndk' Hk. destruct (Hset ltac:(lia) k ndk' Hk) as (ndk & Hndk & ->).
  destruct (decide (k = i)) as [->|Hne].
  - rewrite list_lookup_insert_eq in Hndk by done. injection Hndk as <-. exists nd.
    split; [done|]. rewrite decide_False by (rewrite elem_of_peers; by intros []).
    unfold settled at 1. cbn [nd_workers nd_rotated nd_missed nd_skipped with_workers].
    rewrite (Hw1 ltac:(lia)). unfold settled, pending. lia.
  - rewrite list_lookup_insert_ne in Hndk by done. exists ndk. split; [done|].
    rewrite decide_True; [by rewrite Hms|]. apply elem_of_peers. split; [|done].
    by eapply lookup_lt_Some.
Qed.

Lemma cluster_step_adds nodes ev nodes' es :
  cluster_step nodes ev = Some (nodes', es) -> adds es /\ length nodes' = length nodes.
Proof.
  destruct ev as [i v t|i lost|i].
  - cbn [cluster_step]. destruct (is_ingest t); [|done].
    destruct (nodes !! i) as [nd|]; cbn [mbind option_bind]; [|done].
    destruct (nd_workers nd !! v) as [r|]; cbn [mbind option_bind]; [|done].
    destruct (run r t) as [[r' e]|] eqn:Hr; cbn [mbind option_bind]; [|done].
    intros [= <- <-]. split; [by eapply run_adds|apply length_insert].
  - by intros (? & ? & _)%snapshot_step.
  - cbn [cluster_step]. destruct (nodes !! i) as [nd|]; cbn [mbind option_bind]; [|done].
    destruct (request_rotation (nd_workers nd)) as (ws & e & -> & _ & Ha & _).
    cbn [mbind option_bind]. intros [= <- <-]. split; [done|apply length_insert].
Qed.

Lemma omap_id_some {A} (l : list A) : omap id (map Some l) = l.
Proof. induction l as [|a l IH]; [done|]. cbn. by f_equal. Qed.

(** Changing one node keeps the balance when what entered is what is pending. *)
Lemma balanced_insert nodes i nd nd' :
  nodes !! i = Some nd -> settled nd' = settled nd ->
  pending nd' - pending nd = entered nd' - entered nd ->
  balanced nodes -> balanced (<[i := nd']> nodes).
Proof.
  intros Hi Hs Hd Hbal j ndj Hj. rewrite !(sumZ_insert _ _ _ nd) by done.
  destruct (decide (j = i)) as [->|Hne].
  - rewrite list_lookup_insert_eq in Hj by by eapply lookup_lt_Some. injection Hj as <-.
    rewrite Hs. pose proof (Hbal i nd Hi). lia.
  - rewrite list_lookup_insert_ne in Hj by done. pose proof (Hbal j ndj Hj). lia.
Qed.

Lemma cluster_step_balanced nodes ev nodes' es :
  cluster_step nodes ev = Some (nodes', es) -> counted AGG_ERRORS es = 0 ->
  balanced nodes -> balanced nodes'.
Proof.
  intros Hstep Hz Hbal. destruct ev as [i v t|i lost|i].
  - cbn [cluster_step] in Hstep. destruct (is_ingest t) eqn:Hi; [|done].
    destruct (nodes !! i) as [nd|] eqn:Hn; cbn [mbind option_bind] in Hstep; [|done].
    destruct (nd_workers nd !! v) as [r|] eqn:Hv; cbn [mbind option_bind] in Hstep; [|done].
    destruct (run r t) as [[r' e]|] eqn:Hr; cbn [mbind option_bind] in Hstep; [|done].
    injection Hstep as <- <-. destruct (ingest_weight _ _ _ _ Hi Hr Hz) as [Hlong Hshort].
    apply (balanced_insert _ _ nd); [done|..|done].
    + unfold settled. cbn [nd_workers nd_rotated nd_missed nd_skipped].
      rewrite (sumZ_insert _ _ _ r) by done. rewrite Hlong. lia.
    + unfold pending, entered. cbn [nd_workers nd_ingested].
      rewrite (sumZ_insert _ _ _ r), list_weight_app by done. rewrite Hshort. lia.
  - intros j nd' Hj.
    apply snapshot_step in Hstep as (_ & _ & He & nd & ndi & Hi & Hi' & _ & Hp & _ & Hs).
    destruct (Hs Hz j nd' Hj) as (ndj & Hndj & ->). pose proof (Hbal j ndj Hndj). lia.
  - cbn [cluster_step] in Hstep.
    destruct (nodes !! i) as [nd|] eqn:Hn; cbn [mbind option_bind] in Hstep; [|done].
    destruct (request_rotation (nd_workers nd)) as (ws & e & Hreq & _ & _ & _ & Hsh & Hlo).
    rewrite Hreq in Hstep. cbn [mbind option_bind] in Hstep. injection Hstep as <- <-.
    apply (balanced_insert _ _ nd); [done|..|done].
    + unfold settled. cbn [nd_workers nd_rotated nd_missed nd_skipped]. rewrite Hlo.
      rewrite omap_id_some, caches_weight_app. unfold caches_weight at 2.
      unfold sumZ. clear. induction (nd_workers nd); cbn [map foldr] in *; lia.
    + unfold pending, entered. cbn [nd_workers nd_ingested]. rewrite Hsh. lia.
Qed.

Lemma cluster_run_balanced nodes evs nodes' es :
  cluster_run nodes evs = Some (nodes', es) -> counted AGG_ERRORS es = 0 ->
  balanced nodes -> balanced nodes'.
Proof.
  unfold cluster_run. revert nodes es. induction evs as [|ev evs IH]; intros nodes es; cbn [foldEP].
  { by intros [= <- <-]. }
  destruct (cluster_step nodes ev) as [[n1 e1]|] eqn:H1; [|done].
  destruct (foldEP cluster_step n1 evs) as [[n2 e2]|] eqn:H2; [|done].
  intros [= <- <-] Hz Hbal. destruct (cluster_step_adds _ _ _ _ H1) as [Ha1 _].
  assert (Ha2 : adds e2).
  { clear -H2 HIOK COK WA. revert n1 e2 H2. induction evs as [|ev evs IH]; intros n1 e2; cbn [foldEP].
    - intros [= <- <-]. constructor.
    - destruct (cluster_step n1 ev) as [[n1' e1']|] eqn:H1; [|done].
      destruct (foldEP cluster_step n1' evs) as [[n2' e2']|] eqn:H2; [|done].
      intros [= <- <-]. apply Forall_app_2; [by eapply cluster_step_adds|by eapply IH]. }
  apply adds_split in Hz as [Hz1 Hz2]; [|done..].
  eapply IH; [done..|]. by eapply cluster_step_balanced.
Qed.

(** A fresh cluster of nodes with their numbers of workers and configurations. *)
Definition cluster_start (setups : list (nat * System)) : Cluster :=
  map (fun s => node_start (fst s) (snd s)) setups.

Lemma cluster_start_balanced setups : balanced (cluster_start setups).
Proof.
  assert (Hf : forall k cf (f : TaskRunner -> Cache), f (TaskRunner_new cf) = ∅ ->
    sumZ (fun r => cache_weight w (f r)) (repeat (TaskRunner_new cf) k) = 0).
  { intros k cf f Hf. apply sumZ_zero, list.Forall_forall.
    intros r Hr%list_elem_of_In%repeat_spec. by rewrite Hr, Hf, cache_weight_empty. }
  intros j nd Hj. unfold cluster_start in *.
  rewrite (sumZ_zero pending), (sumZ_zero entered).
  - apply list_lookup_fmap_Some in Hj as ([k cf] & -> & _). unfold settled, node_start.
    cbn [nd_workers nd_rotated nd_missed nd_skipped fst snd]. by rewrite (Hf k cf long).
  - apply list.Forall_forall. by intros nd0 (s & -> & _)%list_elem_of_fmap.
  - apply list.Forall_forall. intros nd0 (s & -> & _)%list_elem_of_fmap.
    by apply (Hf _ _ short).
Qed.

(** A cluster loses nothing: after any interleaving of incoming metrics,
    snapshot ticks (with any of their deliveries lost) and carbon ticks on any
    nodes, in which no aggregation failed, every node accounts for everything that
    entered anywhere: what it holds for the backend, has sent there, or was lost on
    the way to it, and what is not replicated yet, add up to all that entered. *)
Theorem cluster_loses_nothing (setups : list (nat * System)) (evs : list ClusterEvent)
    (nodes : Cluster) (es : list Effect) (j : nat) (nd : Node) :
  cluster_run (cluster_start setups) evs = Some (nodes, es) -> counted AGG_ERRORS es = 0 ->
  nodes !! j = Some nd ->
  settled nd + sumZ pending nodes = sumZ entered nodes.
Proof.
  intros Hrun Hz. eapply cluster_run_balanced; [done..|]. apply cluster_start_balanced.
Qed.

(** ** Convergence *)
















End ledger.
End cluster.
