(* ===== verification/Cli.v ===== *)
(** * Command line and addresses ([System::load] of [src/src/config.rs],
    [try_resolve] of [src/src/util.rs])

    What the program does with the parsed command line and configuration file,
    and how it turns the text of an address into a socket address.  The command
    line parser (clap), the file format (toml) and the DNS resolver are
    parameters. *)

From S2P Require Import Prelude Addr Interfaces Globals Config Management.

(** ** [try_resolve] *)
Inductive IpAddr := IpV4 (a b c d : Z) | IpV6 (ip : Z).

Definition SocketAddr_new (ip : IpAddr) (port : Z) : SocketAddr :=
  match ip with IpV4 a b c d => V4 a b c d port | IpV6 i => V6 i port end.

(** [str::parse::<u16>]: an optional plus sign, then digits, without overflow. *)
Fixpoint parse_digits (acc : Z) (s : bytes) : option Z :=
  match s with
  | [] => Some acc
  | c :: s =>
      d ← to_digit 10 c;
      let acc := acc * 10 + d in
      if decide (acc < 2 ^ 16) then parse_digits acc s else None
  end.

Definition parse_u16 (s : bytes) : option Z :=
  let digits := match s with
                | c :: s' => if decide (c = ascii_plus) then s' else s
                | [] => [] end in
  match digits with [] => None | _ => parse_digits 0 digits end.

Section resolve.
Context (resolve_host : bytes -> option (list IpAddr)).

(** [None] is a panic: no port, a bad port, a failed resolution, no address. *)
Definition try_resolve (s : bytes) : option SocketAddr :=
  match parse_socket_addr s with
  | Some a => Some a
  | None =>
      let split := split_on ascii_colon s in
      host ← split !! 0%nat;
      port ← split !! 1%nat;
      port ← parse_u16 port;
      ips ← resolve_host host;
      first_ip ← head ips;
      Some (SocketAddr_new first_ip port)
  end.

Lemma parse_digits_value ds n :
  Forall (fun d => 0 <= d < 10) ds -> 0 <= n -> value 10 n ds < 2 ^ 16 ->
  parse_digits n (map digit ds) = Some (value 10 n ds).
Proof.
  intros Hds. revert n. induction Hds as [|d ds Hd Hds IH]; intros n Hn Hlt; [done|].
  cbn [map parse_digits]. rewrite to_digit_digit by lia. cbn [mbind option_bind].
  unfold value in Hlt. cbn [foldl] in Hlt.
  pose proof (value_ge 10 ds (n * 10 + d) ltac:(lia) Hds ltac:(lia)) as Hge.
  unfold value in *. rewrite decide_True by lia. apply IH; [lia|done].
Qed.

Lemma digit_ne d c : 0 <= d < 10 -> to_digit 10 c = None -> digit d <> c.
Proof. intros Hd Hc <-. by rewrite to_digit_digit in Hc by lia. Qed.

Lemma resolve_host_port (host : bytes) (ds : list Z) (rest : bytes)
    (ip : IpAddr) (ips : list IpAddr) :
  let text := host ++ [ascii_colon] ++ map digit ds ++ rest in
  parse_socket_addr text = None -> ascii_colon ∉ host ->
  ds <> [] -> Forall (fun d => 0 <= d < 10) ds -> value 10 0 ds < 2 ^ 16 ->
  (rest = [] \/ exists more, rest = ascii_colon :: more) ->
  resolve_host host = Some (ip :: ips) ->
  try_resolve text = Some (SocketAddr_new ip (value 10 0 ds)).
Proof.
  intros text Hp Hh Hne Hds Hn Hrest Hres. unfold try_resolve. rewrite Hp. subst text.
  rewrite split_on_app by done. cbn [lookup list_lookup mbind option_bind].
  assert (Hc : ascii_colon ∉ map digit ds).
  { intros (d & Hd & Hin)%list_elem_of_fmap. rewrite list.Forall_forall in Hds.
    by apply (digit_ne d ascii_colon (Hds d Hin)). }
  assert (Hport : exists more, split_on ascii_colon (map digit ds ++ rest) = map digit ds :: more).
  { destruct Hrest as [->|[more ->]].
    - rewrite app_nil_r, split_on_none by done. by eexists.
    - change (ascii_colon :: more) with ([ascii_colon] ++ more).
      rewrite split_on_app by done. by eexists. }
  destruct Hport as [more ->]. cbn [lookup list_lookup mbind option_bind].
  assert (Hu : parse_u16 (map digit ds) = Some (value 10 0 ds)).
  { unfold parse_u16. destruct ds as [|d ds]; [done|]. cbn [map].
    rewrite decide_False.
    - by apply (parse_digits_value (d :: ds) 0).
    - apply digit_ne; [|done]. by apply list.Forall_cons in Hds as [? _]. }
  rewrite Hu. cbn [mbind option_bind]. by rewrite Hres.
Qed.

(** Resolution: the text of an IPv4 socket address resolves to that address,
    whatever the resolver would answer, so that printing and resolving is the
    identity; and an address of the form [host:port] that is not a literal socket
    address resolves to the first address of the host with that port, for every
    decimal text of a 16-bit port, ignoring anything after a second colon. *)
Theorem try_resolve_addresses :
  (forall a b c d port, addr_ok (V4 a b c d port) ->
     try_resolve (show_socket_addr (V4 a b c d port)) = Some (V4 a b c d port)) /\
  (forall host ds rest ip ips,
     let text := host ++ [ascii_colon] ++ map digit ds ++ rest in
     parse_socket_addr text = None -> ascii_colon ∉ host ->
     ds <> [] -> Forall (fun d => 0 <= d < 10) ds -> value 10 0 ds < 2 ^ 16 ->
     (rest = [] \/ exists more, rest = ascii_colon :: more) ->
     resolve_host host = Some (ip :: ips) ->
     try_resolve text = Some (SocketAddr_new ip (value 10 0 ds))).
Proof.
  split; [|exact resolve_host_port]. intros a b c d port H. unfold try_resolve.
  by rewrite parse_show_v4.
Qed.
End resolve.

(** ** [System::load] *)
Inductive Command :=
| Daemon
| Query (c : MgmtCommand.t) (server : string).

(** The parsed command line: the options and subcommands the code asks for. *)
Inductive QuerySub :=
| SubStatus
| SubConsensus (action : option string) (leader_action : string)
| SubNone.

Record Matches := mkMatches {
  m_verbosity : option string;
  m_query : option (string * QuerySub)
}.

(** The command line overrides the configuration file. *)
Definition with_verbosity (v : string) (s : System) : System := {|
  verbosity := v; network := network s; raft := raft s; consul := consul s;
  metrics := metrics s; carbon := carbon s; n_threads := n_threads s;
  w_threads := w_threads s; task_queue_size := task_queue_size s;
  start_as_leader := start_as_leader s; stats_interval := stats_interval s;
  stats_prefix := stats_prefix s; consensus := consensus s
|}.

(** After the configuration file has been read; [None] is a panic. *)
Definition load (system : System) (app : Matches) : option (System * Command) :=
  let system := match m_verbosity app with
                | Some v => with_verbosity v system | None => system end in
  match m_query app with
  | Some (server, SubStatus) => Some (system, Query MgmtCommand.Status server)
  | Some (server, SubConsensus action leader_action) =>
      action ← action;
      c_action ← expect (ConsensusAction.from_str action);
      l_action ← expect (LeaderAction.from_str leader_action);
      Some (system, Query (MgmtCommand.ConsensusCommand c_action l_action) server)
  | Some (_, SubNone) => panic
  | None => Some (system, Daemon)
  end.
