(* ===== verification/Main.v ===== *)
(** * The carbon tick ([main] of [src/src/main.rs])

    The options computed from the configuration, and the carbon tick that composes
    the leadership flag, the aggregator, the workers and the carbon clients. *)

From S2P Require Import Prelude Interfaces Globals Config Task TaskFacts Worker Aggregate.
From S2P Require Import Carbon Util.

(** ** Library functions *)

(** [slice::chunks]: panics on a chunk size of zero. *)
Fixpoint chunks_of {A} (fuel size : nat) (l : list A) : list (list A) :=
  match fuel, l with
  | S fuel, _ :: _ => firstn size l :: chunks_of fuel size (skipn size l)
  | _, _ => []
  end.

Definition slice_chunks {A} (l : list A) (chunk_size : Z) : option (list (list A)) :=
  if decide (chunk_size = 0) then panic
  else Some (chunks_of (length l) (Z.to_nat chunk_size) l).

(** ** Options computed at start *)

(** Counting updates needs a prefix or a suffix. *)
Definition counts_updates (m : Metrics) : bool :=
  let empty_names := (blen (bs (update_counter_prefix m)) =? 0) &&
                     (blen (bs (update_counter_suffix m)) =? 0) in
  if count_updates m && empty_names then false else count_updates m.

Definition update_options (m : Metrics) : option UpdateCounterOptions :=
  if counts_updates m then
    Some {| uco_threshold := update_counter_threshold m;
            uco_prefix := bs (update_counter_prefix m);
            uco_suffix := bs (update_counter_suffix m) |}
  else None.

Definition multi_threads (m : Metrics) : Z :=
  match aggregation_threads m with
  | Some value => if decide (aggregation_mode m = AggregationMode.Separate) then value else 0
  | None => 0
  end.

Definition effective_chunks (c : Carbon) : Z := if decide (chunks c = 0) then 1 else chunks c.

Definition tick_options (m : Metrics) (is_leader : bool) : AggregateOptions := {|
  ao_is_leader := is_leader;
  ao_update_counter := update_options m;
  ao_aggregation_mode := aggregation_mode m;
  ao_multi_threads := multi_threads m
|}.

Definition carbon_retrier (c : Carbon) : BackoffRetryBuilder := {|
  br_delay := connect_delay c;
  br_delay_mul := connect_delay_multiplier c;
  br_delay_max := connect_delay_max c;
  br_retries := send_retries c
|}.

Section daemon.
Context {BL : BytesLib} {ML : MetricLib} {PL : ParserLib BL ML}.
Context {XL : ExecutorLib} {HI : HashIter} {FL : FtoaLib BL}.

(** ** The carbon tick *)

(** The leader's sender: the values received are counted, split into chunks, and
    each chunk becomes a client. *)
Definition carbon_sender (c : Carbon) (addr : SocketAddr) (ts : Duration)
    (received : list (bytes * Float)) : option (list CarbonBackend * list Effect) :=
  let es := map (fun _ => Count EGRESS 1) received in
  let chunk_size := blen received `div` effective_chunks c in
  cs ← slice_chunks received chunk_size;
  let options := {| cc_addr := addr; cc_bind := bind_address c |} in
  let '(backends, es') :=
    foldE (fun acc chunk => let '(b, e) := CarbonBackend_new options ts chunk in
                            (acc ++ [b], e)) [] cs in
  Some (backends, es ++ es').

(** The values the backend channel receives: those of the aggregator, and in
    common mode those of the workers that run its tasks. *)
Definition backend_received (workers : nat -> TaskRunner) (chans : list Chan)
    (es : list NodeEffect) : list (bytes * Float) :=
  map snd (values_sent (plain es)) ++
  concat (map (fun ch => map snd (worker_values (workers (ch_id ch)) (tasks_for (ch_id ch) es)))
              chans).

(** A tick of the timer with the replies of the workers; [None] is a panic of the
    thread it starts. *)
Definition carbon_tick (system : System) (l : Leadership) (addr : SocketAddr) (ts : Duration)
    (chans : list Chan) (workers : nat -> TaskRunner) (replies : list (option Cache))
  : option (list CarbonBackend * list Effect) :=
  let options := tick_options (metrics system) (is_leader l) in
  if is_leader l then
    let aggregator := Aggregator_new options chans {| ch_id := 0; ch_open := true |} in
    '(_, es) ← Aggregator_run aggregator replies;
    '(backends, es') ← carbon_sender (carbon system) addr ts (backend_received workers chans es);
    Some (backends, plain es ++ es')
  else
    let aggregator := Aggregator_new options chans {| ch_id := 0; ch_open := false |} in
    '(_, es) ← Aggregator_run aggregator replies;
    Some ([], plain es).

(** A client under its retrier: [nets] is what the network does to each attempt; a
    failed attempt is followed by the pause.  [None]: the client panics. *)
Fixpoint client_polls (b : CarbonBackend) (nets : list NetOutcome)
  : option (list (InnerPoll bytes GeneralError)) :=
  match nets with
  | [] => Some []
  | net :: nets =>
      res ← CarbonBackend_send b net;
      ps ← client_polls b nets;
      Some (match res with
            | inl e => [mkPoll (Failed e) NotReady; mkPoll NotReady (Ready ())]
            | inr out => [mkPoll (Ready out) NotReady]
            end ++ ps)
  end.

Definition carbon_client (c : Carbon) (b : CarbonBackend) (nets : list NetOutcome)
  : option (Outcome bytes GeneralError * list TraceEvent) :=
  ps ← client_polls b nets; Some (drive_spawned (carbon_retrier c) ps).

(** The item a client sends for a value. *)
Definition value_item (ts : Duration) (nv : bytes * Float) : CarbonItem :=
  (fst nv, ftoa_text (snd nv), ts_text ts).

(** What a client writes on a connection that works. *)
Definition delivered (b : CarbonBackend) : bytes :=
  match CarbonBackend_send b {| net_bind := true; net_connect := true; net_sink := true |} with
  | Some (inr out) => out
  | _ => []
  end.

(** ** Chunks *)
Lemma chunks_of_concat {A} fuel size (l : list A) :
  (0 < size)%nat -> (length l <= fuel)%nat -> concat (chunks_of fuel size l) = l.
Proof.
  intros Hs. revert l. induction fuel as [|fuel IH]; intros [|x l] Hl; try done;
    [cbn in Hl; lia|].
  cbn [chunks_of concat]. rewrite IH; [apply firstn_skipn|].
  rewrite length_skipn. cbn [length] in *. lia.
Qed.

(** The number of chunks is the rounded-up quotient. *)
Lemma chunks_of_length {A} fuel size (l : list A) :
  (0 < size)%nat -> (length l <= fuel)%nat ->
  Z.of_nat (length (chunks_of fuel size l))
  = (blen l + Z.of_nat size - 1) `div` Z.of_nat size.
Proof.
  intros Hs. unfold blen. revert l.
  induction fuel as [|fuel IH]; intros [|x l] Hl; [..|]; cbn [chunks_of length] in *.
  1, 3: symmetry; apply Z.div_small; lia.
  { lia. }
  rewrite Nat2Z.inj_succ, IH by (rewrite length_skipn; cbn [length]; lia).
  rewrite length_skipn. cbn [length].
  destruct (decide (S (length l) <= size)%nat).
  - replace (S (length l) - size)%nat with 0%nat by lia.
    rewrite (Z.div_small (_ + _ - 1)) by lia.
    apply (Z.div_unique_pos _ _ _ (Z.of_nat (length l))); lia.
  - replace (Z.of_nat (S (length l)) + Z.of_nat size - 1)
      with (Z.of_nat (S (length l) - size) + Z.of_nat size - 1 + 1 * Z.of_nat size) by lia.
    rewrite Z.div_add by lia. lia.
Qed.

(** Asking for [c] chunks by dividing the length gives [c] to [2c - 1] of them. *)
Lemma chunk_count n c :
  1 <= c <= n ->
  let size := n `div` c in
  0 < size /\ c <= (n + size - 1) `div` size <= 2 * c - 1.
Proof.
  intros Hc size. assert (Hs : 0 < size) by (apply Z.div_str_pos; lia).
  pose proof (Z.div_mod n c ltac:(lia)) as Hd. fold size in Hd.
  pose proof (Z.mod_pos_bound n c ltac:(lia)) as Hm.
  split; [done|]. split.
  - apply Z.div_le_lower_bound; [done|]. nia.
  - apply Z.lt_succ_r, Z.div_lt_upper_bound; [done|]. nia.
Qed.

Section tick.
Context {BOK : BytesOk BL} {XOK : ExecutorOk XL} {HIOK : HashIterOk HI} {FOK : FtoaOk FL}.

Lemma make_backends options ts cs acc :
  Forall (Forall (fun nv => blen (ftoa_text (snd nv)) <= 200)) cs ->
  foldE (fun acc chunk => let '(b, e) := CarbonBackend_new options ts chunk in
                          (acc ++ [b], e)) acc cs
  = (acc ++ map (fun c => {| cb_options := options;
                             cb_metrics := map (value_item ts) c |}) cs, []).
Proof.
  intros Hcs. revert acc. induction Hcs as [|c cs Hc Hcs IH]; intros acc; cbn [foldE map].
  { by rewrite app_nil_r. }
  rewrite render_batch by done. rewrite IH. by rewrite <-app_assoc.
Qed.

Lemma delivered_lines b :
  blen (cb_metrics b) < 2 ^ 63 ->
  CarbonBackend_send b {| net_bind := true; net_connect := true; net_sink := true |}
    = Some (inr (delivered b)) /\
  delivered b = concat (map carbon_line (cb_metrics b)).
Proof.
  intros Hb. unfold delivered. rewrite send_lines by done. cbn [net_bind net_connect net_sink negb].
  by destruct (cc_bind (cb_options b)).
Qed.

Lemma carbon_sender_few c addr ts received :
  0 <= chunks c -> blen received < effective_chunks c ->
  carbon_sender c addr ts received = panic.
Proof.
  intros Hc Hlt. unfold carbon_sender, slice_chunks.
  rewrite Z.div_small by (pose proof (blen_nonneg received); lia).
  by rewrite decide_True.
Qed.

Lemma effective_chunks_pos c : 0 <= chunks c -> 1 <= effective_chunks c.
Proof. intros. unfold effective_chunks. case_decide; lia. Qed.

Lemma chunk_elem_of {A} (x : list A) cs v : x ∈ cs -> v ∈ x -> v ∈ concat cs.
Proof.
  intros Hx Hv. apply list_elem_of_In, in_concat. exists x.
  by split; apply list_elem_of_In.
Qed.

Lemma chunk_length_le {A} (x : list A) cs : x ∈ cs -> blen x <= blen (concat cs).
Proof.
  induction cs as [|y cs IH]; [by intros ?%not_elem_of_nil|].
  cbn [concat]. rewrite blen_app. pose proof (blen_nonneg (concat cs)).
  pose proof (blen_nonneg y). intros [->|Hx]%elem_of_cons; [lia|]. specialize (IH Hx). lia.
Qed.

Lemma carbon_sender_all c addr ts received :
  0 <= chunks c -> effective_chunks c <= blen received -> blen received < 2 ^ 63 ->
  Forall (fun nv => blen (ftoa_text (snd nv)) <= 200) received ->
  exists backends,
    carbon_sender c addr ts received
      = Some (backends, map (fun _ => Count EGRESS 1) received) /\
    Forall (fun b => cb_options b = {| cc_addr := addr; cc_bind := bind_address c |} /\
      blen (cb_metrics b) < 2 ^ 63) backends /\
    concat (map delivered backends) = concat (map carbon_line (map (value_item ts) received)) /\
    effective_chunks c <= blen backends <= 2 * effective_chunks c - 1.
Proof.
  intros Hc Hle Hlt Hf. unfold carbon_sender, slice_chunks.
  destruct (chunk_count (blen received) (effective_chunks c)) as [Hs Hk];
    [pose proof (effective_chunks_pos c Hc); lia|].
  set (size := blen received `div` effective_chunks c) in *.
  rewrite decide_False by lia. cbn [mbind option_bind].
  assert (Hcat : concat (chunks_of (length received) (Z.to_nat size) received) = received)
    by (apply chunks_of_concat; lia).
  assert (Hlen : blen (chunks_of (length received) (Z.to_nat size) received)
    = (blen received + size - 1) `div` size).
  { unfold blen at 1. rewrite chunks_of_length by lia. by rewrite Z2Nat.id by lia. }
  revert Hcat Hlen. generalize (chunks_of (length received) (Z.to_nat size) received) as cs.
  intros cs Hcat Hlen. rewrite make_backends.
  2: { apply list.Forall_forall. intros x Hx. apply list.Forall_forall. intros v Hv.
       rewrite list.Forall_forall in Hf. apply Hf. rewrite <-Hcat. by eapply chunk_elem_of. }
  assert (Hd : forall x, x ∈ cs -> blen (map (value_item ts) x) < 2 ^ 63).
  { intros x Hx. unfold blen. rewrite length_map.
    pose proof (chunk_length_le x cs Hx). rewrite Hcat in *. unfold blen in *. lia. }
  cbn [app]. rewrite app_nil_r. eexists. split; [done|]. split_and!.
  - apply list.Forall_forall. intros b (x & -> & Hx)%list_elem_of_fmap.
    split; [done|]. by apply Hd.
  - rewrite <-Hcat, List.map_map. clear Hcat Hlen. induction cs as [|x cs IH]; [done|].
    cbn [map concat]. rewrite (proj2 (delivered_lines {| cb_metrics := _ |} (Hd x ltac:(left)))).
    rewrite !map_app, concat_app. f_equal. apply IH. intros y Hy. apply Hd. by right.
  - unfold blen in *. rewrite length_map. lia.
  - unfold blen in *. rewrite length_map. lia.
Qed.

Lemma backend_received_single workers chans es vs n :
  values_sent (plain es) = map (pair n) vs -> tasks_sent es = [] ->
  backend_received workers chans es = vs.
Proof.
  intros Hv Ht. unfold backend_received, tasks_for. rewrite Hv, Ht.
  replace (concat _) with (@nil (bytes * Float)).
  - rewrite app_nil_r, List.map_map. apply map_id.
  - by induction chans.
Qed.

(** In common mode the backend receives what the workers send, in some order. *)
Lemma backend_received_common (workers : nat -> TaskRunner) chans es vs n :
  values_sent (plain es) = [] ->
  concat (map (fun i => worker_values (workers i) (tasks_for i es)) (map ch_id chans))
    ≡ₚ map (pair n) vs ->
  backend_received workers chans es ≡ₚ vs.
Proof.
  intros Hv Hp. unfold backend_received. rewrite Hv. cbn [map app].
  rewrite List.map_map in Hp. apply (Permutation_map snd) in Hp. rewrite List.map_map in Hp.
  cbn [snd] in Hp. rewrite map_id in Hp. rewrite <-Hp, concat_map, List.map_map. done.
Qed.

(** What a tick hands to the sender: the values of the joined cache, in order in
    single mode. *)
Lemma tick_values (system : System) (chans : list Chan) (workers : nat -> TaskRunner) (caches : list Cache) :
  aggregation_mode (metrics system) <> AggregationMode.Separate ->
  chans <> [] -> Forall (fun ch => ch_open ch = true) chans -> base.NoDup (map ch_id chans) ->
  let options := tick_options (metrics system) true in
  exists es, Aggregator_run (Aggregator_new options chans {| ch_id := 0; ch_open := true |})
      (map Some caches) = Some (Some (), es) /\
    backend_received workers chans es ≡ₚ cache_values options (merge_all caches) /\
    (aggregation_mode (metrics system) = AggregationMode.Single ->
     backend_received workers chans es = cache_values options (merge_all caches) /\
     counted EGRESS (plain es) = blen (hiter (merge_all caches))).
Proof.
  intros Hm Hne Ho Hnd options. set (a := Aggregator_new options chans _).
  destruct (aggregation_mode (metrics system)) eqn:Hmode; [| |done].
  - destruct (single_mode_run a caches eq_refl Hmode eq_refl) as (es & Hr & Hv & Ht & He).
    exists es. rewrite (backend_received_single _ _ _ _ _ Hv Ht). done.
  - destruct (common_mode_run a caches workers eq_refl Hmode eq_refl Hne Ho Hnd)
      as (es & Hr & Hv & Hp).
    exists es. split; [done|]. split; [|done]. by eapply backend_received_common.
Qed.

(** Whether an attempt of a client gets through. *)
Definition net_works (b : CarbonBackend) (net : NetOutcome) : bool :=
  match cc_bind (cb_options b) with Some _ => net_bind net | None => true end
  && net_connect net && net_sink net.

Lemma send_outcome b net :
  blen (cb_metrics b) < 2 ^ 63 ->
  if net_works b net then CarbonBackend_send b net = Some (inr (delivered b))
  else exists e, CarbonBackend_send b net = Some (inl e).
Proof.
  intros Hb. rewrite (proj2 (delivered_lines b Hb)), send_lines by done. unfold net_works.
  destruct (cc_bind _), (net_bind net), (net_connect net), (net_sink net); cbn; eauto.
Qed.

(** A client survives as many failed attempts as it has retries. *)
Lemma client_delivers c b nets net :
  blen (cb_metrics b) < 2 ^ 63 -> blen nets <= send_retries c ->
  Forall (fun n => net_works b n = false) nets -> net_works b net = true ->
  exists tr, carbon_client c b (nets ++ [net]) = Some (Succeeded (delivered b), tr).
Proof.
  intros Hb Hr Hf Hw. unfold carbon_client.
  assert (Hp : exists es, length es = length nets /\ client_polls b (nets ++ [net])
    = Some (failing es ++ [mkPoll (Ready (delivered b)) NotReady])).
  { clear Hr. induction Hf as [|n nets Hn Hf (es & Hl & IH)]; cbn [app client_polls].
    - exists []. pose proof (send_outcome b net Hb) as Hs. rewrite Hw in Hs. by rewrite Hs.
    - pose proof (send_outcome b n Hb) as Hs. rewrite Hn in Hs. destruct Hs as [e Hs].
      exists (e :: es). rewrite Hs, IH. split; [by cbn; f_equal|done]. }
  destruct Hp as (es & Hl & ->). cbn [mbind option_bind]. unfold drive_spawned.
  destruct (drive_failing es (carbon_retrier c) [mkPoll (Ready (delivered b)) NotReady])
    as (o & -> & _); [unfold blen in *; cbn; lia|]. cbn. by eexists.
Qed.

(** C7. The carbon tick of a leader, end to end in single and common mode: when all
    workers reply, there are at least as many values as configured chunks, and no
    value's text is longer than the 200 bytes a client's buffer has per metric, the
    clients it starts together deliver one line per value of the joined cache with
    the tick's timestamp, without loss or repetition (in single mode in the order
    of the cache, with the egress counter growing by the number of metrics and,
    once more, of values); there are between [chunks] and [2 * chunks - 1] clients;
    and each goes to the backend's address and delivers its lines as soon as an
    attempt gets through, up to the configured number of retries. *)
Theorem leader_tick_delivers (system : System) (l : Leadership) (addr : SocketAddr)
    (ts : Duration) (chans : list Chan) (workers : nat -> TaskRunner) (caches : list Cache) :
  let values := cache_values (tick_options (metrics system) true) (merge_all caches) in
  let c := effective_chunks (carbon system) in
  is_leader l = true ->
  aggregation_mode (metrics system) <> AggregationMode.Separate ->
  chans <> [] -> Forall (fun ch => ch_open ch = true) chans -> base.NoDup (map ch_id chans) ->
  0 <= chunks (carbon system) -> c <= blen values -> blen values < 2 ^ 63 ->
  Forall (fun nv => blen (ftoa_text (snd nv)) <= 200) values ->
  exists sent backends es,
    carbon_tick system l addr ts chans workers (map Some caches) = Some (backends, es) /\
    sent ≡ₚ values /\
    concat (map delivered backends) = concat (map carbon_line (map (value_item ts) sent)) /\
    c <= blen backends <= 2 * c - 1 /\
    (aggregation_mode (metrics system) = AggregationMode.Single ->
     sent = values /\ counted EGRESS es = blen (hiter (merge_all caches)) + blen values) /\
    Forall (fun b => cc_addr (cb_options b) = addr /\
      forall nets net, blen nets <= send_retries (carbon system) ->
        Forall (fun n => net_works b n = false) nets -> net_works b net = true ->
        exists tr, carbon_client (carbon system) b (nets ++ [net])
                   = Some (Succeeded (delivered b), tr)) backends.
Proof.
  intros values c Hl Hm Hne Ho Hnd Hc Hle Hlt Hf. unfold carbon_tick. rewrite Hl.
  destruct (tick_values system chans workers caches Hm Hne Ho Hnd) as (es & -> & Hp & Hsingle).
  cbn [mbind option_bind]. cbn zeta in *. fold values in Hp, Hsingle.
  set (received := backend_received workers chans es) in *.
  assert (Hb : blen received = blen values) by (unfold blen; by rewrite Hp).
  destruct (carbon_sender_all (carbon system) addr ts received Hc)
    as (backends & Hs & Hbk & Hd & Hk); [unfold c in *; lia|lia|by rewrite Hp|].
  rewrite Hs. cbn [mbind option_bind]. exists received. do 2 eexists.
  split_and!; [done..|lia|lia| |].
  - intros [He Hcnt]%Hsingle. split; [done|]. rewrite counted_app, Hcnt, <-Hb. f_equal.
    clear. induction received as [|v vs IH]; [done|]. cbn [map counted].
    rewrite decide_True by done. rewrite IH. unfold blen. cbn [length]. lia.
  - eapply List.Forall_impl; [|exact Hbk]. intros b (Ho' & Hlb). split; [by rewrite Ho'|].
    intros nets net. by apply client_delivers.
Qed.

(** C34. A leader with fewer values than chunks does not send them, in single mode as
    in common mode (there with at least one worker, and all of them running): the
    chunk size is rounded down to zero, and the thread of the tick panics with the
    values the workers have given up; in particular on an idle node.  The same happens
    in every mode whenever a reply is lost. *)
Theorem leader_tick_panics (system : System) (l : Leadership) (addr : SocketAddr)
    (ts : Duration) (chans : list Chan) (workers : nat -> TaskRunner) :
  is_leader l = true -> 0 <= chunks (carbon system) ->
  (forall caches,
     aggregation_mode (metrics system) = AggregationMode.Single \/
     aggregation_mode (metrics system) = AggregationMode.Common /\
       chans <> [] /\ Forall (fun ch => ch_open ch = true) chans /\ base.NoDup (map ch_id chans) ->
     blen (cache_values (tick_options (metrics system) true) (merge_all caches))
       < effective_chunks (carbon system) ->
     carbon_tick system l addr ts chans workers (map Some caches) = panic) /\
  (forall before after,
     carbon_tick system l addr ts chans workers (map Some before ++ None :: after) = panic).
Proof.
  intros Hl Hc. unfold carbon_tick. rewrite Hl. split.
  - intros caches Hm Hlt.
    assert (H : exists es, Aggregator_run (Aggregator_new (tick_options (metrics system) true) chans
        {| ch_id := 0; ch_open := true |}) (map Some caches) = Some (Some (), es) /\
      backend_received workers chans es
        ≡ₚ cache_values (tick_options (metrics system) true) (merge_all caches)).
    { destruct Hm as [Hm|(Hm & Hne & Ho & Hnd)].
      - destruct (single_mode_run (Aggregator_new (tick_options (metrics system) true) chans
          {| ch_id := 0; ch_open := true |}) caches eq_refl Hm eq_refl) as (es & Hr & Hv & Ht & _).
        exists es. split; [done|]. by rewrite (backend_received_single _ _ _ _ _ Hv Ht).
      - destruct (tick_values system chans workers caches ltac:(by rewrite Hm) Hne Ho Hnd)
          as (es & Hr & Hp & _). by exists es. }
    destruct H as (es & -> & Hp). cbn [mbind option_bind]. rewrite carbon_sender_few; [done..|].
    unfold blen in *. by rewrite Hp.
  - intros before after.
    destruct (lost_reply_run (Aggregator_new (tick_options (metrics system) true) chans
      {| ch_id := 0; ch_open := true |}) before after eq_refl) as (es & -> & Hv & Ht).
    cbn [mbind option_bind].
    rewrite (backend_received_single _ _ es [] 0%nat) by done.
    rewrite carbon_sender_few; [done..|]. pose proof (effective_chunks_pos _ Hc).
    unfold blen; cbn; lia.
Qed.

(** A node that is not leader starts no client and never panics, whatever the
    workers reply. *)
Lemma follower_tick_discards system l addr ts chans workers replies :
  is_leader l = false ->
  carbon_tick system l addr ts chans workers replies = Some ([], []).
Proof.
  intros Hl. unfold carbon_tick. rewrite Hl. unfold Aggregator_run. by cbn.
Qed.
End tick.

(** ** Start-up *)

(** With the options [main] computes, the update counter of a metric never
    has the metric's own name, so that counting updates never rewrites a metric:
    with neither prefix nor suffix configured, counting is switched off. *)
Theorem update_counter_never_rewrites (m : Metrics) (o : UpdateCounterOptions) (name : bytes) :
  update_options m = Some o -> counter_name o name <> name.
Proof.
  unfold update_options, counts_updates.
  destruct (count_updates m); cbn [andb]; [|done].
  destruct ((blen _ =? 0) && _) eqn:He; [done|]. intros [= <-] Heq.
  apply (f_equal length) in Heq. unfold counter_name in Heq.
  cbn [uco_prefix uco_suffix] in Heq. rewrite !length_app in Heq.
  assert (Hz : forall s : bytes, s = [] <-> (blen s =? 0) = true).
  { intros []; unfold blen; cbn; split; intros; try done; lia. }
  apply andb_false_iff in He as [He|He].
  - rewrite decide_False in Heq by (rewrite Hz; congruence).
    rewrite length_app in Heq. cbn [length bs String.list_ascii_of_string] in Heq. lia.
  - rewrite (decide_False (P := bs (update_counter_suffix m) = [])) in Heq
      by (rewrite Hz; congruence).
    rewrite length_app in Heq. cbn [length bs String.list_ascii_of_string] in Heq. lia.
Qed.

End daemon.
