(* ===== verification/Daemon.v ===== *)
(** * The process ([main] of [src/src/main.rs], outside the carbon tick)

    From the command line to a running daemon or a management query: loading,
    start-up with every panic on the way, the receivers and their sockets, and the
    timer of the carbon backend. *)

From S2P Require Import Prelude Addr Http Net Interfaces Globals Config Task TaskFacts.
From S2P Require Import Carbon Util Server Udp Management Consul Peer Cli.

(** [str::trim_end_matches(c)] *)
Fixpoint trim_end_matches (c : Ascii.ascii) (s : bytes) : bytes :=
  match s with
  | [] => []
  | d :: s => match trim_end_matches c s with
              | [] => if decide (d = c) then [] else [d]
              | s' => d :: s'
              end
  end.

Definition peer_server_ret : BackoffRetryBuilder :=
  {| br_delay := 1; br_delay_mul := u64_to_f32 1; br_delay_max := 1; br_retries := u64_max |}.

Section daemon.
Context {BL : BytesLib} {ML : MetricLib} {J : JsonLib} {U : UriLib} {O : OsLib} {T : TimerLib}.

(** ** Start-up *)

(** The leadership state [main] leaves: the internal consensus is enabled later, by
    its own thread after the start delay. *)
Definition startup_leadership (system : System) : Leadership :=
  let l := {| consensus_state := consensus_state initial_leadership;
              is_leader := start_as_leader system |} in
  match consensus system with
  | ConsensusKind.Internal => l
  | ConsensusKind.Consul =>
      {| consensus_state := start_as (consul system); is_leader := is_leader l |}
  | ConsensusKind.None => l
  end.

Definition startup_consul (system : System) : option ConsulConsensus :=
  match consensus system with
  | ConsensusKind.Consul =>
      let c := consul system in
      let consensus := ConsulConsensus_new (agent c) (bs (key_name c)) in
      let consensus := set_session_ttl consensus (from_millis (session_ttl c)) in
      Some (set_renew_time consensus (from_millis (renew_time c)))
  | _ => None
  end.

(** ** Receivers *)
Inductive Receivers :=
| SyncReceivers (threads : list (nat * MudpThread))      (* descriptor and thread *)
| AsyncReceivers (pools : list (list nat)) (listeners : list StatsdServer).

Definition start_receivers (system : System) (chans : list Chan) : Io Receivers :=
  let n := network system in
  if multimessage n then
    fds ← sync_sockets (listen n) (mm_async n) (n_threads system);
    mret (SyncReceivers (zip fds (map (fun i =>
      {| mt_config := system; mt_chans := chans; mt_idx := i; mt_bufsize := bufsize n;
         mt_packets := mm_packets n |}) (seqZ 0 (n_threads system)))))
  else
    pools ← async_pools (listen n) (n_threads system) (async_sockets n);
    mret (AsyncReceivers pools (async_listeners system chans (n_threads system) (greens n)
      (async_sockets n) (bufsize n))).

(** ** Start-up *)
Record DaemonState := mkDaemonState {
  d_chans : list Chan;
  d_workers : list TaskRunner;
  d_own_stats : OwnStats * Chan;
  d_snapshot : NativeProtocolSnapshot;
  d_peer_server : NativeProtocolServer;
  d_leadership : Leadership;
  d_consul : option ConsulConsensus;
  d_carbon_period : Duration;
  d_flush_period : option Duration;
  d_flush_flags : list bool;
  d_receivers : Receivers
}.

Section start.
Context (level_ok : string -> bool).                          (* [Level::from_str] *)
Context (resolve_host : bytes -> option (list IpAddr)).
Context (mgmt_binds : SocketAddr -> bool).                    (* [hyper::Server::bind] *)

(** Start everything, with the descriptors open before; [None] is a panic of the
    main thread. *)
Definition start (system : System) (F : gset nat) : option (DaemonState * gset nat) :=
  if negb (level_ok (verbosity system)) then panic else
  let w := Z.to_nat (w_threads system) in
  let chans := map (fun i => {| ch_id := i; ch_open := true |}) (seq 0 w) in
  let workers := map (fun _ => TaskRunner_new system) (seq 0 w) in
  let prefix := trim_end_matches (Ascii.ascii_of_nat 46) (bs (stats_prefix system)) in
  own_stat_chan ← index chans 0;
  let snapshot_period := from_millis (snapshot_interval (network system)) in
  snapshot ← NativeProtocolSnapshot_new (try_resolve resolve_host) (nodes (network system))
               (peer_client_bind (network system)) snapshot_period chans;
  if negb (interval_ok snapshot_period) then panic else
  if negb (mgmt_binds (mgmt_listen (network system))) then panic else
  let carbon_period := from_millis (interval (carbon system)) in
  if negb (interval_ok carbon_period) then panic else
  let flush_time := buffer_flush_time (network system) in
  match start_receivers system chans F with
  | (inl _, _) => panic
  | (inr receivers, F) =>
      Some ({|
        d_chans := chans;
        d_workers := workers;
        d_own_stats := (OwnStats_new (stats_interval system) prefix, own_stat_chan);
        d_snapshot := snapshot;
        d_peer_server := NativeProtocolServer_new (peer_listen (network system)) chans;
        d_leadership := startup_leadership system;
        d_consul := startup_consul system;
        d_carbon_period := carbon_period;
        d_flush_period := if decide (flush_time > 0) then Some (from_millis flush_time) else None;
        d_flush_flags := repeat false (Z.to_nat (n_threads system));
        d_receivers := receivers
      |}, F)
  end.

(** ** A management query *)
Inductive QueryEnd := QueryDone (r : ClientReport) | QueryWarned (e : MgmtError).

Definition run_query (command : MgmtCommand.t) (dest : string) (servers : Servers)
  : option (QueryEnd * Servers) :=
  dest ← try_resolve resolve_host (bs dest);
  '(res, servers) ← MgmtClient_run {| mc_address := dest; mc_command := command |} servers;
  Some (match res with inl e => QueryWarned e | inr r => QueryDone r end, servers).

(** ** [main] *)
Inductive MainResult :=
| Queried (q : QueryEnd) (servers : Servers)
| Running (d : DaemonState) (F : gset nat).

Definition main (system : System) (app : Matches) (servers : Servers) (F : gset nat)
  : option MainResult :=
  '(system, command) ← load system app;
  if negb (level_ok (verbosity system)) then panic else
  match command with
  | Query command dest =>
      '(q, servers) ← run_query command dest servers;
      Some (Queried q servers)
  | Daemon =>
      '(d, F) ← start system F;
      Some (Running d F)
  end.
End start.

(** The buffer flush timer, when it is on: one tick sets every flag. *)
Definition flush_timer_tick (system : System) (flags : list bool) : list bool :=
  if decide (buffer_flush_time (network system) > 0) then map (fun _ => true) flags else flags.

(** ** The timer of the carbon backend *)

(** One tick: whether the timer works, the time since the epoch ([None]: the clock
    is before it), and the resolver at that moment. *)
Record CarbonTickInput := mkTickInput {
  ti_timer : bool;
  ti_now : option Duration;
  ti_dns : bytes -> option (list IpAddr)
}.

(** What the closure starts: a sender thread for an address and a time, or the
    error that ends the timer; [None] is a panic of the main thread. *)
Definition carbon_timer_step (system : System) (i : CarbonTickInput)
  : option (GeneralError + (SocketAddr * Duration)) :=
  if negb (ti_timer i) then Some (inl GTimer) else
  match ti_now i with
  | None => Some (inl GTime)
  | Some ts =>
      backend_addr ← try_resolve (ti_dns i) (bs (carbon_address (carbon system)));
      Some (inr (backend_addr, ts))
  end.

(** The senders started, and the error that ended the timer. *)
Fixpoint carbon_timer (system : System) (ticks : list CarbonTickInput)
  : option (list (SocketAddr * Duration) * option GeneralError) :=
  match ticks with
  | [] => Some ([], None)
  | i :: ticks =>
      r ← carbon_timer_step system i;
      match r with
      | inl e => Some ([], Some e)
      | inr s => '(ss, e) ← carbon_timer system ticks; Some (s :: ss, e)
      end
  end.

(** ** Properties *)

(** A receiver that starts in a state in which no event makes it panic. *)
Definition receivers_ok (r : Receivers) (flags : list bool) : Prop :=
  match r with
  | SyncReceivers threads => Forall (fun ft => thread_ok (snd ft) flags) threads
  | AsyncReceivers _ listeners => Forall (fun s => server_ok s flags /\ ss_bufmap s = ∅) listeners
  end.

Lemma zip_snd_Forall {A B} (P : B -> Prop) (l : list A) (k : list B) :
  Forall P k -> Forall (fun x => P (snd x)) (zip l k).
Proof.
  intros Hk. revert l. induction Hk as [|b k Hb Hk IH]; intros [|a l]; cbn; try constructor; eauto.
Qed.

Lemma start_receivers_ok system chans F r F' :
  chans <> [] -> 0 <= bufsize (network system) -> 0 <= mm_packets (network system) ->
  0 <= n_threads system ->
  start_receivers system chans F = (inr r, F') ->
  receivers_ok r (repeat false (Z.to_nat (n_threads system))).
Proof.
  intros Hc Hb Hp Hn. unfold start_receivers.
  assert (Hf : blen (repeat false (Z.to_nat (n_threads system))) = n_threads system)
    by (unfold blen; rewrite repeat_length; lia).
  destruct (multimessage _).
  - io_step fds F1 H1. intros [= <- <-]. cbn [receivers_ok].
    apply (zip_snd_Forall (fun t => thread_ok t _)), list.Forall_forall.
    intros t (i & -> & Hi%elem_of_seqZ)%list_elem_of_fmap. unfold thread_ok. cbn. split_and!; try done; lia.
  - io_step pools F1 H1. intros [= <- <-]. by apply async_listeners_ok.
Qed.

Lemma first_chan system :
  let chans := map (fun i => {| ch_id := i; ch_open := true |}) (seq 0 (Z.to_nat (w_threads system))) in
  index chans 0 = if decide (0 < w_threads system) then Some {| ch_id := 0; ch_open := true |} else None.
Proof.
  unfold index. rewrite decide_True by lia. case_decide.
  - destruct (Z.to_nat (w_threads system)) as [|w] eqn:Hw; [lia|]. done.
  - by replace (Z.to_nat (w_threads system)) with 0%nat by lia.
Qed.

(** C28. Start-up succeeds exactly when the log level is known, at least one worker
    thread is configured, every peer resolves, the snapshot and carbon intervals
    are not zero, the management address can be bound and the UDP sockets can be
    opened; then each worker starts with empty caches behind its own channel, the
    peers are the resolved ones in order, the leader flag is the configured one,
    and every receiver starts in a state in which nothing makes it panic. *)
Theorem start_succeeds {TOK : TimerOk T} (level_ok : string -> bool)
    (resolve_host : bytes -> option (list IpAddr)) (mgmt_binds : SocketAddr -> bool)
    (system : System) (F : gset nat) :
  0 <= snapshot_interval (network system) -> 0 <= interval (carbon system) ->
  0 <= n_threads system -> 0 <= bufsize (network system) -> 0 <= mm_packets (network system) ->
  let chans := map (fun i => {| ch_id := i; ch_open := true |})
                   (seq 0 (Z.to_nat (w_threads system))) in
  (is_Some (start level_ok resolve_host mgmt_binds system F) <->
   level_ok (verbosity system) = true /\ 0 < w_threads system /\
   Forall (fun n => is_Some (try_resolve resolve_host (bs n))) (nodes (network system)) /\
   snapshot_interval (network system) <> 0 /\ mgmt_binds (mgmt_listen (network system)) = true /\
   interval (carbon system) <> 0 /\ exists r, fst (start_receivers system chans F) = inr r) /\
  (forall d F', start level_ok resolve_host mgmt_binds system F = Some (d, F') ->
   length (d_chans d) = Z.to_nat (w_threads system) /\ base.NoDup (map ch_id (d_chans d)) /\
   length (d_workers d) = length (d_chans d) /\
   Forall (fun r => long r = ∅ /\ short r = ∅ /\ buffers r = ∅) (d_workers d) /\
   Forall2 (fun n a => try_resolve resolve_host (bs n) = Some a)
     (nodes (network system)) (sn_nodes (d_snapshot d)) /\
   is_leader (d_leadership d) = start_as_leader system /\
   receivers_ok (d_receivers d) (d_flush_flags d)).
Proof.
  intros Hsi Hci Hnt Hbs Hmp chans. unfold start. fold chans.
  pose proof (interval_nonzero _ Hsi) as Hsi'. pose proof (interval_nonzero _ Hci) as Hci'.
  pose proof (first_chan system) as Hidx. cbn zeta in Hidx. fold chans in Hidx.
  destruct (level_ok (verbosity system)); cbn [negb];
    [|split; [split; [by intros []|by intros []]|done]].
  rewrite Hidx. case_decide as Hw; cbn [mbind option_bind];
    [|split; [split; [by intros []|intros (_ & ? & _); lia]|done]].
  unfold NativeProtocolSnapshot_new.
  destruct (mapM _ (nodes (network system))) as [ns|] eqn:Hn; cbn [mbind option_bind].
  2: { split; [split; [by intros []|]|done]. intros (_ & _ & Hall & _). exfalso.
       apply mapM_is_Some_2 in Hall as [? Hall]. by rewrite Hn in Hall. }
  destruct (interval_ok (from_millis (snapshot_interval _))); cbn [negb];
    [|split; [split; [by intros []|by intros (_ & _ & _ & ?%Hsi' & _)]|done]].
  destruct (mgmt_binds _); cbn [negb];
    [|split; [split; [by intros []|by intros (_ & _ & _ & _ & ? & _)]|done]].
  destruct (interval_ok (from_millis (interval _))); cbn [negb];
    [|split; [split; [by intros []|by intros (_ & _ & _ & _ & _ & ?%Hci' & _)]|done]].
  apply mapM_Some_1 in Hn.
  destruct (start_receivers system chans F) as [[e|r] F1] eqn:Hr; cbn [fst];
    [split; [split; [by intros []|by intros (_ & _ & _ & _ & _ & _ & r & ?)]|done]|]. split.
  - split; [intros _|by eexists].
    split_and!; [done|done| |by apply Hsi'|done|by apply Hci'|by eexists].
    eapply Forall2_Forall_l; [exact Hn|]. apply list.Forall_forall. intros y _ x Hx. by eexists.
  - intros d F' [= <- <-]. cbn. unfold chans. rewrite !length_map, length_seq.
    split_and!; try done.
    + rewrite List.map_map. cbn. rewrite map_id. apply NoDup_seq.
    + apply list.Forall_forall. by intros x (i & -> & _)%list_elem_of_fmap.
    + unfold startup_leadership. by destruct (consensus system).
    + eapply start_receivers_ok; [|done..|exact Hr].
      intros Hc. by rewrite Hc in Hidx.
Qed.

(** C27. A management query works from the command line to the node: when the server
    argument is the text of an IPv4 address where a node listens, the process
    resolves it without DNS, reaches that node and no other, leaves it in the
    commanded state (unchanged for a status query) and prints the state. *)
Theorem cli_query_reaches_node {JOK : JsonOk J} {UOK : UriOk U} (level_ok : string -> bool)
    (resolve_host : bytes -> option (list IpAddr)) (mgmt_binds : SocketAddr -> bool)
    (system system' : System) (app : Matches) (servers : Servers) (F : gset nat)
    (cmd : MgmtCommand.t) (server : string) (a b c d port : Z) (l : Leadership) :
  load system app = Some (system', Query cmd server) -> level_ok (verbosity system') = true ->
  addr_ok (V4 a b c d port) -> bs server = show_socket_addr (V4 a b c d port) ->
  servers (V4 a b c d port) = Some l ->
  main level_ok resolve_host mgmt_binds system app servers F =
  Some (Queried
    (QueryDone (match cmd with
                | MgmtCommand.Status => PrintedStatus (ServerStatus_new l)
                | MgmtCommand.ConsensusCommand _ _ =>
                    PrintedNewState (ServerStatus_new (commanded cmd l))
                end))
    (set_server (V4 a b c d port) (commanded cmd l) servers)).
Proof.
  intros Hload Hlvl Ha Hs Hl. unfold main. rewrite Hload. cbn [mbind option_bind].
  rewrite Hlvl. cbn [negb]. unfold run_query, try_resolve. rewrite Hs, parse_show_v4 by done.
  cbn [mbind option_bind]. rewrite (client_run_ok _ _ _ _ _ _ _ _ Ha Hl). by destruct cmd.
Qed.

(** A tick that starts a sender for an address and a time. *)
Definition good_tick (system : System) (i : CarbonTickInput) (s : SocketAddr * Duration) : Prop :=
  ti_timer i = true /\ ti_now i = Some (snd s) /\
  try_resolve (ti_dns i) (bs (carbon_address (carbon system))) = Some (fst s).

Lemma carbon_timer_good system ticks ss rest :
  Forall2 (good_tick system) ticks ss ->
  carbon_timer system (ticks ++ rest) =
  ('(ss', e) ← carbon_timer system rest; Some (ss ++ ss', e)).
Proof.
  induction 1 as [|i [addr ts] ticks ss (Ht & Hn & Hr) Hts IH]; cbn [app carbon_timer].
  { by destruct (carbon_timer system rest) as [[]|]. }
  unfold carbon_timer_step at 1. rewrite Ht, Hn, Hr. cbn [mbind option_bind negb fst snd].
  rewrite IH. by destruct (carbon_timer system rest) as [[]|].
Qed.

(** C31. The carbon timer: every tick with a readable clock and a backend address that
    resolves starts one sender, with the time and the address of that tick; the
    first tick with a clock before the epoch, or a failing timer, ends the timer
    for good, whatever comes later; and the first tick whose address does not
    resolve brings the whole process down. *)
Theorem carbon_timer_life (system : System) (ticks : list CarbonTickInput)
    (ss : list (SocketAddr * Duration)) :
  Forall2 (good_tick system) ticks ss ->
  carbon_timer system ticks = Some (ss, None) /\
  (forall i rest, ti_timer i = true -> ti_now i = None ->
     carbon_timer system (ticks ++ i :: rest) = Some (ss, Some GTime)) /\
  (forall i rest, ti_timer i = false ->
     carbon_timer system (ticks ++ i :: rest) = Some (ss, Some GTimer)) /\
  (forall i rest, ti_timer i = true -> is_Some (ti_now i) ->
     try_resolve (ti_dns i) (bs (carbon_address (carbon system))) = None ->
     carbon_timer system (ticks ++ i :: rest) = panic).
Proof.
  intros Hg. split_and!.
  - rewrite <-(app_nil_r ticks), (carbon_timer_good _ _ _ _ Hg). cbn. by rewrite app_nil_r.
  - intros i rest Ht Hn. rewrite (carbon_timer_good _ _ _ _ Hg). cbn [carbon_timer].
    unfold carbon_timer_step. rewrite Ht, Hn. cbn. by rewrite app_nil_r.
  - intros i rest Ht. rewrite (carbon_timer_good _ _ _ _ Hg). cbn [carbon_timer].
    unfold carbon_timer_step. rewrite Ht. cbn. by rewrite app_nil_r.
  - intros i rest Ht [ts Hn] Hr. rewrite (carbon_timer_good _ _ _ _ Hg). cbn [carbon_timer].
    unfold carbon_timer_step. by rewrite Ht, Hn, Hr.
Qed.
End daemon.
