(* ===== verification/Queue.v ===== *)
(** * The queues between threads ([mpsc::channel(task_queue_size)] of [main.rs])

    Every counting thread is fed by a bounded channel of the [futures] crate.  The
    crate is a parameter: a class of its operations with the behaviour it documents,
    a capacity of [buffer] messages shared by all senders and one more guaranteed to
    each of them.  The source never sends through a handle it keeps: every send
    clones one first.  The file shows what that makes of the bound. *)

From S2P Require Import Prelude.

(** ** [futures::sync::mpsc] *)
Class MpscLib := {
  Mpsc : Type -> Type;                         (* what the two ends share *)
  mpsc_channel : forall {A}, Z -> Mpsc A;            (* [channel(buffer)]; its handle is 0 *)
  mpsc_clone : forall {A}, Mpsc A -> nat * Mpsc A;   (* a new handle *)
  mpsc_drop : forall {A}, nat -> Mpsc A -> Mpsc A;
  (* [try_send] of a handle; [None]: the message is refused, the queue is full *)
  mpsc_try_send : forall {A}, nat -> A -> Mpsc A -> option (Mpsc A);
  mpsc_recv : forall {A}, Mpsc A -> option (A * Mpsc A);
  (* what an observer sees: sent and not received, oldest first; the size asked
     for; whether the slot guaranteed to a handle is free *)
  mpsc_items : forall {A}, Mpsc A -> list A;
  mpsc_buffer : forall {A}, Mpsc A -> Z;
  mpsc_slot : forall {A}, nat -> Mpsc A -> bool
}.

(** Documented: messages are received in the order they were sent, "the channel
    capacity is equal to [buffer + num-senders]; each sender gets a guaranteed slot
    in the channel capacity, and on top of that there are [buffer] first come, first
    serve slots available to all senders". *)
Class MpscOk (Q : MpscLib) : Prop := {
  channel_new A n : mpsc_items (@mpsc_channel _ A n) = [] /\ mpsc_buffer (@mpsc_channel _ A n) = n;
  clone_same A (q : Mpsc A) : mpsc_items (snd (mpsc_clone q)) = mpsc_items q /\
    mpsc_buffer (snd (mpsc_clone q)) = mpsc_buffer q;
  clone_slot A (q : Mpsc A) : mpsc_slot (fst (mpsc_clone q)) (snd (mpsc_clone q)) = true;
  drop_same A h (q : Mpsc A) : mpsc_items (mpsc_drop h q) = mpsc_items q /\
    mpsc_buffer (mpsc_drop h q) = mpsc_buffer q;
  send_accepted A h (a : A) q :
    mpsc_slot h q = true \/ blen (mpsc_items q) < mpsc_buffer q ->
    is_Some (mpsc_try_send h a q);
  send_appends A h (a : A) q q' : mpsc_try_send h a q = Some q' ->
    mpsc_items q' = mpsc_items q ++ [a] /\ mpsc_buffer q' = mpsc_buffer q;
  recv_empty A (q : Mpsc A) : mpsc_items q = [] -> mpsc_recv q = None;
  recv_oldest A (q : Mpsc A) a l : mpsc_items q = a :: l ->
    exists q', mpsc_recv q = Some (a, q') /\ mpsc_items q' = l /\ mpsc_buffer q' = mpsc_buffer q
}.

(** A reference channel: the messages, each with the handle whose own slot it
    occupies, if any. *)
Record RefChannel (A : Type) := mkRefChannel {
  rc_buffer : Z;
  rc_items : list (option nat * A);
  rc_next : nat
}.
#[global] Arguments mkRefChannel {A}.
#[global] Arguments rc_buffer {A}.
#[global] Arguments rc_items {A}.
#[global] Arguments rc_next {A}.

Definition ref_slot {A} (h : nat) (q : RefChannel A) : bool :=
  bool_decide (Forall (fun x => fst x <> Some h) (rc_items q)).
Definition ref_shared {A} (q : RefChannel A) : Z :=
  blen (List.filter (fun x => bool_decide (fst x = None)) (rc_items q)).

(** A handle above all those in use. *)
Definition ref_handle {A} (q : RefChannel A) : nat :=
  foldr (fun x n => Nat.max (match fst x with Some h => S h | None => 0 end) n)
        (rc_next q) (rc_items q).

Definition ref_try_send {A} (h : nat) (a : A) (q : RefChannel A) : option (RefChannel A) :=
  let add owner := Some {| rc_buffer := rc_buffer q; rc_items := rc_items q ++ [(owner, a)];
                           rc_next := rc_next q |} in
  if decide (ref_shared q < rc_buffer q) then add None
  else if ref_slot h q then add (Some h) else None.

Definition ref_recv {A} (q : RefChannel A) : option (A * RefChannel A) :=
  match rc_items q with
  | [] => None
  | (_, a) :: l => Some (a, {| rc_buffer := rc_buffer q; rc_items := l; rc_next := rc_next q |})
  end.

#[export] Instance RefMpsc : MpscLib := {|
  Mpsc := RefChannel;
  mpsc_channel _ n := {| rc_buffer := n; rc_items := []; rc_next := 1 |};
  mpsc_clone _ q := (ref_handle q, {| rc_buffer := rc_buffer q; rc_items := rc_items q;
                                      rc_next := S (ref_handle q) |});
  mpsc_drop _ _ q := q;
  mpsc_try_send _ := ref_try_send;
  mpsc_recv _ := ref_recv;
  mpsc_items _ q := (rc_items q).*2;
  mpsc_buffer _ := rc_buffer;
  mpsc_slot _ := ref_slot
|}.

Lemma ref_handle_fresh {A} (q : RefChannel A) :
  Forall (fun x => fst x <> Some (ref_handle q)) (rc_items q).
Proof.
  assert (H : Forall (fun x => forall h, fst x = Some h -> (h < ref_handle q)%nat) (rc_items q)).
  { unfold ref_handle. induction (rc_items q) as [|[[o|] a] l IH]; constructor; cbn [foldr fst].
    - intros h [= ->]. lia.
    - eapply List.Forall_impl; [|exact IH]. cbn. intros x Hx h Hh. specialize (Hx h Hh). lia.
    - done.
    - eapply List.Forall_impl; [|exact IH]. cbn. intros x Hx h Hh. specialize (Hx h Hh). lia. }
  eapply List.Forall_impl; [|exact H]. cbn. intros x Hx Heq. specialize (Hx _ Heq). lia.
Qed.

#[export] Instance RefMpscOk : MpscOk RefMpsc.
Proof.
  split; cbn; try done.
  - intros A q. apply bool_decide_eq_true_2. apply (ref_handle_fresh q).
  - intros A h a q Hq. unfold ref_try_send. case_decide as Hd; [by eexists|].
    destruct (ref_slot h q); [by eexists|]. destruct Hq as [|Hq]; [done|]. exfalso. apply Hd.
    unfold ref_shared, blen in *. rewrite length_fmap in Hq.
    pose proof (List.filter_length_le (fun x => bool_decide (fst x = None)) (rc_items q)). lia.
  - intros A h a q q'. unfold ref_try_send.
    repeat case_match; try done; intros [= <-]; cbn; by rewrite fmap_app.
  - intros A q Hq. unfold ref_recv. by destruct (rc_items q) as [|[]].
  - intros A q a l. unfold ref_recv. destruct (rc_items q) as [|[o b] l'] eqn:Hi; [done|].
    intros [= <- <-]. by eexists.
Qed.

(** A handle that is kept and reused is held to the bound: its sends are refused
    once the shared slots and its own are taken. *)
Example reused_handle_refused :
  (q ← mpsc_try_send 0%nat 1 (mpsc_channel 1); q ← mpsc_try_send 0%nat 2 q;
   mpsc_try_send 0%nat 3 q) = None.
Proof. reflexivity. Qed.

Section queue.
Context {Q : MpscLib} {A : Type}.

(** [chan.clone()] and [try_send] or [send]: how the source sends a task. *)
Definition clone_send (a : A) (q : Mpsc A) : option (Mpsc A) :=
  let '(h, q) := mpsc_clone q in
  q ← mpsc_try_send h a q;
  Some (mpsc_drop h q).

(** Sends and receives on a queue, and what they did: the messages received and
    those refused. *)
Inductive QueueOp := QSend (a : A) | QRecv.

Fixpoint queue_run (q : Mpsc A) (ops : list QueueOp) : Mpsc A * list A * list A :=
  match ops with
  | [] => (q, [], [])
  | QSend a :: ops =>
      match clone_send a q with
      | Some q => queue_run q ops
      | None => let '(q, got, refused) := queue_run q ops in (q, got, a :: refused)
      end
  | QRecv :: ops =>
      match mpsc_recv q with
      | Some (a, q) => let '(q, got, refused) := queue_run q ops in (q, a :: got, refused)
      | None => queue_run q ops
      end
  end.

Definition queue_sent (ops : list QueueOp) : list A :=
  omap (fun o => match o with QSend a => Some a | QRecv => None end) ops.

Context {QOK : MpscOk Q}.

Lemma clone_send_items (a : A) q :
  exists q', clone_send a q = Some q' /\ mpsc_items q' = mpsc_items q ++ [a] /\
             mpsc_buffer q' = mpsc_buffer q.
Proof.
  unfold clone_send. pose proof (clone_same A q) as [Hi Hb]. pose proof (clone_slot A q) as Hs.
  destruct (mpsc_clone q) as [h q1]. cbn [fst snd] in *.
  destruct (send_accepted A h a q1 (or_introl Hs)) as [q2 Hq2]. rewrite Hq2.
  destruct (send_appends A h a q1 q2 Hq2) as [Hi2 Hb2]. destruct (drop_same A h q2) as [Hi3 Hb3].
  eexists. split; [done|]. rewrite Hi3, Hi2, Hi, Hb3, Hb2, Hb. done.
Qed.

Lemma queue_run_spec ops q :
  exists q' got, queue_run q ops = (q', got, []) /\ mpsc_buffer q' = mpsc_buffer q /\
    got ++ mpsc_items q' = mpsc_items q ++ queue_sent ops.
Proof.
  revert q. induction ops as [|[a|] ops IH]; intros q; cbn [queue_run].
  { exists q, []. split_and!; [done..|]. cbn. by rewrite app_nil_r. }
  - destruct (clone_send_items a q) as (q1 & -> & Hi & Hb).
    destruct (IH q1) as (q' & got & -> & Hb' & Hg). exists q', got.
    split_and!; [done|congruence|]. rewrite Hg, Hi, <-app_assoc. done.
  - destruct (mpsc_items q) as [|a l] eqn:Hq.
    + rewrite (recv_empty A q Hq). destruct (IH q) as (q' & got & -> & Hb & Hg).
      exists q', got. split_and!; [done..|]. by rewrite Hg, Hq.
    + destruct (recv_oldest A q a l Hq) as (q1 & -> & Hi & Hb).
      destruct (IH q1) as (q' & got & -> & Hb' & Hg). exists q', (a :: got).
      split_and!; [done|congruence|]. cbn. by rewrite Hg, Hi.
Qed.

(** C20. The queue of a counting thread: whatever size the channel was created with,
    no send is ever refused, messages are received in the order they were sent, and
    what is neither received nor refused is waiting; so the queue grows with every
    send the worker does not keep up with, past any configured size. *)
Theorem queue_size_bounds_nothing (size : Z) (ops : list QueueOp) :
  exists q got,
    queue_run (mpsc_channel size) ops = (q, got, []) /\ mpsc_buffer q = size /\
    got ++ mpsc_items q = queue_sent ops.
Proof.
  destruct (channel_new A size) as [Hi Hb].
  destruct (queue_run_spec ops (mpsc_channel size)) as (q & got & H1 & H2 & H3).
  exists q, got. rewrite Hi in H3. by rewrite Hb in H2.
Qed.
End queue.
#[global] Arguments QueueOp : clear implicits.
