(* ===== verification/Node.v ===== *)
(** * A running node: its threads, queues and timers interleaved
    ([main] of [src/src/main.rs] with everything it starts)

    The components of the other files run concurrently: listeners and receive
    threads hand buffers to the queues of the counting threads, each counting thread
    takes the oldest task of its queue, timers request snapshots and rotations, and
    the replies come back whenever a worker gets to them.  A node is a transition
    system with one event per such step, so a sequence of events is one interleaving.
    Futures that were spawned and not polled yet, requests that were not answered
    yet, and replies that were not read yet are part of the state. *)

From S2P Require Import Prelude Interfaces Globals Config Task TaskFacts Worker Aggregate.
From S2P Require Import Carbon Util Server Udp Peer Main Daemon Queue.

Section node.
Context {BL : BytesLib} {ML : MetricLib} {PL : ParserLib BL ML} {XL : ExecutorLib}.
Context {HI : HashIter} {CL : CapnpLib ML} {FL : FtoaLib BL} {Q : MpscLib}.
Context {AHS : AddrHash SocketAddr} {AHB : AddrHash bytes}.

(** ** State *)

(** A reply channel: nothing came yet, a cache came, the cache was read. *)
Inductive Slot := Expected | Arrived (c : Cache) | Taken.

(** A counting thread: its queue, its runner, and the tasks it has run. *)
Record WorkerThread := mkWorkerThread {
  wt_queue : Mpsc Task;
  wt_runner : TaskRunner;
  wt_ran : list Task
}.

(** A carbon thread: the aggregator it runs, the time and the address of its tick,
    the replies of the workers, what it has joined, and the values its backend
    channel has received.  It collects replies, then waits for the values of the
    tasks it gave out, and ends with its clients, or without when it panicked. *)
Inductive Stage :=
| Collecting | Formatting | Ended (backends : option (list CarbonBackend)).

Record CarbonThread := mkCarbonThread {
  ct_aggregator : Aggregator;
  ct_ts : Duration;
  ct_addr : SocketAddr;
  ct_slots : list Slot;
  ct_joined : list Cache;
  ct_acc : Cache;
  ct_values : list (bytes * Float);
  ct_stage : Stage
}.

(** The receivers of either mode and the flush flags they share with the timer. *)
Record Inputs := mkInputs {
  in_flags : list bool;
  in_listeners : list (option StatsdServer);
  in_threads : list (MudpThread * MudpState)
}.

Record NodeState := mkNodeState {
  ns_inputs : Inputs;
  ns_spawned : list (nat * Task);            (* sends spawned and not polled yet *)
  ns_workers : list WorkerThread;
  ns_snapshot : option (list Slot);          (* the replies of the running snapshot *)
  ns_carbon : list CarbonThread;
  ns_leader : bool;                          (* [IS_LEADER] *)
  ns_stats : Stats
}.

Definition set_inputs (nd : NodeState) (i : Inputs) : NodeState :=
  mkNodeState i (ns_spawned nd) (ns_workers nd) (ns_snapshot nd) (ns_carbon nd) (ns_leader nd)
    (ns_stats nd).
Definition set_spawned (nd : NodeState) (l : list (nat * Task)) : NodeState :=
  mkNodeState (ns_inputs nd) l (ns_workers nd) (ns_snapshot nd) (ns_carbon nd) (ns_leader nd)
    (ns_stats nd).
Definition set_workers (nd : NodeState) (ws : list WorkerThread) : NodeState :=
  mkNodeState (ns_inputs nd) (ns_spawned nd) ws (ns_snapshot nd) (ns_carbon nd) (ns_leader nd)
    (ns_stats nd).
Definition set_snapshot (nd : NodeState) (s : option (list Slot)) : NodeState :=
  mkNodeState (ns_inputs nd) (ns_spawned nd) (ns_workers nd) s (ns_carbon nd) (ns_leader nd)
    (ns_stats nd).
Definition set_carbon (nd : NodeState) (cs : list CarbonThread) : NodeState :=
  mkNodeState (ns_inputs nd) (ns_spawned nd) (ns_workers nd) (ns_snapshot nd) cs (ns_leader nd)
    (ns_stats nd).
Definition set_leader (nd : NodeState) (b : bool) : NodeState :=
  mkNodeState (ns_inputs nd) (ns_spawned nd) (ns_workers nd) (ns_snapshot nd) (ns_carbon nd) b
    (ns_stats nd).
Definition set_stats (nd : NodeState) (st : Stats) : NodeState :=
  mkNodeState (ns_inputs nd) (ns_spawned nd) (ns_workers nd) (ns_snapshot nd) (ns_carbon nd)
    (ns_leader nd) st.

(** What [main] starts: the queues are empty and nothing is under way. *)
Definition node_init (system : System) (d : DaemonState) : NodeState := {|
  ns_inputs := {|
    in_flags := d_flush_flags d;
    in_listeners := match d_receivers d with
                    | AsyncReceivers _ ls => map Some ls | SyncReceivers _ => [] end;
    in_threads := match d_receivers d with
                  | SyncReceivers ts => map (fun ft => (snd ft, MudpState_init (snd ft))) ts
                  | AsyncReceivers _ _ => [] end |};
  ns_spawned := [];
  ns_workers := map (fun r => {| wt_queue := mpsc_channel (task_queue_size system);
                                 wt_runner := r; wt_ran := [] |}) (d_workers d);
  ns_snapshot := None;
  ns_carbon := [];
  ns_leader := is_leader (d_leadership d);
  ns_stats := initial_stats
|}.

(** ** Effects *)

(** The identity of the reply channel a request carries: the carbon thread that
    asks, or the snapshot timer, and the worker that is asked. *)
Definition reply_id (k : option nat) (w : nat) : nat := countable.encode_nat (k, w).

Definition fill_slot (w : nat) (c : Cache) (slots : list Slot) : list Slot :=
  <[w := Arrived c]> slots.

Definition with_slots (ct : CarbonThread) (slots : list Slot) : CarbonThread :=
  mkCarbonThread (ct_aggregator ct) (ct_ts ct) (ct_addr ct) slots (ct_joined ct) (ct_acc ct)
    (ct_values ct) (ct_stage ct).
Definition with_value (v : bytes * Float) (ct : CarbonThread) : CarbonThread :=
  mkCarbonThread (ct_aggregator ct) (ct_ts ct) (ct_addr ct) (ct_slots ct) (ct_joined ct)
    (ct_acc ct) (ct_values ct ++ [v]) (ct_stage ct).
Definition with_stage (ct : CarbonThread) (s : Stage) : CarbonThread :=
  mkCarbonThread (ct_aggregator ct) (ct_ts ct) (ct_addr ct) (ct_slots ct) (ct_joined ct)
    (ct_acc ct) (ct_values ct) s.

(** A reply reaches the channel it was asked for on. *)
Definition reply (nd : NodeState) (id : nat) (c : Cache) : NodeState :=
  match countable.decode_nat (A := option nat * nat) id with
  | Some (None, w) => set_snapshot nd (fill_slot w c <$> ns_snapshot nd)
  | Some (Some k, w) =>
      set_carbon nd (alter (fun ct => with_slots ct (fill_slot w c (ct_slots ct))) k (ns_carbon nd))
  | None => nd
  end.

(** A task is put into the queue of its worker. *)
Definition enqueue (nd : NodeState) (ct : nat * Task) : option NodeState :=
  let '(ch, t) := ct in
  wt ← ns_workers nd !! ch;
  q ← clone_send t (wt_queue wt);
  Some (set_workers nd (<[ch := {| wt_queue := q; wt_runner := wt_runner wt;
                                   wt_ran := wt_ran wt |}]> (ns_workers nd))).

(** An effect of a component on the rest of the node.  [try_send] puts a task into
    its queue at once, [spawn(chan.send(..))] when the future is polled. *)
Definition emit (direct : bool) (nd : NodeState) (e : NodeEffect) : option NodeState :=
  match e with
  | Plain (Count c n) => Some (set_stats nd (fetch_add c n (ns_stats nd)))
  | Plain (SendCache id c) => Some (reply nd id c)
  | Plain (SendValue k v) => Some (set_carbon nd (alter (with_value v) k (ns_carbon nd)))
  | SendTask ch t => if direct then enqueue nd (ch, t)
                     else Some (set_spawned nd (ns_spawned nd ++ [(ch, t)]))
  end.

Fixpoint emit_all (direct : bool) (nd : NodeState) (es : list NodeEffect) : option NodeState :=
  match es with
  | [] => Some nd
  | e :: es => nd ← emit direct nd e; emit_all direct nd es
  end.

(** ** Events *)
Inductive NodeEvent :=
| EDatagram (l : nat) (received : bytes) (size : Z) (addr : SocketAddr)
| ERecvError (l : nat)                              (* a listener's socket fails *)
| EBatch (k : nat) (b : Batch)                      (* [recvmmsg] of thread [k] returns *)
| EFlush                                            (* a tick of the flush timer *)
| EMessage (n : nat) (reader : Reader)              (* the [n]-th message of a connection *)
| EStats                                            (* a tick of the own-stats timer *)
| ESnapshot                                         (* a tick of the snapshot timer *)
| EJoin                                             (* [join_all] of its replies completes *)
| ECarbon (addr : SocketAddr) (ts : Duration)       (* a tick of the carbon timer *)
| ERead (k w : nat)                                 (* carbon thread [k] reads a reply *)
| EFormat (k : nat)                                 (* all replies are joined *)
| EBackend (k : nat)                                (* all values were received *)
| ELeader (b : bool)                                (* consensus or a command *)
| EPoll (j : nat)                                   (* a spawned send is polled *)
| EWork (w : nat)                                   (* worker [w] runs its oldest task *)
| EPeerFail.                                        (* an attempt of a snapshot client fails *)

(** What leaves the node, and the effects within it. *)
Inductive NodeOut := OEffect (e : NodeEffect) | OPeer (s : SnapshotSender).

Definition node_effects (os : list NodeOut) : list NodeEffect :=
  omap (fun o => match o with OEffect e => Some e | OPeer _ => None end) os.
Definition snapshots_out (os : list NodeOut) : list SnapshotSender :=
  omap (fun o => match o with OPeer s => Some s | OEffect _ => None end) os.

(** The requests of a timer, with their reply channels. *)
Definition request_all (task : Chan -> Task) (k : option nat) (chans : list Chan)
  : list NodeEffect :=
  imap (fun i ch => SendTask (ch_id ch) (task {| ch_id := reply_id k i; ch_open := true |})) chans.

Definition slot_reply (s : Slot) : option (option Cache) :=
  match s with Arrived c => Some (Some c) | Expected | Taken => None end.

Definition is_taken (s : Slot) : bool := match s with Taken => true | _ => false end.

(** The tasks that are on their way to a worker. *)
Definition queued (nd : NodeState) : list Task :=
  concat (map (fun wt => mpsc_items (wt_queue wt)) (ns_workers nd)).
Definition waiting (nd : NodeState) : list Task := (ns_spawned nd).*2 ++ queued nd.

(** The tasks of a carbon thread that a worker still has to run: each holds a sender
    of its backend channel. *)
Definition formats_for (k : nat) (t : Task) : bool :=
  match t with Aggregate data => bool_decide (ch_id (ad_response data) = k) | _ => false end.
Definition outstanding (k : nat) (nd : NodeState) : list Task :=
  List.filter (formats_for k) (waiting nd).

Section step.
Context (system : System) (d : DaemonState).

Abbreviation Act := (option (NodeState * list NodeEffect * list SnapshotSender)).

(** The receivers. *)
Definition act_datagram (nd : NodeState) (l : nat) (received : bytes) (size : Z)
    (addr : SocketAddr) : Act :=
  let i := ns_inputs nd in
  match in_listeners i !! l with
  | Some (Some s) =>
      '(so, flags, es) ← on_datagram s (in_flags i) received size addr;
      Some (set_inputs nd {| in_flags := flags; in_listeners := <[l := so]> (in_listeners i);
                             in_threads := in_threads i |}, es, [])
  | _ => None
  end.

Definition act_batch (nd : NodeState) (k : nat) (b : Batch) : Act :=
  let i := ns_inputs nd in
  '(t, st) ← in_threads i !! k;
  '(st, flags, es) ← mudp_step t (st, in_flags i) (Received b);
  Some (set_inputs nd {| in_flags := flags; in_listeners := in_listeners i;
                         in_threads := <[k := (t, st)]> (in_threads i) |}, es, []).

Definition act_message (nd : NodeState) (n : nat) (reader : Reader) : Act :=
  next_chan ← cycle_next (d_chans d) n;
  Some (nd, match parse_and_send reader next_chan with inl _ => [] | inr es => es end, []).

Definition act_stats (nd : NodeState) : Act :=
  '(stats, sent) ← get_stats (fst (d_own_stats d)) (ns_stats nd);
  Some (set_stats nd stats,
        map (fun nm => SendTask (ch_id (snd (d_own_stats d))) (AddMetric (fst nm) (snd nm))) sent,
        []).

(** The snapshot timer: [for_each] does not take the next tick before the future of
    the previous one is done. *)
Definition act_snapshot (nd : NodeState) : Act :=
  match ns_snapshot nd with
  | Some _ => None
  | None => Some (set_snapshot nd (Some (map (fun _ => Expected) (d_chans d))),
                  request_all TakeSnapshot None (d_chans d), [])
  end.

Definition act_join (nd : NodeState) : Act :=
  slots ← ns_snapshot nd;
  replies ← mapM slot_reply slots;
  match snapshot_tick (d_snapshot d) replies with
  | (inl _, _) => None
  | (inr senders, es) => Some (set_snapshot nd None, map Plain es, senders)
  end.

(** The carbon threads.  One that panics ends without clients; what it counted before
    it panicked in [Separate] mode is left out. *)
Definition act_carbon (nd : NodeState) (addr : SocketAddr) (ts : Duration) : Act :=
  let k := length (ns_carbon nd) in
  let options := tick_options (metrics system) (ns_leader nd) in
  let ct := {| ct_aggregator := Aggregator_new options (d_chans d)
                                  {| ch_id := k; ch_open := ns_leader nd |};
               ct_ts := ts; ct_addr := addr;
               ct_slots := map (fun _ => Expected) (d_chans d); ct_joined := []; ct_acc := ∅;
               ct_values := []; ct_stage := Collecting |} in
  Some (set_carbon nd (ns_carbon nd ++ [ct]), request_all Rotate (Some k) (d_chans d), []).

Definition leads (ct : CarbonThread) : bool := ao_is_leader (ag_options (ct_aggregator ct)).

Definition act_read (nd : NodeState) (k w : nat) : Act :=
  ct ← ns_carbon nd !! k;
  match ct_slots ct !! w with
  | Some (Arrived c) =>
      '(acc, es) ← (if leads ct then
                      '(res, es) ← accumulate (ct_acc ct) [Some c]; acc ← res; Some (acc, es)
                    else Some (ct_acc ct, []));
      Some (set_carbon nd (<[k := {|
        ct_aggregator := ct_aggregator ct; ct_ts := ct_ts ct; ct_addr := ct_addr ct;
        ct_slots := <[w := Taken]> (ct_slots ct); ct_joined := ct_joined ct ++ [c];
        ct_acc := acc; ct_values := ct_values ct; ct_stage := ct_stage ct |}]> (ns_carbon nd)),
        map Plain es, [])
  | _ => None
  end.

Definition act_format (nd : NodeState) (k : nat) : Act :=
  ct ← ns_carbon nd !! k;
  match ct_stage ct with
  | Collecting =>
      if forallb is_taken (ct_slots ct) then
        let ended s := set_carbon nd (<[k := with_stage ct s]> (ns_carbon nd)) in
        if leads ct then
          match aggregate_mode (ct_aggregator ct) (ct_acc ct) with
          | Some es => Some (ended Formatting, es, [])
          | None => Some (ended (Ended None), [], [])
          end
        else Some (ended (Ended (Some [])), [], [])
      else None
  | _ => None
  end.

Definition act_backend (nd : NodeState) (k : nat) : Act :=
  ct ← ns_carbon nd !! k;
  match ct_stage ct, outstanding k nd with
  | Formatting, [] =>
      let '(bs, es) := match carbon_sender (carbon system) (ct_addr ct) (ct_ts ct) (ct_values ct) with
                       | Some (bs, es) => (Some bs, es)
                       | None => (None, map (fun _ => Count EGRESS 1) (ct_values ct)) end in
      Some (set_carbon nd (<[k := with_stage ct (Ended bs)]> (ns_carbon nd)), map Plain es, [])
  | _, _ => None
  end.

(** The counting threads and the executors. *)
Definition act_poll (nd : NodeState) (j : nat) : Act :=
  ct ← ns_spawned nd !! j;
  nd ← enqueue (set_spawned nd (delete j (ns_spawned nd))) ct;
  Some (nd, [], []).

Definition act_work (nd : NodeState) (w : nat) : Act :=
  wt ← ns_workers nd !! w;
  '(t, q) ← mpsc_recv (wt_queue wt);
  '(r, es) ← run (wt_runner wt) t;
  Some (set_workers nd (<[w := {| wt_queue := q; wt_runner := r;
                                  wt_ran := wt_ran wt ++ [t] |}]> (ns_workers nd)),
        map Plain es, []).

Definition node_act (nd : NodeState) (ev : NodeEvent) : Act :=
  match ev with
  | EDatagram l received size addr => act_datagram nd l received size addr
  | ERecvError l =>
      let i := ns_inputs nd in
      Some (set_inputs nd {| in_flags := in_flags i; in_listeners := <[l := None]> (in_listeners i);
                             in_threads := in_threads i |}, [], [])
  | EBatch k b => act_batch nd k b
  | EFlush =>
      let i := ns_inputs nd in
      Some (set_inputs nd {| in_flags := flush_timer_tick system (in_flags i);
                             in_listeners := in_listeners i; in_threads := in_threads i |}, [], [])
  | EMessage n reader => act_message nd n reader
  | EStats => act_stats nd
  | ESnapshot => act_snapshot nd
  | EJoin => act_join nd
  | ECarbon addr ts => act_carbon nd addr ts
  | ERead k w => act_read nd k w
  | EFormat k => act_format nd k
  | EBackend k => act_backend nd k
  | ELeader b => Some (set_leader nd b, [], [])
  | EPoll j => act_poll nd j
  | EWork w => act_work nd w
  | EPeerFail => Some (nd, [Plain (Count PEER_ERRORS 1)], [])
  end.

Definition is_direct (ev : NodeEvent) : bool := match ev with EBatch _ _ => true | _ => false end.

(** One step of the node; [None]: the event cannot happen in this state, or the
    thread it happens on panics. *)
Definition node_step (nd : NodeState) (ev : NodeEvent) : option (NodeState * list NodeOut) :=
  '(nd, es, senders) ← node_act nd ev;
  nd ← emit_all (is_direct ev) nd es;
  Some (nd, map OEffect es ++ map OPeer senders).

Definition node_run (nd : NodeState) (evs : list NodeEvent) : option (NodeState * list NodeOut) :=
  foldEP node_step nd evs.
End step.

(** ** What kind of effects a step has *)
Definition effect_fits (ev : NodeEvent) (e : NodeEffect) : bool :=
  match ev, e with
  | (EDatagram _ _ _ _ | EBatch _ _), (Plain (Count _ _) | SendTask _ (Parse _ _)) => true
  | EMessage _ _, SendTask _ (AddMetric _ _ | AddMetrics _ | AddSnapshot _) => true
  | EStats, SendTask _ (AddMetric _ _) => true
  | ESnapshot, SendTask _ (TakeSnapshot _) => true
  | ECarbon _ _, SendTask _ (Rotate _) => true
  | (ERead _ _ | EBackend _), Plain (Count _ _) => true
  | EFormat _, (Plain (Count _ _ | SendValue _ _) | SendTask _ (Aggregate _)) => true
  | EWork _, Plain _ => true
  | EPeerFail, Plain (Count _ _) => true
  | _, _ => false
  end.

Definition fits (ev : NodeEvent) (es : list NodeEffect) : Prop :=
  Forall (fun e => effect_fits ev e = true) es.

Definition is_count (e : Effect) : Prop := match e with Count _ _ => True | _ => False end.

Lemma counts_fit ev es :
  (forall c n, effect_fits ev (Plain (Count c n)) = true) -> Forall is_count es ->
  fits ev (map Plain es).
Proof. intros Hev. induction 1 as [|[]]; constructor; done. Qed.

Lemma on_datagram_fits ev s flags received size addr so flags' es :
  (forall c n, effect_fits ev (Plain (Count c n)) = true) ->
  (forall ch h b, effect_fits ev (SendTask ch (Parse h b)) = true) ->
  on_datagram s flags received size addr = Some (so, flags', es) -> fits ev es.
Proof.
  intros Hc Hp. unfold on_datagram. case_decide; [intros [= <- <- <-]; by repeat constructor|].
  destruct (store_datagram _ _ _ _); cbn [mbind option_bind]; [|done].
  destruct (index _ _); cbn [mbind option_bind]; [|done].
  case_match; [|intros [= <- <- <-]; by repeat constructor].
  destruct (foldEP _ _ _) as [[n e]|] eqn:Hf; cbn [mbind option_bind]; [|done].
  intros [= <- <- <-]. constructor; [done|]. eapply foldEP_effects; [|exact Hf].
  intros n1 [b1 buf] n2 e1. unfold dispatch.
  destruct (consistent_parsing _).
  - destruct (decide (blen _ = 0)); cbn [mbind option_bind]; [done|].
    destruct (index _ _) as [c|]; cbn [mbind option_bind]; [|done].
    intros [= <- <-]. destruct (ch_open c); by repeat constructor.
  - destruct (index _ _) as [c|]; cbn [mbind option_bind]; [|done].
    intros [= <- <-]. destruct (ch_open c); by repeat constructor.
Qed.

Lemma mudp_step_fits ev t st m st' es :
  (forall c n, effect_fits ev (Plain (Count c n)) = true) ->
  (forall ch h b, effect_fits ev (SendTask ch (Parse h b)) = true) ->
  mudp_step t st m = Some (st', es) -> fits ev es.
Proof.
  intros Hc Hp. destruct st as [st flags], st' as [st' flags'], m as [b|]; cbn [mudp_step];
    [|intros [= <- <- <-]; constructor].
  unfold on_batch. case_decide; [|intros [= <- <- <-]; constructor].
  destruct (foldEP _ _ _) as [[st1 e1]|] eqn:H1; cbn [mbind option_bind]; [|done].
  destruct (index _ _); cbn [mbind option_bind]; [|done].
  assert (He1 : fits ev e1).
  { eapply foldEP_effects; [|exact H1]. intros s x s1 e. unfold receive_message.
    clear -Hc. intros H. simplify_option_eq; by repeat constructor. }
  case_match; [|by intros [= <- <- <-]].
  destruct (foldEP _ _ (hiter _)) as [[pos e2]|] eqn:H2; cbn [mbind option_bind]; [|done].
  intros [= <- <- <-]. apply Forall_app_2; [done|]. eapply foldEP_effects; [|exact H2].
  intros s [addr buf] s1 e. unfold drain_entry.
  destruct (decide (blen _ = 0)); [done|].
  destruct (consistent_parsing _).
  all: destruct (index _ _) as [c|]; cbn [mbind option_bind]; [|done];
    intros [= <- <-]; by repeat constructor.
Qed.

Lemma spawn_all_fits ctx ch vs u u' es :
  foldEP (fun (_ : ()) v => es ← spawn_send ctx ch v; Some ((), es)) u vs = Some (u', es) ->
  Forall (fun e => match e with SendCache _ _ => False | _ => True end) es.
Proof.
  intros Hf. eapply foldEP_effects; [|exact Hf]. intros s v s1 e1. cbn beta. unfold spawn_send.
  destruct (can_spawn ctx); cbn; [|done]. intros [= _ <-]. destruct (ch_open ch); by repeat constructor.
Qed.

Lemma aggregate_mode_fits k a acc es : aggregate_mode a acc = Some es -> fits (EFormat k) es.
Proof.
  unfold aggregate_mode. destruct a as [options chans tx].
  assert (Hhere : forall ctx nm e1, aggregate_here ctx options tx nm = Some e1 -> fits (EFormat k) e1).
  { intros ctx nm e1. unfold aggregate_here, aggregate_task, task_data.
    destruct (update_counter_value _ _ _ _) as [[b u]|]; cbn [mbind option_bind]; [|done].
    destruct (foldEP _ _ _) as [[u' e]|] eqn:Hf; cbn [mbind option_bind]; [|done].
    intros [= <-]. apply spawn_all_fits in Hf. constructor; [done|].
    induction Hf as [|x e Hx _ IH]; constructor; [|exact IH]. by destruct x. }
  destruct (ao_aggregation_mode options);
    (match goal with |- context [foldEP ?f ?s ?l] => destruct (foldEP f s l) as [[u e]|] eqn:Hf end;
     [|done]); cbn [mbind option_bind]; intros [= <-]; (eapply foldEP_effects; [|exact Hf]);
    intros s nm s1 e1; cbn beta.
  1,3: destruct (aggregate_here _ _ _ _) as [e'|] eqn:Hh; [|done]; cbn; intros [= _ <-];
       by eapply Hhere.
  unfold aggregate_common. case_decide; [done|]. destruct (index _ _) as [ch|]; [|done]. cbn.
  intros [= _ <-]. destruct (ch_open ch); by repeat constructor.
Qed.

Lemma carbon_sender_counts c addr ts vs bs es :
  carbon_sender c addr ts vs = Some (bs, es) -> Forall is_count es.
Proof.
  unfold carbon_sender. destruct (slice_chunks _ _) as [cs|]; cbn [mbind option_bind]; [|done].
  match goal with |- context [foldE ?f ?s ?l] =>
    pose proof (foldE_effects is_count f s l) as Hf; destruct (foldE f s l) as [bs' es'] end.
  intros [= <- <-]. apply Forall_app_2.
  { apply list.Forall_forall; by intros e (x & -> & _)%list_elem_of_fmap. }
  apply Hf. intros acc chunk. unfold CarbonBackend_new.
  match goal with |- context [foldE ?f ?s ?l] =>
    pose proof (foldE_effects is_count f s l) as Hg; destruct (foldE f s l) as [[acc' buf] es2] end.
  cbn [snd] in *. apply Hg. intros [a b] [n v]. unfold render_metric.
  repeat case_match; cbn; by repeat constructor.
Qed.

Lemma update_metric_counts c km : Forall is_count (snd (update_metric c km)).
Proof. destruct km; simpl; repeat case_match; simplify_eq/=; by repeat constructor. Qed.

Lemma accumulate_counts acc c res es :
  accumulate acc [Some c] = Some (res, es) -> Forall is_count es.
Proof.
  cbn [accumulate]. rewrite foldEP_accumulate. cbn [mbind option_bind].
  pose proof (foldE_effects is_count _ acc (hiter c) update_metric_counts) as Hn.
  destruct (foldE update_metric acc (hiter c)) as [a1 e1]. cbn [mbind option_bind snd] in *.
  intros [= <- <-]. by rewrite app_nil_r.
Qed.

Lemma message_fits n reader ch :
  fits (EMessage n reader) (match parse_and_send reader ch with inl _ => [] | inr es => es end).
Proof.
  destruct reader as [e|[[e|r]|[e|r]|[e|r]]]; cbn [parse_and_send]; try constructor;
    unfold send_task; destruct (from_capnp r) as [|[]] || idtac;
    try destruct (ch_open ch); by repeat constructor.
Qed.

Lemma request_fits ev task k chans :
  (forall i ch, effect_fits ev (SendTask i (task ch)) = true) -> fits ev (request_all task k chans).
Proof.
  intros Ht. apply list.Forall_forall. intros x (i & ch & -> & _)%elem_of_lookup_imap_1. apply Ht.
Qed.

(** Each component has only its own kind of effects. *)
Lemma act_fits system d nd ev nd1 es ss :
  node_act system d nd ev = Some (nd1, es, ss) -> fits ev es.
Proof.
  destruct ev; cbn [node_act]; intros H; try (injection H as <- <- <-; by constructor).
  - unfold act_datagram in H. destruct (_ !! l) as [[s|]|]; [|done..].
    destruct (on_datagram _ _ _ _ _) as [[[so fl] e]|] eqn:Hd; cbn [mbind option_bind] in H; [|done].
    injection H as <- <- <-. by eapply on_datagram_fits.
  - unfold act_batch in H. destruct (_ !! k) as [[t st]|]; cbn [mbind option_bind] in H; [|done].
    destruct (mudp_step _ _ _) as [[[st' fl] e]|] eqn:Hd; cbn [mbind option_bind] in H; [|done].
    injection H as <- <- <-. by eapply mudp_step_fits.
  - unfold act_message in H. destruct (cycle_next _ _); cbn [mbind option_bind] in H; [|done].
    injection H as <- <- <-. apply message_fits.
  - unfold act_stats in H. destruct (get_stats _ _) as [[st sent]|]; cbn [mbind option_bind] in H;
      [|done]. injection H as <- <- <-. apply list.Forall_forall.
    by intros e (x & -> & _)%list_elem_of_fmap.
  - unfold act_snapshot in H. destruct (ns_snapshot nd); [done|]. injection H as <- <- <-.
    by apply request_fits.
  - unfold act_join, snapshot_tick in H. simplify_option_eq. repeat case_match; simplify_eq.
    constructor.
  - injection H as <- <- <-. by apply request_fits.
  - unfold act_read in H. destruct (ns_carbon nd !! k) as [ct|]; cbn [mbind option_bind] in H; [|done].
    destruct (ct_slots ct !! w) as [[|c|]|]; [done| |done..].
    destruct (leads ct); [destruct (accumulate _ _) as [[[acc|] e]|] eqn:Ha|];
      cbn [mbind option_bind] in H; try done; injection H as <- <- <-; [|constructor].
    apply counts_fit; [done|]. by eapply accumulate_counts.
  - unfold act_format in H. destruct (_ !! k) as [ct|]; cbn [mbind option_bind] in H; [|done].
    destruct (ct_stage ct); [|done..]. destruct (forallb _ _); [|done].
    destruct (leads ct); [destruct (aggregate_mode _ _) eqn:Hm|]; injection H as <- <- <-;
      try constructor. by eapply aggregate_mode_fits.
  - unfold act_backend in H. destruct (_ !! k) as [ct|]; cbn [mbind option_bind] in H; [|done].
    destruct (ct_stage ct); [done| |done]. destruct (outstanding k nd); [|done].
    destruct (carbon_sender _ _ _ _) as [[bs e]|] eqn:Hm; injection H as <- <- <-;
      (apply counts_fit; [done|]); [by eapply carbon_sender_counts|].
    apply list.Forall_forall. by intros x (y & -> & _)%list_elem_of_fmap.
  - unfold act_poll in H. simplify_option_eq. constructor.
  - unfold act_work in H. destruct (ns_workers nd !! w) as [wt|]; cbn [mbind option_bind] in H; [|done].
    destruct (mpsc_recv _) as [[t q]|]; cbn [mbind option_bind] in H; [|done].
    destruct (run _ t) as [[r es']|]; cbn [mbind option_bind] in H; [|done].
    injection H as <- <- <-. apply list.Forall_forall. by intros x (y & -> & _)%list_elem_of_fmap.
Qed.

(** What every effect of a step then satisfies. *)
Lemma act_Forall system d nd ev nd1 es ss (P : NodeEffect -> Prop) :
  node_act system d nd ev = Some (nd1, es, ss) ->
  (forall e, effect_fits ev e = true -> P e) -> Forall P es.
Proof. intros H HP. apply act_fits in H. eapply List.Forall_impl; [exact HP|exact H]. Qed.

(** ** Where the tasks of a worker are *)

(** A worker as its queue's laws show it, and the sends to it that wait. *)
Definition worker_view (nd : NodeState) (w : nat) : option (list Task * TaskRunner * list Task) :=
  (fun wt => (wt_ran wt, wt_runner wt, mpsc_items (wt_queue wt))) <$> ns_workers nd !! w.
Definition pool_for (w : nat) (nd : NodeState) : list Task := items_of w (ns_spawned nd).

(** Everything sent to a worker so far, in the order it will run. *)
Definition sent_to (w : nat) (nd : NodeState) : list Task :=
  match worker_view nd w with
  | Some (ran, _, q) => ran ++ q ++ pool_for w nd
  | None => []
  end.

Definition add_queued (ts : list Task) (v : list Task * TaskRunner * list Task) :=
  let '(ran, r, q) := v in (ran, r, q ++ ts).

Lemma omap_map_some {A B} (f : B -> option A) (g : A -> B) (l : list A) :
  (forall x, f (g x) = Some x) -> omap f (map g l) = l.
Proof. intros Hf. induction l as [|x l IH]; [done|]. cbn. rewrite Hf. by f_equal. Qed.

Lemma omap_map_none {A B C} (f : B -> option C) (g : A -> B) (l : list A) :
  (forall x, f (g x) = None) -> omap f (map g l) = [].
Proof. intros Hf. induction l as [|x l IH]; [done|]. cbn. by rewrite Hf. Qed.

Lemma items_of_app {K A} `{EqDecision K} (k : K) (l l' : list (K * A)) :
  items_of k (l ++ l') = items_of k l ++ items_of k l'.
Proof. apply omap_app. Qed.

#[export] Instance items_of_perm {K A} `{EqDecision K} (k : K) :
  Proper ((≡ₚ) ==> (≡ₚ)) (items_of (A := A) k).
Proof. intros l l' H. unfold items_of. by rewrite H. Qed.

Lemma tasks_for_app w (es es' : list NodeEffect) :
  tasks_for w (es ++ es') = tasks_for w es ++ tasks_for w es'.
Proof. unfold tasks_for. by rewrite tasks_sent_app, items_of_app. Qed.

Lemma tasks_for_plain w es : tasks_for w (map Plain es) = [].
Proof. unfold tasks_for. by rewrite tasks_sent_plain. Qed.

Lemma add_queued_nil (o : option (list Task * TaskRunner * list Task)) : add_queued [] <$> o = o.
Proof. destruct o as [[[ran r] q]|]; [|done]. cbn. by rewrite app_nil_r. Qed.

Lemma add_queued_app ts ts' (o : option (list Task * TaskRunner * list Task)) :
  add_queued ts' <$> (add_queued ts <$> o) = add_queued (ts ++ ts') <$> o.
Proof. destruct o as [[[ran r] q]|]; [|done]. cbn. by rewrite app_assoc. Qed.

Section tasks.
Context {QOK : MpscOk Q}.

Lemma enqueue_spec nd ch t :
  is_Some (ns_workers nd !! ch) ->
  exists nd', enqueue nd (ch, t) = Some nd' /\
    (exists ws, nd' = set_workers nd ws /\ length ws = length (ns_workers nd)) /\
    forall w, worker_view nd' w = add_queued (if decide (ch = w) then [t] else []) <$> worker_view nd w.
Proof.
  intros [wt Hwt]. unfold enqueue. rewrite Hwt. cbn [mbind option_bind].
  destruct (clone_send_items t (wt_queue wt)) as (q & -> & Hq & _). cbn [mbind option_bind].
  eexists. split; [done|]. split; [eexists; split; [done|apply length_insert]|].
  intros w. unfold worker_view. cbn [ns_workers set_workers]. case_decide as Hw.
  - subst w. rewrite list_lookup_insert_eq by by eapply lookup_lt_Some.
    rewrite Hwt. cbn. by rewrite Hq.
  - rewrite list_lookup_insert_ne by done. by rewrite add_queued_nil.
Qed.

Lemma enqueue_inv nd ch t nd' :
  enqueue nd (ch, t) = Some nd' ->
  (exists ws, nd' = set_workers nd ws /\ length ws = length (ns_workers nd)) /\
  forall w, worker_view nd' w = add_queued (if decide (ch = w) then [t] else []) <$> worker_view nd w.
Proof.
  intros H. assert (Hs : is_Some (ns_workers nd !! ch)).
  { unfold enqueue in H. destruct (ns_workers nd !! ch); [by eexists|done]. }
  destruct (enqueue_spec nd ch t Hs) as (nd1 & H1 & Hspec). rewrite H in H1.
  by injection H1 as ->.
Qed.

(** What emitting does to the workers and the pool. *)
Lemma emit_view direct nd e nd' :
  emit direct nd e = Some nd' ->
  length (ns_workers nd') = length (ns_workers nd) /\ forall w,
    worker_view nd' w = add_queued (if direct then tasks_for w [e] else []) <$> worker_view nd w /\
    pool_for w nd' = pool_for w nd ++ (if direct then [] else tasks_for w [e]).
Proof.
  assert (Hnil : forall ts, ts = [] -> forall (nd0 nd1 : NodeState) w,
    ns_workers nd1 = ns_workers nd0 -> ns_spawned nd1 = ns_spawned nd0 ->
    worker_view nd1 w = add_queued (if direct then ts else []) <$> worker_view nd0 w /\
    pool_for w nd1 = pool_for w nd0 ++ (if direct then [] else ts)).
  { intros ts -> nd0 nd1 w Hw Hs. unfold worker_view, pool_for. rewrite Hw, Hs.
    destruct direct; by rewrite add_queued_nil, app_nil_r. }
  destruct e as [[c n|id c|k v]|ch t]; cbn [emit].
  - intros [= <-]. split; [done|]. intros w. by apply Hnil.
  - intros [= <-]. unfold reply. destruct (countable.decode_nat id) as [[[k|] w']|];
      (split; [done|]; intros w; by apply Hnil).
  - intros [= <-]. split; [done|]. intros w. by apply Hnil.
  - assert (Ht : forall w, tasks_for w [SendTask ch t] = if decide (ch = w) then [t] else []).
    { intros w. unfold tasks_for, items_of. cbn. by case_decide. }
    destruct direct.
    + intros [(ws & -> & Hl) Hv]%enqueue_inv. split; [done|]. intros w. rewrite Hv, Ht, app_nil_r.
      done.
    + intros [= <-]. split; [done|]. intros w. rewrite add_queued_nil.
      split; [done|]. unfold pool_for. cbn [ns_spawned set_spawned]. by rewrite items_of_app.
Qed.

Lemma emit_all_view direct nd es nd' :
  emit_all direct nd es = Some nd' ->
  length (ns_workers nd') = length (ns_workers nd) /\ forall w,
    worker_view nd' w = add_queued (if direct then tasks_for w es else []) <$> worker_view nd w /\
    pool_for w nd' = pool_for w nd ++ (if direct then [] else tasks_for w es).
Proof.
  revert nd. induction es as [|e es IH]; intros nd; cbn [emit_all].
  { intros [= <-]. split; [done|]. intros w. destruct direct; by rewrite add_queued_nil, app_nil_r. }
  destruct (emit direct nd e) as [nd1|] eqn:He; cbn [mbind option_bind]; [|done].
  intros H. apply IH in H as [Hl H]. apply emit_view in He as [Hl1 H1].
  split; [congruence|]. intros w. destruct (H w) as [-> ->], (H1 w) as [-> ->].
  change (e :: es) with ([e] ++ es). rewrite tasks_for_app. destruct direct.
  - by rewrite add_queued_app, !app_nil_r.
  - by rewrite add_queued_app, app_assoc.
Qed.

(** What a step of a component does to the workers and the pool, before its effects
    are delivered. *)
Lemma act_workers system d nd ev nd1 es ss :
  node_act system d nd ev = Some (nd1, es, ss) ->
  match ev with
  | EPoll j => exists ct, ns_spawned nd !! j = Some ct /\ es = [] /\ ss = [] /\
      enqueue (set_spawned nd (delete j (ns_spawned nd))) ct = Some nd1
  | EWork w => exists wt t q r es',
      ns_workers nd !! w = Some wt /\ mpsc_recv (wt_queue wt) = Some (t, q) /\
      run (wt_runner wt) t = Some (r, es') /\ es = map Plain es' /\ ss = [] /\
      nd1 = set_workers nd (<[w := mkWorkerThread q r (wt_ran wt ++ [t])]> (ns_workers nd))
  | _ => ns_workers nd1 = ns_workers nd /\ ns_spawned nd1 = ns_spawned nd
  end.
Proof.
  destruct ev; cbn [node_act];
    unfold act_datagram, act_batch, act_message, act_stats, act_snapshot, act_join, act_carbon,
      act_read, act_format, act_backend.
  1-13: intros H; repeat (case_match || (simplify_option_eq; [])); done.
  - unfold act_poll. destruct (ns_spawned nd !! j) as [ct|]; cbn [mbind option_bind]; [|done].
    destruct (enqueue _ ct) as [nd2|] eqn:He; cbn [mbind option_bind]; [|done].
    intros [= <- <- <-]. by exists ct.
  - unfold act_work. destruct (ns_workers nd !! w) as [wt|]; cbn [mbind option_bind]; [|done].
    destruct (mpsc_recv _) as [[t q]|] eqn:Hr; cbn [mbind option_bind]; [|done].
    destruct (run _ t) as [[r es']|] eqn:Hrun; cbn [mbind option_bind]; [|done].
    intros [= <- <- <-]. by exists wt, t, q, r, es'.
  - by intros [= <- _ _].
Qed.

Lemma node_step_inv system d nd ev nd' os :
  node_step system d nd ev = Some (nd', os) ->
  exists nd1 es ss, node_act system d nd ev = Some (nd1, es, ss) /\
    emit_all (is_direct ev) nd1 es = Some nd' /\ node_effects os = es /\ snapshots_out os = ss.
Proof.
  unfold node_step. destruct (node_act system d nd ev) as [[[nd1 es] ss]|]; cbn [mbind option_bind];
    [|done]. destruct (emit_all _ nd1 es) as [nd2|] eqn:He; cbn [mbind option_bind]; [|done].
  intros [= <- <-]. exists nd1, es, ss. split; [done|]. split; [done|].
  unfold node_effects, snapshots_out. rewrite !omap_app. split.
  - by rewrite omap_map_some, omap_map_none, app_nil_r.
  - by rewrite omap_map_none, omap_map_some.
Qed.

(** The events that keep the order in which the tasks of a worker were sent. *)
Definition in_order (ev : NodeEvent) : bool :=
  match ev with EBatch _ _ | EPoll (S _) => false | _ => true end.

Lemma sent_to_direct nd nd' w ran r q ts us :
  worker_view nd w = Some (ran, r, q) ->
  worker_view nd' w = add_queued ts <$> worker_view nd w ->
  pool_for w nd' = pool_for w nd ++ us ->
  sent_to w nd' = ran ++ (q ++ ts) ++ pool_for w nd ++ us /\
  sent_to w nd = ran ++ q ++ pool_for w nd.
Proof. unfold sent_to. intros -> -> ->. cbn. done. Qed.

(** A send that is polled moves its task to the end of the queue. *)
Lemma poll_sent system d nd j nd' os w :
  node_step system d nd (EPoll j) = Some (nd', os) -> is_Some (worker_view nd w) ->
  exists ct before, ns_spawned nd !! j = Some ct /\ node_effects os = [] /\
    sent_to w nd = before ++ items_of w (ns_spawned nd) /\
    sent_to w nd' = before ++ items_of w [ct] ++ items_of w (delete j (ns_spawned nd)).
Proof.
  intros (nd1 & es & ss & Ha & He & -> & _)%node_step_inv [[[ran r] q] Hv].
  apply emit_all_view in He as [_ He]. destruct (He w) as [Hw Hp].
  apply act_workers in Ha. destruct Ha as ([ch t] & Hj & -> & _ & Henq).
  apply enqueue_inv in Henq as [(ws & -> & _) Hen].
  specialize (Hen w). cbn [is_direct app] in Hw, Hp.
  rewrite add_queued_nil, Hen in Hw. rewrite app_nil_r in Hp.
  change (worker_view (set_spawned nd _) w) with (worker_view nd w) in Hw.
  exists (ch, t), (ran ++ q). split; [done|]. split; [done|].
  unfold sent_to. rewrite Hw, Hv, Hp. unfold pool_for.
  cbn. rewrite <-!app_assoc. split; [done|]. do 2 f_equal. by case_decide.
Qed.

(** Every task sent to a worker is run, queued, or its send waits to be polled;
    steps in order even keep the order. *)
Lemma node_step_sent system d nd ev nd' os w :
  node_step system d nd ev = Some (nd', os) -> is_Some (worker_view nd w) ->
  sent_to w nd' ≡ₚ sent_to w nd ++ tasks_for w (node_effects os) /\
  (in_order ev = true -> sent_to w nd' = sent_to w nd ++ tasks_for w (node_effects os)).
Proof.
  intros Hstep [[[ran r] q] Hv].
  destruct (node_step_inv _ _ _ _ _ _ Hstep) as (nd1 & es & ss & Ha & He & Hes & _). rewrite Hes.
  apply emit_all_view in He as [_ He]. destruct (He w) as [Hw Hp].
  apply act_workers in Ha.
  assert (Hplain : ns_workers nd1 = ns_workers nd /\ ns_spawned nd1 = ns_spawned nd ->
    sent_to w nd' ≡ₚ sent_to w nd ++ tasks_for w es /\
    (is_direct ev = false -> sent_to w nd' = sent_to w nd ++ tasks_for w es)).
  { intros [H1 H2]. assert (Hv1 : worker_view nd1 w = Some (ran, r, q))
      by (unfold worker_view; by rewrite H1).
    assert (Hp1 : pool_for w nd1 = pool_for w nd) by (unfold pool_for; by rewrite H2).
    destruct (sent_to_direct nd1 nd' w ran r q _ _ Hv1 Hw Hp) as [-> _].
    unfold sent_to. rewrite Hv, Hp1, <-!app_assoc. split; [|by intros ->; cbn].
    destruct (is_direct ev); cbn [app]; rewrite ?app_nil_r; [|done].
    by rewrite (Permutation_app_comm (tasks_for w es)). }
  destruct ev; try (destruct (Hplain Ha) as [Hperm Heq]; split; [done|intros ?; by apply Heq]).
  - destruct (poll_sent _ _ _ _ _ _ w Hstep ltac:(by rewrite Hv)) as ([ch t] & pre & Hj & Hno & -> & ->).
    rewrite <-Hes, Hno. change (tasks_for w []) with (@nil Task). rewrite !app_nil_r. split.
    + f_equiv. apply delete_Permutation in Hj. rewrite Hj at 2. unfold items_of.
      cbn [omap list_omap fst snd]. case_decide; done.
    + destruct j; [|done]. intros _. f_equal.
      destruct (ns_spawned nd) as [|x l]; [done|]. injection Hj as ->. cbn.
      by case_decide.
  - destruct Ha as (wt & t & q' & r' & es' & Hwt & Hrecv & _ & -> & _ & ->).
    cbn [is_direct] in Hw, Hp. rewrite add_queued_nil in Hw. rewrite tasks_for_plain, app_nil_r in *.
    assert (sent_to w nd' = sent_to w nd) as ->; [|done].
    unfold sent_to. rewrite Hw, Hp, Hv. change (pool_for w (set_workers _ _)) with (pool_for w nd).
    unfold worker_view. cbn [ns_workers set_workers]. unfold worker_view in Hv.
    destruct (decide (w0 = w)) as [->|Hne].
    + rewrite list_lookup_insert_eq by by eapply lookup_lt_Some. rewrite Hwt in Hv. cbn in *.
      injection Hv as <- <- <-. destruct (mpsc_items (wt_queue wt)) as [|a l] eqn:Hi.
      * by rewrite (recv_empty _ _ Hi) in Hrecv.
      * destruct (recv_oldest _ _ _ _ Hi) as (q2 & Hq2 & Hl & _). rewrite Hrecv in Hq2.
        injection Hq2 as -> ->. rewrite Hl, <-!app_assoc. done.
    + rewrite list_lookup_insert_ne by done. by rewrite Hv.
Qed.

(** What a step does to a runner: nothing, or it runs one task. *)
Lemma node_step_runner system d nd ev nd' os w ran r q :
  node_step system d nd ev = Some (nd', os) -> worker_view nd w = Some (ran, r, q) ->
  exists ran' r' q', worker_view nd' w = Some (ran', r', q') /\
    ((ran' = ran /\ r' = r) \/
     exists t es, ev = EWork w /\ ran' = ran ++ [t] /\ run r t = Some (r', es) /\
       node_effects os = map Plain es).
Proof.
  intros (nd1 & es & ss & Ha & He & Hos & _)%node_step_inv Hv.
  apply emit_all_view in He as [_ He]. destruct (He w) as [Hw _]. apply act_workers in Ha.
  assert (Hsame : worker_view nd1 w = Some (ran, r, q) -> exists ran' r' q',
    worker_view nd' w = Some (ran', r', q') /\ ran' = ran /\ r' = r).
  { intros H1. rewrite H1 in Hw. cbn in Hw. by repeat eexists. }
  destruct ev;
    try (destruct Ha as [H1 _]; destruct Hsame as (? & ? & ? & ? & ? & ?);
         [unfold worker_view; by rewrite H1|]; repeat eexists; [done|by left]).
  - destruct Ha as ([ch t] & _ & -> & _ & [_ Hen]%enqueue_inv). rewrite Hen in Hw.
    change (worker_view (set_spawned nd _) w) with (worker_view nd w) in Hw. rewrite Hv in Hw.
    cbn in Hw. repeat eexists; [exact Hw|by left].
  - destruct Ha as (wt & t & q' & r' & es' & Hwt & _ & Hrun & -> & _ & ->).
    unfold worker_view in *. cbn [ns_workers set_workers] in *.
    destruct (decide (w0 = w)) as [->|Hne].
    + rewrite list_lookup_insert_eq in Hw by by eapply lookup_lt_Some. rewrite Hwt in Hv. cbn in *.
      injection Hv as <- <- <-. repeat eexists; [exact Hw|]. right. by exists t, es'.
    + rewrite list_lookup_insert_ne in Hw by done. rewrite Hv in Hw. cbn in Hw.
      repeat eexists; [exact Hw|by left].
Qed.

Lemma node_effects_app os os' : node_effects (os ++ os') = node_effects os ++ node_effects os'.
Proof. apply omap_app. Qed.

Lemma snapshots_out_app os os' : snapshots_out (os ++ os') = snapshots_out os ++ snapshots_out os'.
Proof. apply omap_app. Qed.

Lemma run_all_snoc r0 ran r e t r' e' :
  run_all r0 ran = Some (r, e) -> run r t = Some (r', e') ->
  run_all r0 (ran ++ [t]) = Some (r', e ++ e').
Proof.
  intros H1 H2. unfold run_all in *. rewrite foldEP_app, H1. cbn. rewrite H2. by rewrite app_nil_r.
Qed.

Lemma node_run_worker system d nd evs nd' os w ran r q r0 e0 :
  node_run system d nd evs = Some (nd', os) -> worker_view nd w = Some (ran, r, q) ->
  run_all r0 ran = Some (r, e0) ->
  (exists ran' r' q' e, worker_view nd' w = Some (ran', r', q') /\
     run_all r0 ran' = Some (r', e)) /\
  sent_to w nd' ≡ₚ sent_to w nd ++ tasks_for w (node_effects os) /\
  (forallb in_order evs = true -> sent_to w nd' = sent_to w nd ++ tasks_for w (node_effects os)).
Proof.
  unfold node_run. revert nd os ran r q e0.
  induction evs as [|ev evs IH]; intros nd os ran r q e0; cbn [foldEP].
  { intros [= <- <-] Hv Hr. cbn. rewrite app_nil_r. split; [by repeat eexists|done]. }
  destruct (node_step system d nd ev) as [[nd1 o1]|] eqn:Hs; [|done].
  destruct (foldEP _ nd1 evs) as [[nd2 o2]|] eqn:Hrun; [|done]. intros [= <- <-] Hv Hr.
  destruct (node_step_sent _ _ _ _ _ _ w Hs ltac:(by rewrite Hv)) as [Hp1 He1].
  destruct (node_step_runner _ _ _ _ _ _ w _ _ _ Hs Hv) as (ran1 & r1 & q1 & Hv1 & Hcase).
  assert (exists e1, run_all r0 ran1 = Some (r1, e1)) as [e1 Hr1].
  { destruct Hcase as [[-> ->]|(t & es & _ & -> & Ht & _)]; [by eexists|].
    eexists. by eapply run_all_snoc. }
  destruct (IH nd1 o2 ran1 r1 q1 e1 Hrun Hv1 Hr1) as (Hex & Hp2 & He2).
  rewrite node_effects_app, tasks_for_app. split; [done|]. split.
  - by rewrite Hp2, Hp1, <-app_assoc.
  - cbn [forallb]. intros [H1 H2]%andb_true_iff. by rewrite He2, He1, <-app_assoc.
Qed.

(** C5. Whatever the threads, timers and executors of a node do in whatever order,
    each counting thread behaves as one sequential [TaskRunner]: its state is that of
    a runner that ran the tasks it took one after the other, and the tasks sent to it
    by all components are, each exactly once, those it ran, those in its queue and
    those whose send was not polled yet; when sends are polled in the order they were
    spawned, in exactly that order. *)
Theorem node_workers_sequential (system : System) (d : DaemonState) (evs : list NodeEvent)
    (nd : NodeState) (os : list NodeOut) (w : nat) (r0 : TaskRunner) :
  node_run system d (node_init system d) evs = Some (nd, os) -> d_workers d !! w = Some r0 ->
  exists wt es, ns_workers nd !! w = Some wt /\
    run_all r0 (wt_ran wt) = Some (wt_runner wt, es) /\
    let tasks := wt_ran wt ++ mpsc_items (wt_queue wt) ++ items_of w (ns_spawned nd) in
    tasks_for w (node_effects os) ≡ₚ tasks /\
    (forallb in_order evs = true -> tasks_for w (node_effects os) = tasks).
Proof.
  intros Hrun Hw.
  assert (Hv : worker_view (node_init system d) w = Some ([], r0, [])).
  { unfold worker_view, node_init. cbn [ns_workers]. rewrite list_lookup_fmap, Hw. cbn.
    by rewrite (proj1 (channel_new Task _)). }
  destruct (node_run_worker _ _ _ _ _ _ w _ _ _ r0 [] Hrun Hv eq_refl)
    as ((ran & r & q & e & Hv' & Hr) & Hp & Heq).
  assert (Hs0 : sent_to w (node_init system d) = []) by (unfold sent_to; by rewrite Hv).
  rewrite Hs0 in *. cbn [app] in *. unfold sent_to in *. rewrite Hv' in *. unfold worker_view in Hv'.
  destruct (ns_workers nd !! w) as [wt|]; [|done]. cbn in Hv'. injection Hv' as <- <- <-.
  exists wt, e. split; [done|]. split; [done|]. split; [by symmetry|].
  intros Hi. symmetry. by apply Heq.
Qed.
End tasks.
End node.
