(* ===== verification/NodeStream.v ===== *)
(** * Streams through a running node ([server.rs], [main.rs], [task.rs] composed)

    What [main] starts, as facts the theorems on running nodes use, and the way of a
    sender's bytes through a node in the asynchronous mode: listener, spawned sends,
    queue and counting thread. *)

From S2P Require Import Prelude Interfaces Globals Config Task TaskFacts Worker Aggregate.
From S2P Require Import Carbon Util Net Server Udp Peer Main Daemon Queue Node.

Section started.
Context {BL : BytesLib} {ML : MetricLib} {O : OsLib} {T : TimerLib}.

(** What a daemon that started consists of. *)
Record Started (system : System) (d : DaemonState) : Prop := mkStarted {
  st_workers : (0 < Z.to_nat (w_threads system))%nat;
  st_chans : d_chans d = map (fun i => {| ch_id := i; ch_open := true |})
                             (seq 0 (Z.to_nat (w_threads system)));
  st_runners : d_workers d = map (fun _ => TaskRunner_new system)
                                 (seq 0 (Z.to_nat (w_threads system)));
  st_own : snd (d_own_stats d) = {| ch_id := 0; ch_open := true |};
  st_flags : d_flush_flags d = repeat false (Z.to_nat (n_threads system));
  st_receivers : if multimessage (network system)
    then exists threads, d_receivers d = SyncReceivers threads
    else exists pools, d_receivers d = AsyncReceivers pools
      (async_listeners system (d_chans d) (n_threads system) (greens (network system))
         (async_sockets (network system)) (bufsize (network system)))
}.

Lemma start_started level_ok resolve_host mgmt_binds system F d F' :
  start level_ok resolve_host mgmt_binds system F = Some (d, F') -> Started system d.
Proof.
  unfold start. case_match; [done|].
  set (chans := map _ (seq 0 (Z.to_nat (w_threads system)))).
  destruct (index chans 0) as [own|] eqn:Hown; cbn [mbind option_bind]; [|done].
  destruct (NativeProtocolSnapshot_new _ _ _ _ _) as [snap|]; cbn [mbind option_bind]; [|done].
  do 3 (case_match; [done|]).
  destruct (start_receivers system chans F) as [[e|r] F1] eqn:Hr; [done|]. intros [= <- <-].
  assert (Hw : (0 < Z.to_nat (w_threads system))%nat /\ own = {| ch_id := 0; ch_open := true |}).
  { unfold index in Hown. rewrite decide_True in Hown by lia. subst chans.
    destruct (Z.to_nat (w_threads system)); [done|]. injection Hown as <-. split; [lia|done]. }
  destruct Hw as [Hw ->]. constructor; cbn [d_chans d_workers d_own_stats d_flush_flags d_receivers];
    try done.
  revert Hr. unfold start_receivers. destruct (multimessage (network system)); rewrite io_bind_eq.
  - destruct (sync_sockets _ _ _ F) as [[e|fds] F2]; [done|]. intros [= <- _]. by eexists.
  - destruct (async_pools _ _ _ F) as [[e|pools] F2]; [done|]. intros [= <- _]. by eexists.
Qed.
End started.

Section stream.
Context {BL : BytesLib} {ML : MetricLib} {PL : ParserLib BL ML} {XL : ExecutorLib}.
Context {HI : HashIter} {CL : CapnpLib ML} {FL : FtoaLib BL} {Q : MpscLib}.
Context {AHS : AddrHash SocketAddr} {AHB : AddrHash bytes} {O : OsLib} {T : TimerLib}.

(** The bytes that tasks carry for a hash. *)
Definition payload (h : Z) (t : Task) : bytes :=
  match t with Parse a b => if decide (a = h) then b else [] | _ => [] end.
Definition payloads (h : Z) (ts : list Task) : bytes := concat (map (payload h) ts).

(** The bytes a sender sent to the node. *)
Definition node_stream (a : SocketAddr) (evs : list NodeEvent) : bytes :=
  concat (map (fun ev => match ev with
    | EDatagram _ received size addr => event_bytes a (Datagram received size addr)
    | _ => [] end) evs).

(** Events within what the kernel does, as far as the sender is concerned: a datagram is
    not longer than the buffer it was received into, listener [l] gets no empty one and
    its socket keeps working, all datagrams of [a] are received by [l], and no other
    sender has the hash of [a].  Other listeners may get empty datagrams or fail. *)
Definition stream_event (a : SocketAddr) (l : nat) (ev : NodeEvent) : Prop :=
  match ev with
  | EDatagram k received size addr =>
      0 <= size <= blen received /\ (k = l -> size <> 0) /\
      (hash_addr addr = hash_addr a -> addr = a /\ k = l)
  | ERecvError k => k <> l
  | _ => True
  end.

(** Whether a spawned send carries bytes of the sender. *)
Definition own_send (h : Z) (ct : nat * Task) : bool :=
  match snd ct with Parse a _ => bool_decide (a = h) | _ => false end.

(** The sends of one sender are spawned on the thread of one listener, whose executor
    polls them in the order they were spawned; those of other threads, and of other
    senders, may overtake them and be overtaken. *)
Definition polled_in_turn (h : Z) (nd : NodeState) (ev : NodeEvent) : bool :=
  match ev with
  | EPoll j =>
      match ns_spawned nd !! j with
      | Some ct => negb (own_send h ct && existsb (own_send h) (firstn j (ns_spawned nd)))
      | None => true
      end
  | _ => true
  end.

Fixpoint own_sends_in_turn (system : System) (d : DaemonState) (h : Z) (nd : NodeState)
    (evs : list NodeEvent) : bool :=
  match evs with
  | [] => true
  | ev :: evs =>
      polled_in_turn h nd ev &&
      match node_step system d nd ev with
      | Some (nd, _) => own_sends_in_turn system d h nd evs
      | None => true
      end
  end.

Lemma payloads_app h ts us : payloads h (ts ++ us) = payloads h ts ++ payloads h us.
Proof. unfold payloads. by rewrite map_app, concat_app. Qed.

(** Only listeners and receive threads send buffers to parse. *)
Definition no_parse (es : list NodeEffect) : Prop :=
  Forall (fun e => match e with SendTask _ (Parse _ _) => False | _ => True end) es.

Lemma no_parse_payloads h w es : no_parse es -> payloads h (tasks_for w es) = [].
Proof.
  unfold no_parse, tasks_for, payloads, items_of.
  induction 1 as [|[e|ch t] l Ht _ IH]; [done..|]. cbn [tasks_sent omap list_omap fst snd] in *.
  case_decide; [|done]. cbn [map concat]. unfold tasks_sent in IH. rewrite IH. by destruct t.
Qed.

(** No other component hands out buffers to parse. *)
Lemma act_no_parse system d nd ev nd1 es ss :
  node_act system d nd ev = Some (nd1, es, ss) ->
  match ev with EDatagram _ _ _ _ | EBatch _ _ => True | _ => no_parse es end.
Proof.
  intros H. destruct ev; try done; (eapply act_Forall; [exact H|]);
    intros [|ch []]; cbn; try done.
Qed.

(** ** The order of the sender's bytes *)
Section order.
Context {BOK : BytesOk BL} {HIOK : HashIterOk HI} {QOK : MpscOk Q}.
Context (system : System) (d : DaemonState) (h : Z).

Lemma others_payloads w (l : list (nat * Task)) :
  existsb (own_send h) l = false -> payloads h (items_of w l) = [].
Proof.
  unfold payloads, items_of. induction l as [|[c t] l IH]; [done|].
  cbn [existsb omap list_omap fst snd]. intros [Ho Hl]%orb_false_iff.
  case_decide; [|by apply IH]. cbn [map concat]. rewrite (IH Hl).
  destruct t; try done. cbn in *. by rewrite bool_decide_eq_false in Ho; rewrite decide_False.
Qed.

(** A step keeps the order of the sender's bytes on their way to a worker. *)
Lemma node_step_payloads nd ev nd' os w :
  node_step system d nd ev = Some (nd', os) -> is_Some (worker_view nd w) ->
  is_direct ev = false -> polled_in_turn h nd ev = true ->
  payloads h (sent_to w nd') = payloads h (sent_to w nd) ++ payloads h (tasks_for w (node_effects os)).
Proof.
  intros Hs Hv Hd Hturn. rewrite <-payloads_app. destruct (in_order ev) eqn:Hord.
  { destruct (node_step_sent _ _ _ _ _ _ w Hs Hv) as [_ H]. by rewrite (H Hord). }
  destruct ev as [| | | | | | | | | | | | |j| |]; try done.
  destruct (poll_sent _ _ _ _ _ _ w Hs Hv) as (ct & pre & Hj & -> & -> & ->).
  cbn [polled_in_turn] in Hturn. rewrite Hj in Hturn.
  change (tasks_for w []) with (@nil Task). rewrite app_nil_r, !payloads_app. f_equal.
  rewrite delete_take_drop.
  transitivity (payloads h (items_of w
    (firstn j (ns_spawned nd) ++ [ct] ++ skipn (S j) (ns_spawned nd)))).
  2: { do 2 f_equal. by apply take_drop_middle. }
  rewrite !items_of_app, !payloads_app. destruct (own_send h ct) eqn:Ho; cbn [andb] in Hturn.
  - apply negb_true_iff in Hturn. by rewrite (others_payloads w (firstn j _) Hturn).
  - by rewrite (others_payloads w [ct]) by (cbn; by rewrite Ho).
Qed.

Lemma node_run_payloads nd evs nd' os w :
  node_run system d nd evs = Some (nd', os) -> is_Some (worker_view nd w) ->
  Forall (fun ev => is_direct ev = false) evs -> own_sends_in_turn system d h nd evs = true ->
  payloads h (sent_to w nd') = payloads h (sent_to w nd) ++ payloads h (tasks_for w (node_effects os)).
Proof.
  unfold node_run. intros Hr Hv Hd. revert nd os Hr Hv.
  induction Hd as [|ev evs Hev _ IH]; intros nd os; cbn [foldEP own_sends_in_turn].
  { intros [= <- <-] _ _. cbn. by rewrite app_nil_r. }
  destruct (node_step system d nd ev) as [[nd1 o1]|] eqn:Hs; [|done].
  destruct (foldEP _ nd1 evs) as [[nd2 o2]|] eqn:Hr; [|done]. intros [= <- <-] Hv [Ht Hts]%andb_true_iff.
  pose proof Hv as [[[ran r] q] Hv'].
  destruct (node_step_runner _ _ _ _ _ _ w _ _ _ Hs Hv') as (ran1 & r1 & q1 & Hv1 & _).
  rewrite (IH nd1 o2 Hr ltac:(by rewrite Hv1) Hts), (node_step_payloads _ _ _ _ _ Hs Hv Hev Ht).
  by rewrite node_effects_app, tasks_for_app, payloads_app, app_assoc.
Qed.
End order.

(** ** The invariant *)
Section invariant.
Context {BOK : BytesOk BL} {HIOK : HashIterOk HI} {QOK : MpscOk Q}.
Context (system : System) (d : DaemonState) (a : SocketAddr) (l : nat).

Definition listener_ok (flags : list bool) (k : nat) (so : option StatsdServer) : Prop :=
  match so with
  | None => k <> l
  | Some s => server_ok s flags /\ ss_chans s = d_chans d /\
      consistent_parsing (metrics (ss_config s)) = true /\
      forall b, b ∈ dom (ss_bufmap s) -> hash_addr b = hash_addr a -> b = a /\ k = l
  end.

Definition listeners_ok (i : Inputs) : Prop :=
  in_threads i = [] /\ is_Some (in_listeners i !! l) /\
  forall k so, in_listeners i !! k = Some so -> listener_ok (in_flags i) k so.

(** The bytes of [a] that wait in its listener. *)
Definition held (i : Inputs) : bytes :=
  match in_listeners i !! l with Some (Some s) => buffered a (ss_bufmap s) | _ => [] end.

Context (Hopen : Forall (fun ch => ch_open ch = true) (d_chans d)).
Context (ch : Chan) (Hch : d_chans d !! Z.to_nat (hash_addr a `mod` blen (d_chans d)) = Some ch).

(** All bytes for the hash of [a] go to the worker it selects. *)
Lemma routed_payloads s ts :
  ss_chans s = d_chans d -> consistent_parsing (metrics (ss_config s)) = true ->
  Forall (routed s) ts ->
  payloads (hash_addr a) (items_of (ch_id ch) ts) = concat (map (parse_payload (hash_addr a)) ts).
Proof.
  intros Hc Hcp. unfold payloads, items_of.
  induction 1 as [|x ts (c & h & b & -> & _ & Hr) _ IH]; [done|].
  cbn [omap list_omap map concat fst snd]. unfold parse_payload at 1. cbn [snd].
  case_decide as Hid; cbn [map concat payload]; rewrite IH; [done|].
  rewrite decide_False; [done|]. intros ->. apply Hid. rewrite Hc in Hr.
  specialize (Hr Hcp). rewrite Hch in Hr. by injection Hr as ->.
Qed.

Lemma insert_alive {A} (ls : list A) (k j : nat) x : is_Some (ls !! j) -> is_Some (<[k := x]> ls !! j).
Proof. rewrite !lookup_lt_is_Some. by rewrite length_insert. Qed.

Lemma on_datagram_flags s flags received size addr so flags' es :
  on_datagram s flags received size addr = Some (so, flags', es) -> length flags' = length flags.
Proof.
  unfold on_datagram. case_decide; [by intros [= <- <- <-]|].
  destruct (store_datagram _ _ _ _); cbn [mbind option_bind]; [|done].
  destruct (index _ _); cbn [mbind option_bind]; [|done]. case_match.
  - destruct (foldEP _ _ _) as [[]|]; cbn [mbind option_bind]; [|done]. intros [= _ <- _].
    apply length_insert.
  - intros [= _ <- _]. apply length_insert.
Qed.

(** The listeners after one of them got a new state or stopped. *)
Lemma listeners_insert i flags k so :
  listeners_ok i -> length flags = length (in_flags i) -> listener_ok flags k so ->
  listeners_ok {| in_flags := flags; in_listeners := <[k := so]> (in_listeners i);
                  in_threads := in_threads i |}.
Proof.
  intros (Ht & Hal & Hok) Hfl Hso. split_and!; [done|by apply insert_alive|].
  intros k' so'. cbn [in_listeners in_flags].
  intros [(<- & <- & _)|[Hne Hk]]%list_lookup_insert_Some; [done|].
  specialize (Hok k' so' Hk). destruct so' as [s1|]; [|done].
  destruct Hok as ((? & ? & ?) & Hrest). split; [|done].
  split_and!; try done; unfold blen in *; lia.
Qed.

(** An empty datagram stops its listener, which is not that of the sender. *)
Lemma empty_datagram_stream nd k received addr nd1 es ss :
  listeners_ok (ns_inputs nd) -> k <> l ->
  act_datagram nd k received 0 addr = Some (nd1, es, ss) ->
  listeners_ok (ns_inputs nd1) /\ no_parse es /\ held (ns_inputs nd1) = held (ns_inputs nd).
Proof.
  intros Hok Hk. unfold act_datagram.
  destruct (in_listeners (ns_inputs nd) !! k) as [[s|]|]; [|done..].
  unfold on_datagram. rewrite decide_True by done. cbn [mbind option_bind].
  intros [= <- <- <-]. cbn [ns_inputs set_inputs]. split; [by apply listeners_insert|].
  split; [by repeat constructor|]. unfold held. cbn [in_listeners]. by rewrite list_lookup_insert_ne.
Qed.

Lemma datagram_stream nd k received size addr nd1 es ss :
  listeners_ok (ns_inputs nd) -> stream_event a l (EDatagram k received size addr) ->
  act_datagram nd k received size addr = Some (nd1, es, ss) ->
  listeners_ok (ns_inputs nd1) /\
  payloads (hash_addr a) (tasks_for (ch_id ch) es) ++ held (ns_inputs nd1) =
  held (ns_inputs nd) ++ event_bytes a (Datagram received size addr).
Proof.
  intros Hin (Hs & Hz & Ha) H. destruct (decide (size = 0)) as [->|Hnz].
  { assert (Hkl : k <> l) by (intros ->; by apply Hz).
    assert (Hev : event_bytes a (Datagram received 0 addr) = []) by (cbn; by case_decide).
    destruct (empty_datagram_stream _ _ _ _ _ _ _ Hin Hkl H) as (H1 & H2 & ->).
    by rewrite Hev, app_nil_r, no_parse_payloads. }
  revert H. unfold act_datagram.
  destruct (in_listeners (ns_inputs nd) !! k) as [[s|]|] eqn:Hk; [|done..].
  pose proof (proj2 (proj2 Hin) k (Some s) Hk) as (Hso & Hsc & Hsp & Hsd).
  destruct (on_datagram_spec s (in_flags (ns_inputs nd)) received size addr a)
    as (s' & flags' & e & Hd & Hso' & Hsc' & Hcf & Hdom & Hr & Hp); [done|by rewrite Hsc|lia|..].
  { intros b [->%elem_of_singleton|Hb]%elem_of_union Hh; [by apply Ha|by apply Hsd]. }
  pose proof (on_datagram_flags _ _ _ _ _ _ _ _ Hd) as Hfl.
  rewrite Hd. cbn [mbind option_bind]. intros [= <- <- <-]. cbn [ns_inputs set_inputs]. split.
  - apply listeners_insert; [done..|]. split_and!; [done|congruence|by rewrite Hcf|].
    intros b Hb%Hdom Hh. apply elem_of_union in Hb as [->%elem_of_singleton|Hb]; auto.
  - unfold held. cbn [in_listeners ns_inputs]. unfold tasks_for.
    rewrite (routed_payloads s) by done. fold (parsed_stream (hash_addr a) e).
    destruct (decide (k = l)) as [->|Hne].
    + rewrite list_lookup_insert_eq by by eapply lookup_lt_Some. by rewrite Hk.
    + rewrite list_lookup_insert_ne by done.
      assert (Hb : forall m : gmap SocketAddr BytesMut, (a ∈ dom m -> False) -> buffered a m = []).
      { intros m Hm. unfold buffered. by rewrite (proj1 (not_elem_of_dom m a)). }
      rewrite (Hb (ss_bufmap s)) in Hp by (intros Hm; by destruct (Hsd a Hm eq_refl)).
      assert (Hev : event_bytes a (Datagram received size addr) = []).
      { cbn. rewrite decide_False; [done|]. intros ->. by destruct (Ha eq_refl). }
      rewrite Hev in *. apply app_eq_nil in Hp as [-> _]. by rewrite app_nil_r.
Qed.

Lemma emit_all_inputs direct nd es nd' :
  emit_all direct nd es = Some nd' -> ns_inputs nd' = ns_inputs nd.
Proof.
  revert nd. induction es as [|e es IH]; intros nd; cbn [emit_all]; [by intros [= <-]|].
  destruct (emit direct nd e) as [nd1|] eqn:He; cbn [mbind option_bind]; [|done].
  intros H%IH. rewrite H. clear H IH. destruct e as [[| |]|c t]; cbn [emit] in He.
  - by injection He as <-.
  - injection He as <-. unfold reply. by repeat case_match.
  - by injection He as <-.
  - destruct direct; [|by injection He as <-]. by apply enqueue_inv in He as [(ws & -> & _) _].
Qed.

Lemma act_inputs nd ev nd1 es ss :
  node_act system d nd ev = Some (nd1, es, ss) ->
  match ev with
  | EDatagram _ _ _ _ | EBatch _ _ | ERecvError _ | EFlush => True
  | _ => ns_inputs nd1 = ns_inputs nd
  end.
Proof.
  destruct ev; cbn [node_act]; try done;
    unfold act_message, act_stats, act_snapshot, act_join, act_carbon,
      act_read, act_format, act_backend, act_poll, act_work; intros H;
    repeat (case_match || (simplify_option_eq; [])); try done.
  match goal with H : enqueue _ ?x = Some _ |- _ => destruct x end.
  by match goal with H : enqueue _ _ = Some _ |- _ => apply enqueue_inv in H as [(ws & -> & _) _] end.
Qed.

(** Without receive threads there are no batches. *)
Lemma run_not_direct nd evs nd' os :
  in_threads (ns_inputs nd) = [] -> node_run system d nd evs = Some (nd', os) ->
  Forall (fun ev => is_direct ev = false) evs.
Proof.
  unfold node_run. intros Ht. revert nd os Ht.
  induction evs as [|ev evs IH]; intros nd os Ht; cbn [foldEP]; [constructor|].
  destruct (node_step system d nd ev) as [[nd1 o1]|] eqn:Hs; [|done].
  destruct (foldEP _ nd1 evs) as [[nd2 o2]|] eqn:Hr; [|done]. intros [= <- _].
  apply node_step_inv in Hs as (nd0 & es & ss & Ha & He%emit_all_inputs & _).
  assert (Hone : is_direct ev = false /\ in_threads (ns_inputs nd0) = []).
  { pose proof (act_inputs _ _ _ _ _ Ha) as Hin.
    destruct ev; try (split; [done|by rewrite Hin]); cbn [node_act] in Ha.
    - split; [done|]. unfold act_datagram in Ha.
      destruct (in_listeners _ !! _) as [[s|]|]; [|done..].
      destruct (on_datagram _ _ _ _ _) as [[[so fl] e]|]; cbn [mbind option_bind] in Ha; [|done].
      by injection Ha as <- _ _.
    - by injection Ha as <- _ _.
    - unfold act_batch in Ha. by rewrite Ht in Ha.
    - by injection Ha as <- _ _. }
  destruct Hone as [Hd Ht0]. constructor; [done|]. eapply IH; [|exact Hr]. by rewrite He.
Qed.

Lemma listeners_flags i flags :
  length flags = length (in_flags i) -> listeners_ok i ->
  listeners_ok {| in_flags := flags; in_listeners := in_listeners i; in_threads := in_threads i |}.
Proof.
  intros Hf (Ht & Hal & Hok). split_and!; [done|done|]. intros k so Hk. specialize (Hok k so Hk). destruct so as [s|]; [|done].
  destruct Hok as ((H1 & [H2 H3] & H4) & Hrest). split; [|done].
  split_and!; try done; cbn [in_flags]; unfold blen in *; lia.
Qed.

Lemma node_step_stream nd ev nd' os :
  listeners_ok (ns_inputs nd) -> stream_event a l ev ->
  node_step system d nd ev = Some (nd', os) ->
  listeners_ok (ns_inputs nd') /\
  payloads (hash_addr a) (tasks_for (ch_id ch) (node_effects os)) ++ held (ns_inputs nd') =
  held (ns_inputs nd) ++ node_stream a [ev].
Proof.
  intros Hok Hev (nd1 & es & ss & Ha & He%emit_all_inputs & -> & _)%node_step_inv. rewrite He.
  pose proof (act_no_parse _ _ _ _ _ _ _ Ha) as Hnp. pose proof (act_inputs _ _ _ _ _ Ha) as Hin.
  assert (Hsame : no_parse es -> ns_inputs nd1 = ns_inputs nd ->
    listeners_ok (ns_inputs nd1) /\
    payloads (hash_addr a) (tasks_for (ch_id ch) es) ++ held (ns_inputs nd1) =
    held (ns_inputs nd) ++ []).
  { intros Hn ->. split; [done|]. by rewrite no_parse_payloads, app_nil_r. }
  unfold node_stream. cbn [map concat].
  destruct ev; cbn [app]; try (by apply Hsame); clear Hsame; cbn [node_act] in Ha.
  - rewrite app_nil_r. by eapply datagram_stream.
  - injection Ha as <- <- _. cbn [ns_inputs set_inputs]. cbn in Hev.
    split; [by apply listeners_insert|].
    unfold held. cbn [in_listeners]. by rewrite list_lookup_insert_ne, app_nil_r.
  - exfalso. unfold act_batch in Ha. destruct Hok as (Ht & _). by rewrite Ht in Ha.
  - injection Ha as <- <- _. cbn [ns_inputs set_inputs]. rewrite app_nil_r. split; [|done].
    apply listeners_flags; [|done]. unfold flush_timer_tick. case_decide; [apply length_map|done].
Qed.

Lemma node_run_stream nd evs nd' os :
  listeners_ok (ns_inputs nd) -> Forall (stream_event a l) evs ->
  node_run system d nd evs = Some (nd', os) ->
  listeners_ok (ns_inputs nd') /\
  payloads (hash_addr a) (tasks_for (ch_id ch) (node_effects os)) ++ held (ns_inputs nd') =
  held (ns_inputs nd) ++ node_stream a evs.
Proof.
  unfold node_run. intros Hok Hev. revert nd os Hok.
  induction Hev as [|ev evs He Hev IH]; intros nd os Hok; cbn [foldEP].
  { intros [= <- <-]. split; [done|]. unfold node_stream. cbn. by rewrite app_nil_r. }
  destruct (node_step system d nd ev) as [[nd1 o1]|] eqn:Hs; [|done].
  destruct (foldEP _ nd1 evs) as [[nd2 o2]|] eqn:Hr; [|done]. intros [= <- <-].
  destruct (node_step_stream _ _ _ _ Hok He Hs) as [Hok1 H1].
  destruct (IH nd1 o2 Hok1 Hr) as [Hok2 H2]. split; [done|].
  rewrite node_effects_app, tasks_for_app, payloads_app, <-app_assoc, H2, app_assoc, H1.
  unfold node_stream. cbn [map concat]. by rewrite app_nil_r, <-app_assoc.
Qed.
End invariant.

(** ** The theorem *)
Section through.
Context {BOK : BytesOk BL} {HIOK : HashIterOk HI} {QOK : MpscOk Q}.

Lemma started_listeners system d a l :
  Started system d -> multimessage (network system) = false -> 0 <= n_threads system ->
  consistent_parsing (metrics system) = true ->
  (l < length (in_listeners (ns_inputs (node_init system d))))%nat ->
  listeners_ok d a l (ns_inputs (node_init system d)) /\
  held a l (ns_inputs (node_init system d)) = [].
Proof.
  intros [Hw Hc Hr Ho Hfl Ha] Hm Hn Hcp. rewrite Hm in Ha. destruct Ha as [pools Hrec].
  cbn [node_init ns_inputs in_listeners in_flags]. rewrite Hrec, length_map. intros Hl.
  assert (Hne : d_chans d <> []).
  { rewrite Hc. destruct (Z.to_nat (w_threads system)); [lia|done]. }
  assert (Hall : Forall (fun s => server_ok s (d_flush_flags d) /\ ss_bufmap s = ∅ /\
      ss_chans s = d_chans d /\ ss_config s = system)
    (async_listeners system (d_chans d) (n_threads system) (greens (network system))
       (async_sockets (network system)) (bufsize (network system)))).
  { pose proof (async_listeners_ok system (d_chans d) (n_threads system) (greens (network system))
      (async_sockets (network system)) (bufsize (network system)) (d_flush_flags d) Hne) as H1.
    rewrite Hfl in H1 at 1. unfold blen in H1. rewrite repeat_length in H1.
    specialize (H1 ltac:(lia)). rewrite list.Forall_forall in *. intros s Hs.
    destruct (H1 s Hs) as [? ?]. split_and!; try done;
      unfold async_listeners in Hs; apply list_elem_of_In, in_concat in Hs as (x & Hx & Hs);
      apply in_map_iff in Hx as (i & <- & _); apply repeat_spec in Hs; by subst s. }
  unfold held. cbn [in_listeners in_flags]. rewrite list.Forall_forall in Hall. split.
  - split; [done|]. split; [apply lookup_lt_is_Some; cbn [in_listeners]; by rewrite length_map|].
    intros k so. cbn [in_listeners in_flags]. rewrite list_lookup_fmap.
    destruct (async_listeners _ _ _ _ _ _ !! k) as [s|] eqn:Hk; [|done]. intros [= <-].
    apply list_elem_of_lookup_2 in Hk. destruct (Hall s Hk) as (H1 & H2 & H3 & H4).
    split_and!; [done|done|by rewrite H4|]. rewrite H2. set_solver.
  - rewrite list_lookup_fmap. destruct (async_listeners _ _ _ _ _ _ !! l) as [s|] eqn:Hk; [|done].
    cbn. apply list_elem_of_lookup_2 in Hk. destruct (Hall s Hk) as (_ & -> & _). done.
Qed.

Lemma started_worker system d w :
  Started system d -> (w < Z.to_nat (w_threads system))%nat ->
  d_workers d !! w = Some (TaskRunner_new system) /\
  d_chans d !! w = Some {| ch_id := w; ch_open := true |} /\
  worker_view (node_init system d) w = Some ([], TaskRunner_new system, []) /\
  sent_to w (node_init system d) = [].
Proof.
  intros [_ Hc Hr _ _ _] Hw.
  assert (Hr0 : d_workers d !! w = Some (TaskRunner_new system)).
  { by rewrite Hr, list_lookup_fmap, lookup_seq_lt. }
  assert (Hv : worker_view (node_init system d) w = Some ([], TaskRunner_new system, [])).
  { unfold worker_view, node_init. cbn [ns_workers]. rewrite list_lookup_fmap, Hr0. cbn.
    by rewrite (proj1 (channel_new Task _)). }
  split; [done|]. split; [by rewrite Hc, list_lookup_fmap, lookup_seq_lt|]. split; [done|].
  unfold sent_to. by rewrite Hv.
Qed.

Lemma started_open system d : Started system d -> Forall (fun ch => ch_open ch = true) (d_chans d).
Proof.
  intros [_ -> _ _ _ _]. apply list.Forall_forall. by intros x (i & -> & _)%list_elem_of_fmap.
Qed.

(** C6. A sender's bytes through a whole node in the asynchronous mode with consistent
    parsing: the bytes the sender's worker has parsed for it, then those in that
    worker's queue, those in sends not polled yet and those its listener still holds
    are, in this order and with nothing in between, exactly the bytes it sent.  The
    conditions are that all its datagrams arrive at one listener, that this listener
    gets no empty datagram and its socket keeps working, that no other sender has the
    same hash, and that the executor of the listener's thread polls the sends of this
    sender in the order they were spawned.  Everything else is arbitrary: other
    senders, other listeners (which may get empty datagrams or fail), peers, timers,
    flushes, and the order in which all other sends are polled. *)
Theorem node_keeps_stream (level_ok : string -> bool) resolve_host mgmt_binds (system : System)
    (F F' : gset nat) (d : DaemonState) (evs : list NodeEvent) (nd : NodeState)
    (os : list NodeOut) (a : SocketAddr) (l : nat) :
  start level_ok resolve_host mgmt_binds system F = Some (d, F') ->
  multimessage (network system) = false -> 0 <= n_threads system ->
  consistent_parsing (metrics system) = true ->
  (l < length (in_listeners (ns_inputs (node_init system d))))%nat ->
  Forall (stream_event a l) evs ->
  own_sends_in_turn system d (hash_addr a) (node_init system d) evs = true ->
  node_run system d (node_init system d) evs = Some (nd, os) ->
  let w := Z.to_nat (hash_addr a `mod` w_threads system) in
  let h := hash_addr a in
  exists wt s, ns_workers nd !! w = Some wt /\ in_listeners (ns_inputs nd) !! l = Some (Some s) /\
    payloads h (wt_ran wt) ++ payloads h (mpsc_items (wt_queue wt)) ++
    payloads h (items_of w (ns_spawned nd)) ++ buffered a (ss_bufmap s) = node_stream a evs.
Proof.
  intros Hst%start_started Hm Hn Hcp Hl Hev Hturn Hrun w h.
  destruct (started_listeners system d a l Hst Hm Hn Hcp Hl) as [Hok Hheld].
  pose proof (st_workers _ _ Hst) as Hpos.
  assert (Hmod : 0 <= hash_addr a `mod` w_threads system < w_threads system)
    by (apply Z.mod_pos_bound; lia).
  destruct (started_worker system d w Hst) as (Hr0 & Hch & Hview & Hs0); [unfold w; lia|].
  assert (Hlen : blen (d_chans d) = w_threads system).
  { rewrite (st_chans _ _ Hst). unfold blen. rewrite length_map, length_seq. lia. }
  assert (Hch' : d_chans d !! Z.to_nat (hash_addr a `mod` blen (d_chans d)) =
                 Some {| ch_id := w; ch_open := true |}) by (by rewrite Hlen).
  destruct (node_run_stream system d a l (started_open _ _ Hst) _ Hch' _ _ _ _ Hok Hev Hrun)
    as [(Ht & Hal & Hok') Hp]. rewrite Hheld in Hp. cbn [ch_id app] in Hp.
  destruct (node_run_worker _ _ _ _ _ _ w _ _ _ _ [] Hrun Hview eq_refl)
    as ((ran & r & q & e & Hv' & _) & _).
  pose proof (node_run_payloads _ _ _ _ _ _ _ w Hrun ltac:(by rewrite Hview)
    (run_not_direct _ _ _ _ _ _ (proj1 Hok) Hrun) Hturn) as Heq.
  rewrite Hs0 in Heq. change (payloads (hash_addr a) []) with (@nil Ascii.ascii) in Heq.
  cbn [app] in Heq. unfold h. rewrite <-Heq in Hp. unfold sent_to in Hp.
  rewrite Hv' in Hp. unfold worker_view in Hv'.
  destruct (ns_workers nd !! w) as [wt|]; [|done]. injection Hv' as <- <- <-.
  destruct Hal as [[s|] Hs]; [|by destruct (Hok' l None Hs)].
  exists wt, s. split; [done|]. split; [done|]. unfold held in Hp. rewrite Hs in Hp.
  rewrite <-Hp, !payloads_app, <-!app_assoc. done.
Qed.
End through.
End stream.
