(* ===== verification/NodeReplies.v ===== *)
(** * Requests and replies in a running node ([task.rs], [peer.rs], [aggregate.rs])

    The requests of the snapshot timer and of the carbon threads under every
    interleaving: the tasks that wait for a worker ask, each exactly once, for the
    replies that are still expected, so that every reply lands on its own channel;
    and the counting threads as a list of sequential runners. *)

From S2P Require Import Prelude Interfaces Globals Config Task TaskFacts Worker Aggregate.
From S2P Require Import Carbon Util Net Server Udp Peer Main Daemon Queue Node.

Section replies.
Context {BL : BytesLib} {ML : MetricLib} {PL : ParserLib BL ML} {XL : ExecutorLib}.
Context {HI : HashIter} {CL : CapnpLib ML} {FL : FtoaLib BL} {Q : MpscLib}.
Context {AHS : AddrHash SocketAddr} {AHB : AddrHash bytes}.

(** ** Reply channels *)

(** The requests that were not answered yet, by the kind of reply they ask for. *)
Definition snapshot_chans (ts : list Task) : list Chan :=
  omap (fun t => match t with TakeSnapshot c => Some c | _ => None end) ts.
Definition rotate_chans (ts : list Task) : list Chan :=
  omap (fun t => match t with Rotate c => Some c | _ => None end) ts.

Definition open_chan (id : nat) : Chan := {| ch_id := id; ch_open := true |}.

(** The channels on which a reply is expected. *)
Fixpoint expected_from (f : nat -> nat) (slots : list Slot) : list Chan :=
  match slots with
  | [] => []
  | s :: slots => (match s with Expected => [open_chan (f 0%nat)] | _ => [] end) ++
                  expected_from (f ∘ S) slots
  end.

(** The reply channels of a node: those of the snapshot, and those of each carbon
    thread with the caches it has read. *)
Definition ReplyView : Type := option (list Slot) * list (list Slot * list Cache).

Definition reply_view (nd : NodeState) : ReplyView :=
  (ns_snapshot nd, map (fun ct => (ct_slots ct, ct_joined ct)) (ns_carbon nd)).

Definition expected_snapshot (v : ReplyView) : list Chan :=
  match fst v with Some slots => expected_from (reply_id None) slots | None => [] end.

Fixpoint expected_carbon (f : nat -> nat -> nat) (cs : list (list Slot * list Cache)) : list Chan :=
  match cs with
  | [] => []
  | c :: cs => expected_from (f 0%nat) (fst c) ++ expected_carbon (f ∘ S) cs
  end.

Definition carbon_id (k w : nat) : nat := reply_id (Some k) w.

(** Every expected reply is asked for by exactly one waiting task. *)
Definition replies_ok (ts : list Task) (v : ReplyView) : Prop :=
  snapshot_chans ts ≡ₚ expected_snapshot v /\
  rotate_chans ts ≡ₚ expected_carbon carbon_id (snd v).

Lemma decode_reply k w : countable.decode_nat (reply_id k w) = Some (k, w).
Proof. apply countable.decode_encode_nat. Qed.

Lemma expected_fill f slots w c :
  slots !! w = Some Expected ->
  expected_from f slots ≡ₚ open_chan (f w) :: expected_from f (<[w := Arrived c]> slots).
Proof.
  revert f w. induction slots as [|s slots IH]; intros f [|w]; cbn; [done..| |].
  - by intros [= ->].
  - intros H. rewrite (IH (f ∘ S) w H). cbn. by rewrite Permutation_middle.
Qed.

Lemma expected_read f slots w s s' :
  slots !! w = Some s -> s <> Expected -> s' <> Expected ->
  expected_from f (<[w := s']> slots) = expected_from f slots.
Proof.
  revert f w. induction slots as [|x slots IH]; intros f [|w]; cbn; [done..| |].
  - intros [= ->]. by destruct s, s'.
  - intros H1 H2 H3. f_equal. by apply IH.
Qed.

Lemma expected_elem f slots c :
  c ∈ expected_from f slots -> exists w, slots !! w = Some Expected /\ c = open_chan (f w).
Proof.
  revert f. induction slots as [|s slots IH]; intros f; cbn; [by intros ?%not_elem_of_nil|].
  intros [H|H]%elem_of_app.
  - destruct s; [|by apply not_elem_of_nil in H..]. apply list_elem_of_singleton in H as ->.
    by exists 0%nat.
  - destruct (IH _ H) as (w & Hw & ->). by exists (S w).
Qed.

Lemma expected_none f slots c :
  mapM slot_reply slots = Some c -> expected_from f slots = [].
Proof.
  revert f c. induction slots as [|s slots IH]; intros f c; [done|]. cbn.
  destruct s as [|c0|]; cbn; [done| |done].
  destruct (mapM slot_reply slots) as [l|] eqn:Hm; [|done]. intros _. by eapply IH.
Qed.

Lemma carbon_elem f cs c :
  c ∈ expected_carbon f cs -> exists k w x, cs !! k = Some x /\ fst x !! w = Some Expected /\
    c = open_chan (f k w).
Proof.
  revert f. induction cs as [|x cs IH]; intros f; cbn; [by intros ?%not_elem_of_nil|].
  intros [(w & Hw & ->)%expected_elem|H]%elem_of_app.
  - by exists 0%nat, w, x.
  - destruct (IH _ H) as (k & w & y & Hk & Hw & ->). by exists (S k), w, y.
Qed.

Lemma carbon_fill f cs k w c x :
  cs !! k = Some x -> fst x !! w = Some Expected ->
  expected_carbon f cs ≡ₚ
  open_chan (f k w) :: expected_carbon f (<[k := (<[w := Arrived c]> (fst x), snd x)]> cs).
Proof.
  revert f k. induction cs as [|y cs IH]; intros f [|k]; cbn; [done..| |].
  - intros [= ->] Hw. by rewrite (expected_fill (f 0%nat) _ w c Hw).
  - intros Hk Hw. rewrite (IH (f ∘ S) k Hk Hw). cbn. by rewrite Permutation_middle.
Qed.

Lemma carbon_keep f cs k x y :
  cs !! k = Some x -> (forall g, expected_from g (fst y) = expected_from g (fst x)) ->
  expected_carbon f (<[k := y]> cs) = expected_carbon f cs.
Proof.
  revert f k. induction cs as [|z cs IH]; intros f [|k]; cbn; [done..| |].
  - intros [= ->] Hy. by rewrite Hy.
  - intros Hk Hy. f_equal. by apply IH.
Qed.

Lemma carbon_snoc f cs x :
  expected_carbon f (cs ++ [x]) = expected_carbon f cs ++ expected_from (f (length cs)) (fst x).
Proof.
  revert f. induction cs as [|y cs IH]; intros f; cbn; [by rewrite app_nil_r|].
  rewrite IH, <-app_assoc. done.
Qed.

(** The requests of a timer ask for exactly the replies it expects. *)
Lemma request_all_tasks task k chans :
  (tasks_sent (request_all task k chans)).*2 =
  map task (expected_from (reply_id k) (map (fun _ => Expected) chans)).
Proof.
  unfold request_all. generalize (reply_id k) as g. induction chans as [|c chans IH]; intros g; [done|].
  rewrite imap_cons. cbn. f_equal. apply (IH (g ∘ S)).
Qed.

Lemma snapshot_chans_app ts us : snapshot_chans (ts ++ us) = snapshot_chans ts ++ snapshot_chans us.
Proof. apply omap_app. Qed.
Lemma rotate_chans_app ts us : rotate_chans (ts ++ us) = rotate_chans ts ++ rotate_chans us.
Proof. apply omap_app. Qed.

#[local] Instance snapshot_chans_perm : Proper ((≡ₚ) ==> (≡ₚ)) snapshot_chans.
Proof. intros l l' H. unfold snapshot_chans. by rewrite H. Qed.
#[local] Instance rotate_chans_perm : Proper ((≡ₚ) ==> (≡ₚ)) rotate_chans.
Proof. intros l l' H. unfold rotate_chans. by rewrite H. Qed.

Lemma replies_ok_perm ts us v : ts ≡ₚ us -> replies_ok ts v -> replies_ok us v.
Proof. intros H [H1 H2]. split; by rewrite <-H. Qed.

(** Tasks that ask for nothing. *)
Definition asks (t : Task) : bool :=
  match t with TakeSnapshot _ | Rotate _ => true | _ => false end.

Lemma no_requests ts :
  Forall (fun t => asks t = false) ts -> snapshot_chans ts = [] /\ rotate_chans ts = [].
Proof.
  induction 1 as [|t ts Ht _ [IH1 IH2]]; [done|]. unfold snapshot_chans, rotate_chans in *.
  destruct t; cbn in *; done.
Qed.

(** ** Where the tasks are *)
Section moves.
Context {QOK : MpscOk Q}.

Lemma queued_insert (ws : list WorkerThread) k wt wt' ts :
  ws !! k = Some wt -> mpsc_items (wt_queue wt') = mpsc_items (wt_queue wt) ++ ts ->
  concat (map (fun wt => mpsc_items (wt_queue wt)) (<[k := wt']> ws)) ≡ₚ
  concat (map (fun wt => mpsc_items (wt_queue wt)) ws) ++ ts.
Proof.
  revert k. induction ws as [|x ws IH]; intros [|k]; cbn; [done..| |].
  - intros [= ->] ->. rewrite <-!app_assoc. f_equiv. apply Permutation_app_comm.
  - intros Hk Ht. rewrite (IH k Hk Ht). by rewrite app_assoc.
Qed.

Lemma enqueue_waiting nd ct nd' :
  enqueue nd ct = Some nd' -> waiting nd' ≡ₚ waiting nd ++ [snd ct] /\ reply_view nd' = reply_view nd.
Proof.
  destruct ct as [ch t]. unfold enqueue.
  destruct (ns_workers nd !! ch) as [wt|] eqn:Hwt; cbn [mbind option_bind]; [|done].
  destruct (clone_send_items t (wt_queue wt)) as (q & -> & Hq & _). cbn [mbind option_bind].
  intros [= <-]. split; [|done]. unfold waiting, queued. cbn [ns_spawned ns_workers set_workers snd].
  rewrite (queued_insert _ _ wt _ [t]) by done. by rewrite app_assoc.
Qed.

(** Replies as effects on the reply channels. *)
Definition take_reply (v : ReplyView) (x : nat * Cache) : ReplyView :=
  let '(id, c) := x in
  match countable.decode_nat (A := option nat * nat) id with
  | Some (None, w) => (fill_slot w c <$> fst v, snd v)
  | Some (Some k, w) => (fst v, alter (fun y => (fill_slot w c (fst y), snd y)) k (snd v))
  | None => v
  end.

Lemma map_alter {A B} (f : A -> A) (g : B -> B) (h : A -> B) k (l : list A) :
  (forall x, h (f x) = g (h x)) -> map h (alter f k l) = alter g k (map h l).
Proof.
  intros H. revert k. induction l as [|x l IH]; intros [|k]; cbn; [done..| |].
  - by rewrite H.
  - f_equal. apply IH.
Qed.

Lemma alter_is_insert {A} (f : A -> A) k (l : list A) x :
  l !! k = Some x -> alter f k l = <[k := f x]> l.
Proof.
  revert k. induction l as [|y l IH]; intros [|k]; cbn; [done..|by intros [= ->]|].
  intros Hk. f_equal. by apply IH.
Qed.

Lemma emit_waiting direct nd e nd' :
  emit direct nd e = Some nd' ->
  waiting nd' ≡ₚ waiting nd ++ (tasks_sent [e]).*2 /\
  reply_view nd' = foldl take_reply (reply_view nd) (caches_sent (plain [e])).
Proof.
  destruct e as [[c n|id c|k v]|ch t]; cbn [emit].
  - intros [= <-]. by rewrite app_nil_r.
  - intros [= <-]. unfold reply, reply_view. cbn.
    destruct (countable.decode_nat id) as [[[k|] w]|]; rewrite app_nil_r; split; try done.
    cbn [ns_snapshot ns_carbon set_carbon set_snapshot fst snd]. f_equal. by apply map_alter.
  - intros [= <-]. rewrite app_nil_r. split; [done|]. unfold reply_view. cbn. f_equal.
    rewrite (map_alter _ id); [|done]. apply list_alter_id. done.
  - destruct direct; [by intros ?%enqueue_waiting|]. intros [= <-]. split; [|done].
    unfold waiting, queued. cbn [ns_spawned set_spawned ns_workers]. rewrite fmap_app.
    rewrite <-!app_assoc. f_equiv. apply Permutation_app_comm.
Qed.

Lemma emit_all_waiting direct nd es nd' :
  emit_all direct nd es = Some nd' ->
  waiting nd' ≡ₚ waiting nd ++ (tasks_sent es).*2 /\
  reply_view nd' = foldl take_reply (reply_view nd) (caches_sent (plain es)).
Proof.
  revert nd. induction es as [|e es IH]; intros nd; cbn [emit_all].
  { intros [= <-]. by rewrite app_nil_r. }
  destruct (emit direct nd e) as [nd1|] eqn:He; cbn [mbind option_bind]; [|done].
  intros H%IH. apply emit_waiting in He as [Hw Hv]. destruct H as [H1 H2].
  change (e :: es) with ([e] ++ es). rewrite plain_app, caches_sent_app, foldl_app, <-Hv, <-H2.
  split; [|done]. by rewrite tasks_sent_app, fmap_app, H1, Hw, <-app_assoc.
Qed.
End moves.

(** ** Components that neither ask for caches nor reply *)
Definition quiet (e : NodeEffect) : Prop :=
  match e with
  | Plain (SendCache _ _) => False
  | SendTask _ t => asks t = false
  | _ => True
  end.

Lemma quiet_spec es :
  Forall quiet es ->
  caches_sent (plain es) = [] /\ Forall (fun t => asks t = false) (tasks_sent es).*2.
Proof.
  induction 1 as [|[[]|ch t] es He _ [IH1 IH2]]; cbn in *; try done. split; [done|].
  by constructor.
Qed.

(** ** What every step does to tasks and reply channels *)
Section steps.
Context {QOK : MpscOk Q}.
Context (system : System) (d : DaemonState).

Lemma waiting_same nd nd1 :
  ns_workers nd1 = ns_workers nd /\ ns_spawned nd1 = ns_spawned nd -> waiting nd1 = waiting nd.
Proof. unfold waiting, queued. by intros [-> ->]. Qed.

Lemma insert_same_view (cs : list CarbonThread) k ct ct' :
  cs !! k = Some ct -> ct_slots ct' = ct_slots ct -> ct_joined ct' = ct_joined ct ->
  map (fun ct => (ct_slots ct, ct_joined ct)) (<[k := ct']> cs) =
  map (fun ct => (ct_slots ct, ct_joined ct)) cs.
Proof.
  intros Hk Hs Hj. rewrite list_fmap_insert, list_insert_id; [done|].
  by rewrite list_lookup_fmap, Hk, Hs, Hj.
Qed.

(** Components that have nothing to do with caches. *)
Lemma act_quiet nd ev nd1 es ss :
  node_act system d nd ev = Some (nd1, es, ss) ->
  match ev with
  | ESnapshot | EJoin | ECarbon _ _ | ERead _ _ | EPoll _ | EWork _ => True
  | _ => waiting nd1 = waiting nd /\ reply_view nd1 = reply_view nd /\ Forall quiet es /\ ss = []
  end.
Proof.
  intros H. pose proof (act_workers system d nd ev nd1 es ss H) as Hw.
  assert (Hq : (forall e, effect_fits ev e = true -> quiet e) -> Forall quiet es)
    by (intros; by eapply act_Forall).
  destruct ev; try done; cbn [node_act] in H;
    (split; [by apply waiting_same|]); clear Hw;
    (assert (Hquiet : Forall quiet es) by (apply Hq; by intros [[]|ch []])); clear Hq;
    (enough (reply_view nd1 = reply_view nd /\ ss = []) as [-> ->] by done).
  - unfold act_datagram in H. destruct (_ !! l) as [[s|]|]; [|done..].
    destruct (on_datagram _ _ _ _ _) as [[[so fl] e]|]; cbn [mbind option_bind] in H; [|done].
    by injection H as <- _ <-.
  - by injection H as <- _ <-.
  - unfold act_batch in H. destruct (_ !! k) as [[t st]|]; cbn [mbind option_bind] in H; [|done].
    destruct (mudp_step _ _ _) as [[[st' fl] e]|]; cbn [mbind option_bind] in H; [|done].
    by injection H as <- _ <-.
  - by injection H as <- _ <-.
  - unfold act_message in H. by simplify_option_eq.
  - unfold act_stats in H. destruct (get_stats _ _) as [[st sent]|]; cbn [mbind option_bind] in H;
      [|done]. by injection H as <- _ <-.
  - unfold act_format in H. destruct (_ !! k) as [ct|] eqn:Hk; cbn [mbind option_bind] in H; [|done].
    destruct (ct_stage ct); [|done..]. destruct (forallb _ _); [|done].
    unfold reply_view. destruct (leads ct); [destruct (aggregate_mode _ _)|];
      injection H as <- _ <-; cbn [ns_snapshot ns_carbon set_carbon];
      by rewrite (insert_same_view _ _ ct).
  - unfold act_backend in H. destruct (_ !! k) as [ct|] eqn:Hk; cbn [mbind option_bind] in H; [|done].
    destruct (ct_stage ct); [done| |done]. destruct (outstanding k nd); [|done].
    unfold reply_view. destruct (carbon_sender _ _ _ _) as [[bs e]|];
      injection H as <- _ <-; cbn [ns_snapshot ns_carbon set_carbon];
      by rewrite (insert_same_view _ _ ct).
  - by injection H as <- _ <-.
  - by injection H as <- _ <-.
Qed.

(** The timers: they ask for caches. *)
Lemma act_asks nd ev nd1 es ss :
  node_act system d nd ev = Some (nd1, es, ss) ->
  match ev with
  | ESnapshot =>
      waiting nd1 = waiting nd /\ fst (reply_view nd) = None /\ ss = [] /\
      reply_view nd1 = (Some (map (fun _ => Expected) (d_chans d)), snd (reply_view nd)) /\
      es = request_all TakeSnapshot None (d_chans d)
  | ECarbon _ _ =>
      waiting nd1 = waiting nd /\ ss = [] /\
      reply_view nd1 = (fst (reply_view nd),
                        snd (reply_view nd) ++ [(map (fun _ => Expected) (d_chans d), [])]) /\
      es = request_all Rotate (Some (length (snd (reply_view nd)))) (d_chans d)
  | _ => True
  end.
Proof.
  intros H. pose proof (act_workers system d nd ev nd1 es ss H) as Hw.
  destruct ev; try done; cbn [node_act] in H; (split; [by apply waiting_same|]).
  - unfold act_snapshot in H. destruct (ns_snapshot nd) eqn:Hs; [done|]. by injection H as <- <- <-.
  - injection H as <- <- <-. split; [done|]. unfold reply_view. cbn. rewrite length_map.
    by rewrite map_app.
Qed.

(** Reading replies. *)
Lemma act_reads nd ev nd1 es ss :
  node_act system d nd ev = Some (nd1, es, ss) ->
  match ev with
  | EJoin => exists slots replies,
      fst (reply_view nd) = Some slots /\ mapM slot_reply slots = Some replies /\
      waiting nd1 = waiting nd /\ reply_view nd1 = (None, snd (reply_view nd)) /\
      snapshot_tick (d_snapshot d) replies = (inr ss, []) /\ es = []
  | ERead k w => exists slots joined c,
      snd (reply_view nd) !! k = Some (slots, joined) /\ slots !! w = Some (Arrived c) /\
      waiting nd1 = waiting nd /\ ss = [] /\
      reply_view nd1 = (fst (reply_view nd),
                        <[k := (<[w := Taken]> slots, joined ++ [c])]> (snd (reply_view nd))) /\
      Forall quiet es
  | _ => True
  end.
Proof.
  intros H. pose proof (act_workers system d nd ev nd1 es ss H) as Hw.
  assert (Hq : (forall e, effect_fits ev e = true -> quiet e) -> Forall quiet es)
    by (intros; by eapply act_Forall).
  destruct ev; try done; cbn [node_act] in H; apply waiting_same in Hw.
  - unfold act_join in H. destruct (ns_snapshot nd) as [slots|] eqn:Hs; cbn [mbind option_bind] in H;
      [|done]. destruct (mapM slot_reply slots) as [rs|] eqn:Hm; cbn [mbind option_bind] in H; [|done].
    exists slots, rs. unfold snapshot_tick in *.
    destruct (join_all rs) as [ms|]; [|done]. by injection H as <- <- <-.
  - assert (Hquiet : Forall quiet es) by (apply Hq; by intros [[]|ch []]). clear Hq.
    unfold act_read in H. destruct (ns_carbon nd !! k) as [ct|] eqn:Hk; cbn [mbind option_bind] in H;
      [|done]. destruct (ct_slots ct !! w) as [[|c|]|] eqn:Hc; [done| |done..].
    exists (ct_slots ct), (ct_joined ct), c. unfold reply_view in *. cbn [fst snd].
    rewrite list_lookup_fmap, Hk.
    destruct (leads ct); [destruct (accumulate _ _) as [[[acc|] e]|] eqn:Ha|];
      cbn [mbind option_bind] in H; try done; injection H as <- <- <-;
      cbn [ns_snapshot ns_carbon set_carbon]; rewrite list_fmap_insert; cbn [ct_slots ct_joined];
      split_and!; done.
Qed.

(** Moving and running tasks. *)
Lemma act_moves nd ev nd1 es ss :
  node_act system d nd ev = Some (nd1, es, ss) ->
  match ev with
  | EPoll _ => waiting nd1 ≡ₚ waiting nd /\ reply_view nd1 = reply_view nd /\ es = [] /\ ss = []
  | EWork w => exists wt t q r es',
      ns_workers nd !! w = Some wt /\ run (wt_runner wt) t = Some (r, es') /\
      es = map Plain es' /\ ss = [] /\
      nd1 = set_workers nd (<[w := mkWorkerThread q r (wt_ran wt ++ [t])]> (ns_workers nd)) /\
      waiting nd ≡ₚ t :: waiting nd1 /\ reply_view nd1 = reply_view nd
  | _ => True
  end.
Proof.
  intros H%act_workers. destruct ev; try done.
  - destruct H as ([ch t] & Hj & -> & -> & [Hw Hv]%enqueue_waiting). rewrite Hw, Hv.
    split; [|done]. unfold waiting. cbn [ns_spawned set_spawned snd].
    change (queued (set_spawned nd _)) with (queued nd).
    apply delete_Permutation, (fmap_Permutation snd) in Hj. rewrite Hj. cbn.
    by rewrite Permutation_app_comm.
  - destruct H as (wt & t & q & r & es' & Hwt & Hrecv & Hrun & -> & -> & ->).
    exists wt, t, q, r, es'. split_and!; try done. unfold waiting, queued.
    cbn [ns_spawned ns_workers set_workers].
    assert (Hi : mpsc_items (wt_queue wt) = t :: mpsc_items q).
    { destruct (mpsc_items (wt_queue wt)) as [|a l] eqn:Hi.
      - by rewrite (recv_empty _ _ Hi) in Hrecv.
      - destruct (recv_oldest _ _ _ _ Hi) as (q' & Hq & Hl & _). rewrite Hrecv in Hq.
        injection Hq as -> ->. by rewrite Hl. }
    clear -Hwt Hi. rewrite Permutation_middle. f_equiv. revert w Hwt.
    induction (ns_workers nd) as [|x ws IH]; intros [|w]; cbn; [done..| |].
    + intros [= ->]. by rewrite Hi.
    + intros Hwt. rewrite (IH w Hwt). by rewrite Permutation_middle.
Qed.
End steps.

(** ** Requests are answered *)
Section answers.
Context {QOK : MpscOk Q} {BOK : BytesOk BL} {HIOK : HashIterOk HI}.

Lemma run_no_caches r t r' es : run r t = Some (r', es) -> asks t = false -> caches_sent es = [].
Proof.
  destruct t; cbn [run]; try done; intros H _.
  - unfold run_parse in H. destruct (put _ _); cbn [mbind option_bind] in H; [|done].
    destruct (metric_parser _ _) as [evs rest]. pose proof (parse_no_caches (short r) evs) as Hn.
    destruct (foldE _ _ _). by injection H as _ <-.
  - pose proof (update_metric_no_caches (short r) (name, metric)) as Hn.
    destruct (update_metric _ _). by injection H as _ <-.
  - pose proof (foldE_update_no_caches (short r) list) as Hn. destruct (foldE _ _ _).
    by injection H as _ <-.
  - pose proof (foldE_update_no_caches (long r) list) as Hn. destruct (foldE _ _ _).
    by injection H as _ <-.
  - destruct (aggregate_task _ _) eqn:Ha; cbn in H; [|done]. injection H as _ <-.
    by eapply aggregate_no_caches.
Qed.

(** What the reply of a task that a worker runs does to the reply channels. *)
Definition answered_view (r : TaskRunner) (t : Task) (v v' : ReplyView) : Prop :=
  match t with
  | TakeSnapshot _ => exists slots w, fst v = Some slots /\ slots !! w = Some Expected /\
      v' = (Some (fill_slot w (short r) slots), snd v)
  | Rotate _ => exists k w slots joined, snd v !! k = Some (slots, joined) /\
      slots !! w = Some Expected /\
      v' = (fst v, <[k := (fill_slot w (long r) slots, joined)]> (snd v))
  | _ => v' = v
  end.

Lemma work_answers ts v t r r' es :
  replies_ok (t :: ts) v -> run r t = Some (r', es) ->
  replies_ok ts (foldl take_reply v (caches_sent es)) /\
  answered_view r t v (foldl take_reply v (caches_sent es)).
Proof.
  intros [H1 H2] Hr. destruct (asks t) eqn:Ha.
  2: { rewrite (run_no_caches _ _ _ _ Hr Ha). cbn [foldl].
       unfold snapshot_chans, rotate_chans in H1, H2. by destruct t. }
  destruct t as [| | | |c|c|]; try done.
  - change (snapshot_chans (TakeSnapshot c :: ts)) with (c :: snapshot_chans ts) in H1.
    change (rotate_chans (TakeSnapshot c :: ts)) with (rotate_chans ts) in H2.
    destruct v as [[slots|] cs]; cbn [expected_snapshot fst snd] in *.
    2: { symmetry in H1. by apply Permutation_nil_cons in H1. }
    assert (Hc : c ∈ expected_from (reply_id None) slots) by (rewrite <-H1; left).
    apply expected_elem in Hc as (w & Hw & ->).
    destruct (take_snapshot_run r (open_chan (reply_id None w))) as (es' & Hr' & Hcs & _).
    rewrite Hr in Hr'. injection Hr' as _ ->. rewrite Hcs. cbn [open_chan ch_id ch_open foldl].
    unfold take_reply. rewrite decode_reply. cbn [fst snd fmap option_fmap option_map]. split.
    + split; [|done]. cbn [expected_snapshot fst snd].
      rewrite (expected_fill _ _ w (short r) Hw) in H1. by apply Permutation_cons_inv in H1.
    + by exists slots, w.
  - change (snapshot_chans (Rotate c :: ts)) with (snapshot_chans ts) in H1.
    change (rotate_chans (Rotate c :: ts)) with (c :: rotate_chans ts) in H2.
    assert (Hc : c ∈ expected_carbon carbon_id (snd v)) by (rewrite <-H2; left).
    apply carbon_elem in Hc as (k & w & [slots joined] & Hk & Hw & ->).
    injection Hr as _ <-. cbn. change (carbon_id k w) with (reply_id (Some k) w) at 1 2. rewrite !decode_reply. cbn [fst snd].
    assert (Hal : alter (fun y : list Slot * list Cache => (fill_slot w (long r) (fst y), snd y)) k (snd v)
      = <[k := (fill_slot w (long r) slots, joined)]> (snd v)).
    { by rewrite (alter_is_insert _ _ _ _ Hk). }
    rewrite Hal. split.
    + split; [done|]. cbn [snd]. rewrite (carbon_fill _ _ k w (long r) _ Hk Hw) in H2.
      by apply Permutation_cons_inv in H2.
    + by exists k, w, slots, joined.
Qed.

Lemma chans_of_requests f chans :
  snapshot_chans (map TakeSnapshot (expected_from f chans)) = expected_from f chans /\
  rotate_chans (map TakeSnapshot (expected_from f chans)) = [] /\
  rotate_chans (map Rotate (expected_from f chans)) = expected_from f chans /\
  snapshot_chans (map Rotate (expected_from f chans)) = [].
Proof.
  unfold snapshot_chans, rotate_chans.
  split_and!; by (apply omap_map_some || apply omap_map_none).
Qed.

Lemma requests_no_plain task k chans : plain (request_all task k chans) = [].
Proof.
  unfold request_all. generalize (reply_id k) as g.
  induction chans as [|c chans IH]; intros g; [done|]. rewrite imap_cons. cbn. apply (IH (g ∘ S)).
Qed.

(** Every reply that is expected is asked for by exactly one waiting task, after
    every step. *)
Lemma node_step_replies system d nd ev nd' os :
  node_step system d nd ev = Some (nd', os) ->
  replies_ok (waiting nd) (reply_view nd) -> replies_ok (waiting nd') (reply_view nd').
Proof.
  intros (nd1 & es & ss & Ha & He & _ & _)%node_step_inv Hok.
  apply emit_all_waiting in He as [Hw Hv]. apply (replies_ok_perm _ _ _ (symmetry Hw)). rewrite Hv.
  pose proof (act_quiet system d _ _ _ _ _ Ha) as Hq. pose proof (act_asks system d _ _ _ _ _ Ha) as Hk.
  pose proof (act_reads system d _ _ _ _ _ Ha) as Hd. pose proof (act_moves system d _ _ _ _ _ Ha) as Hm.
  assert (Hquiet : Forall quiet es -> replies_ok (waiting nd1) (reply_view nd1) ->
    replies_ok (waiting nd1 ++ (tasks_sent es).*2)
               (foldl take_reply (reply_view nd1) (caches_sent (plain es)))).
  { intros [-> Hn%no_requests]%quiet_spec [H1 H2]. destruct Hn as [Hn1 Hn2]. cbn [foldl].
    unfold replies_ok. by rewrite snapshot_chans_app, rotate_chans_app, Hn1, Hn2, !app_nil_r. }
  destruct ev; try (destruct Hq as (Hq1 & Hq2 & Hq3 & _); apply Hquiet; [done|]; by rewrite Hq1, Hq2).
  - destruct Hk as (Hk1 & Hk2 & _ & Hk3 & ->). rewrite requests_no_plain, request_all_tasks, Hk1, Hk3.
    destruct Hok as [H1 H2]. unfold replies_ok. rewrite snapshot_chans_app, rotate_chans_app.
    destruct (chans_of_requests (reply_id None) (map (fun _ => Expected) (d_chans d))) as (-> & -> & _).
    unfold expected_snapshot in H1. rewrite Hk2 in H1. rewrite H1, app_nil_r. done.
  - destruct Hd as (slots & rs & Hd1 & Hd2 & Hd3 & Hd4 & _ & ->). cbn. rewrite app_nil_r, Hd3, Hd4.
    destruct Hok as [H1 H2]. split; [|done]. unfold expected_snapshot in *. rewrite Hd1 in H1.
    by rewrite (expected_none _ _ _ Hd2) in H1.
  - destruct Hk as (Hk1 & _ & Hk3 & ->). rewrite requests_no_plain, request_all_tasks, Hk1, Hk3.
    destruct Hok as [H1 H2]. unfold replies_ok. rewrite snapshot_chans_app, rotate_chans_app.
    destruct (chans_of_requests (reply_id (Some (length (snd (reply_view nd)))))
      (map (fun _ => Expected) (d_chans d))) as (_ & _ & -> & ->).
    cbn [foldl fst snd caches_sent omap list_omap]. rewrite carbon_snoc, app_nil_r, H2. done.
  - destruct Hd as (slots & joined & c & Hd1 & Hd2 & Hd3 & _ & Hd4 & Hq3). apply Hquiet; [done|].
    rewrite Hd3, Hd4. destruct Hok as [H1 H2]. split; [done|]. cbn [snd].
    rewrite (carbon_keep _ _ k _ _ Hd1); [done|]. intros g. cbn [fst].
    by apply (expected_read _ _ _ _ _ Hd2).
  - destruct Hm as (Hm1 & -> & -> & _). cbn. rewrite app_nil_r. by eapply replies_ok_perm.
  - destruct Hm as (wt & t & q & r & es' & _ & Hr & -> & _ & _ & Hm1 & ->).
    rewrite tasks_sent_plain, app_nil_r, plain_map.
    apply (replies_ok_perm _ _ _ Hm1) in Hok. by destruct (work_answers _ _ _ _ _ _ Hok Hr).
Qed.
End answers.

(** ** The counting threads *)

(** What the workers have run and where that left them. *)
Definition profile (nd : NodeState) : list (list Task * TaskRunner) :=
  map (fun wt => (wt_ran wt, wt_runner wt)) (ns_workers nd).

Lemma enqueue_profile nd ct nd' : enqueue nd ct = Some nd' -> profile nd' = profile nd.
Proof.
  destruct ct as [ch t]. unfold enqueue.
  destruct (ns_workers nd !! ch) as [wt|] eqn:Hwt; cbn [mbind option_bind]; [|done].
  destruct (clone_send t _); cbn [mbind option_bind]; [|done]. intros [= <-]. unfold profile.
  cbn [ns_workers set_workers]. rewrite list_fmap_insert, list_insert_id; [done|].
  by rewrite list_lookup_fmap, Hwt.
Qed.

Lemma emit_all_profile direct nd es nd' :
  emit_all direct nd es = Some nd' -> profile nd' = profile nd.
Proof.
  revert nd. induction es as [|e es IH]; intros nd; cbn [emit_all]; [by intros [= <-]|].
  destruct (emit direct nd e) as [nd1|] eqn:He; cbn [mbind option_bind]; [|done].
  intros H%IH. rewrite H. clear H IH. destruct e as [[| |]|c t]; cbn [emit] in He.
  - by injection He as <-.
  - injection He as <-. unfold reply. by repeat case_match.
  - by injection He as <-.
  - destruct direct; [|by injection He as <-]. by eapply enqueue_profile.
Qed.

(** Only a worker that takes a task changes what was run. *)
Lemma act_profile system d nd ev nd1 es ss :
  node_act system d nd ev = Some (nd1, es, ss) ->
  match ev with
  | EWork w => exists ran r t r' es', profile nd !! w = Some (ran, r) /\
      run r t = Some (r', es') /\ es = map Plain es' /\
      profile nd1 = <[w := (ran ++ [t], r')]> (profile nd)
  | _ => profile nd1 = profile nd
  end.
Proof.
  intros H%act_workers. unfold profile.
  destruct ev; try (destruct H as [-> _]; done).
  - destruct H as (ct & _ & _ & _ & H). by apply enqueue_profile in H.
  - destruct H as (wt & t & q & r & es' & Hwt & _ & Hr & -> & _ & ->).
    exists (wt_ran wt), (wt_runner wt), t, r, es'. rewrite list_lookup_fmap, Hwt.
    cbn [ns_workers set_workers]. by rewrite list_fmap_insert.
Qed.

(** Every runner is where running its tasks one after the other takes it. *)
Definition sequential (system : System) (p : list (list Task * TaskRunner)) : Prop :=
  Forall (fun x => exists es, run_all (TaskRunner_new system) (fst x) = Some (snd x, es)) p.

Lemma node_step_sequential system d nd ev nd' os :
  node_step system d nd ev = Some (nd', os) ->
  sequential system (profile nd) -> sequential system (profile nd').
Proof.
  intros (nd1 & es & ss & Ha & He & _ & _)%node_step_inv Hs.
  apply emit_all_profile in He as ->. apply act_profile in Ha.
  destruct ev; try (by rewrite Ha). destruct Ha as (ran & r & t & r' & es' & Hp & Hr & _ & ->).
  unfold sequential in *. apply Forall_insert; [done|].
  rewrite list.Forall_forall in Hs. destruct (Hs _ (list_elem_of_lookup_2 _ _ _ Hp)) as [e Hrun].
  cbn [fst snd] in *. eexists. by eapply run_all_snoc.
Qed.

Lemma observe_snoc {A} (obs : TaskRunner -> Task -> list A) r0 ran r e t :
  run_all r0 ran = Some (r, e) -> observe obs r0 (ran ++ [t]) = observe obs r0 ran ++ obs r t.
Proof.
  unfold run_all. revert r0 e. induction ran as [|u ran IH]; intros r0 e; cbn [foldEP observe app].
  { intros [= -> _]. destruct (run r t) as [[]|]; by rewrite app_nil_r. }
  destruct (run r0 u) as [[r1 e1]|]; [|done].
  destruct (foldEP run r1 ran) as [[r2 e2]|] eqn:Hf; [|done]. intros [= -> _].
  by rewrite (IH r1 e2 Hf), app_assoc.
Qed.
End replies.
