(* ===== verification/NodeLedger.v ===== *)
(** * The ledger of a running node (composition of [task.rs], [peer.rs],
    [aggregate.rs] and [main.rs])

    For every measure that adds up under aggregation: what came into a node, what its
    caches, queues and replies hold, and what left it towards peers and carbon
    threads, after every step of every interleaving. *)

From S2P Require Import Prelude Interfaces Globals Config Task TaskFacts Worker Aggregate.
From S2P Require Import Carbon Util Net Server Udp Peer Cluster Main Daemon Queue Node NodeStream.
From S2P Require Import NodeReplies.

Section ledger.
Context {BL : BytesLib} {ML : MetricLib} {PL : ParserLib BL ML} {XL : ExecutorLib}.
Context {HI : HashIter} {CL : CapnpLib ML} {FL : FtoaLib BL} {Q : MpscLib}.
Context {AHS : AddrHash SocketAddr} {AHB : AddrHash bytes}.

(** ** The ledger of a node *)
Section weights.
Context {QOK : MpscOk Q} {BOK : BytesOk BL} {HIOK : HashIterOk HI}.
Context (w : Metric -> Z) {WA : Additive w}.

Definition slot_weight (s : Slot) : Z :=
  match s with Arrived c => cache_weight w c | _ => 0 end.
Definition task_weight (t : Task) : Z :=
  match t with AddSnapshot l => list_weight w l | _ => 0 end.

(** The metrics a worker got from this node's own sources. *)
Definition local_of (r : TaskRunner) (t : Task) : list (bytes * Metric) :=
  if is_add_snapshot t then [] else ingested_of r t.

(** What came in, what is not replicated yet, what is in the long caches, in the
    replies to the snapshot timer, in the replies to carbon threads and what those
    have read, and in snapshots of peers that no worker has run yet. *)
Definition node_entered (system : System) (nd : NodeState) : Z :=
  sumZ (fun x => list_weight w (observe local_of (TaskRunner_new system) (fst x))) (profile nd).
Definition node_short (nd : NodeState) : Z :=
  sumZ (fun x => cache_weight w (short (snd x))) (profile nd).
Definition node_long (nd : NodeState) : Z :=
  sumZ (fun x => cache_weight w (long (snd x))) (profile nd).
Definition snapshot_held (v : ReplyView) : Z :=
  match fst v with Some slots => sumZ slot_weight slots | None => 0 end.
Definition carbon_held (v : ReplyView) : Z :=
  sumZ (fun x => sumZ slot_weight (fst x) + caches_weight w (snd x)) (snd v).
Definition node_waiting (nd : NodeState) : Z := sumZ task_weight (waiting nd).

(** No aggregation failed. *)
Definition error_free (os : list NodeOut) : Prop :=
  Forall (fun e => match e with Plain (Count AGG_ERRORS _) => False | _ => True end)
         (node_effects os).

Lemma error_free_counted es :
  Forall (fun e => match e with Plain (Count AGG_ERRORS _) => False | _ => True end) (map Plain es) ->
  counted AGG_ERRORS es = 0.
Proof.
  induction es as [|e es IH]; [done|]. cbn [map]. intros [He Hes]%list.Forall_cons.
  destruct e as [c n| |]; cbn [counted]; try by apply IH.
  rewrite decide_False; [by rewrite IH|]. by intros ->.
Qed.

Lemma error_free_app os os' : error_free (os ++ os') <-> error_free os /\ error_free os'.
Proof. unfold error_free. rewrite node_effects_app. apply Forall_app. Qed.

(** One task: what it moves. *)
Definition taken (r : TaskRunner) (t : Task) : Z :=
  match t with TakeSnapshot _ => cache_weight w (short r) | _ => 0 end.
Definition rotated_out (r : TaskRunner) (t : Task) : Z :=
  match t with Rotate _ => cache_weight w (long r) | _ => 0 end.

Lemma work_weights r t r' es :
  run r t = Some (r', es) -> counted AGG_ERRORS es = 0 ->
  cache_weight w (long r') + cache_weight w (short r') + rotated_out r t =
  cache_weight w (long r) + cache_weight w (short r) + list_weight w (local_of r t) + task_weight t /\
  cache_weight w (short r') + taken r t = cache_weight w (short r) + list_weight w (local_of r t).
Proof.
  intros Hr Hz. pose proof (run_weight w _ _ _ _ Hr Hz) as Hw.
  assert (H1 : caches_weight w (rotated_of r t) = rotated_out r t).
  { destruct t; cbn; unfold caches_weight; cbn; lia. }
  assert (H2 : list_weight w (ingested_of r t) = list_weight w (local_of r t) + task_weight t).
  { unfold local_of. destruct t; cbn [is_add_snapshot task_weight]; unfold list_weight; cbn; lia. }
  split; [lia|]. destruct (is_ingest t) eqn:Hi.
  - destruct (ingest_weight w _ _ _ _ Hi Hr Hz) as [_ Hs].
    unfold local_of. destruct t; cbn [is_add_snapshot taken] in *; try done; lia.
  - unfold local_of. destruct t; cbn [is_add_snapshot taken ingested_of] in *; try done.
    + destruct (run_add_snapshot_short _ _ _ _ Hr) as (-> & _). unfold list_weight; cbn; lia.
    + destruct (take_snapshot_run r channel) as (es' & Hr' & _). rewrite Hr in Hr'.
      injection Hr' as -> _. cbn [short]. rewrite cache_weight_empty. unfold list_weight; cbn; lia.
    + injection Hr as <- _. cbn [short]. unfold list_weight; cbn; lia.
    + cbn [run] in Hr. destruct (aggregate_task _ _); cbn in Hr; [|done]. injection Hr as <- _.
      unfold list_weight; cbn; lia.
Qed.

Lemma slots_insert (slots : list Slot) k s s' :
  slots !! k = Some s ->
  sumZ slot_weight (<[k := s']> slots) = sumZ slot_weight slots - slot_weight s + slot_weight s'.
Proof. apply sumZ_insert. Qed.

(** The replies hold what the workers gave out. *)
Lemma answered_weights r t v v' :
  answered_view r t v v' ->
  snapshot_held v' = snapshot_held v + taken r t /\ carbon_held v' = carbon_held v + rotated_out r t.
Proof.
  unfold answered_view, snapshot_held, carbon_held.
  destruct t; cbn [taken rotated_out]; try (intros ->; lia).
  - intros (slots & k & -> & Hk & ->). cbn [fst snd]. unfold fill_slot.
    rewrite (slots_insert _ _ _ _ Hk). cbn [slot_weight]. lia.
  - intros (k & j & slots & joined & Hk & Hj & ->). cbn [fst snd].
    rewrite (sumZ_insert _ _ _ _ _ Hk). cbn [fst snd]. unfold fill_slot.
    rewrite (slots_insert _ _ _ _ Hj). cbn [slot_weight]. lia.
Qed.

Lemma expected_weight {A} (l : list A) : sumZ slot_weight (map (fun _ => Expected) l) = 0.
Proof. apply sumZ_zero, list.Forall_forall. by intros s (x & -> & _)%list_elem_of_fmap. Qed.

Lemma joined_weight slots replies :
  mapM slot_reply slots = Some replies ->
  exists cs, replies = map Some cs /\ caches_weight w cs = sumZ slot_weight slots.
Proof.
  revert replies. induction slots as [|s slots IH]; intros replies.
  { intros [= <-]. by exists []. }
  cbn. destruct s as [|c|]; cbn; [done| |done].
  destruct (mapM slot_reply slots) as [l|]; [|done]. intros [= <-].
  destruct (IH l eq_refl) as (cs & -> & Hc). exists (c :: cs). split; [done|].
  unfold caches_weight, sumZ in *. cbn. lia.
Qed.

(** What the node sent to a peer, and what peers sent to its workers. *)
Definition sent_weight (addr : SocketAddr) (os : list NodeOut) : Z :=
  sumZ (fun s => if decide (sc_address (ss_options s) = addr) then caches_weight w (ss_metrics s)
                 else 0) (snapshots_out os).
Definition received_weight (os : list NodeOut) : Z :=
  sumZ task_weight (tasks_sent (node_effects os)).*2.

Lemma tick_sent s cs ss es addr :
  snapshot_tick s (map Some cs) = (inr ss, es) -> base.NoDup (sn_nodes s) -> addr ∈ sn_nodes s ->
  sumZ (fun s => if decide (sc_address (ss_options s) = addr) then caches_weight w (ss_metrics s)
                 else 0) ss = caches_weight w cs.
Proof.
  unfold snapshot_tick. rewrite join_all_some. set (ms := List.filter _ _). intros [= <- _].
  assert (Hms : caches_weight w ms = caches_weight w cs).
  { rewrite <-!(list_weight_caches w). unfold ms. by rewrite retained_entries. }
  rewrite <-Hms. generalize ms as m. clear. intros m.
  induction (sn_nodes s) as [|a l IH]; [by intros _ ?%not_elem_of_nil|].
  intros [Ha Hnd]%list.NoDup_cons Hin%elem_of_cons. cbn [map]. unfold sumZ in *.
  cbn [foldr ss_options sc_address ss_metrics]. destruct (decide (a = addr)) as [->|Hne].
  - assert (Hz : forall l, addr ∉ l -> foldr (fun s n => (if decide (sc_address (ss_options s) = addr)
      then caches_weight w (ss_metrics s) else 0) + n) 0
      (map (fun address => mkSnapshotSender m (mkSnapshotClientOptions address (sn_client_bind s))) l)
      = 0).
    { clear. induction l as [|b l IH]; intros Hl; [done|]. cbn. apply list.not_elem_of_cons in Hl as [].
      rewrite decide_False by done. by rewrite IH. }
    rewrite Hz by done. lia.
  - rewrite IH; [lia|done|]. destruct Hin as [->|]; done.
Qed.

(** What one step does to the ledger. *)
Definition ledger_step (system : System) (peers : list SocketAddr) (nd nd' : NodeState)
    (os : list NodeOut) : Prop :=
  node_short nd' + node_long nd' + carbon_held (reply_view nd') + node_waiting nd' -
    node_entered system nd' =
  node_short nd + node_long nd + carbon_held (reply_view nd) + node_waiting nd -
    node_entered system nd + received_weight os /\
  forall addr, addr ∈ peers ->
  node_short nd' + snapshot_held (reply_view nd') + sent_weight addr os - node_entered system nd' =
  node_short nd + snapshot_held (reply_view nd) - node_entered system nd.

(** Steps that run no task. *)
Lemma ledger_same system peers nd nd1 nd' es os :
  profile nd' = profile nd -> waiting nd1 ≡ₚ waiting nd ->
  waiting nd' ≡ₚ waiting nd1 ++ (tasks_sent es).*2 -> node_effects os = es ->
  carbon_held (reply_view nd') = carbon_held (reply_view nd) ->
  (forall addr, addr ∈ peers ->
   snapshot_held (reply_view nd') + sent_weight addr os = snapshot_held (reply_view nd)) ->
  ledger_step system peers nd nd' os.
Proof.
  intros Hp Hw1 Hw <- Hc Hs. unfold ledger_step, node_short, node_long, node_entered, node_waiting.
  rewrite Hp, (sumZ_perm _ _ _ Hw), sumZ_app, (sumZ_perm _ _ _ Hw1), Hc.
  unfold received_weight. split; [lia|]. intros addr Ha. specialize (Hs addr Ha). lia.
Qed.

Lemma no_senders addr os : snapshots_out os = [] -> sent_weight addr os = 0.
Proof. unfold sent_weight. by intros ->. Qed.

Lemma work_ledger system peers nd nd' os i ran r t r' es ts :
  sequential system (profile nd) -> profile nd !! i = Some (ran, r) -> run r t = Some (r', es) ->
  profile nd' = <[i := (ran ++ [t], r')]> (profile nd) ->
  node_effects os = map Plain es -> snapshots_out os = [] -> error_free os ->
  waiting nd ≡ₚ t :: ts -> waiting nd' ≡ₚ ts ->
  answered_view r t (reply_view nd) (reply_view nd') ->
  ledger_step system peers nd nd' os.
Proof.
  intros Hseq Hp Hr Hp' Hes Hss Hef Hw Hw' Hans. unfold error_free in Hef. rewrite Hes in Hef.
  apply error_free_counted in Hef. destruct (work_weights _ _ _ _ Hr Hef) as [H1 H2].
  destruct (answered_weights _ _ _ _ Hans) as [H3 H4].
  unfold sequential in Hseq. rewrite list.Forall_forall in Hseq.
  destruct (Hseq _ (list_elem_of_lookup_2 _ _ _ Hp)) as [e Hrun]. cbn [fst snd] in Hrun.
  unfold ledger_step, node_short, node_long, node_entered, node_waiting. rewrite Hp'.
  rewrite !(sumZ_insert _ _ _ _ _ Hp). cbn [fst snd]. rewrite (observe_snoc _ _ _ _ _ _ Hrun).
  rewrite list_weight_app, H3, H4, (sumZ_perm _ _ _ Hw), (sumZ_perm _ _ _ Hw').
  unfold received_weight. rewrite Hes, tasks_sent_plain.
  change (sumZ task_weight [].*2) with 0.
  change (sumZ task_weight (t :: ts)) with (task_weight t + sumZ task_weight ts).
  split; [lia|]. intros addr _. rewrite (no_senders _ _ Hss). lia.
Qed.

Lemma node_step_ledger system d nd ev nd' os :
  node_step system d nd ev = Some (nd', os) -> error_free os ->
  replies_ok (waiting nd) (reply_view nd) -> sequential system (profile nd) ->
  base.NoDup (sn_nodes (d_snapshot d)) ->
  ledger_step system (sn_nodes (d_snapshot d)) nd nd' os.
Proof.
  intros (nd1 & es & ss & Ha & He & Hes & Hss)%node_step_inv Hef Hok Hseq Hnd.
  pose proof (emit_all_profile _ _ _ _ He) as Hp'. apply emit_all_waiting in He as [Hw Hv].
  pose proof (act_quiet system d _ _ _ _ _ Ha) as Hq. pose proof (act_asks system d _ _ _ _ _ Ha) as Hk.
  pose proof (act_reads system d _ _ _ _ _ Ha) as Hd. pose proof (act_moves system d _ _ _ _ _ Ha) as Hm.
  pose proof (act_profile system d _ _ _ _ _ Ha) as Hp.
  assert (Hquiet : Forall quiet es -> caches_sent (plain es) = []) by (by intros []%quiet_spec).
  destruct ev; try (destruct Hq as (Hq1 & Hq2 & Hq3 & Hq4); rewrite (Hquiet Hq3) in Hv; cbn in Hv;
    rewrite Hq4 in Hss; eapply (ledger_same system _ nd nd1 nd' es); [congruence|by rewrite Hq1|
      done|done|by rewrite Hv, Hq2|intros a0 _; rewrite Hv, Hq2, no_senders by done; lia]).
  - destruct Hk as (Hk1 & Hk2 & -> & Hk3 & ->). rewrite requests_no_plain in Hv. cbn in Hv.
    eapply (ledger_same _ _ nd nd1); [congruence|by rewrite Hk1|done|done|by rewrite Hv, Hk3|].
    intros a0 _. rewrite no_senders by done. unfold snapshot_held. rewrite Hv, Hk3, Hk2. cbn [fst].
    rewrite expected_weight. done.
  - destruct Hd as (slots & rs & Hd1 & Hd2 & Hd3 & Hd4 & Hd5 & ->). cbn in Hv.
    destruct (joined_weight _ _ Hd2) as (cs & -> & Hcs).
    eapply (ledger_same _ _ nd nd1); [congruence|by rewrite Hd3|done|done|by rewrite Hv, Hd4|].
    intros a0 Hin. unfold sent_weight, snapshot_held. rewrite Hss, Hv, Hd4, Hd1. cbn [fst].
    rewrite (tick_sent _ _ _ _ _ Hd5 Hnd Hin), Hcs. lia.
  - destruct Hk as (Hk1 & -> & Hk3 & ->). rewrite requests_no_plain in Hv. cbn in Hv.
    eapply (ledger_same _ _ nd nd1); [congruence|by rewrite Hk1|done|done| |].
    + rewrite Hv, Hk3. unfold carbon_held. cbn [snd]. rewrite sumZ_snoc. cbn [fst snd].
      rewrite expected_weight. unfold caches_weight at 2. cbn [foldr]. lia.
    + intros a0 _. rewrite no_senders, Hv, Hk3 by done. unfold snapshot_held. cbn [fst]. lia.
  - destruct Hd as (slots & joined & c & Hd1 & Hd2 & Hd3 & -> & Hd4 & Hq3).
    rewrite (Hquiet Hq3) in Hv. cbn in Hv.
    eapply (ledger_same _ _ nd nd1); [congruence|by rewrite Hd3|done|done| |].
    + rewrite Hv, Hd4. unfold carbon_held. cbn [snd]. rewrite (sumZ_insert _ _ _ _ _ Hd1).
      cbn [fst snd]. rewrite (slots_insert _ _ _ _ Hd2), caches_weight_app. cbn [slot_weight].
      change (caches_weight w [c]) with (cache_weight w c + 0). lia.
    + intros a0 _. rewrite no_senders, Hv, Hd4 by done. unfold snapshot_held. cbn [fst]. lia.
  - destruct Hm as (Hm1 & Hm2 & -> & ->). cbn in Hv.
    eapply (ledger_same _ _ nd nd1); [congruence|done|done|done|by rewrite Hv, Hm2|].
    intros a0 _. rewrite no_senders, Hv, Hm2 by done. lia.
  - destruct Hm as (wt & t & q & r & es' & Hwt & Hr & -> & -> & -> & Hm1 & Hm2).
    rewrite tasks_sent_plain, app_nil_r in Hw. rewrite plain_map, Hm2 in Hv.
    apply (replies_ok_perm _ _ _ Hm1) in Hok. destruct (work_answers _ _ _ _ _ _ Hok Hr) as [_ Hans].
    rewrite <-Hv in Hans. eapply (work_ledger system _ nd nd' os); try done.
    + unfold profile. by rewrite list_lookup_fmap, Hwt.
    + rewrite Hp'. unfold profile. cbn [ns_workers set_workers]. by rewrite list_fmap_insert.
Qed.

(** ** The ledger of a run *)
Definition node_ok (system : System) (nd : NodeState) : Prop :=
  replies_ok (waiting nd) (reply_view nd) /\ sequential system (profile nd).

Lemma node_step_ok system d nd ev nd' os :
  node_step system d nd ev = Some (nd', os) -> node_ok system nd -> node_ok system nd'.
Proof.
  intros Hs [H1 H2]. split; [by eapply node_step_replies|by eapply node_step_sequential].
Qed.

Lemma ledger_trans system peers nd nd1 nd2 o1 o2 :
  ledger_step system peers nd nd1 o1 -> ledger_step system peers nd1 nd2 o2 ->
  ledger_step system peers nd nd2 (o1 ++ o2).
Proof.
  intros [A1 B1] [A2 B2]. unfold ledger_step, received_weight, sent_weight in *.
  rewrite node_effects_app, tasks_sent_app, fmap_app, sumZ_app. split; [lia|].
  intros addr Ha. specialize (B1 addr Ha). specialize (B2 addr Ha).
  rewrite snapshots_out_app, sumZ_app. lia.
Qed.

Lemma node_run_ledger system d nd evs nd' os :
  node_run system d nd evs = Some (nd', os) -> error_free os -> node_ok system nd ->
  base.NoDup (sn_nodes (d_snapshot d)) ->
  ledger_step system (sn_nodes (d_snapshot d)) nd nd' os /\ node_ok system nd'.
Proof.
  unfold node_run. intros Hr He Hok Hnd. revert nd os Hok Hr He.
  induction evs as [|ev evs IH]; intros nd os Hok; cbn [foldEP].
  { intros [= <- <-] _. split; [|done]. split; [cbn; lia|]. intros addr _. cbn; lia. }
  destruct (node_step system d nd ev) as [[nd1 o1]|] eqn:Hs; [|done].
  destruct (foldEP _ nd1 evs) as [[nd2 o2]|] eqn:Hr; [|done].
  intros [= <- <-] [He1 He2]%error_free_app.
  destruct (IH nd1 o2 (node_step_ok _ _ _ _ _ _ Hs Hok) Hr He2) as [Hl Hok2]. split; [|done].
  destruct Hok as [Hok Hseq]. eapply ledger_trans; [by eapply node_step_ledger|done].
Qed.

Lemma started_ok system d : Started system d ->
  node_ok system (node_init system d) /\ waiting (node_init system d) = [] /\
  node_short (node_init system d) = 0 /\ node_long (node_init system d) = 0 /\
  node_entered system (node_init system d) = 0.
Proof.
  intros [_ _ Hr _ _ _].
  assert (Hp : profile (node_init system d) =
    map (fun _ => ([], TaskRunner_new system)) (seq 0 (Z.to_nat (w_threads system)))).
  { unfold profile, node_init. cbn [ns_workers]. rewrite Hr, !map_map. done. }
  assert (Hw : waiting (node_init system d) = []).
  { unfold waiting, queued, node_init. cbn [ns_spawned ns_workers]. rewrite map_map. cbn [wt_queue].
    rewrite (proj1 (channel_new Task _)). clear. induction (d_workers d) as [|x l IH]; [done|exact IH]. }
  assert (Hz : forall f : list Task * TaskRunner -> Z, f ([], TaskRunner_new system) = 0 ->
    sumZ f (profile (node_init system d)) = 0).
  { intros f Hf. rewrite Hp. apply sumZ_zero, list.Forall_forall.
    by intros x (i & -> & _)%list_elem_of_fmap. }
  split_and!; [split|done|by apply Hz..].
  - by rewrite Hw.
  - rewrite Hp. apply list.Forall_forall. intros x (i & -> & _)%list_elem_of_fmap. by exists [].
Qed.

(** C3. A running node neither loses nor invents metrics: after any interleaving of
    its receivers, timers, peers and threads in which no aggregation failed, and for
    every measure that adds up under aggregation, what its workers got from their own
    sources and what peers sent is exactly what is in the workers' caches, in the
    tasks they have not run yet, in replies on their way to carbon threads and in
    what those have read; and for every peer, what the workers got from their own
    sources is exactly what they have not handed out for replication yet, what waits
    in the running snapshot, and what was sent to that peer. *)
Theorem node_conserves_metrics {O : OsLib} {T : TimerLib} (level_ok : string -> bool) resolve_host
    mgmt_binds (system : System) (F F' : gset nat) (d : DaemonState) (evs : list NodeEvent)
    (nd : NodeState) (os : list NodeOut) :
  start level_ok resolve_host mgmt_binds system F = Some (d, F') ->
  base.NoDup (sn_nodes (d_snapshot d)) ->
  node_run system d (node_init system d) evs = Some (nd, os) -> error_free os ->
  node_short nd + node_long nd + node_waiting nd + carbon_held (reply_view nd) =
  node_entered system nd + received_weight os /\
  forall addr, addr ∈ sn_nodes (d_snapshot d) ->
    node_short nd + snapshot_held (reply_view nd) + sent_weight addr os = node_entered system nd.
Proof.
  intros Hst%start_started Hnd Hrun He.
  destruct (started_ok system d Hst) as (Hok & Hw & H1 & H2 & H3).
  destruct (node_run_ledger _ _ _ _ _ _ Hrun He Hok Hnd) as [[HA HB] _].
  rewrite H1, H2, H3 in HA. unfold node_waiting in *. rewrite Hw in HA.
  change (carbon_held (reply_view (node_init system d))) with 0 in HA.
  change (sumZ task_weight []) with 0 in HA. split; [lia|].
  intros addr Ha. specialize (HB addr Ha). rewrite H1, H3 in HB.
  change (snapshot_held (reply_view (node_init system d))) with 0 in HB. lia.
Qed.
End weights.
End ledger.
