(* ===== verification/NodeCarbon.v ===== *)
(** * Carbon ticks in a running node ([main.rs], [aggregate.rs], [task.rs])

    The carbon threads of a running node, several of which may be under way at a
    time, while their workers do other work in between: what a thread hands to its
    clients is what one tick on its own would hand to them. *)

From S2P Require Import Prelude Interfaces Globals Config Task TaskFacts Worker Aggregate.
From S2P Require Import Carbon Util Net Server Udp Peer Main Daemon Queue Node NodeStream NodeReplies.

Section carbon.
Context {BL : BytesLib} {ML : MetricLib} {PL : ParserLib BL ML} {XL : ExecutorLib}.
Context {HI : HashIter} {CL : CapnpLib ML} {FL : FtoaLib BL} {Q : MpscLib}.
Context {AHS : AddrHash SocketAddr} {AHB : AddrHash bytes}.

(** ** A carbon thread without its reply channels *)
Definition bare (ct : CarbonThread) : CarbonThread := with_slots ct [].
Definition bare_thread (nd : NodeState) (k : nat) : option CarbonThread :=
  bare <$> ns_carbon nd !! k.

Definition add_values (vs : list (bytes * Float)) (ct : CarbonThread) : CarbonThread :=
  mkCarbonThread (ct_aggregator ct) (ct_ts ct) (ct_addr ct) (ct_slots ct) (ct_joined ct)
    (ct_acc ct) (ct_values ct ++ vs) (ct_stage ct).

(** The values of a list of effects that a carbon thread receives. *)
Definition values_for (k : nat) (es : list NodeEffect) : list (bytes * Float) :=
  items_of k (values_sent (plain es)).

Lemma add_values_nil (o : option CarbonThread) : add_values [] <$> o = o.
Proof. destruct o as [[]|]; [|done]. cbn. unfold add_values. cbn. by rewrite app_nil_r. Qed.

Lemma add_values_app vs us (o : option CarbonThread) :
  add_values us <$> (add_values vs <$> o) = add_values (vs ++ us) <$> o.
Proof. destruct o as [[]|]; [|done]. cbn. unfold add_values. cbn. by rewrite app_assoc. Qed.

Lemma values_for_app k es es' : values_for k (es ++ es') = values_for k es ++ values_for k es'.
Proof. unfold values_for. by rewrite plain_app, values_sent_app, items_of_app. Qed.

Lemma emit_bare direct nd e nd' :
  emit direct nd e = Some nd' ->
  forall k, bare_thread nd' k = add_values (values_for k [e]) <$> bare_thread nd k.
Proof.
  intros He k. destruct e as [[c n|id c|j v]|ch t]; cbn [emit] in He.
  - injection He as <-. by rewrite add_values_nil.
  - injection He as <-. change (values_for k [Plain (SendCache id c)]) with (@nil (bytes * Float)).
    rewrite add_values_nil. unfold reply.
    destruct (countable.decode_nat id) as [[[j|] w]|]; [|done..]. unfold bare_thread.
    cbn [ns_carbon set_carbon]. destruct (decide (j = k)) as [->|Hne].
    + rewrite list_lookup_alter_eq. by destruct (ns_carbon nd !! k).
    + by rewrite list_lookup_alter_ne.
  - injection He as <-. unfold bare_thread, values_for. cbn [ns_carbon set_carbon].
    unfold items_of. cbn [plain values_sent omap list_omap fst snd].
    destruct (decide (j = k)) as [->|Hne].
    + rewrite list_lookup_alter_eq. by destruct (ns_carbon nd !! k).
    + rewrite list_lookup_alter_ne by done. by rewrite add_values_nil.
  - change (values_for k [SendTask ch t]) with (@nil (bytes * Float)). rewrite add_values_nil.
    destruct direct; [|by injection He as <-]. unfold enqueue in He.
    destruct (ns_workers nd !! ch) as [wt|]; cbn [mbind option_bind] in He; [|done].
    destruct (clone_send t _); cbn [mbind option_bind] in He; [|done]. by injection He as <-.
Qed.

Lemma emit_all_bare direct nd es nd' :
  emit_all direct nd es = Some nd' ->
  forall k, bare_thread nd' k = add_values (values_for k es) <$> bare_thread nd k.
Proof.
  revert nd. induction es as [|e es IH]; intros nd; cbn [emit_all].
  { intros [= <-] k. by rewrite add_values_nil. }
  destruct (emit direct nd e) as [nd1|] eqn:He; cbn [mbind option_bind]; [|done].
  intros H k. rewrite (IH _ H), (emit_bare _ _ _ _ He), add_values_app.
  change (e :: es) with ([e] ++ es). by rewrite values_for_app.
Qed.

(** ** The values that tasks will send *)
Definition task_values (t : Task) : list (bytes * Float) :=
  match t with
  | Aggregate data => metric_values (ad_options data) (ad_name data) (ad_metric data)
  | _ => []
  end.

Definition outstanding_values (k : nat) (ts : list Task) : list (bytes * Float) :=
  concat (map task_values (List.filter (formats_for k) ts)).

Lemma outstanding_values_app k ts us :
  outstanding_values k (ts ++ us) = outstanding_values k ts ++ outstanding_values k us.
Proof. unfold outstanding_values. by rewrite List.filter_app, map_app, concat_app. Qed.

#[export] Instance outstanding_values_perm k :
  Proper ((≡ₚ) ==> (≡ₚ)) (outstanding_values k).
Proof.
  intros ts us H. unfold outstanding_values. apply concat_map_perm.
  induction H as [|x l l' H IH|x y l|l l' l'' H1 IH1 H2 IH2]; cbn; [done| | |by etrans].
  - destruct (formats_for k x); [by constructor|done].
  - destruct (formats_for k x), (formats_for k y); try done. apply perm_swap.
Qed.

(** Tasks that format nothing. *)
Definition formats (t : Task) : bool := match t with Aggregate _ => true | _ => false end.

Lemma no_formats k ts : Forall (fun t => formats t = false) ts -> List.filter (formats_for k) ts = [].
Proof. induction 1 as [|[] ts Ht _ IH]; cbn; done. Qed.

(** ** Reply channels that are read once *)
Section invariant.
Context {QOK : MpscOk Q} {BOK : BytesOk BL} {XOK : ExecutorOk XL} {HIOK : HashIterOk HI}.
Context (system : System) (d : DaemonState).

Definition taken_count (slots : list Slot) : Z :=
  sumZ (fun s => if is_taken s then 1 else 0) slots.

Definition slots_ok (v : ReplyView) : Prop :=
  Forall (fun x => length (fst x) = length (d_chans d) /\ blen (snd x) = taken_count (fst x)) (snd v).

Lemma taken_le slots : taken_count slots <= blen slots.
Proof.
  unfold taken_count, sumZ, blen. induction slots as [|s slots IH]; cbn [foldr length]; [done|].
  destruct (is_taken s); lia.
Qed.

Lemma taken_all slots w c : slots !! w = Some (Arrived c) -> taken_count slots < blen slots.
Proof.
  intros Hw. pose proof (taken_le (<[w := Taken]> slots)) as H. unfold taken_count, blen in *.
  rewrite (sumZ_insert _ _ _ _ _ Hw), length_insert in H. cbn in H. lia.
Qed.

Lemma taken_none {A} (l : list A) : taken_count (map (fun _ => Expected) l) = 0.
Proof. apply sumZ_zero, list.Forall_forall. by intros s (x & -> & _)%list_elem_of_fmap. Qed.

Lemma taken_full slots : forallb is_taken slots = true -> taken_count slots = blen slots.
Proof.
  unfold taken_count, sumZ, blen. induction slots as [|s slots IH]; cbn [forallb foldr length]; [done|].
  intros [-> Hs]%andb_true_iff. rewrite IH by done. lia.
Qed.

(** A step leaves the carbon threads' channels alone, or adds a thread, fills a
    channel or reads one. *)
Lemma node_step_slots nd ev nd' os :
  node_step system d nd ev = Some (nd', os) -> replies_ok (waiting nd) (reply_view nd) ->
  slots_ok (reply_view nd) -> slots_ok (reply_view nd').
Proof.
  intros (nd1 & es & ss & Ha & He & _ & _)%node_step_inv Hok Hs.
  apply emit_all_waiting in He as [Hw Hv]. rewrite Hv.
  pose proof (act_quiet system d _ _ _ _ _ Ha) as Hq. pose proof (act_asks system d _ _ _ _ _ Ha) as Hk.
  pose proof (act_reads system d _ _ _ _ _ Ha) as Hd. pose proof (act_moves system d _ _ _ _ _ Ha) as Hm.
  assert (Hquiet : Forall quiet es -> caches_sent (plain es) = []) by (by intros []%quiet_spec).
  unfold slots_ok in *.
  destruct ev; try (destruct Hq as (_ & -> & Hq3 & _); by rewrite (Hquiet Hq3)).
  - destruct Hk as (_ & _ & _ & -> & ->). by rewrite requests_no_plain.
  - by destruct Hd as (slots & rs & _ & _ & _ & -> & _ & ->).
  - destruct Hk as (_ & _ & -> & ->). rewrite requests_no_plain. cbn [foldl snd].
    apply Forall_app_2; [done|]. repeat constructor; cbn; [apply length_map|by rewrite taken_none].
  - destruct Hd as (slots & joined & c & Hd1 & Hd2 & _ & _ & -> & Hq3). rewrite (Hquiet Hq3).
    cbn [foldl snd]. apply Forall_insert; [done|]. cbn [fst snd].
    rewrite list.Forall_forall in Hs. destruct (Hs _ (list_elem_of_lookup_2 _ _ _ Hd1)) as [H1 H2].
    cbn [fst snd] in *. rewrite length_insert, blen_app. split; [done|].
    unfold taken_count in *. rewrite (sumZ_insert _ _ _ _ _ Hd2). cbn [is_taken]. unfold blen in *.
    cbn [length]. lia.
  - by destruct Hm as (_ & -> & -> & _).
  - destruct Hm as (wt & t & q & r & es' & _ & Hr & -> & _ & _ & Hm1 & ->).
    rewrite plain_map. apply (replies_ok_perm _ _ _ Hm1) in Hok.
    destruct (work_answers _ _ _ _ _ _ Hok Hr) as [_ Hans]. revert Hans. unfold answered_view.
    destruct t; try (intros ->; done); [by intros (slots & i & _ & _ & ->)|].
    intros (k & i & slots & joined & Hx & Hi & ->). cbn [snd].
    apply Forall_insert; [done|]. cbn [fst snd]. unfold fill_slot.
    rewrite list.Forall_forall in Hs. destruct (Hs _ (list_elem_of_lookup_2 _ _ _ Hx)) as [H1 H2].
    cbn [fst snd] in *. rewrite length_insert. split; [done|].
    unfold taken_count in *. rewrite (sumZ_insert _ _ _ _ _ Hi). cbn [is_taken]. lia.
Qed.

(** ** What a carbon thread has received *)

(** The values of what a thread has joined. *)
Definition joined_values (ct : CarbonThread) : list (bytes * Float) :=
  cache_values (tick_options (metrics system) true) (merge_all (ct_joined ct)).

Definition thread_ok (k : nat) (out : list (bytes * Float)) (ct : CarbonThread) : Prop :=
  ct_aggregator ct = Aggregator_new (tick_options (metrics system) (leads ct)) (d_chans d)
                       {| ch_id := k; ch_open := leads ct |} /\
  (leads ct = true -> ct_acc ct = merge_all (ct_joined ct)) /\
  match ct_stage ct with
  | Collecting => ct_values ct = []
  | Formatting => leads ct = true /\ blen (ct_joined ct) = blen (d_chans d) /\
      ct_values ct ++ out ≡ₚ joined_values ct
  | Ended o => leads ct = true ->
      blen (ct_joined ct) = blen (d_chans d) /\ ct_values ct ≡ₚ joined_values ct /\
      o = fst <$> carbon_sender (carbon system) (ct_addr ct) (ct_ts ct) (ct_values ct)
  end.

(** A task that formats a metric belongs to a thread that waits for it. *)
Definition format_ok (nd : NodeState) (t : Task) : Prop :=
  match t with
  | Aggregate data => contents (ad_buf data) = [] /\ ch_open (ad_response data) = true /\
      exists ct, bare_thread nd (ch_id (ad_response data)) = Some ct /\ ct_stage ct = Formatting
  | _ => True
  end.

Definition carbon_ok (nd : NodeState) : Prop :=
  (forall k ct, bare_thread nd k = Some ct ->
     thread_ok k (outstanding_values k (waiting nd)) ct) /\
  Forall (format_ok nd) (waiting nd).

(** No thread but one that waits has tasks. *)
Lemma not_formatting nd k ts ct :
  Forall (format_ok nd) ts -> bare_thread nd k = Some ct -> ct_stage ct <> Formatting ->
  List.filter (formats_for k) ts = [].
Proof.
  intros Hf Hk Hs. induction Hf as [|t ts Ht _ IH]; [done|]. cbn [List.filter].
  destruct (formats_for k t) eqn:Hfk; [|done]. exfalso. destruct t; try done. cbn in Hfk.
  apply bool_decide_eq_true in Hfk. destruct Ht as (_ & _ & ct' & Hk' & Hs').
  rewrite Hfk, Hk in Hk'. by injection Hk' as ->.
Qed.

(** A component that neither sends values nor gives out metrics to format. *)
Definition mute (e : NodeEffect) : Prop :=
  match e with
  | Plain (SendValue _ _) => False
  | SendTask _ t => formats t = false
  | _ => True
  end.

Lemma mute_spec es :
  Forall mute es -> (forall k, values_for k es = []) /\
  Forall (fun t => formats t = false) (tasks_sent es).*2.
Proof.
  unfold values_for.
  induction 1 as [|[[]|ch t] es He _ [IH1 IH2]]; cbn in *; try done. split; [done|]. by constructor.
Qed.

(** Steps that change one thread at most, and let it neither receive values nor give
    out metrics. *)
Lemma carbon_ok_mute nd nd' es ts :
  Forall mute es -> waiting nd' ≡ₚ ts ++ (tasks_sent es).*2 -> ts ≡ₚ waiting nd ->
  (forall k ct', bare_thread nd' k = Some ct' ->
     thread_ok k (outstanding_values k (waiting nd)) ct') ->
  (forall k ct, bare_thread nd k = Some ct -> ct_stage ct = Formatting ->
     List.filter (formats_for k) (waiting nd) <> [] ->
     exists ct', bare_thread nd' k = Some ct' /\ ct_stage ct' = Formatting) ->
  Forall (format_ok nd) (waiting nd) -> carbon_ok nd'.
Proof.
  intros [_ Hm]%mute_spec Hw Hts Hth Hmono Hf. split.
  - intros k ct' Hk. specialize (Hth k ct' Hk).
    assert (Hout : outstanding_values k (waiting nd') ≡ₚ outstanding_values k (waiting nd)).
    { rewrite Hw, outstanding_values_app, Hts. unfold outstanding_values at 2.
      rewrite no_formats by done. by rewrite app_nil_r. }
    destruct Hth as (H1 & H2 & H3). split; [done|]. split; [done|].
    destruct (ct_stage ct'); try done. destruct H3 as (? & ? & H3). by rewrite Hout.
  - rewrite Hw, Hts. apply Forall_app_2.
    + apply list.Forall_forall. intros t Ht. rewrite list.Forall_forall in Hf.
      specialize (Hf t Ht). destruct t as [| | | | | |data]; try done.
      destruct Hf as (Hb & Ho & ct & Hk & Hs). split; [done|]. split; [done|].
      eapply Hmono; [done|done|]. intros Hnil.
      assert (Hin : Aggregate data ∈ List.filter (formats_for (ch_id (ad_response data))) (waiting nd)).
      { apply list_elem_of_In, filter_In. split; [by apply list_elem_of_In|]. cbn.
        by apply bool_decide_eq_true. }
      rewrite Hnil in Hin. by apply not_elem_of_nil in Hin.
    + eapply List.Forall_impl; [|exact Hm]. intros t Ht. by destruct t.
Qed.

Lemma act_carbon_same nd ev nd1 es ss :
  node_act system d nd ev = Some (nd1, es, ss) ->
  match ev with
  | ECarbon _ _ | ERead _ _ | EFormat _ | EBackend _ => True
  | _ => ns_carbon nd1 = ns_carbon nd
  end.
Proof.
  intros H. pose proof (act_workers system d nd ev nd1 es ss H) as Hw.
  destruct ev; try done; cbn [node_act] in H.
  1-8: unfold act_datagram, act_batch, act_message, act_stats, act_snapshot, act_join in H;
    clear Hw; repeat (case_match || (simplify_option_eq; [])); done.
  - by injection H as <- _ _.
  - destruct Hw as ([ch t] & _ & _ & _ & [(ws & -> & _) _]%enqueue_inv). done.
  - by destruct Hw as (wt & t & q & r & es' & _ & _ & _ & _ & _ & ->).
  - by injection H as <- _ _.
Qed.

Lemma act_mute nd ev nd1 es ss :
  node_act system d nd ev = Some (nd1, es, ss) ->
  match ev with EFormat _ | EWork _ => True | _ => Forall mute es end.
Proof.
  intros H. destruct ev; try done; (eapply act_Forall; [exact H|]); intros [[]|ch []]; cbn; done.
Qed.

Definition not_value (e : Effect) : Prop := match e with SendValue _ _ => False | _ => True end.

Lemma counts_not_values es : Forall is_count es -> Forall not_value es.
Proof. intros H. eapply List.Forall_impl; [|exact H]. by intros []. Qed.

Lemma updates_not_values c l : Forall not_value (snd (foldE update_metric c l)).
Proof. apply counts_not_values, foldE_effects, update_metric_counts. Qed.

Lemma no_values es : Forall not_value es -> values_sent es = [].
Proof. induction 1 as [|[] ? ? ? IH]; done. Qed.

(** Only formatting sends values. *)
Lemma run_no_values r t r' es : run r t = Some (r', es) -> formats t = false -> values_sent es = [].
Proof.
  intros Hr Ht. apply no_values.
  destruct t as [addr buf|name metric|l|l|c|c|]; try done; cbn [run] in Hr.
  - unfold run_parse in Hr. destruct (put _ _); cbn [mbind option_bind] in Hr; [|done].
    destruct (metric_parser _ _) as [evs rest].
    pose proof (foldE_effects not_value parse_event (short r) evs) as He.
    destruct (foldE parse_event (short r) evs). injection Hr as _ <-. apply He.
    intros c [n m|]; [|by repeat constructor]. cbn [parse_event].
    pose proof (counts_not_values _ (update_metric_counts c (n, m))) as Hu.
    destruct (update_metric c (n, m)). by constructor.
  - pose proof (counts_not_values _ (update_metric_counts (short r) (name, metric))) as Hu.
    destruct (update_metric _ _). by injection Hr as _ <-.
  - pose proof (updates_not_values (short r) l) as Hu. destruct (foldE _ _ _). by injection Hr as _ <-.
  - pose proof (updates_not_values (long r) l) as Hu. destruct (foldE _ _ _). by injection Hr as _ <-.
  - pose proof (updates_not_values (long r) (hiter (short r))) as Hu.
    destruct (foldE _ _ _). injection Hr as _ <-. apply Forall_app_2; [done|].
    destruct (ch_open c); by repeat constructor.
  - injection Hr as _ <-. destruct (ch_open c); by repeat constructor.
Qed.

(** A worker formats a metric for the thread that gave it out. *)
Lemma run_values nd r t r' es :
  format_ok nd t -> run r t = Some (r', es) ->
  forall k, values_for k (map Plain es) = if formats_for k t then task_values t else [].
Proof.
  intros Hf Hr k. unfold values_for. rewrite plain_map. destruct (formats t) eqn:Ht.
  - destruct t; try done. destruct Hf as (Hb & Ho & _). cbn [run] in Hr.
    rewrite (aggregate_task_values data Hb) in Hr. cbn in Hr. injection Hr as _ <-.
    rewrite response_values by done. cbn [formats_for task_values]. unfold items_of.
    generalize (metric_values (ad_options data) (ad_name data) (ad_metric data)) as vs. intros vs.
    destruct (bool_decide _) eqn:Hd; [apply bool_decide_eq_true in Hd|apply bool_decide_eq_false in Hd].
    + apply omap_map_some. intros v. cbn. by rewrite decide_True.
    + apply omap_map_none. intros v. cbn. by rewrite decide_False.
  - rewrite (run_no_values _ _ _ _ Hr Ht). by destruct t.
Qed.

Lemma work_carbon nd nd' r t r' es ts :
  run r t = Some (r', es) -> waiting nd ≡ₚ t :: ts -> waiting nd' ≡ₚ ts ->
  (forall k, bare_thread nd' k = add_values (values_for k (map Plain es)) <$> bare_thread nd k) ->
  carbon_ok nd -> carbon_ok nd'.
Proof.
  intros Hr Hw Hw' Hb [Hth Hf]. rewrite Hw in Hf. apply list.Forall_cons in Hf as [Ht Hts].
  pose proof (run_values _ _ _ _ _ Ht Hr) as Hv. split.
  - intros k ct'. rewrite Hb, Hv. intros (ct & Hk & ->)%fmap_Some.
    specialize (Hth k ct Hk). destruct Hth as (H1 & H2 & H3). split; [done|]. split; [done|].
    cbn [add_values ct_stage]. destruct (ct_stage ct) eqn:Hs.
    + cbn [add_values ct_values]. rewrite H3. destruct (formats_for k t) eqn:Hfk; [|done].
      assert (Hn : List.filter (formats_for k) [t] = []).
      { eapply not_formatting; [by constructor|done|by rewrite Hs]. }
      cbn in Hn. by rewrite Hfk in Hn.
    + destruct H3 as (? & ? & H3). split; [done|]. split; [done|]. unfold joined_values in *.
      cbn [add_values ct_values ct_joined]. rewrite <-H3, Hw, Hw', <-app_assoc. f_equiv.
      unfold outstanding_values. cbn [List.filter]. by destruct (formats_for k t).
    + assert (Hnf : formats_for k t = false).
      { destruct (formats_for k t) eqn:Hfk; [|done].
        assert (Hn : List.filter (formats_for k) [t] = []).
        { eapply not_formatting; [by constructor|done|by rewrite Hs]. }
        cbn in Hn. by rewrite Hfk in Hn. }
      rewrite Hnf. unfold joined_values in *. cbn [add_values ct_values ct_joined ct_addr ct_ts].
      by rewrite app_nil_r.
  - rewrite Hw'. eapply List.Forall_impl; [|exact Hts]. intros u. unfold format_ok.
    destruct u; try done. intros (? & ? & ct & Hk & Hs). split; [done|]. split; [done|].
    rewrite Hb, Hk. by eexists.
Qed.

(** ** Formatting *)
Context (Hmode : aggregation_mode (metrics system) <> AggregationMode.Separate).
Context (Hchans : d_chans d <> []) (Hopen : Forall (fun ch => ch_open ch = true) (d_chans d)).

(** A metric given out by thread [k]. *)
Definition given_by (k : nat) (t : Task) : Prop :=
  match t with
  | Aggregate data => contents (ad_buf data) = [] /\ ch_open (ad_response data) = true /\
                      ch_id (ad_response data) = k
  | _ => False
  end.

Lemma given_filter k ts j :
  Forall (given_by k) ts -> List.filter (formats_for j) ts = if decide (j = k) then ts else [].
Proof.
  induction 1 as [|t ts Ht _ IH]; [by case_decide|]. cbn [List.filter]. rewrite IH.
  destruct t; try done. destruct Ht as (_ & _ & Hid). cbn [formats_for]. rewrite Hid.
  case_decide; case_bool_decide; by subst.
Qed.

Lemma items_of_same {A} (k j : nat) (l : list A) :
  items_of j (map (pair k) l) = if decide (j = k) then l else [].
Proof.
  unfold items_of. case_decide as Hj.
  - apply omap_map_some. intros x. cbn. by rewrite decide_True.
  - apply omap_map_none. intros x. cbn. by rewrite decide_False.
Qed.

(** What the leader sends itself and what it gives out are the values of the cache. *)
Lemma mode_values (k : nat) (acc : Cache) :
  let options := tick_options (metrics system) true in
  exists es, aggregate_mode (Aggregator_new options (d_chans d) {| ch_id := k; ch_open := true |}) acc
      = Some es /\
    Forall (given_by k) (tasks_sent es).*2 /\
    forall j, values_for j es ++ outstanding_values j (tasks_sent es).*2 =
              if decide (j = k) then cache_values options acc else [].
Proof.
  intros options. set (tx := {| ch_id := k; ch_open := true |}).
  unfold aggregate_mode, Aggregator_new.
  change (ao_aggregation_mode options) with (aggregation_mode (metrics system)).
  destruct (aggregation_mode (metrics system)); [| |done].
  - destruct (single_values options tx (hiter acc) eq_refl) as (es & -> & Hv & Ht & _).
    exists es. split; [done|]. rewrite Ht. split; [constructor|]. intros j.
    unfold values_for. rewrite Hv, items_of_same. cbn. by rewrite app_nil_r.
  - destruct (common_tasks options (d_chans d) tx 0 (hiter acc) Hchans Hopen ltac:(lia))
      as (n & es & ids & -> & Hv & _ & Ht & Hlen & _).
    exists es. split; [done|].
    assert (Hts : (tasks_sent es).*2 = map (fun nm => Aggregate (task_data options tx nm)) (hiter acc)).
    { rewrite Ht, snd_zip; [done|]. rewrite length_map. lia. }
    assert (Hg : Forall (given_by k) (tasks_sent es).*2).
    { rewrite Hts. apply list.Forall_forall. intros t (nm & -> & _)%list_elem_of_fmap.
      cbn. split; [apply with_capacity_contents|done]. }
    split; [done|]. intros j. unfold values_for, outstanding_values. rewrite Hv.
    rewrite (given_filter k) by done. cbn. case_decide; [|done]. rewrite Hts, map_map. done.
Qed.

Lemma act_format_inv nd k nd1 es ss :
  act_format nd k = Some (nd1, es, ss) ->
  exists ct s, ns_carbon nd !! k = Some ct /\ ct_stage ct = Collecting /\
    forallb is_taken (ct_slots ct) = true /\
    nd1 = set_carbon nd (<[k := with_stage ct s]> (ns_carbon nd)) /\
    (if leads ct then
       match aggregate_mode (ct_aggregator ct) (ct_acc ct) with
       | Some es' => es = es' /\ s = Formatting | None => es = [] /\ s = Ended None end
     else es = [] /\ s = Ended (Some [])).
Proof.
  unfold act_format. destruct (ns_carbon nd !! k) as [ct|]; cbn [mbind option_bind]; [|done].
  destruct (ct_stage ct) eqn:Hs; [|done..]. destruct (forallb _ _) eqn:Ht; [|done].
  destruct (leads ct) eqn:Hl; [destruct (aggregate_mode _ _) eqn:Hm|]; intros [= <- <- <-];
    eexists ct, _; rewrite Hl, ?Hm; by split_and!.
Qed.

Lemma bare_insert nd k ct' j :
  is_Some (ns_carbon nd !! k) ->
  bare_thread (set_carbon nd (<[k := ct']> (ns_carbon nd))) j =
  if decide (j = k) then Some (bare ct') else bare_thread nd j.
Proof.
  intros Hk. unfold bare_thread. cbn [ns_carbon set_carbon]. case_decide as Hj.
  - subst j. by rewrite list_lookup_insert_eq by by apply lookup_lt_is_Some.
  - by rewrite list_lookup_insert_ne by done.
Qed.

Lemma bare_append nd ct j :
  bare_thread (set_carbon nd (ns_carbon nd ++ [ct])) j =
  if decide (j = length (ns_carbon nd)) then Some (bare ct) else bare_thread nd j.
Proof.
  unfold bare_thread. cbn [ns_carbon set_carbon]. case_decide as Hj.
  - subst j. by rewrite list_lookup_middle.
  - destruct (decide (j < length (ns_carbon nd))%nat); [by rewrite lookup_app_l|].
    rewrite !lookup_ge_None_2; [done|lia|]. rewrite length_app. cbn. lia.
Qed.

(** The other threads do not notice that one thread gives out its metrics. *)
Lemma other_thread nd (k j : nat) es ts ct us :
  j <> k -> bare_thread nd j = Some ct -> thread_ok j (outstanding_values j (waiting nd)) ct ->
  (forall j, values_for j es ++ outstanding_values j ts = if decide (j = k) then us else []) ->
  thread_ok j (outstanding_values j (waiting nd ++ ts)) (add_values (values_for j es) ct).
Proof.
  intros Hne Hj Hth Hv. specialize (Hv j). rewrite decide_False in Hv by done.
  apply app_eq_nil in Hv as [Hv1 Hv2]. rewrite outstanding_values_app, Hv1, Hv2, app_nil_r.
  destruct ct. unfold add_values. cbn. by rewrite app_nil_r.
Qed.

(** All replies are joined: a leader sends the values of its cache, or gives the
    metrics out. *)
Lemma format_leader nd (k : nat) ct nd' es :
  ns_carbon nd !! k = Some ct -> ct_stage ct = Collecting -> leads ct = true ->
  forallb is_taken (ct_slots ct) = true -> slots_ok (reply_view nd) -> carbon_ok nd ->
  aggregate_mode (ct_aggregator ct) (ct_acc ct) = Some es ->
  waiting nd' ≡ₚ waiting nd ++ (tasks_sent es).*2 ->
  (forall j, bare_thread nd' j = add_values (values_for j es) <$>
     (if decide (j = k) then Some (bare (with_stage ct Formatting)) else bare_thread nd j)) ->
  carbon_ok nd'.
Proof.
  intros Hk Hs Hl Ht Hsl [Hth Hf] Hm Hw Hb.
  assert (Hkb : bare_thread nd k = Some (bare ct)) by (unfold bare_thread; by rewrite Hk).
  destruct (Hth k _ Hkb) as (Hag & Hacc & Hval). cbn in Hval. rewrite Hs in Hval.
  change (leads (bare ct)) with (leads ct) in *. rewrite Hl in Hag.
  cbn [bare with_slots ct_aggregator ct_acc ct_joined] in Hag, Hacc.
  rewrite Hag, (Hacc Hl) in Hm.
  destruct (mode_values k (merge_all (ct_joined ct))) as (es' & Hm' & Hg & Hv).
  rewrite Hm in Hm'. injection Hm' as <-. split.
  - intros j ct'. rewrite Hb. case_decide as Hj.
    + subst j. intros [= <-]. set (ct1 := add_values _ _).
      change (leads ct1) with (leads ct). unfold thread_ok. change (leads ct1) with (leads ct).
      rewrite Hl. split; [exact Hag|]. split; [intros _; exact (Hacc Hl)|].
      change (ct_stage ct1) with Formatting. cbn iota. split; [done|]. unfold slots_ok in Hsl. rewrite list.Forall_forall in Hsl.
      destruct (Hsl (ct_slots ct, ct_joined ct)) as [H1 H2].
      { unfold reply_view. cbn [snd]. apply list_elem_of_fmap. exists ct. split; [done|].
        by eapply list_elem_of_lookup_2. }
      cbn [fst snd] in *. split; [cbn; rewrite H2, taken_full by done; unfold blen; by rewrite H1|].
      change (ct_values ct1) with (ct_values ct ++ values_for k es).
      change (joined_values ct1) with (joined_values ct). rewrite Hval. cbn [app]. rewrite Hw, outstanding_values_app.
      assert (Hn : outstanding_values k (waiting nd) = []).
      { unfold outstanding_values. erewrite not_formatting; [done|done|done|]. cbn. by rewrite Hs. }
      rewrite Hn. cbn [app]. rewrite (Hv k), decide_True by done. done.
    + intros (ct0 & Hj0 & ->)%fmap_Some. specialize (Hth j ct0 Hj0).
      pose proof (other_thread nd k j es _ ct0 _ Hj Hj0 Hth Hv) as Ho.
      assert (Hp : outstanding_values j (waiting nd') ≡ₚ
        outstanding_values j (waiting nd ++ (tasks_sent es).*2)) by (by rewrite Hw).
      destruct Ho as (H1 & H2 & H3). split; [done|]. split; [done|].
      cbn [ct_stage add_values] in *. destruct (ct_stage ct0); try done. by rewrite Hp.
  - rewrite Hw. apply Forall_app_2.
    + eapply List.Forall_impl; [|exact Hf]. intros t. unfold format_ok. destruct t; try done.
      intros (? & ? & ct0 & H0 & Hs0). split; [done|]. split; [done|]. rewrite Hb, decide_False.
      * rewrite H0. by eexists.
      * intros Hid. rewrite Hid, Hkb in H0. injection H0 as <-. cbn in Hs0. by rewrite Hs in Hs0.
    + eapply List.Forall_impl; [|exact Hg]. intros t. unfold given_by, format_ok.
      destruct t; try done. intros (? & ? & ->). split; [done|]. split; [done|].
      rewrite Hb, decide_True by done. by eexists.
Qed.

(** ** Every step *)

(** A thread whose stage alone changes, or nothing. *)
Lemma act_read_inv nd k w nd1 es ss :
  act_read nd k w = Some (nd1, es, ss) ->
  exists ct c acc, ns_carbon nd !! k = Some ct /\ ct_slots ct !! w = Some (Arrived c) /\
    (leads ct = true -> acc = merge_cache (ct_acc ct) c) /\
    nd1 = set_carbon nd (<[k := mkCarbonThread (ct_aggregator ct) (ct_ts ct) (ct_addr ct)
      (<[w := Taken]> (ct_slots ct)) (ct_joined ct ++ [c]) acc (ct_values ct) (ct_stage ct)]>
      (ns_carbon nd)).
Proof.
  unfold act_read. destruct (ns_carbon nd !! k) as [ct|]; cbn [mbind option_bind]; [|done].
  destruct (ct_slots ct !! w) as [[|c|]|] eqn:Hc; [done| |done..]. intros H. exists ct, c.
  destruct (leads ct).
  - destruct (accumulate_all (ct_acc ct) [c]) as (e & Ha & _). cbn [map] in Ha. rewrite Ha in H.
    cbn [mbind option_bind] in H. injection H as <- _ _. eexists. split_and!; [done..|]. done.
  - cbn [mbind option_bind] in H. injection H as <- _ _. by exists (ct_acc ct).
Qed.

Lemma act_backend_inv nd k nd1 es ss :
  act_backend system nd k = Some (nd1, es, ss) ->
  exists ct, ns_carbon nd !! k = Some ct /\ ct_stage ct = Formatting /\
    List.filter (formats_for k) (waiting nd) = [] /\
    nd1 = set_carbon nd (<[k := with_stage ct (Ended (fst <$>
      carbon_sender (carbon system) (ct_addr ct) (ct_ts ct) (ct_values ct)))]> (ns_carbon nd)).
Proof.
  unfold act_backend, outstanding.
  destruct (ns_carbon nd !! k) as [ct|]; cbn [mbind option_bind]; [|done].
  destruct (ct_stage ct) eqn:Hs; [done| |done]. destruct (List.filter _ _) eqn:Hf; [|done].
  intros H. exists ct. split_and!; [done..|].
  by destruct (carbon_sender _ _ _ _) as [[bs e]|]; injection H as <- _ _.
Qed.

(** A thread reads a reply: it still collects. *)
Lemma read_thread nd k w ct c acc :
  ns_carbon nd !! k = Some ct -> ct_slots ct !! w = Some (Arrived c) ->
  (leads ct = true -> acc = merge_cache (ct_acc ct) c) -> slots_ok (reply_view nd) ->
  thread_ok k (outstanding_values k (waiting nd)) (bare ct) ->
  thread_ok k (outstanding_values k (waiting nd)) (bare (mkCarbonThread (ct_aggregator ct) (ct_ts ct)
    (ct_addr ct) (<[w := Taken]> (ct_slots ct)) (ct_joined ct ++ [c]) acc (ct_values ct)
    (ct_stage ct))).
Proof.
  intros Hk Hc Hacc Hsl (H1 & H2 & H3).
  assert (Hlt : blen (ct_joined ct) < blen (d_chans d)).
  { unfold slots_ok in Hsl. rewrite list.Forall_forall in Hsl.
    destruct (Hsl (ct_slots ct, ct_joined ct)) as [Hs1 Hs2].
    { unfold reply_view. cbn [snd]. apply list_elem_of_fmap. exists ct. split; [done|].
      by eapply list_elem_of_lookup_2. }
    cbn [fst snd] in *. pose proof (taken_all _ _ _ Hc). unfold blen in *. lia. }
  split; [exact H1|]. split.
  - intros Hl. cbn. specialize (H2 Hl). cbn [bare with_slots ct_acc ct_joined] in H2.
    rewrite (Hacc Hl), H2. unfold merge_all. by rewrite foldl_app.
  - cbn [bare with_slots ct_stage ct_joined] in *. destruct (ct_stage ct); [done| |].
    + destruct H3 as (_ & Hn & _). lia.
    + intros Hl. destruct (H3 Hl) as (Hn & _). lia.
Qed.

(** A step whose effects concern no carbon thread, and that changes none itself. *)
Lemma same_step nd nd1 nd' es :
  Forall mute es -> waiting nd' ≡ₚ waiting nd1 ++ (tasks_sent es).*2 -> waiting nd1 ≡ₚ waiting nd ->
  (forall k, bare_thread nd' k = add_values (values_for k es) <$> bare_thread nd1 k) ->
  ns_carbon nd1 = ns_carbon nd -> carbon_ok nd -> carbon_ok nd'.
Proof.
  intros Hm Hw Hw1 Hb Hc [Hth Hf].
  assert (Hb' : forall k, bare_thread nd' k = bare_thread nd k).
  { intros k. rewrite Hb. destruct (mute_spec _ Hm) as [Hv _]. rewrite Hv, add_values_nil.
    unfold bare_thread. by rewrite Hc. }
  eapply (carbon_ok_mute nd nd' es); [done|done|done| | |done].
  - intros k ct'. rewrite Hb'. apply Hth.
  - intros k ct Hk Hs _. rewrite Hb'. by exists ct.
Qed.

(** The same when it changes one thread. *)
Lemma one_step nd nd1 nd' es (k : nat) ct1 :
  Forall mute es -> waiting nd' ≡ₚ waiting nd1 ++ (tasks_sent es).*2 -> waiting nd1 = waiting nd ->
  (forall k, bare_thread nd' k = add_values (values_for k es) <$> bare_thread nd1 k) ->
  (forall j, bare_thread nd1 j = if decide (j = k) then Some ct1 else bare_thread nd j) ->
  thread_ok k (outstanding_values k (waiting nd)) ct1 ->
  (ct_stage ct1 = Formatting \/ List.filter (formats_for k) (waiting nd) = []) ->
  carbon_ok nd -> carbon_ok nd'.
Proof.
  intros Hm Hw Hw1 Hb Hb1 Hk1 Hst [Hth Hf].
  assert (Hb' : forall j, bare_thread nd' j = if decide (j = k) then Some ct1 else bare_thread nd j).
  { intros j. rewrite Hb. destruct (mute_spec _ Hm) as [Hv _]. by rewrite Hv, add_values_nil. }
  eapply (carbon_ok_mute nd nd' es); [done|exact Hw|by rewrite Hw1| | |done].
  - intros j ct'. rewrite Hb'. case_decide; [by intros [= <-]; subst|apply Hth].
  - intros j ct Hj Hs Hne. rewrite Hb'. case_decide as Hjk; [|by exists ct]. subst j.
    exists ct1. split; [done|]. by destruct Hst.
Qed.

Lemma bare_at nd (k : nat) ct : ns_carbon nd !! k = Some ct -> bare_thread nd k = Some (bare ct).
Proof. unfold bare_thread. by intros ->. Qed.

(** No task belongs to a thread that does not exist. *)
Lemma no_thread nd (k : nat) ts :
  Forall (format_ok nd) ts -> bare_thread nd k = None -> List.filter (formats_for k) ts = [].
Proof.
  intros Hf Hk. induction Hf as [|t ts Ht _ IH]; [done|]. cbn [List.filter].
  destruct (formats_for k t) eqn:Hfk; [|done]. exfalso. destruct t; try done. cbn in Hfk.
  apply bool_decide_eq_true in Hfk. destruct Ht as (_ & _ & ct' & Hk' & _). by rewrite Hfk, Hk in Hk'.
Qed.

(** A carbon thread that has joined all replies. *)
Lemma format_step nd (k : nat) nd1 es ss nd' :
  act_format nd k = Some (nd1, es, ss) ->
  waiting nd' ≡ₚ waiting nd1 ++ (tasks_sent es).*2 -> waiting nd1 = waiting nd ->
  (forall k, bare_thread nd' k = add_values (values_for k es) <$> bare_thread nd1 k) ->
  slots_ok (reply_view nd) -> carbon_ok nd -> carbon_ok nd'.
Proof.
  intros Ha Hw Hwk Hb Hsl Hok.
  apply act_format_inv in Ha as (ct & s & Hk & Hs & Ht & -> & Hes). pose proof (bare_at _ _ _ Hk) as Hkb.
  destruct (proj1 Hok k _ Hkb) as (Hag & Hacc & _). change (leads (bare ct)) with (leads ct) in *.
  destruct (leads ct) eqn:Hl.
  - cbn [bare with_slots ct_aggregator ct_acc ct_joined] in Hag, Hacc. rewrite Hag, (Hacc eq_refl) in Hes.
    destruct (mode_values k (merge_all (ct_joined ct))) as (es' & Hm & _). rewrite Hm in Hes.
    destruct Hes as [-> ->]. eapply (format_leader nd k ct nd' es'); try done.
    + by rewrite Hag, (Hacc eq_refl).
    + intros j. rewrite Hb. f_equal. by apply bare_insert.
  - destruct Hes as [-> ->].
    eapply (one_step nd _ nd' [] k); [constructor|done|done|done| | | |done].
    + intros j. by apply bare_insert.
    + unfold thread_ok. change (leads (bare _)) with (leads ct). rewrite Hl. split; [exact Hag|].
      by split.
    + right. eapply not_formatting; [apply Hok|done|]. cbn. by rewrite Hs.
Qed.

Lemma node_step_carbon nd ev nd' os :
  node_step system d nd ev = Some (nd', os) -> slots_ok (reply_view nd) ->
  carbon_ok nd -> carbon_ok nd'.
Proof.
  intros (nd1 & es & ss & Ha & He & _ & _)%node_step_inv Hsl Hok.
  pose proof (emit_all_bare _ _ _ _ He) as Hb. apply emit_all_waiting in He as [Hw _].
  pose proof (act_mute _ _ _ _ _ Ha) as Hmu. pose proof (act_carbon_same _ _ _ _ _ Ha) as Hc.
  pose proof (act_moves system d _ _ _ _ _ Ha) as Hmv. pose proof (act_workers _ _ _ _ _ _ _ Ha) as Hwk.
  destruct ev; try (eapply (same_step nd nd1); [done|done|by rewrite (waiting_same _ _ Hwk)|done|done|done]);
    try (apply waiting_same in Hwk); cbn [node_act] in Ha.
  - injection Ha as <- Hes _. eapply (one_step nd _ nd' es (length (ns_carbon nd)));
      [done|done|done|done| | | |done].
    + intros j. apply bare_append.
    + by split.
    + right. eapply no_thread; [apply Hok|]. unfold bare_thread. by rewrite lookup_ge_None_2.
  - apply act_read_inv in Ha as (ct & c & acc & Hk & Hcs & Hacc & ->). pose proof (bare_at _ _ _ Hk) as Hkb.
    eapply (one_step nd _ nd' es k); [done|done|done|done| | | |done].
    + intros j. by apply bare_insert.
    + eapply read_thread; try done. by apply (proj1 Hok).
    + destruct (ct_stage ct) eqn:Hs; [|by left|]; right; (eapply not_formatting; [apply Hok|done|]);
        cbn; by rewrite Hs.
  - by eapply (format_step nd k nd1 es).
  - apply act_backend_inv in Ha as (ct & Hk & Hs & Hno & ->). pose proof (bare_at _ _ _ Hk) as Hkb.
    destruct (proj1 Hok k _ Hkb) as (Hag & Hacc & Hst). cbn in Hst. rewrite Hs in Hst.
    eapply (one_step nd _ nd' es k); [done|done|done|done| | | |done].
    + intros j. by apply bare_insert.
    + split; [done|]. split; [done|]. cbn. intros Hl. destruct Hst as (_ & H1 & H2).
      split; [done|]. split; [|done]. unfold outstanding_values in H2. rewrite Hno in H2. cbn in H2.
      by rewrite app_nil_r in H2.
    + by right.
  - destruct Hmv as (Hm1 & _ & -> & _). by eapply (same_step nd nd1 nd' []).
  - destruct Hmv as (wt & t & q & r & es' & _ & Hr & -> & _ & -> & Hm1 & _).
    rewrite tasks_sent_plain, app_nil_r in Hw. by eapply work_carbon.
Qed.

Lemma node_run_carbon nd evs nd' os :
  node_run system d nd evs = Some (nd', os) -> replies_ok (waiting nd) (reply_view nd) ->
  slots_ok (reply_view nd) -> carbon_ok nd -> carbon_ok nd' /\ slots_ok (reply_view nd').
Proof.
  unfold node_run. revert nd os. induction evs as [|ev evs IH]; intros nd os; cbn [foldEP].
  { by intros [= <- <-]. }
  destruct (node_step system d nd ev) as [[nd1 o1]|] eqn:Hs; [|done].
  destruct (foldEP _ nd1 evs) as [[nd2 o2]|] eqn:Hr; [|done]. intros [= <- <-] H1 H2 H3.
  eapply (IH nd1); [done|..].
  - by eapply node_step_replies.
  - by eapply node_step_slots.
  - by eapply node_step_carbon.
Qed.
End invariant.

(** ** The theorem *)
Section deliver.
Context {QOK : MpscOk Q} {BOK : BytesOk BL} {XOK : ExecutorOk XL} {HIOK : HashIterOk HI}.
Context {FOK : FtoaOk FL} {O : OsLib} {T : TimerLib}.

Lemma started_carbon system d :
  waiting (node_init system d) = [] /\ replies_ok (waiting (node_init system d))
    (reply_view (node_init system d)) /\
  slots_ok d (reply_view (node_init system d)) /\ carbon_ok system d (node_init system d).
Proof.
  assert (Hw : waiting (node_init system d) = []).
  { unfold waiting, queued, node_init. cbn [ns_spawned ns_workers]. rewrite map_map. cbn [wt_queue].
    rewrite (proj1 (channel_new Task _)). clear.
    induction (d_workers d) as [|x l IH]; [done|exact IH]. }
  split; [done|]. unfold carbon_ok. rewrite Hw. split; [done|]. split; [constructor|].
  split; [by intros k ct|constructor].
Qed.

(** C2. Carbon ticks under every interleaving, in single and common mode: whatever
    else the node does while a leader's tick is under way (other ticks of the timer
    included), the thread of the tick ends only after it has joined the reply of every
    worker, and with at least as many values as configured chunks, none of them with a
    text longer than the 200 bytes a client's buffer has per metric, it starts clients
    that together deliver one line, with the time of the tick, for every value of the
    joined caches, without loss, repetition, or values of another tick. *)
Theorem carbon_threads_deliver (level_ok : string -> bool) resolve_host mgmt_binds (system : System)
    (F F' : gset nat) (d : DaemonState) (evs : list NodeEvent) (nd : NodeState)
    (os : list NodeOut) (k : nat) (ct : CarbonThread) (o : option (list CarbonBackend)) :
  start level_ok resolve_host mgmt_binds system F = Some (d, F') ->
  aggregation_mode (metrics system) <> AggregationMode.Separate -> 0 <= chunks (carbon system) ->
  node_run system d (node_init system d) evs = Some (nd, os) ->
  ns_carbon nd !! k = Some ct -> leads ct = true -> ct_stage ct = Ended o ->
  let values := joined_values system ct in
  effective_chunks (carbon system) <= blen values < 2 ^ 63 ->
  Forall (fun nv => blen (ftoa_text (snd nv)) <= 200) values ->
  exists sent backends, o = Some backends /\ sent ≡ₚ values /\
    blen (ct_joined ct) = w_threads system /\
    concat (map delivered backends) = concat (map carbon_line (map (value_item (ct_ts ct)) sent)).
Proof.
  intros Hst%start_started Hmode Hch Hrun Hk Hl Hs values Hlen Hf.
  destruct (started_carbon system d) as (_ & H1 & H2 & H3).
  pose proof (st_workers _ _ Hst) as Hpos. pose proof (st_chans _ _ Hst) as Hc.
  assert (Hne : d_chans d <> []).
  { rewrite Hc. destruct (Z.to_nat (w_threads system)); [lia|done]. }
  destruct (node_run_carbon system d Hmode Hne (started_open _ _ Hst) _ _ _ _ Hrun H1 H2 H3)
    as [[Hth _] _].
  destruct (Hth k _ (bare_at _ _ _ Hk)) as (_ & _ & He). cbn in He. rewrite Hs in He.
  destruct (He Hl) as (Hj & Hp & Ho). change (ct_values ct ≡ₚ values) in Hp.
  assert (Hb : blen (ct_values ct) = blen values) by (unfold blen; by rewrite Hp).
  destruct (carbon_sender_all (carbon system) (ct_addr ct) (ct_ts ct) (ct_values ct) Hch)
    as (backends & Hsd & _ & Hd & _); [lia|lia|rewrite Hp; exact Hf|].
  rewrite Hsd in Ho. exists (ct_values ct), backends. split_and!; [done|done| |done].
  rewrite Hj, Hc. unfold blen. rewrite length_map, length_seq. lia.
Qed.
End deliver.
End carbon.
