(* ===== verification/NodeOutput.v ===== *)
(** * What becomes of the metrics a node rotates out ([main.rs], [aggregate.rs],
    [carbon.rs] composed)

    The caches that carbon threads of a running node have asked for, by their fate:
    still under way, handed to the clients of a leader, thrown away by a follower, or
    lost with a thread that panicked. *)

From S2P Require Import Prelude Interfaces Globals Config Task TaskFacts Worker Aggregate.
From S2P Require Import Carbon Util Net Server Udp Peer Main Daemon Queue Node NodeStream NodeReplies.
From S2P Require Import NodeLedger NodeCarbon.

Section output.
Context {BL : BytesLib} {ML : MetricLib} {PL : ParserLib BL ML} {XL : ExecutorLib}.
Context {HI : HashIter} {CL : CapnpLib ML} {FL : FtoaLib BL} {Q : MpscLib}.
Context {AHS : AddrHash SocketAddr} {AHB : AddrHash bytes}.
Context {QOK : MpscOk Q} {BOK : BytesOk BL} {XOK : ExecutorOk XL} {HIOK : HashIterOk HI}.
Context (w : Metric -> Z) {WA : Additive w}.

(** ** The fate of a thread's caches *)
Definition thread_weight (ct : CarbonThread) : Z :=
  sumZ (slot_weight w) (ct_slots ct) + caches_weight w (ct_joined ct).

Definition under_way (ct : CarbonThread) : Z :=
  match leads ct, ct_stage ct with
  | true, (Collecting | Formatting) => thread_weight ct
  | _, _ => 0
  end.
(** The cache whose values the clients carry. *)
Definition handed_out (ct : CarbonThread) : Z :=
  match leads ct, ct_stage ct with
  | true, Ended (Some _) => cache_weight w (merge_all (ct_joined ct))
  | _, _ => 0
  end.
Definition panicked (ct : CarbonThread) : Z :=
  match leads ct, ct_stage ct with
  | true, Ended None => cache_weight w (merge_all (ct_joined ct))
  | _, _ => 0
  end.
Definition thrown_away (ct : CarbonThread) : Z := if leads ct then 0 else thread_weight ct.

Lemma carbon_held_threads nd : carbon_held w (reply_view nd) = sumZ thread_weight (ns_carbon nd).
Proof. unfold carbon_held, reply_view. cbn [snd]. by rewrite sumZ_map. Qed.

(** ** Joining loses nothing *)

(** A leader's joined cache weighs what it joined. *)
Definition weighed (nd : NodeState) : Prop :=
  forall k ct, bare_thread nd k = Some ct -> leads ct = true ->
    cache_weight w (ct_acc ct) = caches_weight w (ct_joined ct).

Lemma weighed_emit direct nd es nd' : emit_all direct nd es = Some nd' -> weighed nd -> weighed nd'.
Proof.
  intros He Hw k ct. rewrite (emit_all_bare _ _ _ _ He). intros (ct0 & Hk & ->)%fmap_Some.
  exact (Hw k ct0 Hk).
Qed.

(** One thread changes, or is new. *)
Lemma weighed_one nd nd' k ct :
  (forall j, bare_thread nd' j = if decide (j = k) then Some (bare ct) else bare_thread nd j) ->
  (leads ct = true -> cache_weight w (ct_acc ct) = caches_weight w (ct_joined ct)) ->
  weighed nd -> weighed nd'.
Proof.
  intros Hb Hct Hw j ct'. rewrite Hb. case_decide; [intros [= <-]; exact Hct|apply Hw].
Qed.

Lemma read_weight nd k i nd1 es ss :
  act_read nd k i = Some (nd1, es, ss) ->
  Forall (fun e => match e with Plain (Count AGG_ERRORS _) => False | _ => True end) es ->
  exists ct ct', ns_carbon nd !! k = Some ct /\
    nd1 = set_carbon nd (<[k := ct']> (ns_carbon nd)) /\ leads ct' = leads ct /\
    (leads ct = true -> cache_weight w (ct_acc ct) = caches_weight w (ct_joined ct) ->
     cache_weight w (ct_acc ct') = caches_weight w (ct_joined ct')).
Proof.
  unfold act_read. destruct (ns_carbon nd !! k) as [ct|]; cbn [mbind option_bind]; [|done].
  destruct (ct_slots ct !! i) as [[|c|]|]; [done| |done..]. intros H He.
  destruct (leads ct) eqn:Hl.
  - destruct (accumulate (ct_acc ct) [Some c]) as [[[acc|] e]|] eqn:Ha; cbn [mbind option_bind] in H;
      try done. injection H as <- <- _. eexists ct, _. split_and!; [done|done|done|].
    intros _ Hc. cbn [ct_acc ct_joined]. apply error_free_counted in He.
    revert Ha. cbn [accumulate]. rewrite foldEP_accumulate. cbn [mbind option_bind].
    destruct (foldE update_metric (ct_acc ct) (hiter c)) as [a1 e1] eqn:Hf.
    cbn [mbind option_bind]. intros [= <- <-]. rewrite app_nil_r in He.
    rewrite (foldE_update_weight w _ _ _ _ Hf He), list_weight_hiter, Hc, caches_weight_app.
    change (caches_weight w [c]) with (cache_weight w c + 0). lia.
  - cbn [mbind option_bind] in H. injection H as <- _ _. eexists ct, _.
    split_and!; [done|done|done|]. by rewrite Hl.
Qed.

Lemma node_step_weighed system d nd ev nd' os :
  node_step system d nd ev = Some (nd', os) -> error_free os -> weighed nd -> weighed nd'.
Proof.
  intros (nd1 & es & ss & Ha & Hem & Hes & _)%node_step_inv He Hw. unfold error_free in He.
  rewrite Hes in He. eapply weighed_emit; [exact Hem|].
  pose proof (act_carbon_same system d _ _ _ _ _ Ha) as Hc.
  destruct ev; try (intros k0 ct; unfold bare_thread; rewrite Hc; apply Hw);
    cbn [node_act] in Ha.
  - injection Ha as <- _ _. match goal with |- context [_ ++ [?ct]] =>
      eapply (weighed_one nd _ (length (ns_carbon nd)) ct) end; [| |done].
    + intros j. apply bare_append.
    + intros _. apply cache_weight_empty.
  - destruct (read_weight _ _ _ _ _ _ Ha He) as (ct & ct' & Hk & -> & Hl & Hct).
    eapply (weighed_one nd _ k ct'); [intros j; by apply bare_insert| |done].
    intros Hl'. rewrite Hl in Hl'. apply Hct; [done|]. by apply (Hw k (bare ct) (bare_at _ _ _ Hk)).
  - apply act_format_inv in Ha as (ct & s & Hk & _ & _ & -> & _).
    eapply (weighed_one nd _ k (with_stage ct s)); [intros j; by apply bare_insert| |done].
    exact (Hw k (bare ct) (bare_at _ _ _ Hk)).
  - apply act_backend_inv in Ha as (ct & Hk & _ & _ & ->).
    eapply (weighed_one nd _ k _); [intros j; by apply bare_insert| |done].
    exact (Hw k (bare ct) (bare_at _ _ _ Hk)).
Qed.

Lemma node_run_weighed system d nd evs nd' os :
  node_run system d nd evs = Some (nd', os) -> error_free os -> weighed nd -> weighed nd'.
Proof.
  unfold node_run. revert nd os. induction evs as [|ev evs IH]; intros nd os; cbn [foldEP].
  { by intros [= <- <-]. }
  destruct (node_step system d nd ev) as [[nd1 o1]|] eqn:Hs; [|done].
  destruct (foldEP _ nd1 evs) as [[nd2 o2]|] eqn:Hr; [|done].
  intros [= <- <-] [He1 He2]%error_free_app Hw. eapply (IH nd1 o2); [done|done|].
  by eapply node_step_weighed.
Qed.

(** ** Every cache has one fate *)
Lemma all_taken slots : taken_count slots = blen slots -> sumZ (slot_weight w) slots = 0.
Proof.
  unfold taken_count, sumZ, blen. induction slots as [|s slots IH]; cbn [foldr length]; [done|].
  pose proof (taken_le slots) as Hle. unfold taken_count, sumZ, blen in Hle.
  destruct s; cbn [is_taken slot_weight]; intros H; [lia|lia|]. rewrite IH; lia.
Qed.

Lemma ended_weight system d nd k ct o :
  carbon_ok system d nd -> slots_ok d (reply_view nd) -> weighed nd ->
  ns_carbon nd !! k = Some ct -> leads ct = true -> ct_stage ct = Ended o ->
  thread_weight ct = cache_weight w (merge_all (ct_joined ct)).
Proof.
  intros [Hth _] Hsl Hw Hk Hl Hs. destruct (Hth k _ (bare_at _ _ _ Hk)) as (_ & Hacc & He).
  pose proof (Hw k _ (bare_at _ _ _ Hk) Hl) as Hwt.
  cbn [bare with_slots ct_acc ct_joined ct_stage] in Hacc, He, Hwt. rewrite Hs in He.
  change (leads (bare ct)) with (leads ct) in *. destruct (He Hl) as (Hj & _).
  unfold slots_ok in Hsl. rewrite list.Forall_forall in Hsl.
  destruct (Hsl (ct_slots ct, ct_joined ct)) as [H1 H2].
  { unfold reply_view. cbn [snd]. apply list_elem_of_fmap. exists ct. split; [done|].
    by eapply list_elem_of_lookup_2. }
  cbn [fst snd] in H1, H2. unfold thread_weight.
  rewrite all_taken by (change (blen (ct_joined ct) = blen (d_chans d)) in Hj; unfold blen in *; lia).
  rewrite <-(Hacc Hl), Hwt. lia.
Qed.

Lemma carbon_fates system d nd :
  carbon_ok system d nd -> slots_ok d (reply_view nd) -> weighed nd ->
  carbon_held w (reply_view nd) =
  sumZ under_way (ns_carbon nd) + sumZ handed_out (ns_carbon nd) + sumZ panicked (ns_carbon nd) +
  sumZ thrown_away (ns_carbon nd).
Proof.
  intros Hok Hsl Hw. rewrite carbon_held_threads.
  assert (Hf : Forall (fun ct => thread_weight ct =
    under_way ct + handed_out ct + panicked ct + thrown_away ct) (ns_carbon nd)).
  { apply Forall_lookup_2. intros k ct Hk.
    pose proof (fun o => ended_weight system d nd k ct o Hok Hsl Hw Hk) as He.
    unfold under_way, handed_out, panicked, thrown_away.
    destruct (leads ct); [|lia]. destruct (ct_stage ct) as [| |[bs|]]; [lia|lia|..];
      rewrite (He _ eq_refl eq_refl); lia. }
  clear -Hf. unfold sumZ. induction Hf as [|ct cs Hct _ IH]; cbn [foldr]; lia.
Qed.

(** ** What the clients carry *)
Context {FOK : FtoaOk FL}.

(** The limits of the code: a [usize] counts the values, and a number is formatted
    into the space kept for it. *)
Definition printable (values : list (bytes * Float)) : Prop :=
  blen values < 2 ^ 63 /\ Forall (fun nv => blen (ftoa_text (snd nv)) <= 200) values.

Lemma sender_chunks c addr ts values r :
  0 <= chunks c -> carbon_sender c addr ts values = Some r -> effective_chunks c <= blen values.
Proof.
  intros Hc. unfold carbon_sender, slice_chunks. pose proof (effective_chunks_pos c Hc) as Hp.
  destruct (decide (blen values `div` effective_chunks c = 0)) as [|Hn]; [done|]. intros _.
  pose proof (blen_nonneg values). destruct (Z_lt_le_dec (blen values) (effective_chunks c)); [|done].
  rewrite Z.div_small in Hn by lia. done.
Qed.

Lemma clients_carry system d nd k ct backends :
  carbon_ok system d nd -> 0 <= chunks (carbon system) -> ns_carbon nd !! k = Some ct ->
  leads ct = true -> ct_stage ct = Ended (Some backends) -> printable (joined_values system ct) ->
  exists sent, sent ≡ₚ joined_values system ct /\
    concat (map delivered backends) = concat (map carbon_line (map (value_item (ct_ts ct)) sent)).
Proof.
  intros [Hth _] Hch Hk Hl Hs [Hlen Hf]. destruct (Hth k _ (bare_at _ _ _ Hk)) as (_ & _ & He).
  cbn in He. rewrite Hs in He. destruct (He Hl) as (_ & Hp & Ho).
  change (ct_values ct ≡ₚ joined_values system ct) in Hp.
  assert (Hb : blen (ct_values ct) = blen (joined_values system ct)) by (unfold blen; by rewrite Hp).
  destruct (carbon_sender _ _ _ (ct_values ct)) as [[bs es]|] eqn:Hc; [|done].
  injection Ho as ->. pose proof (sender_chunks _ _ _ _ _ Hch Hc) as Hle.
  destruct (carbon_sender_all (carbon system) (ct_addr ct) (ct_ts ct) (ct_values ct) Hch)
    as (bs' & Hsd & _ & Hd & _); [lia|lia|rewrite Hp; exact Hf|].
  rewrite Hc in Hsd. injection Hsd as -> _. by exists (ct_values ct).
Qed.

(** The invariants together, of a node that was started. *)
Lemma started_fates {O : OsLib} {T : TimerLib} system d evs nd os :
  Started system d -> aggregation_mode (metrics system) <> AggregationMode.Separate ->
  node_run system d (node_init system d) evs = Some (nd, os) -> error_free os ->
  carbon_ok system d nd /\ slots_ok d (reply_view nd) /\ weighed nd.
Proof.
  intros Hst Hmode Hrun He. destruct (started_carbon system d) as (_ & H1 & H2 & H3).
  pose proof (st_workers _ _ Hst) as Hpos. pose proof (st_chans _ _ Hst) as Hc.
  assert (Hne : d_chans d <> []).
  { rewrite Hc. destruct (Z.to_nat (w_threads system)); [lia|done]. }
  destruct (node_run_carbon system d Hmode Hne (started_open _ _ Hst) _ _ _ _ Hrun H1 H2 H3).
  split_and!; [done|done|]. eapply node_run_weighed; [exact Hrun|exact He|].
  intros k ct. by unfold bare_thread.
Qed.
End output.
