(* ===== verification/NodeRest.v ===== *)
(** * A running node comes to rest ([main.rs] with everything it starts)

    Without new input, ticks and messages a node only moves, runs and answers what it
    has.  The file shows that it never gets stuck and does not go on for ever: every
    schedule of its internal steps ends, in a state where all queues are empty, the
    snapshot was handed to the peers and every carbon thread has ended. *)

From Stdlib Require Import Wellfounded.
From S2P Require Import Prelude Interfaces Globals Config Task TaskFacts Worker Aggregate.
From S2P Require Import Carbon Util Net Server Udp Peer Main Daemon Queue Node NodeStream.
From S2P Require Import NodeReplies NodeCarbon.

Section rest.
Context {BL : BytesLib} {ML : MetricLib} {PL : ParserLib BL ML} {XL : ExecutorLib}.
Context {HI : HashIter} {CL : CapnpLib ML} {FL : FtoaLib BL} {Q : MpscLib}.
Context {AHS : AddrHash SocketAddr} {AHB : AddrHash bytes}.

(** The steps that need nothing from outside. *)
Definition is_internal (ev : NodeEvent) : bool :=
  match ev with
  | EJoin | ERead _ _ | EFormat _ | EBackend _ | EPoll _ | EWork _ => true
  | _ => false
  end.

Definition is_ended (ct : CarbonThread) : bool :=
  match ct_stage ct with Ended _ => true | _ => false end.

(** Nothing is left to do. *)
Definition resting (nd : NodeState) : Prop :=
  waiting nd = [] /\ ns_snapshot nd = None /\ forallb is_ended (ns_carbon nd) = true.

(** ** Tasks go to workers that exist *)
Section invariant.
Context {QOK : MpscOk Q} {BOK : BytesOk BL} {XOK : ExecutorOk XL} {HIOK : HashIterOk HI}.
Context (system : System) (d : DaemonState).

Definition aims (e : NodeEffect) : Prop :=
  match e with SendTask ch _ => ch ∈ map ch_id (d_chans d) | Plain _ => True end.

(** The receivers and the carbon threads send to the workers [main] started, sends
    that wait name one of those, and no reply of the snapshot was read yet. *)
Definition listener_aims (so : option StatsdServer) : Prop :=
  match so with Some s => ss_chans s = d_chans d | None => True end.
Definition thread_aims (ct : CarbonThread) : Prop := ag_chans (ct_aggregator ct) = d_chans d.

Record rest_ok (nd : NodeState) : Prop := mkRestOk {
  ro_replies : replies_ok (waiting nd) (reply_view nd);
  ro_listeners : Forall listener_aims (in_listeners (ns_inputs nd));
  ro_carbon : Forall thread_aims (ns_carbon nd);
  ro_spawned : Forall (fun ct => fst ct ∈ map ch_id (d_chans d)) (ns_spawned nd);
  ro_workers : map ch_id (d_chans d) = seq 0 (length (ns_workers nd));
  ro_snapshot : forall slots, ns_snapshot nd = Some slots -> Taken ∉ slots
}.

Lemma index_elem {A} (l : list A) i x : index l i = Some x -> x ∈ l.
Proof. unfold index. case_decide; [|done]. apply list_elem_of_lookup_2. Qed.

Lemma aims_chan ch t : ch ∈ d_chans d -> aims (SendTask (ch_id ch) t).
Proof. intros H. apply list_elem_of_fmap. by exists ch. Qed.

Lemma aims_plain es : Forall aims (map Plain es).
Proof. apply list.Forall_forall. by intros e (x & -> & _)%list_elem_of_fmap. Qed.

Lemma aims_tasks es :
  Forall aims es -> Forall (fun ct => fst ct ∈ map ch_id (d_chans d)) (tasks_sent es).
Proof.
  induction 1 as [|e es He _ IH]; [apply Forall_nil_2|]. destruct e as [e|ch t]; [exact IH|].
  apply list.Forall_cons_2; [exact He|exact IH].
Qed.

Lemma on_datagram_aims s flags received size addr so flags' es :
  ss_chans s = d_chans d -> on_datagram s flags received size addr = Some (so, flags', es) ->
  Forall aims es /\ listener_aims so.
Proof.
  intros Hs. unfold on_datagram. case_decide; [intros [= <- <- <-]; split; [by repeat constructor|done]|].
  destruct (store_datagram _ _ _ _); cbn [mbind option_bind]; [|done].
  destruct (index _ _); cbn [mbind option_bind]; [|done].
  case_match; [|intros [= <- <- <-]; split; [by repeat constructor|done]].
  destruct (foldEP _ _ _) as [[n e]|] eqn:Hf; cbn [mbind option_bind]; [|done].
  intros [= <- <- <-]. split; [|done]. constructor; [done|]. eapply foldEP_effects; [|exact Hf].
  intros n1 [b1 buf] n2 e1. unfold dispatch. rewrite Hs.
  destruct (consistent_parsing _).
  - destruct (decide (blen _ = 0)); cbn [mbind option_bind]; [done|].
    destruct (index _ _) as [c|] eqn:Hi; cbn [mbind option_bind]; [|done].
    intros [= <- <-]. destruct (ch_open c); repeat constructor. by eapply aims_chan, index_elem.
  - destruct (index _ _) as [c|] eqn:Hi; cbn [mbind option_bind]; [|done].
    intros [= <- <-]. destruct (ch_open c); repeat constructor. by eapply aims_chan, index_elem.
Qed.

Lemma aggregate_mode_aims a acc es :
  ag_chans a = d_chans d -> aggregate_mode a acc = Some es -> Forall aims es.
Proof.
  unfold aggregate_mode. destruct a as [options chans tx]. cbn [ag_chans]. intros ->.
  assert (Hhere : forall ctx nm e1, aggregate_here ctx options tx nm = Some e1 -> Forall aims e1).
  { intros ctx nm e1. unfold aggregate_here. destruct (aggregate_task _ _) as [e|]; [|done].
    intros [= <-]. apply (aims_plain (_ :: _)). }
  destruct (ao_aggregation_mode options);
    (match goal with |- context [foldEP ?f ?s ?l] => destruct (foldEP f s l) as [[u e]|] eqn:Hf end;
     [|done]); cbn [mbind option_bind]; intros [= <-]; (eapply foldEP_effects; [|exact Hf]);
    intros s nm s1 e1; cbn beta.
  1,3: destruct (aggregate_here _ _ _ _) as [e'|] eqn:Hh; [|done]; cbn; intros [= _ <-];
       by eapply Hhere.
  unfold aggregate_common. case_decide; [done|]. destruct (index _ _) as [ch|] eqn:Hi; [|done]. cbn.
  intros [= _ <-]. destruct (ch_open ch); repeat constructor. by eapply aims_chan, index_elem.
Qed.

(** Where the tasks of a step go. *)
Lemma act_aims nd ev nd1 es ss :
  node_act system d nd ev = Some (nd1, es, ss) -> rest_ok nd ->
  (snd (d_own_stats d) ∈ d_chans d) -> is_direct ev = false -> Forall aims es.
Proof.
  intros H Hok Hown Hdir. pose proof (fun P => act_Forall _ _ _ _ _ _ _ P H) as Hfit.
  destruct ev; try done; try (apply Hfit; by intros [e|ch []]); clear Hfit; cbn [node_act] in H.
  - unfold act_datagram in H. destruct (_ !! l) as [[s|]|] eqn:Hl; [|done..].
    destruct (on_datagram _ _ _ _ _) as [[[so fl] e]|] eqn:Hd; cbn [mbind option_bind] in H; [|done].
    injection H as _ <- _. pose proof (ro_listeners _ Hok) as Hs. rewrite list.Forall_forall in Hs.
    eapply on_datagram_aims; [|exact Hd]. exact (Hs _ (list_elem_of_lookup_2 _ _ _ Hl)).
  - unfold act_message in H. destruct (cycle_next _ _) as [c|] eqn:Hc; cbn [mbind option_bind] in H;
      [|done]. injection H as _ <- _. apply list_elem_of_lookup_2 in Hc.
    destruct reader as [e|[[e|r]|[e|r]|[e|r]]]; cbn [parse_and_send]; try constructor;
      unfold send_task; destruct (from_capnp r) as [|[]] || idtac;
      try destruct (ch_open c); repeat constructor; by apply aims_chan.
  - unfold act_stats in H. destruct (get_stats _ _) as [[st sent]|]; cbn [mbind option_bind] in H;
      [|done]. injection H as _ <- _. apply list.Forall_forall.
    intros e (x & -> & _)%list_elem_of_fmap. by apply aims_chan.
  - unfold act_snapshot in H. destruct (ns_snapshot nd); [done|]. injection H as _ <- _.
    apply list.Forall_forall. intros e (i & ch & -> & Hi)%elem_of_lookup_imap_1.
    by eapply aims_chan, list_elem_of_lookup_2.
  - injection H as _ <- _.
    apply list.Forall_forall. intros e (i & ch & -> & Hi)%elem_of_lookup_imap_1.
    by eapply aims_chan, list_elem_of_lookup_2.
  - unfold act_format in H. destruct (_ !! k) as [ct|] eqn:Hk; cbn [mbind option_bind] in H; [|done].
    destruct (ct_stage ct); [|done..]. destruct (forallb _ _); [|done].
    destruct (leads ct); [destruct (aggregate_mode _ _) eqn:Hm|]; injection H as _ <- _; try constructor.
    pose proof (ro_carbon _ Hok) as Hs. rewrite list.Forall_forall in Hs.
    eapply aggregate_mode_aims; [|exact Hm]. exact (Hs _ (list_elem_of_lookup_2 _ _ _ Hk)).
Qed.

(** ** The invariant is kept *)

Lemma emit_all_spawned direct nd es nd' :
  emit_all direct nd es = Some nd' ->
  ns_spawned nd' = ns_spawned nd ++ (if direct then [] else tasks_sent es).
Proof.
  revert nd. induction es as [|e es IH]; intros nd; cbn [emit_all].
  { intros [= <-]. by destruct direct; rewrite app_nil_r. }
  destruct (emit direct nd e) as [nd1|] eqn:He; cbn [mbind option_bind]; [|done].
  intros H. rewrite (IH _ H). clear H IH. destruct e as [[| |]|ch t]; cbn [emit] in He.
  - by injection He as <-.
  - injection He as <-. unfold reply. by repeat case_match.
  - by injection He as <-.
  - destruct direct.
    + apply enqueue_inv in He as [(ws & -> & _) _]. done.
    + injection He as <-. cbn. by rewrite <-app_assoc.
Qed.

(** Effects do not change what a carbon thread is, or how far it is. *)
Lemma emit_all_threads {A} (f : CarbonThread -> A) direct nd es nd' :
  (forall ct sl, f (with_slots ct sl) = f ct) -> (forall v ct, f (with_value v ct) = f ct) ->
  emit_all direct nd es = Some nd' -> map f (ns_carbon nd') = map f (ns_carbon nd).
Proof.
  intros H1 H2. revert nd. induction es as [|e es IH]; intros nd; cbn [emit_all]; [by intros [= <-]|].
  destruct (emit direct nd e) as [nd1|] eqn:He; cbn [mbind option_bind]; [|done].
  intros H. rewrite (IH _ H). clear H IH. destruct e as [[| |]|ch t]; cbn [emit] in He.
  - by injection He as <-.
  - injection He as <-. unfold reply. destruct (countable.decode_nat _) as [[[k|] w]|]; try done.
    cbn [ns_carbon set_carbon]. rewrite (map_alter _ id); [by apply list_alter_id|]. intros ct. by rewrite H1.
  - injection He as <-. cbn [ns_carbon set_carbon].
    rewrite (map_alter _ id); [by apply list_alter_id|]. intros ct. by rewrite H2.
  - destruct direct; [|by injection He as <-]. by apply enqueue_inv in He as [(ws & -> & _) _].
Qed.

Lemma Forall_map_eq {A B} (f : A -> B) (P : A -> Prop) l l' :
  (forall x y, f x = f y -> P x -> P y) -> map f l' = map f l -> Forall P l -> Forall P l'.
Proof.
  intros HP Hm HF. revert l' Hm. induction HF as [|x l Hx _ IH]; intros [|y l'] Hm; try done.
  injection Hm as H1 H2. constructor; [by eapply HP|by apply IH].
Qed.

Lemma act_carbon_aims nd ev nd1 es ss :
  node_act system d nd ev = Some (nd1, es, ss) -> Forall thread_aims (ns_carbon nd) ->
  Forall thread_aims (ns_carbon nd1).
Proof.
  intros H Hf. pose proof (act_carbon_same system d _ _ _ _ _ H) as Hc.
  destruct ev; try (by rewrite Hc); cbn [node_act] in H.
  - injection H as <- _ _. cbn [ns_carbon set_carbon]. apply Forall_app_2; [done|]. by repeat constructor.
  - apply act_read_inv in H as (ct & c & acc & Hk & _ & _ & ->). cbn [ns_carbon set_carbon].
    apply Forall_insert; [done|]. rewrite list.Forall_forall in Hf.
    exact (Hf _ (list_elem_of_lookup_2 _ _ _ Hk)).
  - apply act_format_inv in H as (ct & s & Hk & _ & _ & -> & _). cbn [ns_carbon set_carbon].
    apply Forall_insert; [done|]. rewrite list.Forall_forall in Hf.
    exact (Hf _ (list_elem_of_lookup_2 _ _ _ Hk)).
  - apply act_backend_inv in H as (ct & Hk & _ & _ & ->). cbn [ns_carbon set_carbon].
    apply Forall_insert; [done|]. rewrite list.Forall_forall in Hf.
    exact (Hf _ (list_elem_of_lookup_2 _ _ _ Hk)).
Qed.

Lemma act_listeners nd ev nd1 es ss :
  node_act system d nd ev = Some (nd1, es, ss) ->
  Forall listener_aims (in_listeners (ns_inputs nd)) ->
  Forall listener_aims (in_listeners (ns_inputs nd1)).
Proof.
  intros H Hf. pose proof (act_inputs system d _ _ _ _ _ H) as Hc.
  destruct ev; try (by rewrite Hc); cbn [node_act] in H.
  - unfold act_datagram in H. destruct (_ !! l) as [[s|]|] eqn:Hl; [|done..].
    destruct (on_datagram _ _ _ _ _) as [[[so fl] e]|] eqn:Hd; cbn [mbind option_bind] in H; [|done].
    injection H as <- _ _. cbn [ns_inputs set_inputs in_listeners]. apply Forall_insert; [done|].
    rewrite list.Forall_forall in Hf. eapply on_datagram_aims; [|exact Hd].
    exact (Hf _ (list_elem_of_lookup_2 _ _ _ Hl)).
  - injection H as <- _ _. cbn. by apply Forall_insert.
  - unfold act_batch in H. destruct (_ !! k) as [[t st]|]; cbn [mbind option_bind] in H; [|done].
    destruct (mudp_step _ _ _) as [[[st' fl] e]|]; cbn [mbind option_bind] in H; [|done].
    by injection H as <- _ _.
  - by injection H as <- _ _.
Qed.

Lemma node_step_workers nd ev nd' os :
  node_step system d nd ev = Some (nd', os) -> length (ns_workers nd') = length (ns_workers nd).
Proof.
  intros (nd1 & es & ss & Ha & He & _ & _)%node_step_inv.
  apply emit_all_profile in He. apply act_profile in Ha.
  assert (Hp : length (profile nd') = length (profile nd)).
  { rewrite He. destruct ev; try (by rewrite Ha). destruct Ha as (ran & r & t & r' & es' & _ & _ & _ & ->).
    apply length_insert. }
  unfold profile in Hp. by rewrite !length_map in Hp.
Qed.

(** The replies to the snapshot timer are read all at once. *)
Lemma node_step_untaken nd ev nd' os :
  node_step system d nd ev = Some (nd', os) -> replies_ok (waiting nd) (reply_view nd) ->
  (forall slots, ns_snapshot nd = Some slots -> Taken ∉ slots) ->
  forall slots, ns_snapshot nd' = Some slots -> Taken ∉ slots.
Proof.
  intros (nd1 & es & ss & Ha & He & _ & _)%node_step_inv Hok Hs.
  apply emit_all_waiting in He as [Hw Hv].
  change (forall slots, fst (reply_view nd') = Some slots -> Taken ∉ slots).
  change (forall slots, fst (reply_view nd) = Some slots -> Taken ∉ slots) in Hs. rewrite Hv.
  pose proof (act_quiet system d _ _ _ _ _ Ha) as Hq. pose proof (act_asks system d _ _ _ _ _ Ha) as Hk.
  pose proof (act_reads system d _ _ _ _ _ Ha) as Hd. pose proof (act_moves system d _ _ _ _ _ Ha) as Hm.
  assert (Hquiet : Forall quiet es -> caches_sent (plain es) = []) by (by intros []%quiet_spec).
  destruct ev; try (destruct Hq as (_ & -> & Hq3 & _); by rewrite (Hquiet Hq3)).
  - destruct Hk as (_ & _ & _ & -> & ->). rewrite requests_no_plain. cbn. intros slots [= <-].
    by intros (x & Hx & _)%list_elem_of_fmap.
  - by destruct Hd as (slots & rs & _ & _ & _ & -> & _ & ->).
  - destruct Hk as (_ & _ & -> & ->). by rewrite requests_no_plain.
  - destruct Hd as (sl & joined & c & _ & _ & _ & _ & -> & Hq3). by rewrite (Hquiet Hq3).
  - by destruct Hm as (_ & -> & -> & _).
  - destruct Hm as (wt & t & q & r & es' & _ & Hr & -> & _ & _ & Hm1 & ->).
    rewrite plain_map. apply (replies_ok_perm _ _ _ Hm1) in Hok.
    destruct (work_answers _ _ _ _ _ _ Hok Hr) as [_ Hans]. revert Hans. unfold answered_view.
    destruct t; try (by intros ->).
    + intros (sl & i & Hsl & Hi & ->). cbn [fst]. intros slots [= <-].
      intros [j Hj]%list_elem_of_lookup. unfold fill_slot in Hj.
      apply list_lookup_insert_Some in Hj as [(_ & ? & _)|[_ Hj]]; [done|].
      by eapply (Hs sl Hsl), list_elem_of_lookup_2.
    + by intros (k & i & sl & joined & _ & _ & ->).
Qed.

Context (Hown : snd (d_own_stats d) ∈ d_chans d).

Lemma node_step_rest nd ev nd' os :
  node_step system d nd ev = Some (nd', os) -> rest_ok nd -> rest_ok nd'.
Proof.
  intros Hs Hok. pose proof (node_step_inv _ _ _ _ _ _ Hs) as (nd1 & es & ss & Ha & He & _ & _).
  constructor.
  - eapply node_step_replies; [done|apply Hok].
  - rewrite (emit_all_inputs _ _ _ _ He). eapply act_listeners; [done|apply Hok].
  - eapply (Forall_map_eq ct_aggregator); [|by eapply (emit_all_threads ct_aggregator)|
      eapply act_carbon_aims; [done|apply Hok]].
    unfold thread_aims. by intros x y ->.
  - rewrite (emit_all_spawned _ _ _ _ He). apply Forall_app_2.
    + pose proof (ro_spawned _ Hok) as Hsp. pose proof (act_workers _ _ _ _ _ _ _ Ha) as Hw.
      destruct ev; try (destruct Hw as [_ ->]; done).
      * destruct Hw as ([ch t] & _ & _ & _ & [(ws & -> & _) _]%enqueue_inv).
        cbn [ns_spawned set_spawned set_workers]. by apply Forall_delete.
      * by destruct Hw as (wt & t & q & r & es' & _ & _ & _ & _ & _ & ->).
    + destruct (is_direct ev) eqn:Hd; [constructor|].
      apply aims_tasks. by eapply act_aims.
  - rewrite (node_step_workers _ _ _ _ Hs). apply Hok.
  - eapply node_step_untaken; [done|apply Hok..].
Qed.

(** ** No internal work is stuck *)

Lemma emit_plain direct nd es : exists nd', emit_all direct nd (map Plain es) = Some nd'.
Proof.
  revert nd. induction es as [|e es IH]; intros nd; [by eexists|]. cbn [map emit_all].
  destruct e; cbn [emit mbind option_bind]; apply IH.
Qed.

Lemma emit_spawns nd es : exists nd', emit_all false nd es = Some nd'.
Proof.
  revert nd. induction es as [|[e|ch t] es IH]; intros nd; [by eexists| |]; cbn [emit_all].
  - destruct e; cbn [emit mbind option_bind]; apply IH.
  - cbn [emit mbind option_bind]. apply IH.
Qed.

(** An event that its component accepts is a step. *)
Lemma accepted_step nd ev :
  is_direct ev = false -> is_Some (node_act system d nd ev) -> is_Some (node_step system d nd ev).
Proof.
  intros Hd [[[nd1 es] ss] Ha]. unfold node_step. rewrite Ha. cbn [mbind option_bind]. rewrite Hd.
  destruct (emit_spawns nd1 es) as [nd' ->]. by eexists.
Qed.

Lemma poll_possible nd : rest_ok nd -> ns_spawned nd <> [] -> is_Some (node_step system d nd (EPoll 0)).
Proof.
  intros Hok Hne. apply accepted_step; [done|]. cbn. unfold act_poll.
  destruct (ns_spawned nd) as [|[ch t] l] eqn:Hs; [done|]. cbn.
  pose proof (ro_spawned _ Hok) as Hsp. rewrite Hs in Hsp. apply list.Forall_cons in Hsp as [Hch _].
  rewrite (ro_workers _ Hok) in Hch. apply elem_of_seq in Hch. cbn [fst] in Hch.
  destruct (lookup_lt_is_Some_2 (ns_workers nd) ch) as [wt Hwt]; [lia|]. unfold set_spawned at 1.
  cbn [ns_workers]. rewrite Hwt. cbn [mbind option_bind].
  destruct (clone_send_items t (wt_queue wt)) as (q & -> & _). by eexists.
Qed.

Lemma work_possible nd : queued nd <> [] -> exists w, is_Some (node_step system d nd (EWork w)).
Proof.
  intros Hne.
  assert (exists w wt, ns_workers nd !! w = Some wt /\ mpsc_items (wt_queue wt) <> []) as (w & wt & Hw & Hq).
  { unfold queued in Hne. induction (ns_workers nd) as [|wt ws IH]; [done|]. cbn in Hne.
    destruct (mpsc_items (wt_queue wt)) eqn:Hi.
    - destruct (IH Hne) as (w & wt' & ? & ?). by exists (S w), wt'.
    - exists 0%nat, wt. split; [done|]. by rewrite Hi. }
  exists w. apply accepted_step; [done|]. cbn. unfold act_work. rewrite Hw. cbn [mbind option_bind].
  destruct (mpsc_items (wt_queue wt)) as [|t l] eqn:Hi; [done|].
  destruct (recv_oldest _ _ _ _ Hi) as (q & -> & _). cbn [mbind option_bind].
  destruct (run_total (wt_runner wt) t) as [[r es] ->]. by eexists.
Qed.

Lemma join_possible nd slots :
  rest_ok nd -> waiting nd = [] -> ns_snapshot nd = Some slots -> is_Some (node_step system d nd EJoin).
Proof.
  intros Hok Hw Hs. apply accepted_step; [done|]. cbn. unfold act_join. rewrite Hs. cbn [mbind option_bind].
  destruct (ro_replies _ Hok) as [H1 _]. rewrite Hw in H1. unfold expected_snapshot, reply_view in H1.
  cbn [fst] in H1. rewrite Hs in H1. apply Permutation_nil_l in H1.
  pose proof (ro_snapshot _ Hok _ Hs) as Ht.
  assert (exists rs, mapM slot_reply slots = Some rs /\ exists cs, rs = map Some cs) as (rs & -> & cs & ->).
  { revert H1 Ht. generalize (reply_id None) as g. clear. induction slots as [|s slots IH]; intros g He Ht.
    { exists []. split; [done|]. by exists []. }
    apply list.not_elem_of_cons in Ht as [Hs Ht]. cbn in He. destruct s as [|c|]; [done| |done].
    destruct (IH _ He Ht) as (rs & Hm & cs & ->). exists (Some c :: map Some cs). cbn. rewrite Hm.
    split; [done|]. by exists (c :: cs). }
  cbn [mbind option_bind]. unfold snapshot_tick. rewrite join_all_some. by eexists.
Qed.

Lemma carbon_nil f cs k x : expected_carbon f cs = [] -> cs !! k = Some x -> expected_from (f k) (fst x) = [].
Proof.
  revert f k. induction cs as [|y cs IH]; intros f [|k]; cbn; [done..| |].
  - intros [H _]%app_eq_nil [= ->]. done.
  - intros [_ H]%app_eq_nil Hk. by apply (IH (f ∘ S) k).
Qed.

(** Replies that all arrived are read, or were. *)
Lemma slots_arrived f slots :
  expected_from f slots = [] -> forallb is_taken slots = true \/ exists w c, slots !! w = Some (Arrived c).
Proof.
  revert f. induction slots as [|s slots IH]; intros f He; [by left|]. cbn in He.
  destruct s as [|c|]; [done|right; by exists 0%nat, c|].
  destruct (IH _ He) as [H|(w & c & H)]; [by left|right; by exists (S w), c].
Qed.

Lemma thread_possible nd k ct :
  rest_ok nd -> waiting nd = [] -> ns_carbon nd !! k = Some ct -> is_ended ct = false ->
  exists ev, is_internal ev = true /\ is_Some (node_step system d nd ev).
Proof.
  intros Hok Hw Hk He. destruct (ro_replies _ Hok) as [_ H2]. rewrite Hw in H2.
  apply Permutation_nil_l in H2. symmetry in H2. apply (carbon_nil _ _ k (ct_slots ct, ct_joined ct)) in H2.
  2: { unfold reply_view. cbn [snd]. by rewrite list_lookup_fmap, Hk. }
  cbn [fst] in H2. unfold is_ended in He. destruct (ct_stage ct) eqn:Hs; [| |done].
  - destruct (slots_arrived _ _ H2) as [Ht|(w & c & Hc)].
    + exists (EFormat k). split; [done|]. apply accepted_step; [done|]. cbn. unfold act_format.
      rewrite Hk. cbn [mbind option_bind]. rewrite Hs, Ht.
      destruct (leads ct); [destruct (aggregate_mode _ _)|]; by eexists.
    + exists (ERead k w). split; [done|]. apply accepted_step; [done|]. cbn. unfold act_read.
      rewrite Hk. cbn [mbind option_bind]. rewrite Hc.
      destruct (accumulate_all (ct_acc ct) [c]) as (e & Ha & _). cbn [map] in Ha.
      destruct (leads ct); rewrite ?Ha; cbn [mbind option_bind]; by eexists.
  - exists (EBackend k). split; [done|]. apply accepted_step; [done|]. cbn. unfold act_backend, outstanding.
    rewrite Hk. cbn [mbind option_bind]. rewrite Hs, Hw. cbn [List.filter].
    destruct (carbon_sender _ _ _ _) as [[]|]; by eexists.
Qed.

Lemma rest_or_step nd :
  rest_ok nd -> resting nd \/ exists ev, is_internal ev = true /\ is_Some (node_step system d nd ev).
Proof.
  intros Hok. destruct (ns_spawned nd) as [|x l] eqn:Hsp.
  2: { right. exists (EPoll 0). split; [done|]. apply poll_possible; [done|by rewrite Hsp]. }
  destruct (queued nd) as [|t ts] eqn:Hq.
  2: { right. destruct (work_possible nd) as [w Hw]; [by rewrite Hq|]. by exists (EWork w). }
  assert (Hw : waiting nd = []) by (unfold waiting; by rewrite Hsp, Hq).
  destruct (ns_snapshot nd) as [slots|] eqn:Hs.
  { right. exists EJoin. split; [done|]. by eapply join_possible. }
  destruct (forallb is_ended (ns_carbon nd)) eqn:Hf; [by left|]. right.
  assert (exists k ct, ns_carbon nd !! k = Some ct /\ is_ended ct = false) as (k & ct & Hk & He).
  { clear -Hf. induction (ns_carbon nd) as [|ct cs IH]; [done|]. cbn in Hf.
    destruct (is_ended ct) eqn:He; [|by exists 0%nat, ct].
    destruct (IH Hf) as (k & ct' & ? & ?). by exists (S k), ct'. }
  by eapply thread_possible.
Qed.

(** ** Internal work ends *)

(** The carbon threads that still collect; and what is left to do for the rest: each
    send is polled, then its task is run, then its reply is read. *)
Definition collecting (nd : NodeState) : Z :=
  sumZ (fun ct => match ct_stage ct with Collecting => 1 | _ => 0 end) (ns_carbon nd).
Definition formatting (nd : NodeState) : Z :=
  sumZ (fun ct => match ct_stage ct with Formatting => 1 | _ => 0 end) (ns_carbon nd).
Definition arrived_count (slots : list Slot) : Z :=
  sumZ (fun s => match s with Arrived _ => 1 | _ => 0 end) slots.
Definition unread (v : ReplyView) : Z :=
  match fst v with Some slots => 1 + arrived_count slots | None => 0 end +
  sumZ (fun x => arrived_count (fst x)) (snd v).
Definition effort (nd : NodeState) : Z :=
  blen (ns_spawned nd) + 2 * blen (waiting nd) + unread (reply_view nd) + formatting nd.

Lemma sumZ_nonneg {A} (f : A -> Z) l : (forall x, 0 <= f x) -> 0 <= sumZ f l.
Proof. intros Hf. unfold sumZ. induction l as [|x l IH]; cbn; [lia|]. specialize (Hf x). lia. Qed.

Lemma arrived_nonneg slots : 0 <= arrived_count slots.
Proof. apply sumZ_nonneg. intros []; lia. Qed.

Lemma unread_nonneg v : 0 <= unread v.
Proof.
  unfold unread. assert (0 <= sumZ (fun x : list Slot * list Cache => arrived_count (fst x)) (snd v))
    by (apply sumZ_nonneg; intros; apply arrived_nonneg).
  destruct (fst v) as [slots|]; [pose proof (arrived_nonneg slots)|]; lia.
Qed.

Lemma measures_nonneg nd : 0 <= collecting nd /\ 0 <= effort nd.
Proof.
  unfold collecting, effort, formatting. pose proof (unread_nonneg (reply_view nd)).
  pose proof (blen_nonneg (ns_spawned nd)). pose proof (blen_nonneg (waiting nd)).
  split; [apply sumZ_nonneg; intros; by destruct (ct_stage _)|].
  assert (0 <= sumZ (fun ct => match ct_stage ct with Formatting => 1 | _ => 0 end) (ns_carbon nd))
    by (apply sumZ_nonneg; intros; by destruct (ct_stage _)). lia.
Qed.

Lemma answered_unread r t v v' : answered_view r t v v' -> unread v' <= unread v + 1.
Proof.
  unfold answered_view, unread. destruct t; try (intros ->; lia).
  - intros (slots & k & -> & Hk & ->). cbn [fst snd]. unfold fill_slot, arrived_count.
    rewrite (sumZ_insert _ _ _ _ _ Hk). lia.
  - intros (k & j & slots & joined & Hk & Hj & ->). cbn [fst snd].
    rewrite (sumZ_insert _ _ _ _ _ Hk). cbn [fst]. unfold fill_slot, arrived_count.
    rewrite (sumZ_insert _ _ _ _ _ Hj). lia.
Qed.

(** Effects that send no task change only replies and values. *)
Lemma emit_measures direct nd es nd' :
  emit_all direct nd es = Some nd' -> tasks_sent es = [] ->
  collecting nd' = collecting nd /\ formatting nd' = formatting nd /\
  blen (ns_spawned nd') = blen (ns_spawned nd) /\ blen (waiting nd') = blen (waiting nd).
Proof.
  intros He Ht. pose proof (emit_all_threads ct_stage _ _ _ _ (fun _ _ => eq_refl) (fun _ _ => eq_refl) He) as Hm.
  assert (Hs : forall g : Stage -> Z, sumZ (fun ct => g (ct_stage ct)) (ns_carbon nd') =
    sumZ (fun ct => g (ct_stage ct)) (ns_carbon nd)).
  { intros g. rewrite <-!(sumZ_map ct_stage g). by rewrite Hm. }
  unfold collecting, formatting.
  rewrite (Hs (fun s => match s with Collecting => 1 | _ => 0 end)).
  rewrite (Hs (fun s => match s with Formatting => 1 | _ => 0 end)).
  split; [done|]. split; [done|]. rewrite (emit_all_spawned _ _ _ _ He).
  apply emit_all_waiting in He as [Hw _]. unfold blen. rewrite (Permutation_length Hw), Ht.
  destruct direct; by rewrite !app_nil_r.
Qed.

Lemma stage_sum (g : Stage -> Z) nd k ct ct' :
  ns_carbon nd !! k = Some ct ->
  sumZ (fun ct => g (ct_stage ct)) (<[k := ct']> (ns_carbon nd)) =
  sumZ (fun ct => g (ct_stage ct)) (ns_carbon nd) - g (ct_stage ct) + g (ct_stage ct').
Proof. intros Hk. by rewrite (sumZ_insert _ _ _ _ _ Hk). Qed.

Lemma no_tasks nd ev nd1 es ss :
  node_act system d nd ev = Some (nd1, es, ss) -> is_internal ev = true -> (forall k, ev <> EFormat k) ->
  tasks_sent es = [].
Proof.
  intros H Hi Hf. assert (Hp : Forall (fun e => match e with Plain _ => True | SendTask _ _ => False end) es).
  { eapply act_Forall; [exact H|]. intros [e|ch t]; [done|]. by destruct ev; cbn; try done; destruct (Hf k). }
  clear H. induction Hp as [|[] es He _ IH]; [done| |done]. exact IH.
Qed.

Definition measure_lt (nd' nd : NodeState) : Prop :=
  collecting nd' < collecting nd \/ (collecting nd' = collecting nd /\ effort nd' < effort nd).

(** An internal step that gives out no tasks: its effects reach only replies. *)
Lemma taskless_step nd ev nd' os :
  node_step system d nd ev = Some (nd', os) -> is_internal ev = true -> (forall k, ev <> EFormat k) ->
  exists nd1 es ss, node_act system d nd ev = Some (nd1, es, ss) /\
    collecting nd' = collecting nd1 /\
    effort nd' = blen (ns_spawned nd1) + 2 * blen (waiting nd1) +
      unread (foldl take_reply (reply_view nd1) (caches_sent (plain es))) + formatting nd1.
Proof.
  intros (nd1 & es & ss & Ha & He & _ & _)%node_step_inv Hi Hf.
  destruct (emit_measures _ _ _ _ He (no_tasks _ _ _ _ _ Ha Hi Hf)) as (H1 & H2 & H3 & H4).
  apply emit_all_waiting in He as [_ Hv]. exists nd1, es, ss. split; [done|]. split; [done|].
  unfold effort. by rewrite H2, H3, H4, Hv.
Qed.

Lemma quiet_replies v es : Forall quiet es -> foldl take_reply v (caches_sent (plain es)) = v.
Proof. by intros [-> _]%quiet_spec. Qed.

Lemma thread_step_decreases nd k w nd' os ev :
  node_step system d nd ev = Some (nd', os) -> (ev = ERead k w \/ ev = EBackend k) ->
  measure_lt nd' nd.
Proof.
  intros Hs Hev. right.
  destruct (taskless_step _ _ _ _ Hs) as (nd1 & es & ss & Ha & -> & ->);
    [by destruct Hev as [->| ->]|by destruct Hev as [->| ->]|].
  pose proof (act_workers _ _ _ _ _ _ _ Ha) as Hw. pose proof (act_reads system d _ _ _ _ _ Ha) as Hd.
  pose proof (act_quiet system d _ _ _ _ _ Ha) as Hq. unfold effort, collecting, formatting.
  destruct Hev as [->| ->]; cbn [node_act] in Ha; rewrite (waiting_same _ _ Hw), (proj2 Hw).
  - destruct Hd as (slots & joined & c & Hd1 & Hd2 & _ & _ & Hd4 & Hq3). rewrite quiet_replies by done.
    apply act_read_inv in Ha as (ct & c' & acc & Hk & _ & _ & ->). cbn [ns_carbon set_carbon] in *.
    rewrite (stage_sum (fun s => match s with Collecting => 1 | _ => 0 end) _ _ _ _ Hk).
    rewrite (stage_sum (fun s => match s with Formatting => 1 | _ => 0 end) _ _ _ _ Hk).
    cbn [ct_stage]. split; [lia|]. unfold unread. rewrite Hd4. cbn [fst snd].
    rewrite (sumZ_insert _ _ _ _ _ Hd1). cbn [fst]. unfold arrived_count at 3 4.
    rewrite (sumZ_insert _ _ _ _ _ Hd2). lia.
  - destruct Hq as (_ & Hv & Hq3 & _). rewrite quiet_replies, Hv by done.
    apply act_backend_inv in Ha as (ct & Hk & Hst & _ & ->). cbn [ns_carbon set_carbon].
    rewrite (stage_sum (fun s => match s with Collecting => 1 | _ => 0 end) _ _ _ _ Hk).
    rewrite (stage_sum (fun s => match s with Formatting => 1 | _ => 0 end) _ _ _ _ Hk), Hst.
    cbn [with_stage ct_stage]. lia.
Qed.

Lemma format_decreases nd k nd' os :
  node_step system d nd (EFormat k) = Some (nd', os) -> measure_lt nd' nd.
Proof.
  intros (nd1 & es & ss & Ha & He & _ & _)%node_step_inv. left. unfold collecting.
  apply (emit_all_threads ct_stage) in He; [|done..].
  rewrite <-!(sumZ_map ct_stage (fun s => match s with Collecting => 1 | _ => 0 end)), He, !sumZ_map.
  cbn [node_act] in Ha. apply act_format_inv in Ha as (ct & s & Hk & Hs & _ & -> & Hes).
  cbn [ns_carbon set_carbon].
  rewrite (stage_sum (fun s => match s with Collecting => 1 | _ => 0 end) _ _ _ _ Hk), Hs.
  cbn [with_stage ct_stage]. destruct s; try lia.
  destruct (leads ct); [destruct (aggregate_mode _ _)|]; by destruct Hes.
Qed.

Lemma internal_decreases nd ev nd' os :
  node_step system d nd ev = Some (nd', os) -> is_internal ev = true -> rest_ok nd ->
  measure_lt nd' nd.
Proof.
  intros Hs Hi Hok. destruct ev; try done;
    try (by eapply format_decreases);
    try (eapply (thread_step_decreases nd k w); [done|by left]);
    try (eapply (thread_step_decreases nd k 0); [done|by right]).
  - right. destruct (taskless_step _ _ _ _ Hs) as (nd1 & es & ss & Ha & -> & ->); [done|done|].
    pose proof (act_carbon_same system d _ _ _ _ _ Ha) as Hc. pose proof (act_workers _ _ _ _ _ _ _ Ha) as Hw.
    apply (act_reads system d) in Ha as (slots & rs & Hd1 & _ & Hd3 & Hd4 & _ & ->).
    unfold effort, collecting, formatting. rewrite Hc, Hd3, (proj2 Hw). split; [done|].
    unfold unread. cbn [plain caches_sent omap list_omap foldl]. rewrite Hd4, Hd1. cbn [fst snd]. pose proof (arrived_nonneg slots). lia.
  - right. destruct (taskless_step _ _ _ _ Hs) as (nd1 & es & ss & Ha & -> & ->); [done|done|].
    pose proof (act_carbon_same system d _ _ _ _ _ Ha) as Hc. pose proof (act_workers _ _ _ _ _ _ _ Ha) as Hw.
    apply (act_moves system d) in Ha as (Hm1 & Hm2 & -> & _). cbn [plain caches_sent omap list_omap foldl].
    unfold effort, collecting, formatting. rewrite Hc, Hm2. split; [done|].
    destruct Hw as ([ch t] & Hj & _ & _ & [(ws & -> & _) _]%enqueue_inv).
    unfold blen. rewrite (Permutation_length Hm1). cbn [ns_spawned set_spawned set_workers].
    pose proof (lookup_lt_Some _ _ _ Hj). rewrite length_delete by by eexists. lia.
  - right. destruct (taskless_step _ _ _ _ Hs) as (nd1 & es & ss & Ha & -> & ->); [done|done|].
    pose proof (act_carbon_same system d _ _ _ _ _ Ha) as Hc.
    apply (act_moves system d) in Ha as (wt & t & q & r & es' & _ & Hr & -> & _ & -> & Hm1 & Hm2).
    unfold effort, collecting, formatting. rewrite Hc, Hm2, plain_map. split; [done|].
    pose proof (ro_replies _ Hok) as Hrep. apply (replies_ok_perm _ _ _ Hm1) in Hrep.
    destruct (work_answers _ _ _ _ _ _ Hrep Hr) as [_ Hans%answered_unread].
    unfold blen in *. apply Permutation_length in Hm1. cbn [length] in Hm1.
    cbn [ns_spawned set_workers]. lia.
Qed.

(** One internal step. *)
Definition internal_step (nd' nd : NodeState) : Prop :=
  exists ev os, is_internal ev = true /\ node_step system d nd ev = Some (nd', os).

Lemma internal_terminates nd : rest_ok nd -> Acc internal_step nd.
Proof.
  pose (m := fun nd => (Z.to_nat (collecting nd), Z.to_nat (effort nd))).
  assert (Hwf : Acc (Relation_Operators.slexprod nat nat lt lt) (m nd))
    by (apply wf_slexprod; apply Nat.lt_wf_0).
  remember (m nd) as x eqn:Hx. revert nd Hx. induction Hwf as [x _ IH]; intros nd -> Hok.
  constructor. intros nd' (ev & os & Hi & Hs). eapply IH; [|done|by eapply node_step_rest].
  pose proof (measures_nonneg nd') as [H1 H2]. unfold m.
  destruct (internal_decreases _ _ _ _ Hs Hi Hok) as [Hlt|[-> Hlt]].
  - apply Relation_Operators.left_slex. lia.
  - apply Relation_Operators.right_slex. lia.
Qed.
End invariant.

(** ** The theorem *)
Section settles.
Context {QOK : MpscOk Q} {BOK : BytesOk BL} {XOK : ExecutorOk XL} {HIOK : HashIterOk HI}.
Context {O : OsLib} {T : TimerLib}.

Lemma node_run_rest system d nd evs nd' os :
  snd (d_own_stats d) ∈ d_chans d -> node_run system d nd evs = Some (nd', os) ->
  rest_ok d nd -> rest_ok d nd'.
Proof.
  intros Hown Hrun Hok. eapply (foldEP_inv (rest_ok d)); [|done|exact Hrun].
  intros s x s1 e1 _ Hs Hstep. by eapply node_step_rest.
Qed.

Lemma started_rest system d :
  Started system d -> snd (d_own_stats d) ∈ d_chans d /\ rest_ok d (node_init system d).
Proof.
  intros Hst. pose proof Hst as [Hw Hc Hr Ho Hfl Ha]. split.
  { rewrite Ho, Hc. apply list_elem_of_fmap. exists 0%nat. split; [done|]. apply elem_of_seq. lia. }
  destruct (started_carbon system d) as (_ & Hrep & _). constructor.
  - done.
  - cbn [node_init ns_inputs in_listeners]. 
    destruct (multimessage (network system)); destruct Ha as [x ->]; [constructor|].
    apply list.Forall_forall.
    intros so (s & -> & Hs)%list_elem_of_fmap. unfold async_listeners in Hs.
    apply list_elem_of_In, in_concat in Hs as (y & Hx & Hs).
    apply in_map_iff in Hx as (i & <- & _). apply repeat_spec in Hs. by subst s.
  - constructor.
  - constructor.
  - cbn [node_init ns_workers]. rewrite Hc, Hr, !map_map, !length_map. cbn. by rewrite map_id, length_seq.
  - done.
Qed.

(** C4. A node comes to rest: from every state it can reach, every schedule of its
    internal steps (polling spawned sends, running tasks, reading replies, sending a
    finished snapshot, formatting and ending carbon threads) is finite, and as long as
    a queue holds a task, a send waits, a snapshot is under way or a carbon thread has
    not ended, another internal step is possible; so without new input everything
    accepted is processed. *)
Theorem node_settles (level_ok : string -> bool) resolve_host mgmt_binds (system : System)
    (F F' : gset nat) (d : DaemonState) (evs : list NodeEvent) (nd : NodeState)
    (os : list NodeOut) :
  start level_ok resolve_host mgmt_binds system F = Some (d, F') ->
  node_run system d (node_init system d) evs = Some (nd, os) ->
  Acc (internal_step system d) nd /\
  (resting nd \/ exists ev, is_internal ev = true /\ is_Some (node_step system d nd ev)).
Proof.
  intros Hst%start_started Hrun. destruct (started_rest _ _ Hst) as [Hown Hok0].
  pose proof (node_run_rest _ _ _ _ _ _ Hown Hrun Hok0) as Hok.
  split; [by apply internal_terminates|by apply rest_or_step].
Qed.
End settles.
End rest.
