(* ===== verification/Control.v ===== *)
(** * Who leads: consensus, commands and the carbon ticks of a running node
    ([util.rs], [management.rs], [raft.rs], [consul.rs] and [main.rs] composed)

    A running node with its leadership state: the raft thread enables the consensus
    when its start delay is over, Raft or the consul loop call [switch_leader], the
    management server executes commands, each in several accesses to the shared state
    that other threads interleave, and every carbon tick reads the flag they leave. *)

From S2P Require Import Prelude Interfaces Globals Config Task Worker Aggregate Carbon Util.
From S2P Require Import Http Hostname Management Consensus RaftStart.
From S2P Require Import Net Server Udp Peer Main Daemon Queue Node NodeStream NodeReplies NodeCarbon.

Section control.
Context {BL : BytesLib} {ML : MetricLib} {PL : ParserLib BL ML} {XL : ExecutorLib}.
Context {HI : HashIter} {CL : CapnpLib ML} {FL : FtoaLib BL} {Q : MpscLib}.
Context {AHS : AddrHash SocketAddr} {AHB : AddrHash bytes} {J : JsonLib} {LC : LibcLib}.

(** ** Operations on the leadership state *)

(** One access to the shared state, and what is left of the operation. *)
Definition op_step (l : Leadership) (o : Op) : Leadership * option Op :=
  match o with
  | SwitchStart acquired =>
      (l, if decide (consensus_state l = ConsensusState.Enabled)
          then Some (SwitchStore acquired) else None)
  | SwitchStore acquired => ({| consensus_state := consensus_state l; is_leader := acquired |}, None)
  | CommandStart c a => (set_consensus c l, Some (CommandStore a))
  | CommandStore a => (Management.set_leader a l, None)
  end.

(** The command a request carries, if it is executed. *)
Definition request_op (req : Request) : option Op :=
  match rq_method req with
  | POST =>
      if decide (rq_path req = bs "/consensus") then
        match rq_body req ≫= from_slice_command with
        | Some (MgmtCommand.ConsensusCommand c a) => Some (CommandStart c a)
        | _ => None
        end
      else None
  | _ => None
  end.

(** ** The controlled node *)

(** The thread of the internal Raft: not there when another consensus is configured,
    waiting for its start delay, running, or gone with a panic. *)
Inductive RaftThread := RaftAbsent | RaftDelayed | RaftRunning (r : RaftStart) | RaftFailed.

Record Controlled := mkControlled {
  co_node : NodeState;
  co_shared : Shared;                     (* [CONSENSUS_STATE] with its lock, [IS_LEADER] *)
  co_raft : RaftThread;
  co_ops : list Op                        (* operations under way *)
}.

Definition co_lead (s : Controlled) : Leadership := sh_lead (co_shared s).

Definition control_init (system : System) (d : DaemonState) : Controlled :=
  {| co_node := node_init system d; co_shared := shared_init (d_leadership d);
     co_raft := match consensus system with
                | ConsensusKind.Internal => RaftDelayed | _ => RaftAbsent end;
     co_ops := [] |}.

Inductive ControlEvent :=
| CNode (ev : NodeEvent)                  (* any other step of the node *)
| CRaft (resolve : string -> option SocketAddr) (random : Z)   (* the start delay is over *)
| CSwitch (acquired : bool)               (* the notifier or the consul loop calls [switch_leader] *)
| CRequest (req : Request)                (* a request to the management server *)
| CAccess (j : nat).                      (* operation [j] makes its next access *)

Definition is_leader_event (ev : NodeEvent) : bool :=
  match ev with ELeader _ => true | _ => false end.

(** Whether the next access of an operation takes the lock. *)
Definition takes_lock (o : Op) : bool :=
  match o with SwitchStart _ | CommandStart _ _ => true | _ => false end.

Section step.
Context (system : System) (d : DaemonState).

(** Whether there is a consensus that can call [switch_leader]. *)
Definition votes (s : Controlled) : bool :=
  match co_raft s with
  | RaftRunning _ => true
  | RaftAbsent => bool_decide (consensus system = ConsensusKind.Consul)
  | RaftDelayed | RaftFailed => false
  end.

(** [None]: the event cannot happen in this state, or the thread it happens on panics
    (with a poisoned lock, requests that look at the consensus state and commands). *)
Definition control_step (s : Controlled) (ev : ControlEvent)
  : option (Controlled * list NodeOut) :=
  match ev with
  | CNode ev =>
      if is_leader_event ev then None else
      '(nd, os) ← node_step system d (co_node s) ev;
      Some ({| co_node := nd; co_shared := co_shared s; co_raft := co_raft s;
               co_ops := co_ops s |}, os)
  | CRaft resolve random =>
      match co_raft s with
      | RaftDelayed =>
          let '(started, sh) := raft_thread resolve random (raft system) (co_shared s) in
          Some ({| co_node := co_node s; co_shared := sh;
                   co_raft := match started with Some r => RaftRunning r | None => RaftFailed end;
                   co_ops := co_ops s |}, [])
      | _ => None
      end
  | CSwitch acquired =>
      if votes s then
        Some ({| co_node := co_node s; co_shared := co_shared s; co_raft := co_raft s;
                 co_ops := co_ops s ++ [SwitchStart acquired] |}, [])
      else None
  | CRequest req =>
      if sh_poisoned (co_shared s) && needs_lock req then panic else
      Some ({| co_node := co_node s; co_shared := co_shared s; co_raft := co_raft s;
               co_ops := co_ops s ++ match request_op req with Some o => [o] | None => [] end |}, [])
  | CAccess j =>
      o ← co_ops s !! j;
      if sh_poisoned (co_shared s) && takes_lock o then panic else
      let '(l, rest) := op_step (co_lead s) o in
      '(nd, os) ← node_step system d (co_node s) (ELeader (is_leader l));
      Some ({| co_node := nd; co_shared := with_lead (co_shared s) l; co_raft := co_raft s;
               co_ops := match rest with
                         | Some o => <[j := o]> (co_ops s)
                         | None => delete j (co_ops s)
                         end |}, os)
  end.

Definition control_run (s : Controlled) (evs : list ControlEvent)
  : option (Controlled * list NodeOut) := foldEP control_step s evs.
End step.

(** ** The operations are those of the components *)

(** A request alone does to the leadership what the service does. *)
Lemma request_op_call req l :
  snd (call req l) =
  match request_op req with
  | Some o => match op_step l o with
              | (l, Some o) => fst (op_step l o)
              | (l, None) => l
              end
  | None => l
  end.
Proof.
  unfold call, request_op. destruct (rq_method req); [by repeat case_decide| |done..].
  case_decide; [|done]. destruct (rq_body req) as [body|]; [|done]. cbn [mbind option_bind].
  by destruct (from_slice_command body) as [[|c a]|].
Qed.

(** A switch alone is [switch_leader]. *)
Lemma switch_op_leader b l :
  switch_leader b l =
  match op_step l (SwitchStart b) with
  | (l, Some o) => fst (op_step l o)
  | (l, None) => l
  end.
Proof. unfold switch_leader. cbn [op_step]. case_bool_decide; case_decide; done. Qed.

(** An access is one step of the interleaving semantics of the leadership state. *)
Lemma op_step_interleaves l o1 o o2 :
  Consensus.sys_step (l, o1 ++ o :: o2)
    (fst (op_step l o), o1 ++ match snd (op_step l o) with Some o => [o] | None => [] end ++ o2).
Proof.
  destruct o; cbn [op_step fst snd].
  - destruct (decide _); by constructor.
  - constructor.
  - constructor.
  - constructor.
Qed.

(** ** The flag and the ticks *)
Definition lead_flags (nd : NodeState) : list bool := map leads (ns_carbon nd).

(** A follower's thread never has clients. *)
Definition follower_ok (ct : CarbonThread) : Prop :=
  leads ct = false -> ct_stage ct = Collecting \/ ct_stage ct = Ended (Some []).

(** What the threads' flags and the node's flag see of a step. *)
Definition same_lead (nd nd' : NodeState) : Prop :=
  ns_leader nd' = ns_leader nd /\ lead_flags nd' = lead_flags nd /\
  (Forall follower_ok (ns_carbon nd) -> Forall follower_ok (ns_carbon nd')).

Lemma same_lead_carbon nd nd' :
  ns_leader nd' = ns_leader nd -> ns_carbon nd' = ns_carbon nd -> same_lead nd nd'.
Proof. unfold same_lead, lead_flags. by intros -> ->. Qed.

Lemma same_lead_trans nd nd1 nd2 : same_lead nd nd1 -> same_lead nd1 nd2 -> same_lead nd nd2.
Proof. intros (A1 & B1 & C1) (A2 & B2 & C2). split_and!; [congruence|congruence|auto]. Qed.

(** One thread changes and keeps its flag. *)
Lemma same_lead_insert nd k ct ct' :
  ns_carbon nd !! k = Some ct -> leads ct' = leads ct -> (follower_ok ct -> follower_ok ct') ->
  same_lead nd (set_carbon nd (<[k := ct']> (ns_carbon nd))).
Proof.
  intros Hk Hl Hf. split; [done|]. split.
  - unfold lead_flags. cbn [ns_carbon set_carbon]. rewrite list_fmap_insert. apply list_insert_id.
    by rewrite list_lookup_fmap, Hk, Hl.
  - intros Hall. cbn [ns_carbon set_carbon]. apply Forall_insert; [done|].
    apply Hf. exact (Forall_lookup_1 _ _ _ _ Hall Hk).
Qed.

Lemma same_lead_alter nd (f : CarbonThread -> CarbonThread) k :
  (forall ct, leads (f ct) = leads ct /\ ct_stage (f ct) = ct_stage ct) ->
  same_lead nd (set_carbon nd (alter f k (ns_carbon nd))).
Proof.
  intros Hf. destruct (ns_carbon nd !! k) as [ct|] eqn:Hk.
  - rewrite (alter_is_insert _ _ _ _ Hk). destruct (Hf ct) as [H1 H2].
    eapply same_lead_insert; [exact Hk|exact H1|]. unfold follower_ok. by rewrite H1, H2.
  - apply same_lead_carbon; [done|]. cbn. apply list_eq. intros j. destruct (decide (j = k)) as [->|].
    + by rewrite list_lookup_alter_eq, Hk.
    + by rewrite list_lookup_alter_ne.
Qed.

Lemma emit_lead direct nd e nd' : emit direct nd e = Some nd' -> same_lead nd nd'.
Proof.
  destruct e as [[c n|id c|k v]|ch t]; cbn [emit].
  - intros [= <-]. by apply same_lead_carbon.
  - intros [= <-]. unfold reply. destruct (countable.decode_nat id) as [[[k|] w]|];
      [by apply same_lead_alter|by apply same_lead_carbon..].
  - intros [= <-]. by apply same_lead_alter.
  - destruct direct; [|intros [= <-]; by apply same_lead_carbon]. unfold enqueue.
    destruct (ns_workers nd !! ch); cbn [mbind option_bind]; [|done].
    destruct (clone_send t _); cbn [mbind option_bind]; [|done]. intros [= <-].
    by apply same_lead_carbon.
Qed.

Lemma emit_all_lead direct nd es nd' : emit_all direct nd es = Some nd' -> same_lead nd nd'.
Proof.
  revert nd. induction es as [|e es IH]; intros nd; cbn [emit_all].
  { intros [= <-]. by apply same_lead_carbon. }
  destruct (emit direct nd e) as [nd1|] eqn:He; cbn [mbind option_bind]; [|done].
  intros H. eapply same_lead_trans; [by eapply emit_lead|by apply IH].
Qed.

Section runs.
Context {QOK : MpscOk Q} {BOK : BytesOk BL} {HIOK : HashIterOk HI}.
Context (system : System) (d : DaemonState).

Lemma act_leader nd ev nd1 es ss :
  node_act system d nd ev = Some (nd1, es, ss) ->
  ns_leader nd1 = match ev with ELeader b => b | _ => ns_leader nd end.
Proof.
  intros H. pose proof (act_workers system d nd ev nd1 es ss H) as Hw.
  destruct ev; cbn [node_act] in H.
  1-13, 16: unfold act_datagram, act_batch, act_message, act_stats, act_snapshot, act_join,
    act_carbon, act_read, act_format, act_backend in H; clear Hw;
    repeat (case_match || (simplify_option_eq; [])); done.
  - destruct Hw as ([ch t] & _ & _ & _ & [(ws & -> & _) _]%enqueue_inv). done.
  - by destruct Hw as (wt & t & q & r & es' & _ & _ & _ & _ & _ & ->).
Qed.

(** What a step does to the threads before its effects are delivered. *)
Lemma act_lead nd ev nd1 es ss :
  node_act system d nd ev = Some (nd1, es, ss) ->
  match ev with
  | ELeader _ => ns_carbon nd1 = ns_carbon nd
  | ECarbon _ _ => lead_flags nd1 = lead_flags nd ++ [ns_leader nd] /\
      (Forall follower_ok (ns_carbon nd) -> Forall follower_ok (ns_carbon nd1))
  | _ => same_lead nd nd1
  end.
Proof.
  intros H. pose proof (act_leader nd ev nd1 es ss H) as Hl.
  pose proof (act_carbon_same system d nd ev nd1 es ss H) as Hc.
  destruct ev; try (by apply same_lead_carbon); try exact Hc; cbn [node_act] in H; clear Hc.
  - injection H as <- _ _. unfold lead_flags. cbn [ns_carbon set_carbon]. split; [by rewrite map_app|].
    intros Hf. apply Forall_app_2; [done|]. by repeat constructor.
  - apply act_read_inv in H as (ct & c & acc & Hk & _ & _ & ->). by eapply same_lead_insert.
  - apply act_format_inv in H as (ct & s & Hk & Hs & _ & -> & Hes).
    eapply same_lead_insert; [exact Hk|done|]. intros _ Hf. change (leads ct = false) in Hf.
    rewrite Hf in Hes. right. cbn. by destruct Hes as [_ ->].
  - apply act_backend_inv in H as (ct & Hk & Hs & _ & ->).
    eapply same_lead_insert; [exact Hk|done|]. intros Hfo Hf. exfalso.
    destruct (Hfo Hf) as [H1|H1]; congruence.
Qed.

Lemma node_step_lead nd ev nd' os :
  node_step system d nd ev = Some (nd', os) ->
  ns_leader nd' = match ev with ELeader b => b | _ => ns_leader nd end /\
  lead_flags nd' = lead_flags nd ++ match ev with ECarbon _ _ => [ns_leader nd] | _ => [] end /\
  (Forall follower_ok (ns_carbon nd) -> Forall follower_ok (ns_carbon nd')).
Proof.
  intros (nd1 & es & ss & Ha & (A & B & C)%emit_all_lead & _)%node_step_inv.
  rewrite A, B, (act_leader _ _ _ _ _ Ha). apply act_lead in Ha.
  destruct ev; try (destruct Ha as (_ & -> & HC); rewrite app_nil_r; by auto).
  - destruct Ha as [-> HC]. by auto.
  - unfold lead_flags. rewrite Ha, app_nil_r in *. by auto.
Qed.

(** ** Manual control *)
Definition no_command (ev : ControlEvent) : Prop :=
  match ev with CRequest req => request_op req = None | _ => True end.

Definition starts_raft (ev : ControlEvent) : bool :=
  match ev with CRaft _ _ => true | _ => false end.

(** The flag of the node is the flag of the leadership state, and only a raft thread
    that is gone leaves the lock poisoned. *)
Definition flags_agree (s : Controlled) : Prop :=
  ns_leader (co_node s) = is_leader (co_lead s) /\
  (sh_poisoned (co_shared s) = true -> co_raft s = RaftFailed).

(** What the raft thread does when its delay is over. *)
Lemma raft_thread_enables resolve random options sh :
  sh_poisoned sh = false ->
  let '(started, sh') := raft_thread resolve random options sh in
  sh_lead sh' = {| consensus_state := ConsensusState.Enabled; is_leader := is_leader (sh_lead sh) |} /\
  (sh_poisoned sh' = true -> started = None).
Proof.
  intros Hp. unfold raft_thread, locked. rewrite Hp.
  by destruct (start_internal_raft _ _ _); cbn; rewrite ?Hp.
Qed.

Lemma delayed_lock s :
  flags_agree s -> co_raft s = RaftDelayed -> sh_poisoned (co_shared s) = false.
Proof. intros [_ Hp] Hd. destruct (sh_poisoned _); [|done]. by rewrite Hp in Hd. Qed.

Lemma control_step_flag s ev s' os :
  control_step system d s ev = Some (s', os) -> flags_agree s ->
  flags_agree s' /\
  (Forall follower_ok (ns_carbon (co_node s)) -> Forall follower_ok (ns_carbon (co_node s'))).
Proof.
  intros Hstep Hfa. pose proof (delayed_lock _ Hfa) as Hlock. destruct Hfa as [Hf Hp].
  unfold flags_agree, co_lead in *.
  destruct ev as [ev|resolve random|b|req|j]; cbn [control_step] in Hstep.
  - destruct (is_leader_event ev) eqn:Hev; [done|].
    destruct (node_step _ _ _ ev) as [[nd o]|] eqn:Hs; cbn [mbind option_bind] in Hstep; [|done].
    injection Hstep as <- <-. apply node_step_lead in Hs as (H1 & _ & H2).
    cbn [co_node co_shared co_raft]. rewrite H1. split; [|done]. split; [by destruct ev|done].
  - destruct (co_raft s) eqn:Hd; try done.
    pose proof (raft_thread_enables resolve random (raft system) _ (Hlock eq_refl)) as He.
    destruct (raft_thread _ _ _ _) as [started sh]. destruct He as [He1 He2].
    injection Hstep as <- <-. cbn [co_node co_shared co_raft]. rewrite He1.
    split; [|done]. split; [done|]. intros Hps. by rewrite (He2 Hps).
  - destruct (votes system s); [|done]. by injection Hstep as <- <-.
  - destruct (_ && _); [done|]. by injection Hstep as <- <-.
  - destruct (co_ops s !! j) as [o|]; cbn [mbind option_bind] in Hstep; [|done].
    destruct (_ && _); [done|]. destruct (op_step (co_lead s) o) as [l rest].
    destruct (node_step _ _ _ _) as [[nd os']|] eqn:Hs; cbn [mbind option_bind] in Hstep; [|done].
    injection Hstep as <- <-. by apply node_step_lead in Hs as (H1 & _ & H2).
Qed.

(** Outside the enabled state operations of the consensus change nothing. *)
Lemma control_step_silent s ev s' os :
  control_step system d s ev = Some (s', os) -> no_command ev ->
  (co_raft s = RaftDelayed -> starts_raft ev = false) -> flags_agree s ->
  consensus_state (co_lead s) <> ConsensusState.Enabled -> only_checks (co_ops s) ->
  co_lead s' = co_lead s /\ co_raft s' = co_raft s /\ only_checks (co_ops s') /\
  exists n, lead_flags (co_node s') = lead_flags (co_node s) ++ repeat (is_leader (co_lead s)) n.
Proof.
  unfold flags_agree, only_checks, co_lead. intros Hstep Hnc Hnr [Hf _] He Ho.
  destruct ev as [ev|resolve random|b|req|j]; cbn [control_step] in Hstep.
  - destruct (is_leader_event ev); [done|].
    destruct (node_step _ _ _ ev) as [[nd o]|] eqn:Hs; cbn [mbind option_bind] in Hstep; [|done].
    injection Hstep as <- <-. apply node_step_lead in Hs as (_ & H1 & _). split_and!; try done.
    cbn [co_node]. rewrite H1, <-Hf. destruct ev; try (by exists 0%nat). by exists 1%nat.
  - destruct (co_raft s); try done. by specialize (Hnr eq_refl).
  - destruct (votes system s); [|done]. injection Hstep as <- <-.
    split_and!; [done|done|by apply Forall_app_2; [|repeat constructor]|].
    exists 0%nat. by rewrite app_nil_r.
  - destruct (_ && _); [done|]. injection Hstep as <- <-. rewrite Hnc, app_nil_r. split_and!; try done.
    exists 0%nat. by rewrite app_nil_r.
  - destruct (co_ops s !! j) as [o|] eqn:Hj; cbn [mbind option_bind] in Hstep; [|done].
    destruct (_ && _); [done|].
    pose proof (Forall_lookup_1 _ _ _ _ Ho Hj) as Hop. destruct o; try done. cbn [op_step] in Hstep.
    rewrite decide_False in Hstep by done.
    destruct (node_step _ _ _ _) as [[nd os']|] eqn:Hs; cbn [mbind option_bind] in Hstep; [|done].
    injection Hstep as <- <-. apply node_step_lead in Hs as (_ & H1 & _).
    split_and!; [done|done|by apply Forall_delete|]. exists 0%nat. exact H1.
Qed.

Lemma control_run_flag s evs s' os :
  control_run system d s evs = Some (s', os) -> flags_agree s ->
  Forall follower_ok (ns_carbon (co_node s)) ->
  flags_agree s' /\ Forall follower_ok (ns_carbon (co_node s')).
Proof.
  unfold control_run. revert s os. induction evs as [|ev evs IH]; intros s os; cbn [foldEP].
  { by intros [= <- <-]. }
  destruct (control_step system d s ev) as [[s1 o1]|] eqn:Hs; [|done].
  destruct (foldEP _ s1 evs) as [[s2 o2]|] eqn:Hr; [|done]. intros [= <- <-] Hf Hfo.
  apply control_step_flag in Hs as [H1 H2]; [|done]. eapply IH; [exact Hr|done|by apply H2].
Qed.

Lemma control_run_silent s evs s' os :
  control_run system d s evs = Some (s', os) -> Forall no_command evs ->
  (co_raft s = RaftDelayed -> Forall (fun ev => starts_raft ev = false) evs) -> flags_agree s ->
  consensus_state (co_lead s) <> ConsensusState.Enabled -> only_checks (co_ops s) ->
  co_lead s' = co_lead s /\
  exists n, lead_flags (co_node s') = lead_flags (co_node s) ++ repeat (is_leader (co_lead s)) n.
Proof.
  unfold control_run. intros Hr Hev. revert s os Hr.
  induction Hev as [|ev evs He _ IH]; intros s os; cbn [foldEP].
  { intros [= <- <-] _ _ _ _. split; [done|]. exists 0%nat. by rewrite app_nil_r. }
  destruct (control_step system d s ev) as [[s1 o1]|] eqn:Hs; [|done].
  destruct (foldEP _ s1 evs) as [[s2 o2]|] eqn:Hr; [|done]. intros [= <- <-] Hnr Hf Hn Ho.
  destruct (control_step_flag _ _ _ _ Hs Hf) as [Hf1 _].
  destruct (control_step_silent _ _ _ _ Hs He) as (Hl & Hra & Ho1 & n & Hfl); try done.
  { intros Hd. by apply Hnr in Hd as [? _]%list.Forall_cons. }
  destruct (IH s1 o2 Hr) as (Hl2 & k & Hfl2); try done.
  { rewrite Hra. intros Hd. by apply Hnr in Hd as [_ ?]%list.Forall_cons. }
  { by rewrite Hl. }
  split; [congruence|]. exists (n + k)%nat. by rewrite Hfl2, Hfl, Hl, <-app_assoc, <-repeat_app.
Qed.

(** A controlled node is a running node: what holds under every interleaving of the
    events of [Node] holds of it. *)
Lemma control_run_node s evs s' os :
  control_run system d s evs = Some (s', os) ->
  exists nevs, node_run system d (co_node s) nevs = Some (co_node s', os).
Proof.
  unfold control_run, node_run. revert s os. induction evs as [|ev evs IH]; intros s os; cbn [foldEP].
  { intros [= <- <-]. by exists []. }
  destruct (control_step system d s ev) as [[s1 o1]|] eqn:Hs; [|done].
  destruct (foldEP _ s1 evs) as [[s2 o2]|] eqn:Hr; [|done]. intros [= <- <-].
  destruct (IH s1 o2 Hr) as [nevs Hn].
  assert (Hone : (o1 = [] /\ co_node s1 = co_node s) \/
    exists nev, node_step system d (co_node s) nev = Some (co_node s1, o1)).
  { destruct ev as [ev|resolve random|b|req|j]; cbn [control_step] in Hs.
    - destruct (is_leader_event ev); [done|].
      destruct (node_step _ _ _ ev) as [[nd o]|] eqn:Hst; cbn [mbind option_bind] in Hs; [|done].
      injection Hs as <- <-. right. by exists ev.
    - destruct (co_raft s); try done. destruct (raft_thread _ _ _ _). injection Hs as <- <-. by left.
    - destruct (votes system s); [|done]. injection Hs as <- <-. by left.
    - destruct (_ && _); [done|]. injection Hs as <- <-. by left.
    - destruct (co_ops s !! j) as [o|]; cbn [mbind option_bind] in Hs; [|done].
      destruct (_ && _); [done|].
      destruct (op_step (co_lead s) o) as [l rest].
      destruct (node_step _ _ _ _) as [[nd o']|] eqn:Hst; cbn [mbind option_bind] in Hs; [|done].
      injection Hs as <- <-. right. by eexists. }
  destruct Hone as [[-> Heq]|[nev Hst]].
  - exists nevs. by rewrite <-Heq.
  - exists (nev :: nevs). cbn [foldEP]. by rewrite Hst, Hn.
Qed.

(** A thread that is new has the flag all new threads have. *)
Lemma later_leads nd nd' b n k ct :
  lead_flags nd' = lead_flags nd ++ repeat b n -> ns_carbon nd' !! k = Some ct ->
  (length (ns_carbon nd) <= k)%nat -> leads ct = b.
Proof.
  intros Hfl Hk Hge.
  assert (Hlk : lead_flags nd' !! k = Some (leads ct))
    by (unfold lead_flags; by rewrite list_lookup_fmap, Hk).
  assert (Hlen : length (lead_flags nd) = length (ns_carbon nd)) by apply length_map.
  rewrite Hfl, lookup_app_r in Hlk by lia.
  by apply list_elem_of_lookup_2, list_elem_of_In, repeat_spec in Hlk.
Qed.

(** C23. Outside the enabled state the operator's commands rule, for the whole node:
    once the consensus is paused or disabled, no switch of the leader has passed its
    check and the start delay of the internal Raft (if it is configured) is over or
    does not end in the meantime, no interleaving of the node's threads with any
    number of leader switches by Raft or consul and any requests that are not commands
    changes the leadership state; every carbon tick from then on leads exactly if the
    flag was set, and on a node that was told not to lead it ends without a single
    client.  The end of the start delay is the one exception: it enables the
    consensus, whatever was commanded before. *)
Theorem commands_rule_paused_nodes (evs : list ControlEvent) (s : Controlled) (os : list NodeOut) :
  control_run system d (control_init system d) evs = Some (s, os) ->
  consensus_state (co_lead s) <> ConsensusState.Enabled -> only_checks (co_ops s) ->
  (forall evs' s' os',
     Forall no_command evs' ->
     (co_raft s = RaftDelayed -> Forall (fun ev => starts_raft ev = false) evs') ->
     control_run system d s evs' = Some (s', os') ->
     co_lead s' = co_lead s /\
     forall k ct, ns_carbon (co_node s') !! k = Some ct ->
       (length (ns_carbon (co_node s)) <= k)%nat ->
       leads ct = is_leader (co_lead s) /\
       (is_leader (co_lead s) = false -> forall o, ct_stage ct = Ended o -> o = Some [])) /\
  (co_raft s = RaftDelayed -> forall resolve random, exists s',
     control_step system d s (CRaft resolve random) = Some (s', []) /\
     co_lead s' = {| consensus_state := ConsensusState.Enabled; is_leader := is_leader (co_lead s) |}).
Proof.
  intros Hrun He Ho.
  destruct (control_run_flag _ _ _ _ Hrun) as [Hf Hfo]; [done|constructor|]. split.
  - intros evs' s' os' Hnc Hnr Hrun'.
    destruct (control_run_flag _ _ _ _ Hrun' Hf Hfo) as [_ Hfo'].
    destruct (control_run_silent _ _ _ _ Hrun' Hnc Hnr Hf He Ho) as (Hl & n & Hfl). split; [done|].
    intros k ct Hk Hge. pose proof (later_leads _ _ _ _ _ _ Hfl Hk Hge) as Hlead.
    split; [done|]. intros Hfalse o Hs. rewrite <-Hlead in Hfalse.
    destruct (Forall_lookup_1 _ _ _ _ Hfo' Hk Hfalse) as [H1|H1]; congruence.
  - intros Hd resolve random. cbn [control_step]. rewrite Hd.
    pose proof (raft_thread_enables resolve random (raft system) _ (delayed_lock _ Hf Hd)) as Hen.
    destruct (raft_thread _ _ _ _) as [started sh]. destruct Hen as [Hen _]. by eexists.
Qed.
End runs.
End control.
