(* ===== verification/System.v ===== *)
(** * A cluster of running nodes ([peer.rs], [util.rs] and [main.rs] composed)

    Nodes that run as [Node] describes, each one the peer of the others, and the
    snapshot clients between them: a client tries to send its snapshot, its message
    arrives or not, the client is told so or told otherwise, pauses and tries again
    until it succeeds or gives up.  One event is a step of one node or of one client,
    so a sequence of events is one interleaving of the whole cluster. *)

From S2P Require Import Prelude Interfaces Globals Config Task TaskFacts Worker Aggregate.
From S2P Require Import Carbon Util Hostname Net Server Udp Peer Cluster Main Daemon Queue Node NodeStream.
From S2P Require Import NodeReplies NodeLedger NodeCarbon NodeOutput.

Section cluster.
Context {BL : BytesLib} {ML : MetricLib} {PL : ParserLib BL ML} {XL : ExecutorLib}.
Context {HI : HashIter} {CL : CapnpLib ML} {FL : FtoaLib BL} {Q : MpscLib}.
Context {AHS : AddrHash SocketAddr} {AHB : AddrHash bytes}.

(** ** State *)

(** A node, the address its peers know it by, and everything it has put out. *)
Record Member := mkMember {
  mb_addr : SocketAddr;
  mb_system : System;
  mb_daemon : DaemonState;
  mb_state : NodeState;
  mb_outs : list NodeOut
}.

(** A spawned [peer_client_ret.spawn(client)]: the node it runs on, and whether its
    message has arrived. *)
Record Client := mkClient {
  cl_from : nat;
  cl_sender : SnapshotSender;
  cl_retry : BackoffRetry;
  cl_arrived : bool
}.

(** The cluster, the snapshots whose client ended without any attempt arriving, one
    entry for every arrival of a snapshot, and one for every arrival of a snapshot that
    had arrived before. *)
Record Sys := mkSys {
  sy_members : list Member;
  sy_clients : list Client;
  sy_lost : list SnapshotSender;
  sy_arrived : list SnapshotSender;
  sy_again : list SnapshotSender
}.

Definition new_client (i : nat) (s : SnapshotSender) : Client :=
  {| cl_from := i; cl_sender := s; cl_retry := spawn_retry peer_client_ret; cl_arrived := false |}.

(** A node as it was started. *)
Record Setup := mkSetup { sp_addr : SocketAddr; sp_system : System; sp_daemon : DaemonState }.

Definition sys_init (setups : list Setup) : Sys := {|
  sy_members := map (fun x => mkMember (sp_addr x) (sp_system x) (sp_daemon x)
                                (node_init (sp_system x) (sp_daemon x)) []) setups;
  sy_clients := []; sy_lost := []; sy_arrived := []; sy_again := []
|}.

(** ** Steps *)
Definition member_step (m : Member) (ev : NodeEvent) : option (Member * list SnapshotSender) :=
  '(nd, os) ← node_step (mb_system m) (mb_daemon m) (mb_state m) ev;
  Some (mkMember (mb_addr m) (mb_system m) (mb_daemon m) nd (mb_outs m ++ os), snapshots_out os).

(** A step of node [i]; it spawns a client for every snapshot it sends. *)
Definition sys_event (s : Sys) (i : nat) (ev : NodeEvent) : option Sys :=
  m ← sy_members s !! i;
  '(m, senders) ← member_step m ev;
  Some (mkSys (<[i := m]> (sy_members s)) (sy_clients s ++ map (new_client i) senders)
          (sy_lost s) (sy_arrived s) (sy_again s)).

(** The node at an address accepts a connection and reads its first message. *)
Definition deliver_message (s : Sys) (addr : SocketAddr) (msg : Which) : option Sys :=
  '(j, _) ← list_find (fun m => mb_addr m = addr) (sy_members s);
  sys_event s j (EMessage 0 (inr msg)).

(** Whether an attempt got as far as writing to a connection. *)
Definition connects (s : SnapshotSender) (net : PeerNet) : bool :=
  match sc_bind (ss_options s) with Some _ => pn_bind net | None => true end && pn_connect net.

Definition set_clients (s : Sys) (cs : list Client) : Sys :=
  mkSys (sy_members s) cs (sy_lost s) (sy_arrived s) (sy_again s).

(** The client is polled with the outcome of its attempt: it ends, or pauses. *)
Definition client_polled (s : Sys) (p : nat) (c : Client) (arrives : bool)
    (res : PeerError + Which) : option Sys :=
  let arrived := cl_arrived c || arrives in
  let arrivals := sy_arrived s ++ if arrives then [cl_sender c] else [] in
  let again := sy_again s ++ if cl_arrived c && arrives then [cl_sender c] else [] in
  let lost := sy_lost s ++ if arrived then [] else [cl_sender c] in
  match poll_step (I := ()) (cl_retry c)
          {| ip_action := match res with inl e => Failed e | inr _ => Ready () end;
             ip_timer := NotReady |} with
  | Again b =>
      Some (mkSys (sy_members s)
              (<[p := mkClient (cl_from c) (cl_sender c) b arrived]> (sy_clients s))
              (sy_lost s) arrivals again)
  | Return _ _ => Some (mkSys (sy_members s) (delete p (sy_clients s)) lost arrivals again)
  | Unreachable => None
  end.

(** One attempt of client [p] under conditions [net].  What was written may arrive
    whatever the client is told: the transport fails after the last byte went out,
    or accepts bytes that the network then loses. *)
Definition client_attempt (s : Sys) (p : nat) (net : PeerNet) (arrives : bool) : option Sys :=
  c ← sy_clients s !! p;
  match rt_inner (cl_retry c) with
  | Delaying _ => None
  | Acting =>
      '(res, _) ← SnapshotSender_send (cl_sender c) net;
      s ← (if arrives then
             if connects (cl_sender c) net then
               msg ← snapshot_message (ss_metrics (cl_sender c));
               deliver_message s (sc_address (ss_options (cl_sender c))) msg
             else None
           else Some s);
      s ← match res with inl _ => sys_event s (cl_from c) EPeerFail | inr _ => Some s end;
      client_polled s p c arrives res
  end.

(** The pause of client [p] is over: its next attempt starts. *)
Definition client_pause_ends (s : Sys) (p : nat) : option Sys :=
  c ← sy_clients s !! p;
  match rt_inner (cl_retry c), poll_step (I := ()) (E := PeerError) (cl_retry c)
          {| ip_action := NotReady; ip_timer := Ready () |} with
  | Delaying _, Again b =>
      Some (set_clients s (<[p := mkClient (cl_from c) (cl_sender c) b (cl_arrived c)]>
                             (sy_clients s)))
  | _, _ => None
  end.

(** What happens to a node that is no snapshot from a peer and no failure of a
    client; those are the steps of the clients. *)
Definition own_event (ev : NodeEvent) : bool :=
  match ev with EMessage _ (inr (Snapshot _)) | EPeerFail => false | _ => true end.

Inductive SysEvent :=
| SNode (i : nat) (ev : NodeEvent)
| SAttempt (p : nat) (net : PeerNet) (arrives : bool)
| SPauseEnds (p : nat).

Definition sys_step (s : Sys) (ev : SysEvent) : option Sys :=
  match ev with
  | SNode i ev => if own_event ev then sys_event s i ev else None
  | SAttempt p net arrives => client_attempt s p net arrives
  | SPauseEnds p => client_pause_ends s p
  end.

Fixpoint sys_run (s : Sys) (evs : list SysEvent) : option Sys :=
  match evs with
  | [] => Some s
  | ev :: evs => s ← sys_step s ev; sys_run s evs
  end.

(** ** Every member is a running node *)
Definition member_ok (m : Member) : Prop :=
  exists evs, node_run (mb_system m) (mb_daemon m) (node_init (mb_system m) (mb_daemon m)) evs =
    Some (mb_state m, mb_outs m).

Definition same_setup (m m' : Member) : Prop :=
  mb_addr m' = mb_addr m /\ mb_system m' = mb_system m /\ mb_daemon m' = mb_daemon m.

Lemma member_step_inv m ev m' ss :
  member_step m ev = Some (m', ss) ->
  exists os, node_step (mb_system m) (mb_daemon m) (mb_state m) ev = Some (mb_state m', os) /\
    same_setup m m' /\ mb_outs m' = mb_outs m ++ os /\ ss = snapshots_out os.
Proof.
  unfold member_step. destruct (node_step _ _ _ _) as [[nd os]|]; [|done]. cbn.
  intros [= <- <-]. by exists os.
Qed.

Lemma member_step_ok m ev m' ss : member_step m ev = Some (m', ss) -> member_ok m -> member_ok m'.
Proof.
  intros (os & Hs & (Ha & Hsys & Hd) & Ho & _)%member_step_inv [evs Hr].
  exists (evs ++ [ev]). unfold node_run in *. rewrite Hsys, Hd, foldEP_app, Hr. cbn [foldEP].
  by rewrite Hs, Ho, app_nil_r.
Qed.

Lemma sys_event_inv s i ev s' :
  sys_event s i ev = Some s' ->
  exists m m' ss, sy_members s !! i = Some m /\ member_step m ev = Some (m', ss) /\
    s' = mkSys (<[i := m']> (sy_members s)) (sy_clients s ++ map (new_client i) ss)
           (sy_lost s) (sy_arrived s) (sy_again s).
Proof.
  unfold sys_event. destruct (sy_members s !! i) as [m|]; [|done]. cbn [mbind option_bind].
  destruct (member_step m ev) as [[m' ss]|] eqn:Hm; [|done]. cbn. intros [= <-].
  by exists m, m', ss.
Qed.

(** Where the nodes and clients of a step come from. *)
Definition setup_of (m : Member) : Setup := mkSetup (mb_addr m) (mb_system m) (mb_daemon m).

Lemma sys_event_setups s i ev s' :
  sys_event s i ev = Some s' -> map setup_of (sy_members s') = map setup_of (sy_members s) /\
  (Forall member_ok (sy_members s) -> Forall member_ok (sy_members s')).
Proof.
  intros (m & m' & ss & Hi & Hm & ->)%sys_event_inv. cbn [sy_members]. split.
  - rewrite list_fmap_insert. apply list_insert_id. rewrite list_lookup_fmap, Hi. cbn. f_equal.
    apply member_step_inv in Hm as (os & _ & (Ha & Hs & Hd) & _). unfold setup_of. congruence.
  - intros Hok. apply Forall_insert; [done|]. eapply member_step_ok; [exact Hm|].
    by eapply Forall_lookup_1.
Qed.

Lemma deliver_inv s addr msg s' :
  deliver_message s addr msg = Some s' ->
  exists j m, sy_members s !! j = Some m /\ mb_addr m = addr /\
    sys_event s j (EMessage 0 (inr msg)) = Some s'.
Proof.
  unfold deliver_message. destruct (list_find _ _) as [[j m]|] eqn:Hf; [|done]. cbn.
  apply list_find_Some in Hf as (Hj & Ha & _). by exists j, m.
Qed.

(** An attempt, step by step. *)
Lemma client_attempt_inv s p net arrives s' :
  client_attempt s p net arrives = Some s' ->
  exists c res s1 s2, sy_clients s !! p = Some c /\ rt_inner (cl_retry c) = Acting /\
    (if arrives then exists msg, snapshot_message (ss_metrics (cl_sender c)) = Some msg /\
       deliver_message s (sc_address (ss_options (cl_sender c))) msg = Some s1
     else s1 = s) /\
    (s2 = s1 \/ sys_event s1 (cl_from c) EPeerFail = Some s2) /\
    client_polled s2 p c arrives res = Some s'.
Proof.
  unfold client_attempt. destruct (sy_clients s !! p) as [c|]; [|done]. cbn [mbind option_bind].
  destruct (rt_inner (cl_retry c)) eqn:Hin; [|done].
  destruct (SnapshotSender_send _ net) as [[res es]|]; cbn [mbind option_bind]; [|done].
  match goal with |- context [if arrives then ?x else ?y] =>
    destruct (if arrives then x else y) as [s1|] eqn:H1 end; cbn [mbind option_bind]; [|done].
  match goal with |- context [mbind _ ?x] => destruct x as [s2|] eqn:H2 end;
    cbn [mbind option_bind]; [|done].
  intros Hp. exists c, res, s1, s2. split_and!; try done.
  - destruct arrives; [|by injection H1]. destruct (connects _ _); [|done].
    destruct (snapshot_message _) as [msg|]; cbn [mbind option_bind] in H1; [|done]. by exists msg.
  - destruct res; [by right|left; by injection H2].
Qed.

(** Messages and failures start no clients. *)
Lemma polled_members s p c arrives res s' :
  client_polled s p c arrives res = Some s' -> sy_members s' = sy_members s.
Proof.
  unfold client_polled, poll_step. intros H. repeat case_match; simplify_eq; done.
Qed.

Lemma pause_ends_inv s p s' :
  client_pause_ends s p = Some s' -> sy_members s' = sy_members s /\ sy_lost s' = sy_lost s /\
    sy_arrived s' = sy_arrived s /\ sy_again s' = sy_again s /\ exists c b, sy_clients s !! p = Some c /\
    sy_clients s' = <[p := mkClient (cl_from c) (cl_sender c) b (cl_arrived c)]> (sy_clients s).
Proof.
  unfold client_pause_ends. destruct (sy_clients s !! p) as [c|]; [|done]. cbn [mbind option_bind].
  unfold poll_step. destruct (rt_inner (cl_retry c)); [done|]. cbn. intros [= <-].
  split_and!; try done. by exists c, (mkRetry Acting (rt_options (cl_retry c))).
Qed.

Lemma sys_step_setups s ev s' :
  sys_step s ev = Some s' -> map setup_of (sy_members s') = map setup_of (sy_members s) /\
  (Forall member_ok (sy_members s) -> Forall member_ok (sy_members s')).
Proof.
  destruct ev as [i ev|p net arrives|p]; cbn [sys_step].
  - destruct (own_event ev); [apply sys_event_setups|done].
  - intros (c & res & s1 & s2 & _ & _ & H1 & H2 & H3%polled_members)%client_attempt_inv.
    rewrite H3. assert (map setup_of (sy_members s1) = map setup_of (sy_members s) /\
      (Forall member_ok (sy_members s) -> Forall member_ok (sy_members s1))) as [<- Hok].
    { destruct arrives; [|by subst]. destruct H1 as (msg & _ & (j & m & _ & _ & H1)%deliver_inv).
      by eapply sys_event_setups. }
    destruct H2 as [->|[-> Hok2]%sys_event_setups]; [done|]. by auto.
  - intros (-> & _)%pause_ends_inv. done.
Qed.

Lemma sys_run_setups s evs s' :
  sys_run s evs = Some s' -> map setup_of (sy_members s') = map setup_of (sy_members s) /\
  (Forall member_ok (sy_members s) -> Forall member_ok (sy_members s')).
Proof.
  revert s. induction evs as [|ev evs IH]; intros s; cbn [sys_run]; [by intros [= <-]|].
  destruct (sys_step s ev) as [s1|] eqn:Hs; cbn [mbind option_bind]; [|done].
  apply sys_step_setups in Hs as [Hs Hok]. intros [H1 H2]%IH. rewrite H1, Hs. by auto.
Qed.

Lemma sys_init_members setups :
  map setup_of (sy_members (sys_init setups)) = setups /\
  Forall member_ok (sy_members (sys_init setups)).
Proof.
  unfold sys_init. cbn [sy_members]. rewrite map_map. split.
  - by induction setups as [|[] l IH]; [|cbn; f_equal].
  - apply list.Forall_forall. intros m (x & -> & _)%list_elem_of_fmap. by exists [].
Qed.

(** ** The ledger of the cluster *)
Section ledger.
Context {QOK : MpscOk Q} {BOK : BytesOk BL} {HIOK : HashIterOk HI} {COK : CapnpOk CL}.
Context (w : Metric -> Z) {WA : Additive w}.

(** A snapshot on its way to a node. *)
Definition sender_weight (addr : SocketAddr) (x : SnapshotSender) : Z :=
  if decide (sc_address (ss_options x) = addr) then caches_weight w (ss_metrics x) else 0.
Definition client_weight (addr : SocketAddr) (c : Client) : Z :=
  if cl_arrived c then 0 else sender_weight addr (cl_sender c).

(** What clients still try to send to a node, what they gave up, and what arrived
    more than once. *)
Definition in_flight (addr : SocketAddr) (s : Sys) : Z := sumZ (client_weight addr) (sy_clients s).
Definition lost_weight (addr : SocketAddr) (s : Sys) : Z := sumZ (sender_weight addr) (sy_lost s).
Definition again_weight (addr : SocketAddr) (s : Sys) : Z := sumZ (sender_weight addr) (sy_again s).

(** What arrived at a node under names that are not UTF-8. *)
Definition bad_names (addr : SocketAddr) (x : SnapshotSender) : Z :=
  if decide (sc_address (ss_options x) = addr) then list_weight w (unreadable (sender_entries x)) else 0.
Definition skipped_weight (addr : SocketAddr) (s : Sys) : Z := sumZ (bad_names addr) (sy_arrived s).

(** What a node keeps for its own carbon threads, and what it has not shared yet. *)
Definition kept (m : Member) : Z :=
  node_short w (mb_state m) + node_long w (mb_state m) + node_waiting w (mb_state m) +
  carbon_held w (reply_view (mb_state m)).
Definition unshared (m : Member) : Z :=
  node_short w (mb_state m) + snapshot_held w (reply_view (mb_state m)).
Definition member_entered (m : Member) : Z := node_entered w (mb_system m) (mb_state m).

(** Everything sent to node [j] is received, skipped, under way, or lost. *)
Definition all_sent (addr : SocketAddr) (s : Sys) : Z :=
  sumZ (fun m => sent_weight w addr (mb_outs m)) (sy_members s).
Definition balance (j : nat) (s : Sys) : Z :=
  match sy_members s !! j with
  | Some m => all_sent (mb_addr m) s + again_weight (mb_addr m) s -
      received_weight w (mb_outs m) - skipped_weight (mb_addr m) s - in_flight (mb_addr m) s -
      lost_weight (mb_addr m) s
  | None => 0
  end.

Lemma sent_senders addr os : sent_weight w addr os = sumZ (sender_weight addr) (snapshots_out os).
Proof. done. Qed.

Lemma sent_app addr os os' : sent_weight w addr (os ++ os') = sent_weight w addr os + sent_weight w addr os'.
Proof. by rewrite !sent_senders, snapshots_out_app, sumZ_app. Qed.

Lemma received_app os os' : received_weight w (os ++ os') = received_weight w os + received_weight w os'.
Proof. unfold received_weight. by rewrite node_effects_app, tasks_sent_app, fmap_app, sumZ_app. Qed.

Lemma new_clients_weight addr i ss : sumZ (client_weight addr) (map (new_client i) ss) = sumZ (sender_weight addr) ss.
Proof. by rewrite sumZ_map. Qed.

Lemma no_snapshots_received es :
  Forall (fun e => match e with SendTask _ (AddSnapshot _) => False | _ => True end) es ->
  sumZ (task_weight w) (tasks_sent es).*2 = 0.
Proof.
  induction 1 as [|e es He _ IH]; [done|]. destruct e as [e|ch t]; [exact IH|].
  change (task_weight w t + sumZ (task_weight w) (tasks_sent es).*2 = 0). rewrite IH. by destruct t.
Qed.

(** Only snapshots of peers count as received. *)
Lemma received_own system d nd ev nd' os :
  node_step system d nd ev = Some (nd', os) -> own_event ev = true \/ ev = EPeerFail ->
  received_weight w os = 0.
Proof.
  intros (nd1 & es & ss & Ha & _ & <- & _)%node_step_inv Hev. unfold received_weight.
  apply no_snapshots_received.
  destruct ev; try (eapply act_Forall; [exact Ha|]; by intros [|ch []]).
  cbn [node_act] in Ha. unfold act_message in Ha.
  destruct (cycle_next _ _) as [ch|]; cbn [mbind option_bind] in Ha; [|done].
  injection Ha as _ <- _. destruct Hev as [Hev|]; [|done].
  destruct reader as [e|[[e|r]|[e|r]|r]]; cbn [parse_and_send]; try done; try constructor;
    unfold send_task; try destruct (from_capnp r) as [|[]]; try destruct (ch_open ch);
    by repeat constructor.
Qed.

Lemma received_message system d nd l nd' os :
  node_step system d nd (EMessage 0 (inr (Snapshot (inr (map entry_capnp l))))) = Some (nd', os) ->
  Forall (fun ch => ch_open ch = true) (d_chans d) -> received_weight w os = list_weight w (readable l).
Proof.
  intros (nd1 & es & ss & Ha & _ & <- & _)%node_step_inv Ho. cbn [node_act] in Ha.
  unfold received_weight. unfold act_message, cycle_next in Ha.
  destruct (d_chans d !! _) as [ch|] eqn:Hch; cbn [mbind option_bind parse_and_send] in Ha; [|done].
  injection Ha as _ <- _. rewrite decode_entries. unfold send_task.
  rewrite (Forall_lookup_1 _ _ _ _ Ho Hch). cbn. unfold sumZ. cbn. lia.
Qed.

(** A step of a node: what it sends is under way. *)
Lemma sys_event_balance s i ev s' :
  sys_event s i ev = Some s' ->
  (forall p c, sy_clients s !! p = Some c -> sy_clients s' !! p = Some c) /\
  exists m m' os, sy_members s !! i = Some m /\
    node_step (mb_system m) (mb_daemon m) (mb_state m) ev = Some (mb_state m', os) /\
    forall j, balance j s' = balance j s - if decide (j = i) then received_weight w os else 0.
Proof.
  intros (m & m' & ss & Hi & (os & Hs & (Ha & _) & Ho & ->)%member_step_inv & ->)%sys_event_inv.
  split; [intros p c Hc; by apply lookup_app_l_Some|]. exists m, m', os. split; [done|].
  split; [done|]. intros j. unfold balance, all_sent, in_flight, again_weight, lost_weight, skipped_weight.
  cbn [sy_members sy_clients sy_lost sy_arrived sy_again].
  assert (Hsum : forall a, sumZ (fun m => sent_weight w a (mb_outs m)) (<[i := m']> (sy_members s)) =
    sumZ (fun m => sent_weight w a (mb_outs m)) (sy_members s) + sent_weight w a os).
  { intros a. rewrite (sumZ_insert _ _ _ _ _ Hi), Ho, sent_app. lia. }
  destruct (decide (j = i)) as [->|Hne].
  - rewrite list_lookup_insert_eq by by eapply lookup_lt_Some.
    rewrite Hi, Hsum, Ha, Ho, received_app, sumZ_app, new_clients_weight, sent_senders. lia.
  - rewrite list_lookup_insert_ne by done. destruct (sy_members s !! j) as [mj|]; [|done].
    rewrite Hsum, sumZ_app, new_clients_weight, sent_senders. lia.
Qed.

(** Polling a client: an arrival is booked, or the loss. *)
Lemma client_polled_balance s p c arrives res s' j m :
  client_polled s p c arrives res = Some s' -> sy_clients s !! p = Some c ->
  sy_members s !! j = Some m ->
  balance j s' = balance j s + if arrives then
    sender_weight (mb_addr m) (cl_sender c) - bad_names (mb_addr m) (cl_sender c) else 0.
Proof.
  intros H Hp Hj. pose proof (polled_members _ _ _ _ _ _ H) as Hm. unfold balance. rewrite Hm, Hj.
  revert H. unfold all_sent. rewrite Hm. unfold in_flight, again_weight, lost_weight, skipped_weight.
  set (a := mb_addr m). set (x := cl_sender c).
  assert (Hdel : sumZ (client_weight a) (delete p (sy_clients s)) =
    sumZ (client_weight a) (sy_clients s) - client_weight a c).
  { rewrite (sumZ_without _ (sy_clients s) _ _ Hp). lia. }
  assert (Hone : sumZ (sender_weight a) [x] = sender_weight a x) by (unfold sumZ; cbn; lia).
  assert (Hnil : sumZ (sender_weight a) [] = 0) by done.
  assert (Hbad : sumZ (bad_names a) [x] = bad_names a x) by (unfold sumZ; cbn; lia).
  assert (Hbnil : sumZ (bad_names a) [] = 0) by done.
  unfold client_polled. destruct (poll_step _ _) as [r b|b|]; [| |done]; intros [= <-];
    cbn [sy_members sy_clients sy_lost sy_arrived sy_again]; rewrite !sumZ_app.
  - rewrite Hdel. unfold client_weight.
    destruct (cl_arrived c), arrives; cbn [orb andb]; fold x;
      rewrite ?Hone, ?Hnil, ?Hbad, ?Hbnil; lia.
  - rewrite (sumZ_insert _ _ _ _ _ Hp). unfold client_weight. cbn [cl_arrived cl_sender].
    destruct (cl_arrived c), arrives; cbn [orb andb]; fold x;
      rewrite ?Hone, ?Hnil, ?Hbad, ?Hbnil; lia.
Qed.

Definition chans_open (x : Setup) : Prop := Forall (fun ch => ch_open ch = true) (d_chans (sp_daemon x)).

Lemma member_setup s setups j m :
  map setup_of (sy_members s) = setups -> sy_members s !! j = Some m -> setups !! j = Some (setup_of m).
Proof. intros <- Hj. by rewrite list_lookup_fmap, Hj. Qed.

Lemma setup_member s setups j x :
  map setup_of (sy_members s) = setups -> setups !! j = Some x ->
  exists m, sy_members s !! j = Some m /\ setup_of m = x.
Proof. intros <-. rewrite list_lookup_fmap. by intros (m & -> & Hm)%fmap_Some; exists m. Qed.

(** Of what arrives, the part with UTF-8 names is received. *)
Lemma arrived_weight addr x :
  (if decide (sc_address (ss_options x) = addr)
   then list_weight w (readable (concat (map hiter (ss_metrics x)))) else 0) =
  sender_weight addr x - bad_names addr x.
Proof.
  unfold sender_weight, bad_names. case_decide; [|lia].
  pose proof (readable_weight w (sender_entries x)) as Hr. unfold sender_entries in *.
  rewrite list_weight_caches in Hr. lia.
Qed.

Section steps.
Context (setups : list Setup) (Hopen : Forall chans_open setups) (Hnd : base.NoDup (map sp_addr setups)).

Lemma deliver_balance s ms s1 addr msg :
  map setup_of (sy_members s) = setups -> snapshot_message ms = Some msg ->
  deliver_message s addr msg = Some s1 ->
  map setup_of (sy_members s1) = setups /\
  (forall p c, sy_clients s !! p = Some c -> sy_clients s1 !! p = Some c) /\
  forall j x, setups !! j = Some x ->
    balance j s1 = balance j s - if decide (addr = sp_addr x)
      then list_weight w (readable (concat (map hiter ms))) else 0.
Proof.
  intros Hs Hmsg (j0 & m & Hj0 & Ha & H)%deliver_inv.
  destruct (sys_event_setups _ _ _ _ H) as [Hs1 _]. rewrite Hs1. split; [done|].
  apply sys_event_balance in H as [Hc (m1 & m' & os & Hm1 & Hstep & Hb)]. split; [done|].
  rewrite Hj0 in Hm1. injection Hm1 as <-. rewrite snapshot_message_spec in Hmsg.
  destruct (decide (blen _ < 2 ^ 32)); [|done]. injection Hmsg as <-.
  pose proof (member_setup _ _ _ _ Hs Hj0) as Hx0.
  rewrite (received_message _ _ _ _ _ _ Hstep (Forall_lookup_1 _ _ _ _ Hopen Hx0)) in Hb.
  intros j x Hx. rewrite Hb. destruct (decide (j = j0)) as [->|Hne].
  - rewrite Hx0 in Hx. injection Hx as <-. by rewrite decide_True by done.
  - rewrite decide_False; [done|]. intros Heq. apply Hne.
    eapply (NoDup_lookup (map sp_addr setups)); [done|..]; rewrite list_lookup_fmap.
    + by rewrite Hx.
    + rewrite Hx0. cbn. by rewrite Ha, Heq.
Qed.

Lemma fail_balance s i s' :
  sys_event s i EPeerFail = Some s' ->
  map setup_of (sy_members s') = map setup_of (sy_members s) /\
  (forall p c, sy_clients s !! p = Some c -> sy_clients s' !! p = Some c) /\
  forall j, balance j s' = balance j s.
Proof.
  intros H. split; [by eapply sys_event_setups|].
  apply sys_event_balance in H as [Hc (m & m' & os & _ & Hstep & Hb)]. split; [done|].
  intros j. rewrite Hb, (received_own _ _ _ _ _ _ Hstep) by by right. case_decide; lia.
Qed.

(** No step changes the balance of a node. *)
Lemma sys_step_balance s ev s' j x :
  sys_step s ev = Some s' -> map setup_of (sy_members s) = setups -> setups !! j = Some x ->
  balance j s' = balance j s.
Proof.
  intros Hstep Hs Hx. destruct ev as [i ev|p net arrives|p]; cbn [sys_step] in Hstep.
  - destruct (own_event ev) eqn:Hev; [|done].
    apply sys_event_balance in Hstep as [_ (m & m' & os & _ & Hn & ->)].
    rewrite (received_own _ _ _ _ _ _ Hn) by by left. case_decide; lia.
  - apply client_attempt_inv in Hstep as (c & res & s1 & s2 & Hp & _ & H1 & H2 & H3).
    assert (Hd : map setup_of (sy_members s1) = setups /\ sy_clients s1 !! p = Some c /\
      balance j s1 = balance j s - if arrives then
        sender_weight (sp_addr x) (cl_sender c) - bad_names (sp_addr x) (cl_sender c) else 0).
    { destruct arrives; [|subst s1; split_and!; [done|done|lia]]. destruct H1 as (msg & Hmsg & H1).
      destruct (deliver_balance _ _ _ _ _ Hs Hmsg H1) as (Hs1 & Hc & Hb).
      split; [done|]. split; [by apply Hc|]. by rewrite (Hb j x Hx), arrived_weight. }
    destruct Hd as (Hs1 & Hp1 & Hb1).
    assert (Hd : map setup_of (sy_members s2) = setups /\ sy_clients s2 !! p = Some c /\
      balance j s2 = balance j s1).
    { destruct H2 as [->|(Hs2 & Hc & Hb)%fail_balance]; [done|]. rewrite Hs2. auto. }
    destruct Hd as (Hs2 & Hp2 & Hb2). destruct (setup_member _ _ _ _ Hs2 Hx) as (m & Hm & <-).
    rewrite (client_polled_balance _ _ _ _ _ _ _ _ H3 Hp2 Hm), Hb2, Hb1.
    destruct arrives; cbn [setup_of sp_addr]; lia.
  - apply pause_ends_inv in Hstep as (Hm & Hl & Hv & Ha & c & b & Hp & Hc).
    unfold balance, all_sent, in_flight, again_weight, lost_weight, skipped_weight. rewrite Hm, Hl, Hv, Ha, Hc.
    destruct (sy_members s !! j) as [m|]; [|done]. rewrite (sumZ_insert _ _ _ _ _ Hp).
    unfold client_weight at 3. cbn [cl_arrived cl_sender]. unfold client_weight at 2. lia.
Qed.

Lemma sys_run_balance s evs s' j x :
  sys_run s evs = Some s' -> map setup_of (sy_members s) = setups -> setups !! j = Some x ->
  balance j s' = balance j s.
Proof.
  intros Hr Hs Hx. revert s Hr Hs. induction evs as [|ev evs IH]; intros s; cbn [sys_run].
  { by intros [= <-]. }
  destruct (sys_step s ev) as [s1|] eqn:Hstep; cbn [mbind option_bind]; [|done]. intros Hr Hs.
  rewrite (IH s1 Hr), (sys_step_balance _ _ _ _ _ Hstep Hs Hx); [done|].
  by rewrite (proj1 (sys_step_setups _ _ _ Hstep)).
Qed.

Lemma sys_init_balance j : balance j (sys_init setups) = 0.
Proof.
  unfold balance. destruct (sy_members (sys_init setups) !! j) as [m|] eqn:Hm; [|done].
  unfold sys_init in Hm. cbn [sy_members] in Hm. rewrite list_lookup_fmap in Hm.
  apply fmap_Some in Hm as (x & _ & ->). cbn [mb_addr mb_outs].
  unfold all_sent, sys_init. cbn [sy_members]. rewrite sumZ_map. cbn [mb_outs].
  rewrite sumZ_zero; [done|]. by apply list.Forall_forall.
Qed.
End steps.

(** ** What the ledgers of the nodes add up to *)

(** A node sends snapshots to its configured nodes only. *)
Lemma node_step_senders system d nd ev nd' os :
  node_step system d nd ev = Some (nd', os) ->
  Forall (fun x => sc_address (ss_options x) ∈ sn_nodes (d_snapshot d)) (snapshots_out os).
Proof.
  intros (nd1 & es & ss & Ha & _ & _ & ->)%node_step_inv.
  pose proof (act_quiet system d _ _ _ _ _ Ha) as Hq. pose proof (act_asks system d _ _ _ _ _ Ha) as Hk.
  pose proof (act_reads system d _ _ _ _ _ Ha) as Hd. pose proof (act_moves system d _ _ _ _ _ Ha) as Hm.
  destruct ev; try (destruct Hq as (_ & _ & _ & ->); constructor).
  - by destruct Hk as (_ & _ & -> & _).
  - destruct Hd as (slots & rs & _ & _ & _ & _ & Ht & _). unfold snapshot_tick in Ht.
    destruct (join_all rs); [|done]. injection Ht as <-. apply list.Forall_forall.
    by intros x (a & -> & Ha')%list_elem_of_fmap.
  - by destruct Hk as (_ & -> & _).
  - by destruct Hd as (? & ? & ? & _ & _ & _ & -> & _).
  - by destruct Hm as (_ & _ & _ & ->).
  - by destruct Hm as (? & ? & ? & ? & ? & _ & _ & _ & -> & _).
Qed.

Lemma node_run_senders system d nd evs nd' os addr :
  node_run system d nd evs = Some (nd', os) -> addr ∉ sn_nodes (d_snapshot d) ->
  sent_weight w addr os = 0.
Proof.
  intros Hr Ha. rewrite sent_senders. apply sumZ_zero.
  assert (Hf : Forall (fun o => match o with
    | OPeer x => sc_address (ss_options x) ∈ sn_nodes (d_snapshot d) | OEffect _ => True end) os).
  { eapply foldEP_effects; [|exact Hr]. intros nd0 ev nd1 o1 Hs%node_step_senders.
    clear -Hs. induction o1 as [|[e|x] o1 IH]; [constructor|..].
    - constructor; [done|]. by apply IH.
    - cbn in Hs. apply list.Forall_cons in Hs as [Hx Hs]. constructor; [done|]. by apply IH. }
  clear Hr. induction Hf as [|[e|x] os Hx _ IH]; [constructor|exact IH|].
  constructor; [|exact IH]. unfold sender_weight. rewrite decide_False; [done|]. by intros <-.
Qed.

(** Started nodes that know each other: each lists every other node once, and not
    itself. *)
Definition started_setup {O : OsLib} {T : TimerLib} (x : Setup) : Prop :=
  exists level_ok resolve_host mgmt_binds F F',
    start level_ok resolve_host mgmt_binds (sp_system x) F = Some (sp_daemon x, F').

Definition setup_peers (x : Setup) : list SocketAddr := sn_nodes (d_snapshot (sp_daemon x)).

Definition full_mesh (setups : list Setup) : Prop :=
  base.NoDup (map sp_addr setups) /\
  (forall i x, setups !! i = Some x -> base.NoDup (setup_peers x)) /\
  forall i j x y, setups !! i = Some x -> setups !! j = Some y ->
    (sp_addr y ∈ setup_peers x <-> i <> j).

(** The two ledgers of a member. *)
Lemma member_ledger {O : OsLib} {T : TimerLib} m :
  member_ok m -> Started (mb_system m) (mb_daemon m) -> error_free (mb_outs m) ->
  base.NoDup (setup_peers (setup_of m)) ->
  kept m = member_entered m + received_weight w (mb_outs m) /\
  forall addr, addr ∈ setup_peers (setup_of m) ->
    unshared m + sent_weight w addr (mb_outs m) = member_entered m.
Proof.
  intros [evs Hrun] Hst He Hnd. destruct (started_ok w _ _ Hst) as (Hok & Hw & H1 & H2 & H3).
  destruct (node_run_ledger w _ _ _ _ _ _ Hrun He Hok Hnd) as [[HA HB] _].
  rewrite H1, H2, H3 in HA. unfold kept, unshared, member_entered, node_waiting in *. rewrite Hw in HA.
  change (carbon_held w (reply_view (node_init _ _))) with 0 in HA.
  change (sumZ (task_weight w) []) with 0 in HA. split; [lia|].
  intros addr Ha. specialize (HB addr Ha). rewrite H1, H3 in HB.
  change (snapshot_held w (reply_view (node_init _ _))) with 0 in HB. lia.
Qed.

(** What the other members have not shared with an address and what they have sent
    there is what they got. *)
Lemma others_ledger addr (ms : list Member) :
  Forall (fun m => unshared m + sent_weight w addr (mb_outs m) = member_entered m) ms ->
  sumZ unshared ms + sumZ (fun m => sent_weight w addr (mb_outs m)) ms = sumZ member_entered ms.
Proof. unfold sumZ. induction 1; cbn [foldr]; lia. Qed.

Lemma started_setups {O : OsLib} {T : TimerLib} setups :
  Forall started_setup setups ->
  Forall (fun x => Started (sp_system x) (sp_daemon x)) setups /\ Forall chans_open setups.
Proof.
  intros Hst. assert (H : Forall (fun x => Started (sp_system x) (sp_daemon x)) setups).
  { eapply List.Forall_impl; [|exact Hst]. intros x (lo & rh & mb & F & F' & H).
    by eapply start_started. }
  split; [done|]. eapply List.Forall_impl; [|exact H]. intros x Hx. exact (started_open _ _ Hx).
Qed.

Lemma members_ledger {O : OsLib} {T : TimerLib} setups (ms : list Member) i m :
  map setup_of ms = setups -> Forall started_setup setups -> full_mesh setups ->
  Forall member_ok ms -> Forall (fun m => error_free (mb_outs m)) ms -> ms !! i = Some m ->
  kept m = member_entered m + received_weight w (mb_outs m) /\
  forall j x, ms !! j = Some x -> j <> i ->
    unshared m + sent_weight w (mb_addr x) (mb_outs m) = member_entered m.
Proof.
  intros Hs [Hst _]%started_setups (_ & Hpeers & Hmesh) Hok Herr Hi.
  assert (Hset : forall k y, ms !! k = Some y -> setups !! k = Some (setup_of y)).
  { intros k y Hk. by rewrite <-Hs, list_lookup_fmap, Hk. }
  destruct (member_ledger m) as [Hk Hu].
  - exact (Forall_lookup_1 _ _ _ _ Hok Hi).
  - exact (Forall_lookup_1 _ _ _ _ Hst (Hset _ _ Hi)).
  - exact (Forall_lookup_1 _ _ _ _ Herr Hi).
  - exact (Hpeers _ _ (Hset _ _ Hi)).
  - split; [done|]. intros j x Hj Hne. apply Hu.
    apply (Hmesh i j _ _ (Hset _ _ Hi) (Hset _ _ Hj)). congruence.
Qed.

(** Each node holds everything that entered the cluster anywhere, up to what other
    nodes have not handed to their clients yet, what clients still try to send to it,
    what they gave up, what it could not decode, and what arrived more than once. *)
Lemma system_ledger {O : OsLib} {T : TimerLib} (setups : list Setup)
    (evs : list SysEvent) (s : Sys) (j : nat) (m : Member) :
  Forall started_setup setups -> full_mesh setups ->
  sys_run (sys_init setups) evs = Some s ->
  Forall (fun m => error_free (mb_outs m)) (sy_members s) -> sy_members s !! j = Some m ->
  kept m + sumZ unshared (delete j (sy_members s)) + in_flight (mb_addr m) s +
    lost_weight (mb_addr m) s + skipped_weight (mb_addr m) s =
  sumZ member_entered (sy_members s) + again_weight (mb_addr m) s.
Proof.
  intros Hst Hfull Hrun Herr Hj. pose proof (started_setups _ Hst) as [_ Hopen].
  destruct (sys_init_members setups) as [Hs0 Hok0].
  destruct (sys_run_setups _ _ _ Hrun) as [Hs Hok]. rewrite Hs0 in Hs. specialize (Hok Hok0).
  pose proof (member_setup _ _ _ _ Hs Hj) as Hx.
  pose proof (sys_run_balance setups Hopen (proj1 Hfull) _ _ _ j _ Hrun Hs0 Hx) as Hb.
  rewrite sys_init_balance in Hb. unfold balance, all_sent in Hb. rewrite Hj in Hb.
  assert (Hothers : Forall (fun x => unshared x + sent_weight w (mb_addr m) (mb_outs x) =
    member_entered x) (delete j (sy_members s))).
  { apply Forall_others. intros i x Hi Hne.
    destruct (members_ledger _ _ _ _ Hs Hst Hfull Hok Herr Hi) as [_ Hu].
    apply (Hu j m Hj). congruence. }
  apply others_ledger in Hothers.
  assert (Hself : sent_weight w (mb_addr m) (mb_outs m) = 0).
  { destruct (Forall_lookup_1 _ _ _ _ Hok Hj) as [evs' Hr].
    eapply node_run_senders; [exact Hr|]. intros Hin. destruct Hfull as (_ & _ & Hmesh).
    by apply (Hmesh j j _ _ Hx Hx) in Hin. }
  rewrite (sumZ_without _ _ _ _ Hj), Hself in Hb. rewrite (sumZ_without member_entered _ _ _ Hj).
  destruct (members_ledger _ _ _ _ Hs Hst Hfull Hok Herr Hj) as [-> _]. lia.
Qed.

(** What a node holds for the carbon threads to come. *)
Definition stored (m : Member) : Z :=
  node_short w (mb_state m) + node_long w (mb_state m) + node_waiting w (mb_state m).

Context {XOK : ExecutorOk XL} {FOK : FtoaOk FL}.

(** C1. From any sender to the carbon clients of any node: after any interleaving of
    the threads and timers of all nodes of a cluster with the attempts, arrivals,
    failures and pauses of all snapshot clients, in which no aggregation failed, and
    for every measure that adds up under aggregation, everything that entered the
    cluster anywhere is, on each node, exactly once in one place: in a cache whose
    values the clients of one of its carbon threads carry, in one it threw away as a
    follower, in one lost with a thread that panicked, in one under way, in the
    caches and queues of its workers, or not there: not handed out by another node yet,
    under way to this one, given up by a client, or skipped on arrival because its
    name is not UTF-8.  The only surplus is what arrived again after an attempt that
    was reported as failed.  And the clients of a thread carry one line for each value
    of its cache and nothing else, when no value's text is longer than the 200 bytes a
    client's buffer has per metric. *)
Theorem cluster_delivers {O : OsLib} {T : TimerLib} (setups : list Setup)
    (evs : list SysEvent) (s : Sys) (j : nat) (m : Member) :
  Forall started_setup setups -> full_mesh setups ->
  sys_run (sys_init setups) evs = Some s ->
  Forall (fun m => error_free (mb_outs m)) (sy_members s) -> sy_members s !! j = Some m ->
  aggregation_mode (metrics (mb_system m)) <> AggregationMode.Separate ->
  0 <= chunks (carbon (mb_system m)) ->
  let threads := ns_carbon (mb_state m) in
  sumZ (handed_out w) threads + sumZ (thrown_away w) threads + sumZ (panicked w) threads +
    sumZ (under_way w) threads + stored m + sumZ unshared (delete j (sy_members s)) +
    in_flight (mb_addr m) s + lost_weight (mb_addr m) s + skipped_weight (mb_addr m) s =
  sumZ member_entered (sy_members s) + again_weight (mb_addr m) s /\
  forall k ct backends, threads !! k = Some ct -> leads ct = true ->
    ct_stage ct = Ended (Some backends) -> printable (joined_values (mb_system m) ct) ->
    exists sent, sent ≡ₚ joined_values (mb_system m) ct /\
      concat (map delivered backends) = concat (map carbon_line (map (value_item (ct_ts ct)) sent)).
Proof.
  intros Hst Hfull Hrun Herr Hj Hmode Hch threads.
  pose proof (system_ledger _ _ _ _ _ Hst Hfull Hrun Herr Hj) as Hl.
  destruct (sys_init_members setups) as [Hs0 Hok0].
  destruct (sys_run_setups _ _ _ Hrun) as [Hs Hok]. rewrite Hs0 in Hs. specialize (Hok Hok0).
  destruct (Forall_lookup_1 _ _ _ _ Hok Hj) as [evs' Hr].
  pose proof (Forall_lookup_1 _ _ _ _ Herr Hj) as He. cbn beta in He.
  pose proof (Forall_lookup_1 _ _ _ _ (proj1 (started_setups _ Hst)) (member_setup _ _ _ _ Hs Hj)) as Hd.
  cbn [setup_of sp_system sp_daemon] in Hd.
  destruct (started_fates w _ _ _ _ _ Hd Hmode Hr He) as (Hc & Hsl & Hw). split.
  - unfold kept in Hl. rewrite (carbon_fates w _ _ _ Hc Hsl Hw) in Hl. unfold stored, threads. lia.
  - intros k ct bs Hk Hld Hs' Hp. by eapply clients_carry.
Qed.
End ledger.

(** ** The clients come to an end *)
Definition client_event (ev : SysEvent) : bool := match ev with SNode _ _ => false | _ => true end.

(** The steps a client can still take. *)
Definition client_effort (c : Client) : Z :=
  2 * br_retries (rt_options (cl_retry c)) +
  match rt_inner (cl_retry c) with Acting => 1 | Delaying _ => 2 end.

Definition client_ok (n : nat) (c : Client) : Prop :=
  (cl_from c < n)%nat /\ 0 <= br_retries (rt_options (cl_retry c)) /\ client_effort c <= 7.
Definition clients_ok (s : Sys) : Prop := Forall (client_ok (length (sy_members s))) (sy_clients s).

Section clients.
Context {QOK : MpscOk Q}.

(** Nodes do not start clients when they receive a message or count a failure. *)
Lemma sys_event_clients s i ev s' :
  sys_event s i ev = Some s' ->
  length (sy_members s') = length (sy_members s) /\ (clients_ok s -> clients_ok s') /\
  (ev = EPeerFail \/ (exists n reader, ev = EMessage n reader) -> sy_clients s' = sy_clients s).
Proof.
  intros (m & m' & ss & Hi & (os & Hs & _ & _ & ->)%member_step_inv & ->)%sys_event_inv.
  unfold clients_ok. cbn [sy_members sy_clients]. rewrite length_insert. split; [done|]. split.
  - intros Hok. apply Forall_app_2; [done|]. apply list.Forall_forall.
    intros c (x & -> & _)%list_elem_of_fmap. split; [by eapply lookup_lt_Some|]. by cbn.
  - apply node_step_inv in Hs as (nd1 & es & ss & Ha & _ & _ & ->).
    apply (act_quiet (mb_system m) (mb_daemon m)) in Ha.
    intros [->|(n & r & ->)]; destruct Ha as (_ & _ & _ & ->); by rewrite app_nil_r.
Qed.

Lemma client_polled_effort s p c arrives res s' :
  client_polled s p c arrives res = Some s' -> sy_clients s !! p = Some c ->
  rt_inner (cl_retry c) = Acting -> clients_ok s ->
  clients_ok s' /\ sumZ client_effort (sy_clients s') < sumZ client_effort (sy_clients s).
Proof.
  intros H Hp Hact Hok. pose proof (Forall_lookup_1 _ _ _ _ Hok Hp) as (Hf & Hr & He).
  unfold client_polled, poll_step in H. rewrite Hact in H. unfold clients_ok.
  assert (Hc : 1 <= client_effort c) by (unfold client_effort; rewrite Hact; lia).
  assert (Hdel : clients_ok s ->
    Forall (client_ok (length (sy_members s))) (delete p (sy_clients s)) /\
    sumZ client_effort (delete p (sy_clients s)) < sumZ client_effort (sy_clients s)).
  { intros _. split; [by apply Forall_delete|]. rewrite (sumZ_without _ (sy_clients s) _ _ Hp). lia. }
  destruct res as [e|r]; cbn in H; [|injection H as <-; by apply Hdel].
  destruct (decide (br_retries (rt_options (cl_retry c)) = 0)) as [|Hn]; injection H as <-;
    [by apply Hdel|]. cbn [sy_clients sy_members]. clear Hdel.
  unfold client_effort in He, Hc. rewrite Hact in He, Hc. split.
  - apply Forall_insert; [done|]. split; [done|]. unfold client_effort. cbn. lia.
  - rewrite (sumZ_insert _ _ _ _ _ Hp). unfold client_effort at 2 3. rewrite Hact. cbn. lia.
Qed.

Lemma client_step_effort s ev s' :
  sys_step s ev = Some s' -> client_event ev = true -> clients_ok s ->
  clients_ok s' /\ sumZ client_effort (sy_clients s') < sumZ client_effort (sy_clients s).
Proof.
  destruct ev as [|p net arrives|p]; [done| |]; cbn [sys_step]; intros H _ Hok.
  - apply client_attempt_inv in H as (c & res & s1 & s2 & Hp & Hact & H1 & H2 & H3).
    assert (Hd : clients_ok s1 /\ sy_clients s1 = sy_clients s).
    { destruct arrives; [|by subst]. destruct H1 as (msg & _ & (j & m & _ & _ & H1)%deliver_inv).
      apply sys_event_clients in H1 as (_ & Hk & Heq). split; [by apply Hk|]. apply Heq. right. eauto. }
    destruct Hd as [Hok1 Hc1]. rewrite <-Hc1 in *.
    assert (Hd : clients_ok s2 /\ sy_clients s2 = sy_clients s1).
    { destruct H2 as [->|(_ & Hk & Heq)%sys_event_clients]; [done|]. auto. }
    destruct Hd as [Hok2 Hc2]. rewrite <-Hc2 in *. by eapply client_polled_effort.
  - unfold client_pause_ends in H. destruct (sy_clients s !! p) as [c|] eqn:Hp; [|done].
    cbn [mbind option_bind] in H. unfold poll_step in H.
    destruct (rt_inner (cl_retry c)) as [|ms] eqn:Hin; [done|]. cbn in H. injection H as <-.
    pose proof (Forall_lookup_1 _ _ _ _ Hok Hp) as (Hf & Hr & He).
    unfold clients_ok, client_effort in *. cbn [sy_clients sy_members set_clients]. rewrite Hin in He.
    split.
    + apply Forall_insert; [done|]. split; [done|]. unfold client_effort. cbn. lia.
    + rewrite (sumZ_insert _ _ _ _ _ Hp), Hin. cbn. lia.
Qed.

Lemma sys_step_clients s ev s' : sys_step s ev = Some s' -> clients_ok s -> clients_ok s'.
Proof.
  destruct (client_event ev) eqn:Hev; [intros Hs Hok; by eapply client_step_effort|].
  destruct ev as [i ev| |]; [|done..]. cbn [sys_step]. destruct (own_event ev); [|done].
  by intros (_ & Hk & _)%sys_event_clients.
Qed.

Lemma sys_run_clients s evs s' : sys_run s evs = Some s' -> clients_ok s -> clients_ok s'.
Proof.
  revert s. induction evs as [|ev evs IH]; intros s; cbn [sys_run]; [by intros [= <-]|].
  destruct (sys_step s ev) as [s1|] eqn:Hs; cbn [mbind option_bind]; [|done].
  intros Hr Hok. eapply IH; [exact Hr|]. by eapply sys_step_clients.
Qed.

Lemma client_run_effort s evs s' :
  sys_run s evs = Some s' -> Forall (fun ev => client_event ev = true) evs -> clients_ok s ->
  Z.of_nat (length evs) + sumZ client_effort (sy_clients s') <= sumZ client_effort (sy_clients s).
Proof.
  intros Hr Hev. revert s Hr. induction Hev as [|ev evs He _ IH]; intros s; cbn [sys_run].
  { intros [= <-] _. cbn. lia. }
  destruct (sys_step s ev) as [s1|] eqn:Hs; cbn [mbind option_bind]; [|done]. intros Hr Hok.
  destruct (client_step_effort _ _ _ Hs He Hok) as [Hok1 Hlt]. specialize (IH s1 Hr Hok1).
  cbn [length]. lia.
Qed.

(** A client that is there can take a step: an attempt can at least fail to connect. *)
Lemma client_progress s c cs :
  clients_ok s -> sy_clients s = c :: cs ->
  exists ev s', client_event ev = true /\ sys_step s ev = Some s'.
Proof.
  intros Hok Hcs. unfold clients_ok in Hok. rewrite Hcs in Hok.
  apply list.Forall_cons in Hok as [(Hf & Hr & _) _].
  destruct (rt_inner (cl_retry c)) as [|ms] eqn:Hin.
  - apply lookup_lt_is_Some in Hf as [m Hm].
    exists (SAttempt 0 (mkPeerNet true false None) false). cbn [sys_step].
    unfold client_attempt. rewrite Hcs. cbn [lookup list_lookup mbind option_bind]. rewrite Hin.
    unfold SnapshotSender_send. cbn [pn_bind pn_connect negb].
    assert (Hneg : (if match sc_bind (ss_options (cl_sender c)) with Some _ => false | None => false end
      then Some (inl (B := Which) PIo, [Count PEER_ERRORS 1]) else
           Some (inl PIo, [Count PEER_ERRORS 1])) = Some (inl PIo, [Count PEER_ERRORS 1]))
      by by destruct (sc_bind _).
    rewrite Hneg. cbn [mbind option_bind]. unfold sys_event. rewrite Hm. cbn [mbind option_bind].
    unfold member_step, node_step. cbn. unfold client_polled, poll_step. rewrite Hin. cbn.
    destruct (decide _); eexists; (split; [done|reflexivity]).
  - exists (SPauseEnds 0). eexists. split; [done|]. cbn [sys_step]. unfold client_pause_ends.
    rewrite Hcs. cbn [lookup list_lookup mbind option_bind]. unfold poll_step. by rewrite Hin.
Qed.

(** C10. Snapshot clients come to an end: whenever a cluster has run, its clients can
    take at most seven more steps each (an attempt, and three times a pause and
    another attempt), whatever the network does, and as long as any client is left
    one of them can take a step; so without new snapshots nothing stays under way. *)
Theorem clients_end (setups : list Setup) (evs : list SysEvent) (s : Sys) :
  sys_run (sys_init setups) evs = Some s ->
  (forall evs' s', Forall (fun ev => client_event ev = true) evs' -> sys_run s evs' = Some s' ->
     Z.of_nat (length evs') <= 7 * blen (sy_clients s)) /\
  (sy_clients s <> [] -> exists ev s', client_event ev = true /\ sys_step s ev = Some s').
Proof.
  intros Hrun. assert (Hok : clients_ok s) by (eapply sys_run_clients; [exact Hrun|constructor]).
  split.
  - intros evs' s' Hev Hr. pose proof (client_run_effort _ _ _ Hr Hev Hok) as Hle.
    pose proof (sys_run_clients _ _ _ Hr Hok) as Hok'.
    assert (0 <= sumZ client_effort (sy_clients s')).
    { clear -Hok'. unfold sumZ. induction Hok' as [|c cs (_ & Hr & _) _ IH]; cbn [foldr]; [lia|].
      unfold client_effort at 1. destruct (rt_inner _); lia. }
    assert (sumZ client_effort (sy_clients s) <= 7 * blen (sy_clients s)); [|lia].
    clear -Hok. unfold sumZ, blen. induction Hok as [|c cs (_ & _ & Hc) _ IH]; cbn [foldr length]; lia.
  - intros Hne. destruct (sy_clients s) as [|c cs] eqn:Hcs; [done|]. by eapply client_progress.
Qed.
End clients.
End cluster.
