(* ===== verification/Tests.v ===== *)
(** * The tests of the source, run on the model ([src/src/management.rs], [peer.rs])

    The test of the management server and the test of the peer protocol, as programs
    on the definitions of this library, and that they pass whatever instances of the
    external code are used.  (The test of [task.rs] is one of the metric parser,
    which is another crate's.) *)

From S2P Require Import Prelude Addr Http Interfaces Globals Config Task Management Hostname Peer.

(** ** [management::test::management_command] *)
Section management.
Context {J : JsonLib} {U : UriLib}.

(** [prepare_runtime_with_server]: one server, in the state a process starts in. *)
Definition test_address : SocketAddr := V4 127 0 0 1 8137.
Definition prepare_runtime_with_server : Servers := set_server test_address initial_leadership (fun _ => None).

(** A client that fails panics. *)
Definition expect_client (client : MgmtClient) (servers : Servers) : option Servers :=
  '(res, servers) ← MgmtClient_run client servers;
  match res with inl _ => panic | inr _ => Some servers end.

(** Ask for the status, then enable consensus and leadership, then read the state. *)
Definition management_command : option ServerStatus :=
  let servers := prepare_runtime_with_server in
  servers ← expect_client {| mc_address := test_address; mc_command := MgmtCommand.Status |} servers;
  let command := MgmtCommand.ConsensusCommand ConsensusAction.Enable LeaderAction.Enable in
  servers ← expect_client {| mc_address := test_address; mc_command := command |} servers;
  l ← servers test_address;
  Some (ServerStatus_new l).

Lemma management_command_passes {JOK : JsonOk J} {UOK : UriOk U} :
  management_command =
  Some {| consensus_status := ConsensusState.Enabled; leader_status := true |}.
Proof.
  assert (Ha : addr_ok test_address) by (cbn; lia).
  assert (Hset : forall l (servers : Servers), set_server test_address l servers test_address = Some l)
    by (intros; unfold set_server; by rewrite decide_True).
  unfold management_command, expect_client, prepare_runtime_with_server.
  rewrite (client_run_ok _ _ _ _ _ _ _ _ Ha (Hset _ _)). cbn [mbind option_bind].
  rewrite (client_run_ok _ _ _ _ _ _ _ _ Ha (Hset _ _)). cbn [mbind option_bind].
  by rewrite Hset.
Qed.
End management.

(** ** [peer::test::test_peer_protocol_capnp] *)
Section peer.
Context {BL : BytesLib} {ML : MetricLib} {PL : ParserLib BL ML}.
Context {XL : ExecutorLib} {HI : HashIter} {CL : CapnpLib ML}.

Definition single_name : bytes := bs "complex.test.bioyino_single".
Definition multi_name : bytes := bs "complex.test.bioyino_multi".
Definition shot_name : bytes := bs "complex.test.bioyino_snapshot".

(** A metric alone, in a list and in a snapshot over one connection to a server with
    one worker, and what the worker holds then. *)
Definition test_peer_protocol_capnp (outmetric : Metric)
  : option (option Metric * option Metric * option Metric) :=
  let runner := TaskRunner_new System_default in
  let server := NativeProtocolServer_new (V4 127 0 0 1 8136) [{| ch_id := 0; ch_open := true |}] in
  let message name := entry_capnp (name, outmetric) in
  '(_, es) ← NativeProtocolServer_run server true
    [Conn [Root (inr (Single (inr (message single_name))));
           Root (inr (Multi (inr [message multi_name])));
           Root (inr (Snapshot (inr [message shot_name])))]];
  '(runner, _) ← foldEP run runner (tasks_sent es).*2;
  Some (get_long_entry runner shot_name, get_short_entry runner single_name,
        get_short_entry runner multi_name).

Ltac worker_step := cbn -[single_name multi_name shot_name lookup insert].

Lemma test_peer_protocol_capnp_passes {COK : CapnpOk CL} (outmetric : Metric) :
  test_peer_protocol_capnp outmetric = Some (Some outmetric, Some outmetric, Some outmetric).
Proof.
  assert (Hs : forall n, utf8 n = true -> from_capnp (entry_capnp (n, outmetric)) = inr (n, outmetric))
    by (intros n; apply capnp_round_trip).
  assert (Hd : forall n, utf8 n = true -> decode_list [entry_capnp (n, outmetric)] = [(n, outmetric)])
    by (intros n Hn; cbn; by rewrite Hs).
  unfold test_peer_protocol_capnp. cbn -[decode_list entry_capnp foldEP single_name multi_name shot_name].
  rewrite Hs, !Hd by reflexivity. cbn [tasks_sent omap list_omap app fmap list_fmap snd mbind option_bind].
  worker_step.
  rewrite lookup_empty. worker_step.
  rewrite lookup_insert_ne, lookup_empty by done. worker_step.
  rewrite lookup_empty. worker_step.
  unfold get_long_entry, get_short_entry. worker_step.
  by rewrite !lookup_insert_eq, lookup_insert_ne, lookup_insert_eq by done.
Qed.
End peer.
