(* ===== verification/Witnesses.v ===== *)
(** * Witnesses

    Concrete nodes on which the theorems of the development apply: the reference
    instances of the external code and small configurations, on which every
    hypothesis is checked by evaluation. *)

From S2P Require Import Prelude Addr Http Net Interfaces Globals Config Task TaskFacts Worker Aggregate.
From S2P Require Import Carbon Util Server Udp Management Consensus Consul Peer Cluster Cli Main.
From S2P Require Import Daemon Hostname RaftStart.

(** ** Sample data *)

(** A hash of addresses: their code, as a [u64]. *)
#[export] Instance RefHashSocket : AddrHash SocketAddr := fun a => Zpos (countable.encode a) `mod` 2 ^ 64.
#[export] Instance RefHashBytes : AddrHash (list Ascii.ascii) :=
  fun b => foldr (fun c n => Z.of_nat (Ascii.nat_of_ascii c) + 256 * n) 0 b `mod` 2 ^ 64.

Definition counter_of (v u : Z) : @Metric RefMetricLib :=
  {| rm_gauge := false; rm_value := v; rm_updates := u |}.

Definition cache_a : gmap (list Ascii.ascii) (@Metric RefMetricLib) :=
  {[ bs "a" := counter_of 1 1; bs "b" := counter_of 2 300 ]}.
Definition cache_b : gmap (list Ascii.ascii) (@Metric RefMetricLib) := {[ bs "a" := counter_of 5 2 ]}.

Definition runner : TaskRunner := TaskRunner_new System_default.
Definition runner_ab : TaskRunner :=
  {| long := cache_b; short := cache_a; buffers := {[ 7 := (0, (bs "tail", 10)) ]};
     config := System_default |}.

Definition reply_chan : Chan := {| ch_id := 3; ch_open := true |}.
Definition two_chans : list Chan :=
  [{| ch_id := 0; ch_open := true |}; {| ch_id := 1; ch_open := true |}].

Definition line_x : bytes := bs "x" ++ [ascii_LF].

Definition some_tasks : list Task :=
  [Parse 9 line_x; AddMetric (bs "a") (counter_of 4 1); TakeSnapshot reply_chan;
   AddSnapshot [(bs "b", counter_of 1 1)]; Rotate reply_chan; Rotate reply_chan].

Definition leader_options (mode : AggregationMode.t) : AggregateOptions := {|
  ao_is_leader := true;
  ao_update_counter := Some {| uco_threshold := 200; uco_prefix := bs "upd"; uco_suffix := [] |};
  ao_aggregation_mode := mode;
  ao_multi_threads := 0
|}.

Definition aggregator (mode : AggregationMode.t) : Aggregator :=
  {| ag_options := leader_options mode; ag_chans := two_chans; ag_tx := reply_chan |}.

Definition enabled_follower : Leadership :=
  {| consensus_state := ConsensusState.Enabled; is_leader := false |}.
Definition enabled_leader : Leadership :=
  {| consensus_state := ConsensusState.Enabled; is_leader := true |}.
Definition paused_leader : Leadership :=
  {| consensus_state := ConsensusState.Paused; is_leader := true |}.

(** ** Workers *)
Lemma worker_never_panics_witness :
  exists r' es, run_all runner_ab some_tasks = Some (r', es).
Proof. apply (worker_never_panics runner_ab some_tasks). Defined.

Lemma worker_conserves_metrics_witness :
  match run_all runner_ab some_tasks with
  | Some (r', es) =>
      counted AGG_ERRORS es = 0 /\
      cache_weight rm_updates (long r') + cache_weight rm_updates (short r') +
        caches_weight rm_updates (rotated runner_ab some_tasks)
      = cache_weight rm_updates cache_b + cache_weight rm_updates cache_a +
        list_weight rm_updates (ingested runner_ab some_tasks)
  | None => False
  end.
Proof.
  assert (C : match run_all runner_ab some_tasks with
              | Some (_, es) => counted AGG_ERRORS es = 0 | None => False end)
    by (vm_compute; reflexivity).
  destruct (run_all runner_ab some_tasks) as [[r' es]|] eqn:H; [|exact C].
  split; [exact C|].
  exact (worker_conserves_metrics rm_updates runner_ab some_tasks r' es H C).
Defined.

Lemma buffer_life_time_witness :
  match run_all runner_ab some_tasks with
  | Some (r', es) => buffers r' !! 7 = Some (2, (bs "tail", 10))
  | None => False
  end.
Proof.
  assert (C : is_Some (run_all runner_ab some_tasks)) by (apply (bool_decide_unpack _); vm_compute; reflexivity).
  destruct (run_all runner_ab some_tasks) as [[r' es]|] eqn:H; [|by destruct C].
  apply (buffer_life_time runner_ab some_tasks r' es 7 0 (bs "tail", 10) H);
    [vm_compute; reflexivity|vm_compute; reflexivity|lia].
Defined.

(** ** Aggregation *)
Lemma common_mode_equals_single_witness :
  exists es,
    Aggregator_run (aggregator AggregationMode.Common) [Some cache_a; Some cache_b]
      = Some (Some (), es) /\
    values_sent (plain es) = [] /\
    concat (map (fun i => worker_values runner_ab (tasks_for i es)) [0%nat; 1%nat])
      ≡ₚ map (pair 3%nat)
           (cache_values (leader_options AggregationMode.Common) (merge_all [cache_a; cache_b])).
Proof.
  apply (common_mode_equals_single (aggregator AggregationMode.Common) [cache_a; cache_b]
           (fun _ => runner_ab)); try reflexivity; [done|by repeat constructor|].
  apply (bool_decide_unpack _). reflexivity.
Defined.

Lemma separate_mode_panics_witness :
  Aggregator_run (aggregator AggregationMode.Separate) [Some cache_a; Some cache_b] = panic.
Proof.
  apply (separate_mode_panics (aggregator AggregationMode.Separate) [cache_a; cache_b]
           (bs "b") (counter_of 2 300)); [reflexivity|reflexivity|vm_compute; reflexivity|done].
Defined.

(** ** Carbon *)
Definition carbon_items : list CarbonItem :=
  [(bs "a.b", bs "1", bs "1500000000"); (bs "c", bs "2.5", bs "1500000000")].

Definition carbon_backend : CarbonBackend :=
  {| cb_options := {| cc_addr := V4 127 0 0 1 2003; cc_bind := Some (V4 127 0 0 1 4000) |};
     cb_metrics := carbon_items |}.

Lemma carbon_round_trip_witness :
  exists out,
    CarbonBackend_send carbon_backend
      {| net_bind := true; net_connect := true; net_sink := true |} = Some (inr out) /\
    carbon_decode out = carbon_items.
Proof.
  apply (carbon_round_trip carbon_backend); [vm_compute; reflexivity|].
  repeat constructor; apply (bool_decide_unpack _); vm_compute; reflexivity.
Defined.

(** ** Utilities *)
Definition stats_sample : Stats := fun c => if decide (c = EGRESS) then 5 else 2.
Definition own_stats : OwnStats := OwnStats_new 1000 (bs "resources.bioyino").

Lemma own_stats_report_witness :
  exists stats',
    get_stats own_stats stats_sample =
      Some (stats', map (fun cs => (bs "resources.bioyino" ++ bs "." ++ snd cs,
                                    counter_of (f32_to_u64 (u64_to_f64 (stats_sample (fst cs)))) 1))
                        reported) /\
    forall c, stats' c = 0.
Proof.
  apply (own_stats_report own_stats stats_sample (fun v => counter_of (f32_to_u64 v) 1));
    [reflexivity|]. intros v. reflexivity.
Defined.

Definition three_retries : BackoffRetryBuilder :=
  {| br_delay := 500; br_delay_mul := u64_to_f32 2; br_delay_max := 5000; br_retries := 3 |}.

Definition always_failing (n : nat) : list (InnerPoll unit Z) :=
  repeat {| ip_action := Failed 0; ip_timer := Ready () |} n.

Lemma retry_bounded_witness :
  attempts (snd (drive_spawned three_retries (always_failing 20))) <= 4 /\
  (let fails := drive_spawned (I := unit) three_retries (failing [1; 2; 3] ++
         [{| ip_action := Failed 4; ip_timer := NotReady |}]) in
   fst fails = GaveUp (Some 4) /\ attempts (snd fails) = 4 /\
   fst (drive_spawned three_retries (failing [1; 2; 3] ++
         [{| ip_action := Ready (); ip_timer := NotReady |}])) = Succeeded (E := Z) ()).
Proof.
  destruct (retry_bounded (I := unit) (E := Z) three_retries) as [H1 H2]; [discriminate|].
  split; [apply H1|]. apply H2. reflexivity.
Defined.

(** ** Listeners *)
Definition addr_1 : SocketAddr := V4 10 0 0 1 5000.
Definition addr_2 : SocketAddr := V4 10 0 0 2 5000.

(** A configuration that flushes from four bytes on. *)
Definition flushing : System :=
  let n := Network_default in {|
  verbosity := "warn";
  network := {| listen := listen n; peer_listen := peer_listen n;
                peer_client_bind := peer_client_bind n; mgmt_listen := mgmt_listen n;
                bufsize := bufsize n; multimessage := multimessage n;
                mm_packets := mm_packets n; mm_async := mm_async n; mm_timeout := mm_timeout n;
                buffer_flush_time := buffer_flush_time n; buffer_flush_length := 4;
                greens := greens n; async_sockets := async_sockets n; nodes := ["peer:8136"];
                snapshot_interval := snapshot_interval n |};
  raft := Raft_default; consul := Consul_default; metrics := Metrics_default;
  carbon := Carbon_default; n_threads := 1; w_threads := 2; task_queue_size := 1024;
  start_as_leader := true; stats_interval := 1000; stats_prefix := "bioyino";
  consensus := ConsensusKind.Internal
|}.

Definition listener : StatsdServer :=
  {| ss_chans := two_chans; ss_bufmap := ∅; ss_config := flushing; ss_bufsize := 8;
     ss_recv_counter := 0; ss_next := 0; ss_thread_idx := 0 |}.

Definition arrivals : list ServerEvent :=
  [Datagram (bs "abcdefgh") 3 addr_1; Datagram (bs "xy......") 2 addr_2; FlushTick;
   Datagram (bs "1.......") 1 addr_1; Datagram (bs "23......") 2 addr_1].

Lemma listener_reassembles_streams_witness :
  exists s' flags' es,
    serve listener [false] arrivals = Some (Some s', flags', es) /\
    Forall (routed listener) (tasks_sent es) /\
    parsed_stream (hash_addr addr_1) es ++ buffered addr_1 (ss_bufmap s') = bs "abc123".
Proof.
  apply (listener_reassembles_streams listener [false] arrivals addr_1).
  - split; [done|]. split; vm_compute; [split; [discriminate|reflexivity]|discriminate].
  - by repeat constructor.
  - reflexivity.
  - repeat constructor; vm_compute; try reflexivity; discriminate.
  - repeat constructor; vm_compute; intros H; try reflexivity; discriminate H.
Defined.

Lemma empty_datagram_stops_listener_witness :
  match serve listener [false] arrivals with
  | Some (Some _, flags', es) =>
      serve listener [false] (arrivals ++ Datagram (bs "........") 0 addr_2 :: arrivals)
      = Some (None, flags', es ++ [Plain (Count INGRESS 1)])
  | _ => False
  end.
Proof.
  assert (C : match serve listener [false] arrivals with
              | Some (Some _, _, _) => True | _ => False end) by (vm_compute; exact I).
  destruct (serve listener [false] arrivals) as [[[[s'|] flags'] es]|] eqn:H; [|exact C|exact C].
  exact (empty_datagram_stops_listener listener s' [false] flags' arrivals arrivals es
           (bs "........") addr_2 H).
Defined.

Definition second_listener : StatsdServer :=
  {| ss_chans := two_chans; ss_bufmap := {[ addr_1 := (bs "ab", 10) ]}; ss_config := flushing;
     ss_bufsize := 8; ss_recv_counter := 2; ss_next := 0; ss_thread_idx := 0 |}.

Lemma listener_buffers_bounded_witness :
  match on_datagram second_listener [false] (bs "c.......") 1 addr_2 with
  | Some (Some s', _, _) =>
      total_buffered (ss_bufmap s') = ss_recv_counter s' /\
      (ss_recv_counter s' = 0 \/ 0 < ss_recv_counter s' < 4)
  | _ => False
  end.
Proof.
  assert (C : match on_datagram second_listener [false] (bs "c.......") 1 addr_2 with
              | Some (Some _, _, _) => True | _ => False end) by (vm_compute; exact I).
  destruct (on_datagram second_listener [false] (bs "c.......") 1 addr_2)
    as [[[[s'|] flags'] es]|] eqn:H; [|exact C|exact C].
  apply (listener_buffers_bounded second_listener [false] (bs "c.......") 1 addr_2 s' flags' es);
    [vm_compute; reflexivity|discriminate|vm_compute; reflexivity|split; done|exact H].
Defined.

Definition mudp : MudpThread :=
  {| mt_config := flushing; mt_chans := two_chans; mt_idx := 0; mt_bufsize := 2; mt_packets := 2 |}.

(** Addresses of 16 bytes. *)
Definition mudp_name (c : string) : bytes := bs c ++ replicate 15 (Ascii.ascii_of_nat 0).

(** Two messages of two senders in rows of four bytes, then one more of the first. *)
Definition mudp_events : list MudpEvent :=
  [Received {| ba_res := 2; ba_buffer := bs "abc.xy.."; ba_lens := [3; 2];
               ba_names := [mudp_name "p"; mudp_name "q"] |};
   FlushRequested;
   Received {| ba_res := 1; ba_buffer := bs "d......."; ba_lens := [1; 2];
               ba_names := [mudp_name "p"] |};
   Received {| ba_res := -1; ba_buffer := bs "d......."; ba_lens := [1; 2]; ba_names := [] |}].

Lemma mudp_reassembles_streams_witness :
  exists st' flags' es,
    mudp_run mudp (MudpState_init mudp, [false]) mudp_events = Some (st', flags', es) /\
    mudp_state_ok mudp st' /\
    parsed_stream (hash_addr (slot_key (mudp_name "p"))) es ++
      buffered (slot_key (mudp_name "p")) (ms_bufmap st') = bs "abcd".
Proof.
  apply (mudp_reassembles_streams mudp (MudpState_init mudp) [false] mudp_events (mudp_name "p")).
  - split; [done|]. split_and!; vm_compute; try reflexivity; discriminate.
  - repeat constructor; vm_compute; discriminate.
  - split; [repeat constructor|]. split; [reflexivity|]. split; vm_compute; [discriminate|reflexivity].
  - reflexivity.
  - reflexivity.
  - intros n Hn. assert (Hc : n = mudp_name "p" \/ n = mudp_name "q").
    { cbn in Hn. apply elem_of_cons in Hn as [->|Hn]; [by left|].
      apply elem_of_cons in Hn as [->|Hn]; [by right|].
      apply elem_of_cons in Hn as [->|Hn]; [by left|]. by apply elem_of_nil in Hn. }
    destruct Hc as [->| ->]; [reflexivity|]. vm_compute. discriminate.
Defined.

(** ** Management and consensus *)
(** Raft roles as numbers, with 2 for the leader. *)
Lemma leader_flag_tracks_raft_witness :
  let '(role', l') := node_run 2%nat (0%nat, enabled_follower) (map RaftTo [1%nat; 2%nat; 0%nat; 2%nat]) in
  consensus_state l' = ConsensusState.Enabled /\ is_leader l' = bool_decide (role' = 2%nat).
Proof.
  apply (leader_flag_tracks_raft 2%nat 0%nat enabled_follower [1%nat; 2%nat; 0%nat; 2%nat]);
    reflexivity.
Defined.

Definition passive_events : list (NodeEvent (Role := nat)) :=
  [RaftTo 1%nat; Consensus.Command ConsensusAction.Resume LeaderAction.Unchanged; RaftTo 0%nat].

Lemma stale_leader_stays_witness :
  let '(role', l') := node_run 2%nat (0%nat, paused_leader) passive_events in
  role' <> 2%nat /\ is_leader l' = true.
Proof.
  apply (stale_leader_stays 2%nat 0%nat paused_leader passive_events);
    [discriminate|reflexivity|repeat constructor; discriminate].
Defined.

Definition raft_config : Raft :=
  {| start_delay := 0; heartbeat_timeout := 250; election_timeout_min := 500;
     election_timeout_max := 750; this_node := None;
     raft_nodes := {[ "n1:8138" := 1; "n2:8138" := 2 ]}; client_bind := None |}.

(** A host that is called [n1]. *)
#[export] Instance RefLibc : LibcLib := fun _ => (0, bs "n1" ++ [NUL]).

Definition resolve_sample (n : string) : option SocketAddr :=
  if decide (n = "n1:8138") then Some (V4 10 0 0 1 8138) else Some (V4 10 0 0 2 8138).

Lemma raft_identity_is_own_witness :
  match raft_nodes_table resolve_sample 77 raft_config with
  | Some (this, id, table) => table !! id = Some this
  | None => False
  end.
Proof.
  assert (C : match raft_nodes_table resolve_sample 77 raft_config with
              | Some _ => True | None => False end) by (vm_compute; exact I).
  destruct (raft_nodes_table resolve_sample 77 raft_config) as [[[this id] table]|] eqn:H.
  - apply (raft_identity_is_own resolve_sample 77 raft_config this id table); [|exact H].
    unfold raft_config. cbn [raft_nodes]. intros n1 n2 i.
    rewrite !lookup_insert, !lookup_singleton. repeat case_decide; subst; congruence.
  - exact C.
Defined.

(** The name of the other node does not resolve when Raft starts; then a leader switch,
    a request for the usage text, a status request and another switch come. *)
Definition resolve_own_only (n : string) : option SocketAddr :=
  if decide (n = "n1:8138") then Some (V4 10 0 0 1 8138) else None.

Definition get_request (path : string) : Request :=
  {| rq_method := GET; rq_path := bs path; rq_body := Some [] |}.

Definition after_failure : list LockEvent :=
  [LSwitch false; LRequest (get_request "/"); LRequest (get_request "/status"); LSwitch false].

Lemma raft_start_and_the_lock_witness :
  let '(started, s) := raft_thread resolve_own_only 77 raft_config (shared_init enabled_leader) in
  let '(rs, s') := lock_run s after_failure in
  started = None /\ is_leader (sh_lead s') = true /\
  Forall2 (fun ev r => looks ev = true -> r = LPanicked) (firstn 3 after_failure) rs.
Proof.
  pose proof (raft_start_and_the_lock resolve_own_only 77 raft_config enabled_leader
    after_failure) as H.
  replace (firstn 3 after_failure) with (until_request after_failure) by (vm_compute; reflexivity).
  destruct (raft_thread _ _ _ _) as [started s]. destruct (lock_run _ _) as [rs s'].
  apply (proj2 H). intros Ha. apply (raft_table_some resolve_own_only 77) in Ha as [x Hx].
  vm_compute in Hx. discriminate Hx.
Defined.

Lemma paused_ignores_consensus_witness :
  exists l' ops', rtc sys_step (paused_leader, [SwitchStart false; SwitchStart true]) (l', ops') /\
                  ops' = [] /\ l' = paused_leader.
Proof.
  assert (R : rtc sys_step (paused_leader, [SwitchStart false; SwitchStart true])
                (paused_leader, [])).
  { eapply rtc_l; [by apply (step_check_other paused_leader false [] [SwitchStart true])|].
    eapply rtc_l; [by apply (step_check_other paused_leader true [] [])|]. apply rtc_refl. }
  exists paused_leader, []. split; [exact R|]. split; [reflexivity|].
  apply (paused_ignores_consensus paused_leader paused_leader
           [SwitchStart false; SwitchStart true] []);
    [discriminate|by repeat constructor|exact R].
Defined.

(** *** Consul *)
Definition consul_cfg : ConsulConsensus :=
  set_session_ttl (ConsulConsensus_new (V4 127 0 0 1 8500) (bs "service/bioyino/lock"))
    (from_millis 11000).

Lemma consul_cfg_ok : cfg_ok consul_cfg.
Proof. split; [by cbn|]. split; [|reflexivity]. by repeat constructor. Qed.

(** An outage: a failed renewal, a lost session, a timeout and a new session. *)
Definition outage : list ConsulEvent :=
  [EvTimer true; EvRenew (AgentAnswers 500 (Some (bs "x"))); EvPauseOver;
   EvSession SessionTimeout; EvSession (SessionAnswer (AgentAnswers 200 (Some (bs "sid-2"))) true);
   EvTimer true; EvAcquire AgentHttpError].

(** The agent takes the lock away. *)
Definition lost_lock : list ConsulEvent :=
  [EvTimer true; EvAcquire (AgentAnswers 200 (Some (bs "false"))); EvRenew (AgentAnswers 200 None)].

Lemma outage_sids : sids plain_text (Holding (bs "sid-1")) outage.
Proof.
  split; [intros ? [= <-]; by repeat constructor|].
  repeat constructor; intros sid; try discriminate. intros [= <-]. by repeat constructor.
Qed.

Lemma lost_lock_sids : sids plain_text (Holding (bs "sid-1")) lost_lock.
Proof.
  split; [intros ? [= <-]; by repeat constructor|]. repeat constructor; discriminate.
Qed.

Lemma consul_respects_pause_witness :
  exists cs' reqs, consul_run consul_cfg (Holding (bs "sid-1"), paused_leader) lost_lock
    = Some (cs', paused_leader, reqs) /\
    (consensus_state paused_leader = ConsensusState.Disabled -> reqs = []).
Proof.
  apply (consul_respects_pause consul_cfg consul_cfg_ok (Holding (bs "sid-1")) paused_leader lost_lock);
    [exact lost_lock_sids|by repeat constructor|discriminate].
Defined.

Lemma consul_outage_keeps_leader_witness :
  exists cs' reqs, consul_run consul_cfg (Holding (bs "sid-1"), enabled_leader) outage
    = Some (cs', enabled_leader, reqs).
Proof.
  apply (consul_outage_keeps_leader consul_cfg consul_cfg_ok (Holding (bs "sid-1")) enabled_leader outage);
    [exact outage_sids|by repeat constructor|repeat constructor; cbn; intros H; exact H].
Defined.

Lemma consul_uses_granted_sessions_witness :
  exists cs' l' reqs, consul_run consul_cfg (Holding (bs "sid-1"), enabled_leader) outage
      = Some (cs', l', reqs) /\
    Forall (request_for consul_cfg (fun sid => plain_text sid /\
      (held (Holding (bs "sid-1")) = Some sid \/
       exists ev, ev ∈ outage /\ granted ev = Some sid))) reqs.
Proof.
  apply (consul_uses_granted_sessions consul_cfg consul_cfg_ok (Holding (bs "sid-1"))
           enabled_leader outage). exact outage_sids.
Defined.

Lemma consul_recovers_witness :
  exists sid' reqs,
    consul_run consul_cfg (ErrorPause, enabled_follower)
      (recovery ErrorPause (bs "sid-3") (bs "true"))
    = Some (Holding sid', enabled_leader, reqs) /\
    (length (recovery ErrorPause (bs "sid-3") (bs "true")) <= 5)%nat.
Proof.
  apply (consul_recovers consul_cfg consul_cfg_ok ErrorPause enabled_follower (bs "sid-3") (bs "sid-3")
           (bs "true") true); try reflexivity; [by repeat constructor|].
  split; [discriminate|constructor].
Defined.

(** ** Peers *)
Definition snapshot_sender : NativeProtocolSnapshot :=
  {| sn_nodes := [addr_1; addr_2]; sn_client_bind := None; sn_interval := from_millis 1000;
     sn_chans := two_chans |}.

(** A cache with a name that is not UTF-8, and a worker that has it to replicate. *)
Definition bad_name : list Ascii.ascii := [Ascii.ascii_of_nat 255].
Definition cache_bad : gmap (list Ascii.ascii) (@Metric RefMetricLib) :=
  <[ bad_name := counter_of 7 1 ]> cache_a.
Definition runner_bad : TaskRunner :=
  {| long := long runner_ab; short := cache_bad; buffers := buffers runner_ab;
     config := config runner_ab |}.

Definition to_addr_2 : SnapshotSender :=
  {| ss_metrics := [cache_bad]; ss_options := {| sc_address := addr_2; sc_bind := None |} |}.
Definition to_addr_1 : SnapshotSender :=
  {| ss_metrics := [cache_bad]; ss_options := {| sc_address := addr_1; sc_bind := None |} |}.

Lemma snapshot_replicated_witness :
  exists msg l r' es',
    SnapshotSender_send to_addr_2 {| pn_bind := true; pn_connect := true; pn_send := None |}
      = Some (inr msg, []) /\
    connection two_chans 0 [Root (inr msg)]
      = Some (None, [SendTask 0 (AddSnapshot l)]) /\
    run runner_ab (AddSnapshot l) = Some (r', es') /\
    long r' = foldl merge_cache cache_b [cache_a; ∅] /\ short r' = cache_a.
Proof.
  replace [cache_a; ∅] with (map readable_part (map short [runner_bad; runner]))
    by (vm_compute; reflexivity).
  apply (snapshot_replicated snapshot_sender [runner_bad; runner] [to_addr_1; to_addr_2] []
           to_addr_2 {| ch_id := 0; ch_open := true |} [{| ch_id := 1; ch_open := true |}]
           runner_ab).
  - rewrite replies_short. reflexivity.
  - right. left.
  - vm_compute. reflexivity.
  - reflexivity.
Defined.

Definition good_readers : list (Reader (CL := RefCapnpLib)) :=
  [inr (Single (inr (Some (bs "a", Some (counter_of 1 1)))));
   inr (Multi (inr [Some (bs "b", None); Some (bs "c", Some (counter_of 2 1))]))].

Definition broken_rest : list (StreamItem (CL := RefCapnpLib)) :=
  [ReadErr (CL := RefCapnpLib) (); Root (inr (Multi (inr [])))].

Lemma connection_round_robin_witness :
  exists res es,
    connection two_chans 0 (map Root good_readers ++ broken_rest)
      = Some (res, es) /\
    tasks_sent es = [(0%nat, AddMetric (bs "a") (counter_of 1 1));
                     (1%nat, AddMetrics [(bs "c", counter_of 2 1)])] /\
    plain es = [] /\
    (res = None <-> broken_rest = []).
Proof.
  apply (connection_round_robin two_chans
           [AddMetric (bs "a") (counter_of 1 1); AddMetrics [(bs "c", counter_of 2 1)]]
           good_readers broken_rest);
    [discriminate|by repeat constructor|reflexivity|reflexivity].
Defined.

(** ** The daemon *)
Lemma leader_tick_panics_witness :
  carbon_tick flushing enabled_leader addr_1 (from_secs 1) two_chans (fun _ => runner_ab)
    (map Some [∅; ∅]) = panic /\
  carbon_tick flushing enabled_leader addr_1 (from_secs 1) two_chans (fun _ => runner_ab)
    (map Some [cache_a] ++ None :: []) = panic.
Proof.
  split.
  - apply (leader_tick_panics flushing enabled_leader addr_1 (from_secs 1) two_chans
             (fun _ => runner_ab)); [reflexivity|discriminate|left; reflexivity|].
    vm_compute. reflexivity.
  - apply (leader_tick_panics flushing enabled_leader addr_1 (from_secs 1) two_chans
             (fun _ => runner_ab)); [reflexivity|discriminate].
Defined.

Lemma update_counter_never_rewrites_witness :
  counter_name {| uco_threshold := 200; uco_prefix := bs "resources.monitoring.bioyino.updates";
                  uco_suffix := [] |} (bs "x") <> bs "x".
Proof. apply (update_counter_never_rewrites Metrics_default). reflexivity. Defined.


(** A host name, and the literal address of a node. *)
Definition dns_sample (host : bytes) : option (list IpAddr) := Some [IpV4 10 0 0 9; IpV6 1].

Lemma try_resolve_addresses_witness :
  try_resolve dns_sample (bs "graphite:2003:x") = Some (V4 10 0 0 9 2003) /\
  try_resolve dns_sample (bs "10.0.0.1:5000") = Some addr_1.
Proof.
  split.
  - apply (proj2 (try_resolve_addresses dns_sample) (bs "graphite") [2; 0; 0; 3] (bs ":x")
             (IpV4 10 0 0 9) [IpV6 1]).
    + vm_compute. reflexivity.
    + apply (bool_decide_unpack _). vm_compute. reflexivity.
    + discriminate.
    + repeat constructor; discriminate.
    + vm_compute. reflexivity.
    + right. exists (bs "x"). reflexivity.
    + reflexivity.
  - apply (proj1 (try_resolve_addresses dns_sample) 10 0 0 1 5000). cbn. lia.
Defined.

Lemma leader_tick_delivers_witness :
  let values := cache_values (tick_options Metrics_default true) (merge_all [cache_a; cache_b]) in
  exists sent backends es,
    carbon_tick flushing enabled_leader addr_1 (from_secs 1500000000) two_chans
      (fun _ => runner_ab) [Some cache_a; Some cache_b] = Some (backends, es) /\
    sent ≡ₚ values /\
    concat (map delivered backends) =
      concat (map carbon_line (map (value_item (from_secs 1500000000)) sent)) /\
    1 <= blen backends <= 1 /\
    (AggregationMode.Single = AggregationMode.Single ->
     sent = values /\
     counted EGRESS es = blen (hiter (merge_all [cache_a; cache_b])) + blen values) /\
    Forall (fun b => cc_addr (cb_options b) = addr_1 /\
      forall nets net, blen nets <= 30 ->
        Forall (fun n => net_works b n = false) nets -> net_works b net = true ->
        exists tr, carbon_client Carbon_default b (nets ++ [net])
                   = Some (Succeeded (delivered b), tr)) backends.
Proof.
  apply (leader_tick_delivers flushing enabled_leader addr_1 (from_secs 1500000000) two_chans
           (fun _ => runner_ab) [cache_a; cache_b]).
  - reflexivity.
  - discriminate.
  - discriminate.
  - repeat constructor.
  - apply (bool_decide_unpack _). vm_compute. reflexivity.
  - vm_compute. discriminate.
  - vm_compute. discriminate.
  - vm_compute. reflexivity.
  - apply (bool_decide_unpack _). vm_compute. reflexivity.
Defined.

(** ** The process *)
Lemma start_succeeds_witness :
  exists d F, start (fun _ => true) dns_sample (fun _ => true) flushing ∅ = Some (d, F) /\
    sn_nodes (d_snapshot d) = [V4 10 0 0 9 8136] /\ is_leader (d_leadership d) = true /\
    receivers_ok (d_receivers d) (d_flush_flags d).
Proof.
  destruct (start_succeeds (fun _ => true) dns_sample (fun _ => true) flushing ∅) as [Hs Hd];
    [vm_compute; discriminate..|].
  destruct (proj2 Hs) as [[d F] H].
  - split_and!; [reflexivity|reflexivity| |discriminate|reflexivity|discriminate|].
    + repeat constructor. exists (V4 10 0 0 9 8136). vm_compute. reflexivity.
    + set (r := fst (start_receivers flushing _ ∅)).
      assert (C : match r with inr _ => True | inl _ => False end) by (vm_compute; exact I).
      destruct r as [e|r]; [destruct C|]. exists r. reflexivity.
  - destruct (Hd d F H) as (_ & _ & _ & _ & Hn & Hl & Hr). exists d, F.
    split; [exact H|]. split; [|split; [exact Hl|exact Hr]].
    cbn in Hn. inversion Hn as [|? y ? ? H1 H2]. subst. inversion H2. subst.
    f_equal. enough (E : Some y = Some (V4 10 0 0 9 8136)) by congruence.
    rewrite <-H1. vm_compute. reflexivity.
Defined.

(** A node at [addr_1] that follows. *)
Definition one_server : Servers := set_server addr_1 enabled_follower (fun _ => None).
Definition pause_app : Matches :=
  {| m_verbosity := None; m_query := Some ("10.0.0.1:5000", SubConsensus (Some "pause") "enable") |}.

Lemma cli_query_reaches_node_witness :
  main (fun _ => true) dns_sample (fun _ => true) System_default pause_app one_server ∅ =
  Some (Queried (QueryDone (PrintedNewState (ServerStatus_new paused_leader)))
          (set_server addr_1 paused_leader one_server)).
Proof.
  apply (cli_query_reaches_node (fun _ => true) dns_sample (fun _ => true) System_default
           System_default pause_app one_server ∅
           (MgmtCommand.ConsensusCommand ConsensusAction.Pause LeaderAction.Enable)
           "10.0.0.1:5000" 10 0 0 1 5000 enabled_follower).
  - reflexivity.
  - reflexivity.
  - cbn. lia.
  - vm_compute. reflexivity.
  - reflexivity.
Defined.

Definition tick_at (s : Z) : CarbonTickInput :=
  {| ti_timer := true; ti_now := Some (from_secs s); ti_dns := fun _ => None |}.

Lemma carbon_timer_life_witness :
  carbon_timer flushing [tick_at 1; tick_at 2;
    {| ti_timer := true; ti_now := None; ti_dns := fun _ => None |}; tick_at 3]
  = Some ([(V4 127 0 0 1 2003, from_secs 1); (V4 127 0 0 1 2003, from_secs 2)], Some GTime).
Proof.
  apply (carbon_timer_life flushing [tick_at 1; tick_at 2]
           [(V4 127 0 0 1 2003, from_secs 1); (V4 127 0 0 1 2003, from_secs 2)]);
    [|reflexivity..].
  repeat constructor; vm_compute; reflexivity.
Defined.

(** ** Sockets *)
Lemma sockets_owned_witness :
  (exists fd, bound_stream addr_1 {[ 5%nat ]} = (inr fd, {[ 5%nat ]} ∪ {[ fd ]}) /\ fd <> 5%nat) /\
  snd (reusing_listener (V6 1 8136) {[ 5%nat ]}) = {[ 5%nat ]}.
Proof.
  split.
  - assert (C : match fst (bound_stream addr_1 {[ 5%nat ]}) with inr _ => True | _ => False end)
      by (vm_compute; exact I).
    pose proof (proj1 (sockets_owned addr_1 {[ 5%nat ]})) as H.
    destruct (bound_stream addr_1 {[ 5%nat ]}) as [[e|fd] F']; [destruct C|].
    destruct H as (Hf & -> & _). exists fd. split; [reflexivity|]. intros ->. apply Hf.
    apply elem_of_singleton. reflexivity.
  - pose proof (proj2 (sockets_owned (V6 1 8136) {[ 5%nat ]})) as H.
    destruct (reusing_listener (V6 1 8136) {[ 5%nat ]}) as [[e|fd] F']; [exact H|].
    destruct H as (_ & _ & a & b & c & d & port & H). discriminate H.
Defined.

Lemma udp_descriptors_witness :
  exists fds F', sync_sockets addr_1 false 3 {[ 0%nat; 1%nat; 2%nat ]} = (inr fds, F') /\
    length fds = 3%nat /\ base.NoDup fds.
Proof.
  assert (C : match fst (sync_sockets addr_1 false 3 {[ 0%nat; 1%nat; 2%nat ]}) with
              | inr _ => True | inl _ => False end) by (vm_compute; exact I).
  destruct (sync_sockets addr_1 false 3 {[ 0%nat; 1%nat; 2%nat ]}) as [[e|fds] F'] eqn:H;
    [destruct C|].
  destruct (udp_descriptors addr_1 false 3 4 4 {[ 0%nat; 1%nat; 2%nat ]}) as (Hs & _ & _).
  destruct (Hs fds F' H) as (Hl & Hn & _). exists fds, F'.
  split; [reflexivity|]. split; [exact Hl|exact Hn].
Defined.

Lemma conn_hook_closes_socket_witness :
  5%nat ∉ snd (conn_hook (Some addr_1) 5%nat {[ 5%nat ]}) /\
  fst (conn_hook (Some addr_1) 5%nat {[ 5%nat ]}) = inr 5%nat.
Proof.
  destruct (conn_hook_closes_socket addr_1 5%nat {[ 5%nat ]}) as [H1 H2].
  split; [exact H1|]. apply H2. reflexivity.
Defined.

(** ** Types of metrics *)

(** All metrics are counters with at least one update. *)
Definition counted_metric (name : bytes) (m : @Metric RefMetricLib) : Prop :=
  rm_gauge m = false /\ 1 <= rm_updates m.

Lemma counted_metric_aggregates n a b :
  counted_metric n a -> counted_metric n b -> counted_metric n (fst (aggregate a b)).
Proof.
  intros [Ha1 Ha2] [Hb1 Hb2]. cbn. rewrite Ha1, Hb1. cbn. split; [done|]. cbn. lia.
Qed.

Lemma worker_well_typed_witness :
  exists r' es, run_all runner_ab some_tasks = Some (r', es) /\
    runner_typed counted_metric r' /\
    Forall (fun cc => cache_typed counted_metric (snd cc)) (caches_sent es).
Proof.
  apply (worker_well_typed counted_metric counted_metric_aggregates runner_ab some_tasks).
  - split; [|split]; apply map_Forall_to_list.
    + vm_compute. repeat constructor; cbn; discriminate.
    + vm_compute. repeat constructor; cbn; discriminate.
    + vm_compute. repeat constructor; cbn; discriminate.
  - vm_compute. repeat constructor; cbn; discriminate.
Defined.

(** ** A cluster of two nodes with two workers each *)
Definition two_nodes : list (nat * System) := [(2%nat, System_default); (2%nat, System_default)].

Definition busy : list ClusterEvent :=
  [Ingest 0 0 (AddMetric (bs "a") (counter_of 4 1)); Ingest 0 1 (AddMetric bad_name (counter_of 3 1));
   Ingest 1 1 (Parse 9 line_x);
   SnapshotTick 0 []; Ingest 0 1 (AddMetrics [(bs "a", counter_of 1 1); (bs "b", counter_of 2 1)]);
   SnapshotTick 1 [0%nat]; CarbonTick 0].

Lemma cluster_loses_nothing_witness :
  match cluster_run (cluster_start two_nodes) busy with
  | Some (nodes, es) => counted AGG_ERRORS es = 0 /\
      forall nd, nodes !! 0%nat = Some nd ->
        settled rm_updates nd + sumZ (pending rm_updates) nodes = sumZ (entered rm_updates) nodes
  | None => False
  end.
Proof.
  assert (C : match cluster_run (cluster_start two_nodes) busy with
              | Some (_, es) => counted AGG_ERRORS es = 0 | None => False end)
    by (vm_compute; reflexivity).
  destruct (cluster_run (cluster_start two_nodes) busy) as [[nodes es]|] eqn:H; [|exact C].
  split; [exact C|]. intros nd Hnd.
  exact (cluster_loses_nothing rm_updates two_nodes busy nodes es 0%nat nd H C Hnd).
Defined.



