(* ===== verification/NodeWitnesses.v ===== *)
(** * Witnesses for running nodes

    One started node and one cluster of two nodes on the reference instances of the
    external code, and interleavings of their steps on which the hypotheses of the
    theorems on running nodes are checked by evaluation. *)

From S2P Require Import Prelude Addr Net Interfaces Globals Config Task TaskFacts Worker Aggregate.
From S2P Require Import Carbon Util Server Udp Http Hostname Management Consensus RaftStart.
From S2P Require Import Peer Cluster Main Daemon Witnesses.
From S2P Require Import Queue Node NodeStream NodeReplies NodeLedger NodeCarbon NodeOutput NodeRest Control System.

(** ** One node *)
Abbreviation begin system := (start (fun _ => true) dns_sample (fun _ => true) system ∅).

Definition line_m : bytes := bs "abc" ++ [ascii_LF].

(** A sender's datagrams, a metric from a client, a tick of both timers, and all the
    work that follows from them up to the clients of the carbon thread. *)
Definition busy_hour : list NodeEvent :=
  [EDatagram 0 line_m 4 addr_1;
   EMessage 0 (inr (Single (inr (entry_capnp (bs "m", counter_of 4 1)))));
   EPoll 0; EDatagram 0 (bs "xy") 2 addr_1; EWork 0; EPoll 0; EWork 0; EStats; ESnapshot;
   EPoll 0; EWork 0;
   ECarbon addr_2 (from_secs 1500000000)] ++ repeat (EPoll 0) 10 ++
  repeat (EWork 0) 8 ++ [EWork 1; EJoin; EWork 1; ERead 0 1; ERead 0 0; EFormat 0; EBackend 0].

(** The run exists: the node starts, and every event can happen when it comes. *)
Ltac run_of system evs d F nd os Hd Hn :=
  let C := fresh "C" in
  assert (C : match begin system with
              | Some (d, _) => match node_run system d (node_init system d) evs with
                               | Some _ => True | None => False end
              | None => False end) by (vm_compute; exact I);
  destruct (begin system) as [[d F]|] eqn:Hd; [|exact (False_ind _ C)];
  destruct (node_run system d (node_init system d) evs) as [[nd os]|] eqn:Hn;
  [|exact (False_ind _ C)]; clear C.

(** A fact about that run, by evaluation. *)
Definition with_run {A} (system : System) (evs : list NodeEvent)
    (f : DaemonState -> NodeState -> list NodeOut -> A) : option A :=
  '(d, _) ← begin system;
  '(nd, os) ← node_run system d (node_init system d) evs;
  Some (f d nd os).

Lemma by_run {A} system evs d F nd os (f : DaemonState -> NodeState -> list NodeOut -> A) x :
  begin system = Some (d, F) -> node_run system d (node_init system d) evs = Some (nd, os) ->
  with_run system evs f = Some x -> f d nd os = x.
Proof. unfold with_run. intros -> Hn. cbn. rewrite Hn. cbn. congruence. Qed.

Lemma node_workers_sequential_witness :
  exists d F nd os wt es, begin flushing = Some (d, F) /\
    node_run flushing d (node_init flushing d) busy_hour = Some (nd, os) /\
    ns_workers nd !! 0%nat = Some wt /\
    run_all (TaskRunner_new flushing) (wt_ran wt) = Some (wt_runner wt, es) /\
    tasks_for 0%nat (node_effects os) =
      wt_ran wt ++ mpsc_items (wt_queue wt) ++ items_of 0%nat (ns_spawned nd).
Proof.
  run_of flushing busy_hour d F nd os Hd Hn.
  assert (Hw : d_workers d !! 0%nat = Some (TaskRunner_new flushing)).
  { rewrite (st_runners _ _ (start_started _ _ _ _ _ _ _ Hd)). reflexivity. }
  destruct (node_workers_sequential flushing d busy_hour nd os 0 _ Hn Hw)
    as (wt & es & H1 & H2 & _ & H3).
  exists d, F, nd, os, wt, es. split_and!; try assumption; [reflexivity|]. apply H3. reflexivity.
Defined.

(** Another listener stops at an empty datagram, and the send of a peer's metric
    overtakes that of the sender's bytes. *)
Definition mixed_polls : list NodeEvent :=
  [EDatagram 1 [] 0 addr_2; EDatagram 0 line_m 4 addr_1;
   EMessage 0 (inr (Single (inr (entry_capnp (bs "m", counter_of 4 1)))));
   EPoll 1; EPoll 0; EDatagram 0 (bs "xy") 2 addr_1; EWork 0; EWork 0].

Lemma node_keeps_stream_witness :
  exists d F nd os wt s, begin flushing = Some (d, F) /\
    node_run flushing d (node_init flushing d) mixed_polls = Some (nd, os) /\
    ns_workers nd !! 0%nat = Some wt /\ in_listeners (ns_inputs nd) !! 0%nat = Some (Some s) /\
    payloads (hash_addr addr_1) (wt_ran wt) ++ payloads (hash_addr addr_1) (mpsc_items (wt_queue wt)) ++
    payloads (hash_addr addr_1) (items_of 0%nat (ns_spawned nd)) ++ buffered addr_1 (ss_bufmap s) =
    line_m ++ bs "xy".
Proof.
  run_of flushing mixed_polls d F nd os Hd Hn.
  destruct (node_keeps_stream (fun _ => true) dns_sample (fun _ => true) flushing ∅ F d mixed_polls
              nd os addr_1 0 Hd) as (wt & s & H1 & H2 & H3);
    [reflexivity|cbn; lia|reflexivity| | | |exact Hn|].
  - pose proof (by_run _ _ _ _ _ _
      (fun d _ _ => (0 <? length (in_listeners (ns_inputs (node_init flushing d))))%nat) true Hd Hn) as H.
    apply Nat.ltb_lt, H. vm_compute. reflexivity.
  - unfold mixed_polls. repeat constructor; cbn; try done; lia.
  - apply (by_run _ _ _ _ _ _ (fun d _ _ => own_sends_in_turn flushing d (hash_addr addr_1)
             (node_init flushing d) mixed_polls) true Hd Hn). vm_compute. reflexivity.
  - exists d, F, nd, os, wt, s. split_and!; try assumption. reflexivity.
Defined.

Lemma node_settles_witness :
  exists d F nd os, begin flushing = Some (d, F) /\
    node_run flushing d (node_init flushing d) (firstn 10 busy_hour) = Some (nd, os) /\
    Acc (internal_step flushing d) nd /\
    (resting nd \/ exists ev, is_internal ev = true /\ is_Some (node_step flushing d nd ev)).
Proof.
  run_of flushing (firstn 10 busy_hour) d F nd os Hd Hn.
  exists d, F, nd, os. split_and!; [reflexivity|assumption|..];
    apply (node_settles (fun _ => true) dns_sample (fun _ => true) flushing ∅ F d
             (firstn 10 busy_hour) nd os Hd Hn).
Defined.

Lemma queue_size_bounds_nothing_witness :
  exists q got, queue_run (mpsc_channel 1) [QSend 1; QSend 2; QSend 3; QRecv; QSend 4] = (q, got, []) /\
    mpsc_buffer q = 1 /\ got ++ mpsc_items q = [1; 2; 3; 4].
Proof. exact (queue_size_bounds_nothing 1 [QSend 1; QSend 2; QSend 3; QRecv; QSend 4]). Defined.

(** For every measure that adds up: here the number of updates. *)
Lemma nodes_distinct (d : DaemonState) F :
  begin flushing = Some (d, F) -> sn_nodes (d_snapshot d) = [V4 10 0 0 9 8136].
Proof.
  intros Hd. apply (by_run _ [] _ _ _ _ (fun d _ _ => sn_nodes (d_snapshot d)) _ Hd eq_refl).
  vm_compute. reflexivity.
Qed.

Definition counts_no_error (os : list NodeOut) : bool :=
  forallb (fun e => match e with Plain (Count AGG_ERRORS _) => false | _ => true end) (node_effects os).

Lemma counts_no_error_free os : counts_no_error os = true -> error_free os.
Proof.
  unfold counts_no_error, error_free. intros H. apply list.Forall_forall. intros e He%list_elem_of_In.
  rewrite forallb_forall in H. specialize (H e He). by destruct e as [[[]| |]|].
Qed.

Lemma node_conserves_metrics_witness :
  exists d F nd os, begin flushing = Some (d, F) /\
    node_run flushing d (node_init flushing d) busy_hour = Some (nd, os) /\
    node_short rm_updates nd + node_long rm_updates nd + node_waiting rm_updates nd +
      carbon_held rm_updates (reply_view nd) =
    node_entered rm_updates flushing nd + received_weight rm_updates os /\
    node_short rm_updates nd + snapshot_held rm_updates (reply_view nd) +
      sent_weight rm_updates (V4 10 0 0 9 8136) os = node_entered rm_updates flushing nd.
Proof.
  run_of flushing busy_hour d F nd os Hd Hn. pose proof (nodes_distinct d F Hd) as Hs.
  destruct (node_conserves_metrics (ML := RefMetricLib) rm_updates (fun _ => true) dns_sample (fun _ => true) flushing ∅ F
              d busy_hour nd os Hd) as [H1 H2].
  - rewrite Hs. apply (bool_decide_unpack _). vm_compute. reflexivity.
  - exact Hn.
  - apply counts_no_error_free.
    apply (by_run _ _ _ _ _ _ (fun _ _ os => counts_no_error os) true Hd Hn). vm_compute. reflexivity.
  - exists d, F, nd, os. split_and!; try assumption; [reflexivity|]. apply H2. rewrite Hs.
    by apply list_elem_of_singleton.
Defined.

Definition short_texts (l : list (bytes * Float)) : bool :=
  forallb (fun nv => blen (ftoa_text (snd nv)) <=? 200) l.

Lemma short_texts_ok l : short_texts l = true -> Forall (fun nv => blen (ftoa_text (snd nv)) <= 200) l.
Proof.
  unfold short_texts. intros H. apply list.Forall_forall. intros e He%list_elem_of_In.
  rewrite forallb_forall in H. specialize (H e He). cbn beta in H. by apply Z.leb_le.
Qed.

Lemma carbon_threads_deliver_witness :
  exists d F nd os ct backends sent, begin flushing = Some (d, F) /\
    node_run flushing d (node_init flushing d) busy_hour = Some (nd, os) /\
    ns_carbon nd !! 0%nat = Some ct /\ ct_stage ct = Ended (Some backends) /\
    sent ≡ₚ joined_values flushing ct /\ blen (ct_joined ct) = 2 /\
    concat (map delivered backends) = concat (map carbon_line (map (value_item (ct_ts ct)) sent)).
Proof.
  run_of flushing busy_hour d F nd os Hd Hn.
  set (good := fun nd : NodeState => match ns_carbon nd !! 0%nat with
    | Some ct => match ct_stage ct with
                 | Ended _ => leads ct && (1 <=? blen (joined_values flushing ct)) &&
                     (blen (joined_values flushing ct) <? 2 ^ 63) &&
                     short_texts (joined_values flushing ct)
                 | _ => false end
    | None => false end).
  assert (G : good nd = true).
  { apply (by_run _ _ _ _ _ _ (fun _ nd _ => good nd) true Hd Hn). vm_compute. reflexivity. }
  unfold good in G. clear good. destruct (ns_carbon nd !! 0%nat) as [ct|] eqn:Hct; [|discriminate G].
  destruct (ct_stage ct) as [| |o] eqn:Hs; [discriminate G..|].
  apply andb_true_iff in G as [G G4]. apply andb_true_iff in G as [G G3].
  apply andb_true_iff in G as [G1 G2]. apply Z.leb_le in G2. apply Z.ltb_lt in G3.
  destruct (carbon_threads_deliver (fun _ => true) dns_sample (fun _ => true) flushing ∅ F d busy_hour
    nd os 0 ct o Hd) as (sent & backends & H1 & H2 & H3 & H4); try assumption.
  - discriminate.
  - vm_compute. discriminate.
  - split; [exact G2|exact G3].
  - apply short_texts_ok. exact G4.
  - exists d, F, nd, os, ct, backends, sent. subst o. split_and!; try assumption; reflexivity.
Defined.

(** ** Leadership *)

(** An operator pauses the consensus and takes leadership away, after Raft has started
    or before; then Raft elects the node, and a carbon tick comes. *)
Definition pause_request : Request :=
  {| rq_method := POST; rq_path := bs "/consensus";
     rq_body := Some (to_vec_command
       (MgmtCommand.ConsensusCommand ConsensusAction.Pause LeaderAction.Disable)) |}.

Definition pausing_early : list ControlEvent := [CRequest pause_request; CAccess 0; CAccess 0].
Definition pausing : list ControlEvent := CRaft resolve_sample 7 :: pausing_early.
Definition elected : list ControlEvent :=
  [CSwitch true; CNode (ECarbon addr_2 (from_secs 1500000000)); CAccess 0; CNode (EPoll 0);
   CNode (EPoll 0); CNode (EWork 1); CNode (EWork 0); CNode (ERead 0 0); CNode (ERead 0 1);
   CNode (EFormat 0)].

Lemma commands_rule_paused_nodes_witness :
  exists d F s os s' os' t ot t', begin flushing = Some (d, F) /\
    control_run flushing d (control_init flushing d) pausing = Some (s, os) /\
    control_run flushing d s elected = Some (s', os') /\
    (co_lead s' = co_lead s /\
     forall k ct, ns_carbon (co_node s') !! k = Some ct -> (length (ns_carbon (co_node s)) <= k)%nat ->
       leads ct = is_leader (co_lead s) /\
       (is_leader (co_lead s) = false -> forall o, ct_stage ct = Ended o -> o = Some [])) /\
    control_run flushing d (control_init flushing d) pausing_early = Some (t, ot) /\
    (control_step flushing d t (CRaft resolve_sample 7) = Some (t', []) /\
     co_lead t' = {| consensus_state := ConsensusState.Enabled; is_leader := is_leader (co_lead t) |}).
Proof.
  assert (C : match begin flushing with
    | Some (d, _) => match control_run flushing d (control_init flushing d) pausing,
                           control_run flushing d (control_init flushing d) pausing_early with
      | Some (s, _), Some (t, _) =>
          (consensus_state (co_lead s) = ConsensusState.Paused /\ co_ops s = [] /\
           match co_raft s with RaftDelayed => False | _ => True end /\
           match control_run flushing d s elected with Some _ => True | None => False end) /\
          (consensus_state (co_lead t) = ConsensusState.Paused /\ co_ops t = [] /\
           co_raft t = RaftDelayed)
      | _, _ => False end
    | None => False end) by (vm_compute; split_and!; reflexivity || exact I).
  destruct (begin flushing) as [[d F]|] eqn:Hd; [|exact (False_ind _ C)].
  destruct (control_run flushing d (control_init flushing d) pausing) as [[s os]|] eqn:Hs;
    [|exact (False_ind _ C)].
  destruct (control_run flushing d (control_init flushing d) pausing_early) as [[t ot]|] eqn:Ht;
    [|exact (False_ind _ C)].
  destruct C as ((C1 & C2 & C3 & C4) & T1 & T2 & T3).
  destruct (control_run flushing d s elected) as [[s' os']|] eqn:Hs'; [|exact (False_ind _ C4)].
  destruct (commands_rule_paused_nodes flushing d pausing s os Hs) as [A _];
    [rewrite C1; discriminate|rewrite C2; constructor|].
  destruct (commands_rule_paused_nodes flushing d pausing_early t ot Ht) as [_ B];
    [rewrite T1; discriminate|rewrite T2; constructor|].
  destruct (B T3 resolve_sample 7) as (t' & B1 & B2).
  exists d, F, s, os, s', os', t, ot, t'.
  split; [reflexivity|]. split; [exact Hs|]. split; [exact Hs'|].
  split; [|split; [exact Ht|split; [exact B1|exact B2]]].
  apply (A elected s' os'); [by repeat constructor| |exact Hs'].
  intros Hr. rewrite Hr in C3. exact (False_ind _ C3).
Defined.

(** ** A cluster of two nodes *)

(** The configuration of a node, and of its peer. *)
Definition with_nodes (peers : list string) : System :=
  let s := flushing in let n := network s in {|
  verbosity := verbosity s;
  network := {| listen := listen n; peer_listen := peer_listen n;
                peer_client_bind := peer_client_bind n; mgmt_listen := mgmt_listen n;
                bufsize := bufsize n; multimessage := multimessage n;
                mm_packets := mm_packets n; mm_async := mm_async n; mm_timeout := mm_timeout n;
                buffer_flush_time := buffer_flush_time n; buffer_flush_length := buffer_flush_length n;
                greens := greens n; async_sockets := async_sockets n; nodes := peers;
                snapshot_interval := snapshot_interval n |};
  raft := raft s; consul := consul s; metrics := metrics s; carbon := carbon s;
  n_threads := n_threads s; w_threads := w_threads s; task_queue_size := task_queue_size s;
  start_as_leader := start_as_leader s; stats_interval := stats_interval s;
  stats_prefix := stats_prefix s; consensus := consensus s
|}.

Definition left_system : System := with_nodes ["10.0.0.2:8136"].
Definition right_system : System := with_nodes ["10.0.0.1:8136"].
Definition left_addr : SocketAddr := V4 10 0 0 1 8136.
Definition right_addr : SocketAddr := V4 10 0 0 2 8136.

Definition pair_of (dl dr : DaemonState) : list Setup :=
  [mkSetup left_addr left_system dl; mkSetup right_addr right_system dr].

(** The left node gets a metric, and a datagram with one whose name is not UTF-8, and
    shares both: an attempt fails to connect, the next one arrives
    but is reported as failed, and the third arrives again.  Then the right node
    sends to carbon. *)
Definition shared_twice : list SysEvent :=
  [SNode 0 (EMessage 0 (inr (Single (inr (entry_capnp (bs "m", counter_of 4 1))))));
   SNode 0 (EPoll 0); SNode 0 (EWork 0);
   SNode 0 (EDatagram 0 (bad_name ++ [ascii_LF] ++ bad_name ++ [ascii_LF]) 4 addr_1);
   SNode 0 (EPoll 0); SNode 0 (EWork 0); SNode 0 ESnapshot; SNode 0 (EPoll 0); SNode 0 (EPoll 0);
   SNode 0 (EWork 1); SNode 1 ESnapshot; SNode 0 (EWork 0); SNode 0 EJoin;
   SAttempt 0 (mkPeerNet true false None) false; SPauseEnds 0;
   SAttempt 0 (mkPeerNet true true (Some tt)) true; SPauseEnds 0;
   SAttempt 0 (mkPeerNet true true None) true;
   SNode 1 (ECarbon addr_2 (from_secs 1500000000))] ++ repeat (SNode 1 (EPoll 0)) 6 ++
  repeat (SNode 1 (EWork 0)) 4 ++ repeat (SNode 1 (EWork 1)) 2 ++
  [SNode 1 (ERead 0 1); SNode 1 (ERead 0 0); SNode 1 (EFormat 0); SNode 1 (EBackend 0)].

(** Both nodes start, and their run exists. *)
Ltac cluster_of evs dl dr s Hl Hr Hs :=
  let C := fresh "C" in
  assert (C : match begin left_system, begin right_system with
              | Some (dl, _), Some (dr, _) =>
                  match sys_run (sys_init (pair_of dl dr)) evs with
                  | Some _ => True | None => False end
              | _, _ => False end) by (vm_compute; exact I);
  destruct (begin left_system) as [[dl ?]|] eqn:Hl; [|exact (False_ind _ C)];
  destruct (begin right_system) as [[dr ?]|] eqn:Hr; [|exact (False_ind _ C)];
  destruct (sys_run (sys_init (pair_of dl dr)) evs) as [s|] eqn:Hs;
  [|exact (False_ind _ C)]; clear C.

Definition with_cluster {A} (f : Sys -> A) : option A :=
  '(dl, _) ← begin left_system;
  '(dr, _) ← begin right_system;
  s ← sys_run (sys_init (pair_of dl dr)) shared_twice;
  Some (f s).

Lemma by_cluster {A} dl Fl dr Fr s (f : Sys -> A) x :
  begin left_system = Some (dl, Fl) -> begin right_system = Some (dr, Fr) ->
  sys_run (sys_init (pair_of dl dr)) shared_twice = Some s -> with_cluster f = Some x -> f s = x.
Proof. unfold with_cluster. intros -> ->. cbn [mbind option_bind]. intros ->. cbn. congruence. Qed.

Lemma pair_mesh dl Fl dr Fr :
  begin left_system = Some (dl, Fl) -> begin right_system = Some (dr, Fr) ->
  full_mesh (pair_of dl dr).
Proof.
  intros Hl Hr.
  assert (Nl : sn_nodes (d_snapshot dl) = [right_addr]).
  { apply (by_run _ [] _ _ _ _ (fun d _ _ => sn_nodes (d_snapshot d)) _ Hl eq_refl).
    vm_compute. reflexivity. }
  assert (Nr : sn_nodes (d_snapshot dr) = [left_addr]).
  { apply (by_run _ [] _ _ _ _ (fun d _ _ => sn_nodes (d_snapshot d)) _ Hr eq_refl).
    vm_compute. reflexivity. }
  split; [apply (bool_decide_unpack _); reflexivity|]. unfold setup_peers. split.
  - intros [|[|i]] x; cbn; intros [= <-]; cbn [sp_daemon]; rewrite ?Nl, ?Nr; apply NoDup_singleton.
  - intros [|[|i]] [|[|j]] x y; cbn; intros [= <-] [= <-]; cbn [sp_daemon sp_addr];
      rewrite ?Nl, ?Nr, list_elem_of_singleton; (split; [|done]); discriminate || auto.
Qed.

Lemma cluster_delivers_witness :
  exists dl Fl dr Fr s m, begin left_system = Some (dl, Fl) /\ begin right_system = Some (dr, Fr) /\
    sys_run (sys_init (pair_of dl dr)) shared_twice = Some s /\ sy_members s !! 1%nat = Some m /\
    let threads := ns_carbon (mb_state m) in
    sumZ (handed_out rm_updates) threads + sumZ (thrown_away rm_updates) threads +
      sumZ (panicked rm_updates) threads + sumZ (under_way rm_updates) threads +
      stored rm_updates m + sumZ (unshared rm_updates) (delete 1%nat (sy_members s)) +
      in_flight rm_updates (mb_addr m) s + lost_weight rm_updates (mb_addr m) s +
      skipped_weight rm_updates (mb_addr m) s =
    sumZ (member_entered rm_updates) (sy_members s) + again_weight rm_updates (mb_addr m) s.
Proof.
  cluster_of shared_twice dl dr s Hl Hr Hs.
  assert (M : exists m, sy_members s !! 1%nat = Some m /\ mb_system m = right_system).
  { destruct (sys_run_setups _ _ _ Hs) as [Hset _].
    rewrite (proj1 (sys_init_members (pair_of dl dr))) in Hset.
    destruct (setup_member _ _ 1 _ Hset eq_refl) as (m & Hm & Hx). exists m. split; [exact Hm|].
    injection Hx as _ Hx _. exact Hx. }
  destruct M as (m & Hm & Hsys). exists dl, g, dr, g0, s, m.
  split_and!; try assumption; try reflexivity.
  apply (cluster_delivers (ML := RefMetricLib) rm_updates (pair_of dl dr) shared_twice s 1 m).
  - repeat constructor; unfold started_setup; cbn [sp_system sp_daemon]; repeat eexists;
      [exact Hl|exact Hr].
  - exact (pair_mesh _ _ _ _ Hl Hr).
  - exact Hs.
  - assert (E : forallb (fun m => counts_no_error (mb_outs m)) (sy_members s) = true).
    { apply (by_cluster _ _ _ _ _ (fun s => forallb (fun m => counts_no_error (mb_outs m)) (sy_members s))
               true Hl Hr Hs). vm_compute. reflexivity. }
    apply list.Forall_forall. intros x Hx%list_elem_of_In. rewrite forallb_forall in E.
    apply counts_no_error_free, E, Hx.
  - exact Hm.
  - rewrite Hsys. discriminate.
  - rewrite Hsys. vm_compute. discriminate.
Defined.

(** On this run the right node's clients carry the metric twice, and the one with the
    bad name, which arrives twice as well, is skipped both times. *)
Example shared_twice_output :
  with_cluster (fun s => (map (fun m => sumZ (handed_out (ML := RefMetricLib) rm_updates)
                                          (ns_carbon (mb_state m))) (sy_members s),
                          sumZ (member_entered (ML := RefMetricLib) rm_updates) (sy_members s),
                          again_weight (ML := RefMetricLib) rm_updates right_addr s,
                          skipped_weight (ML := RefMetricLib) rm_updates right_addr s))
  = Some ([0; 2], 2, 2, 2).
Proof. vm_compute. reflexivity. Qed.

Lemma clients_end_witness :
  exists dl Fl dr Fr s, begin left_system = Some (dl, Fl) /\ begin right_system = Some (dr, Fr) /\
    sys_run (sys_init (pair_of dl dr)) (firstn 14 shared_twice) = Some s /\
    (forall evs' s', Forall (fun ev => client_event ev = true) evs' -> sys_run s evs' = Some s' ->
     Z.of_nat (length evs') <= 7 * blen (sy_clients s)) /\
    (sy_clients s <> [] -> exists ev s', client_event ev = true /\ sys_step s ev = Some s').
Proof.
  cluster_of (firstn 14 shared_twice) dl dr s Hl Hr Hs. exists dl, g, dr, g0, s.
  split_and!; try assumption; try reflexivity;
    apply (clients_end (pair_of dl dr) (firstn 14 shared_twice) s Hs).
Defined.
